(* ===== verification/_CoqProject ===== *)
-Q . S2P
Prelude.v
GoStd.v
Sorter.v
GoOs.v
Types.v
GoFloat.v
Store.v
LvlDB.v
Concrete.v
Provider.v
Relay.v
RelaySystem.v
RelayCorrect.v
RelayTermination.v
RelayFrame.v
Provenance.v
Custody.v
Feed.v
Network.v
Marks.v
Lives.v
Supervisor.v
RelayWitness.v
Socket.v
SocketCorrect.v
SocketWitness.v
Mock.v
EvmNonce.v
Evm.v
EvmCorrect.v
EvmWitness.v
EvmListener.v
EvmListenerWitness.v
EvmClient.v
EvmClientWitness.v
EvmAbi.v
EvmConnection.v
EvmXcall.v
EvmBindings.v
EvmBindingsWitness.v
Pipeline.v
IconTypes.v
IconOptions.v
Icon.v
IconCorrect.v
IconWitness.v
IconMonitor.v
IconMonitorWitness.v
Genuine.v
IconPipeline.v
PipelineWitness.v
IconClient.v
IconClientWitness.v
WasmTypes.v
Wasm.v
WasmCorrect.v
WasmWitness.v
WasmCodec.v
WasmClient.v
WasmListener.v
WasmListenerWitness.v
WasmScan.v
WasmPolling.v
WasmScanWitness.v
Delivery.v
DeliveryWitness.v
IconDelivery.v
WasmDelivery.v
ChainDeliveryWitness.v
Chains.v
ChainsWitness.v
Cmd.v
CmdKeystore.v
CmdDb.v
CmdCorrect.v
CmdWitness.v
CmdSocket.v
CmdSocketWitness.v
CmdTree.v
CmdMain.v
