(* ===== verification/Prelude.v ===== *)
(** Centralized relay: a verification library.

    * The program

    The relayer (src/relayer/) carries messages between blockchains.  Each
    configured chain has a provider (src/relayer/chains/) that listens to the
    chain's contracts, sends transactions to it, and answers queries.  A
    listener hands blocks of messages to the relayer, which keeps every message
    in a cache of its source chain and in a database; a router starts one
    goroutine per message that is due; the goroutine calls the destination
    provider's [Route], whose callback reports the transaction; a success
    removes the message, a failure has it tried again with an exponential
    backoff, up to fifteen times.  Other timers flush stored messages back into
    the caches, save the heights reached, check that delivered transactions are
    still there once final, and expire old rows.  An operator can list, relay,
    remove and revert messages over a local socket (src/relayer/socket/).

    * The files, and the code they model

    Prelude.v      outcomes of Go code ([res]: a value, an error, a panic), code
                   over a shared state ([proc], with its rules [wp], [wlp],
                   [keeps]), shared lemmas.
    GoStd.v        what the code uses of Go's standard library: fixed-width
                   integers, strings, hexadecimal, number formatting and
                   parsing, big integers' conversions, with their round trips.
    Sorter.v       utils/sorter.
    Sorter.v       utils/sorter.
    Sorter.v       utils/sorter.
    Sorter.v       utils/sorter.
    Sorter.v       utils/sorter.
    Sorter.v       utils/sorter.
    Sorter.v       utils/sorter.
    GoOs.v         what it uses of the operating system: a file system as a map,
                   paths, reading and writing files.
    Types.v, GoFloat.v
                   relayer/types, relayer/events: messages, route messages,
                   keys, the message cache, retry and backoff; coins and their
                   printing through a float64.
    Store.v        relayer/store: the [Store] interface as a class with laws
                   ([StoreSpec]), JSON as a class ([Codec], [CodecSpec]), keys,
                   pagination, the message, block and finality stores.
    LvlDB.v        relayer/lvldb: the LevelDB implementation of the interface,
                   against the library's own laws ([LevelDBSpec]), and a
                   database that records its writes ([Journal]); opening,
                   closing and removing the database.
    Provider.v     relayer/provider: the provider interface as a record of
                   answers, the common configuration, and the laws of [Route]
                   ([RouteLaws]): each call of the callback is about the routed
                   message, and only the last one reports a success, exactly
                   when [Route] returns no error.
    Relay.v        relayer/relay.go, chain.go, chain_runtime.go: the relayer's
                   state ([Relayer]: database, chains, heap of route messages,
                   routing goroutines) and every operation on it.
    RelaySystem.v  the interleavings: actions are listener sends, block
                   processing, router ticks, one step of a routing goroutine,
                   flushes, saves, finality and expiry runs, socket requests;
                   [reachable] and its invariant [Inv].  Also the finer steps
                   in which a failed attempt is handled in two ([fine_step]).
    RelayCorrect.v what each operation does, on every branch.
    RelayTermination.v
                   the tries left of a state, and how attempts use them up.
    RelayFrame.v   the interface of a property that operations keep ([Frame]):
                   a client gives the primitive changes that keep it and gets
                   every operation of the relayer.
    Custody.v      which actions release a message, and that nothing else takes
                   its row from the store.
    Provenance.v   where every message of a state comes from.
    Supervisor.v   the groups of goroutines that [Start] leaves behind, and the
                   channel of errors that the command reads.
    Feed.v         a listener beside the relayer it sends to ([Feeder]): nothing
                   sent is dropped.
    Network.v      any number of chains around one relayer: each is a feeder and
                   a [Destination], which says what routing to it may execute.
    Marks.v        which messages are marked as being processed, through every
                   operation, and the way from an idle message to its delivery.
    Lives.v        the network across restarts and crashes of the relayer's
                   process.
    Socket.v, SocketCorrect.v   relayer/socket: server, client, and a request
                   from end to end.
    Mock.v         relayer/chains/mockchain.
    EvmNonce.v     relayer/chains/evm/types: the nonce tracker, with the big
                   integers it aliases.
    Evm.v, EvmCorrect.v
                   relayer/chains/evm: configuration, events, sending, waiting,
                   administration, queries, keystores.
    EvmListener.v  evm/listener.go as a state machine of the listener's loop and
                   its subscription, beside a chain that grows.
    EvmClient.v    evm/client.go over two connections, and [transferBalance].
    EvmAbi.v       what the generated bindings share: ABIs, bound contracts,
                   iterators over past logs, watchers of new ones.
    EvmConnection.v, EvmXcall.v
                   evm/abi: the bindings of the two contracts.
    EvmBindings.v  the client over the bindings.
    Pipeline.v     the EVM listener as a feeder of the relayer, without hazards
                   ([evm_feeder]) and with any of them ([evm_watcher]).
    IconTypes.v, IconOptions.v, Icon.v, IconCorrect.v
                   relayer/chains/icon, utils/hexstr.
    IconMonitor.v  icon/client.go's websocket monitors and icon/listener.go, the
                   loop that keeps one open.
    Genuine.v      the EVM and ICON listeners send nothing but the chain's own
                   messages.
    IconPipeline.v the ICON listener as a feeder of the relayer.
    IconClient.v   icon/client.go's JSON-RPC methods; the parameters of these and
                   of the contracts' methods.
    WasmTypes.v, Wasm.v, WasmCorrect.v
                   relayer/chains/wasm: the same parts as for EVM.
    WasmCodec.v    wasm/codec.go, and the keystore operations under the process-wide
                   prefixes that it sets.
    WasmClient.v   wasm/client.go over the context of the Cosmos SDK.
    WasmListener.v the listener of wasm/provider.go and its subscriptions as a
                   state machine, and its block stream as another.
    WasmScan.v     what a scan hands on, that listener as a feeder of the
                   relayer, and, beside the transactions of its chain, that what
                   it sends was emitted ([announces], [wasm_watcher]).
    WasmPolling.v  which heights a listener that only polls passes over.
    Delivery.v     the relayer over the providers: [RouteLaws] for EVM, ICON and
                   the mock chain, and the routing goroutine on any provider
                   that keeps the laws.
    IconDelivery.v, WasmDelivery.v
                   the same down to the nodes of ICON and CosmWasm.
    Chains.v       EVM, ICON and CosmWasm chains as the chains of Network.v.
    Cmd.v          cmd/: the application's state, loading and saving the
                   configuration, the chain registry and its commands.
    CmdKeystore.v, CmdDb.v
                   the keystore, start, database and contract commands, and
                   what they print; relayer/kms.
    CmdSocket.v    the file of the socket, which the relayer and the commands
                   share: who serves it, and what is left of it.
    CmdTree.v      the commands and their flags, over cobra and pflag.
    CmdMain.v      cmd/root.go: the order in which a command runs, what becomes
                   of its error, and interrupts.
    CmdCorrect.v   what loading, saving, adding and deleting come to.
    Concrete.v     an in-memory LevelDB and an encoding of countable types.
    *Witness.v     the theorems applied to concrete runs.

    * How code is modelled

    A handler is a function of the state, with its early returns in the code's
    order; an error is a value, a panic is [None] or [Panic] and ends the
    process (nothing in the program recovers).  A pointer whose identity the
    code relies on is an address: route messages live in the relayer's heap,
    because caches and goroutines share them, and a serial number carries the
    address of its big integer ([BigInt]), because Go compares cache keys by
    it.  Clocks are arguments.  Third-party code (goleveldb, JSON,
    go-ethereum, goloop, the Cosmos SDK, KMS) is a parameter: a class with the
    laws its clients rely on, or a record of the answers it gives during one
    operation.  Iteration over a Go map is over a list of keys given as an
    argument, in any order.

    * What the theorems show

    - the whole: EVM, ICON and CosmWasm chains around one relayer, in any
      interleaving, and with any number of lives of its process, which is ended
      between two actions or dies after any write of one.  The nodes of the
      chains are honest, and may fail at any time.  No message that a listener
      has come past vanishes, where on EVM it has met none of the hazards below
      since it started ([no_message_vanishes]), and nothing is executed that has
      no origin ([nothing_forged]).  A cached message is marked as being
      processed exactly while a goroutine routes it ([mark_has_goroutine]) when a
      failed attempt is handled in one step; when the router comes between its
      two halves the mark can outlive the process ([failed_row_marked]).  An
      idle message can be
      delivered from every state, whatever happened before
      ([idle_can_deliver]); what is in the message store when a life begins can
      be delivered by it ([restart_can_deliver]).  A process that dies between
      recording a transaction and deleting the row of its message routes the
      message again in its next life ([routed_again] of ChainsWitness.v);
    - the relayer as a system: a message pointer is never routed by two
      goroutines at once ([one_route_in_flight]), caches are coherent
      ([cache_coherent]), retries are bounded ([retry_bounded]) and routing
      comes to an end ([routing_ends]), stored rows stay readable
      ([stored_rows_routable]), and a message that was taken stays in the store
      until an action releases it ([taken_message_kept]); and yet the same
      message can be routed twice, through two pointers ([flush_routes_twice]);
      and a chain whose listener failed is given up without a word
      ([dead_listener_unnoticed]);
    - its operations: success, failure, routing, block processing, restart,
      flush, finality, expiry ([callback_success] to [cleanExpired_deletes]);
    - delivery from end to end: the routing goroutine over any lawful provider
      ([RouteMessage_outcome]), and over the EVM, ICON and CosmWasm providers
      down to what their nodes are handed and answer ([evm_delivers],
      [icon_delivers], [wasm_delivers]);
    - the listeners.  EVM: at most one subscription ([single_subscription]), and
      with the relayer behind it no message is lost across any number of
      failures ([no_message_lost]), unless one of five hazards strikes, each of
      which loses a log ([hazard_loses_log]).  ICON: no event is lost, however
      often the websocket breaks ([icon_no_event_lost]), and with the relayer
      behind it no message ([icon_no_message_lost]).  CosmWasm: never
      asleep ([wasm_listener_awake]), but deaf once a connection has broken
      ([deaf_only_polls]), when it misses what was emitted between its last scan
      and the height saved ([polling_skips]), and with duplicates
      ([subscriptions_pile_up]); a message of a subscription is not generated
      again if its delivery fails later ([live_message_not_regenerated]); what
      a scan finds is not lost ([scan_kept]), but a range is handed on all or
      not at all ([range_all_or_nothing]);
    - the clients: a wait over JSON-RPC is the wait the ICON provider assumes
      ([WaitForResults_refines]); a CosmWasm client that reconnected reports
      every delivery as a failure ([reconnected_route_fails]); an EVM client
      scans with one node what it measured with another
      ([scan_needs_synced_nodes]);
    - the EVM bindings: their calls fit the ABIs ([bindings_typed]), the gas
      estimated is that of the call sent, but for SetAdmin
      ([estimate_is_sent]), their events become the messages they stand for
      ([events_become_messages]), iterators end ([iterator_gives_logs]) and
      watchers lose nothing ([watcher_forwards]);
    - the stores: round trips, a reference for listing, refinement of the
      interface by LevelDB (the [StoreSpec] instance of LvlDB.v);
    - the socket: what a request does and what the client is told;
    - EVM, ICON and CosmWasm: what is scanned (each height once), what is read
      from events (round trips with what contracts emit), what is sent (at
      most one transaction per routing), what the relayer is told (the
      callback and the returned error agree), nonces and sequence numbers,
      number formats, keystores, which CosmWasm may file under a wrong address
      ([NewKeystore_misfiled]);
    - the command line: it is built, and no two flags of a command clash
      ([NewRootCmd_usable]); a command that fails, or of the fees, leaves a
      socket file that blocks everything ([left_socket_blocks]); one that
      succeeds does not ([command_returns_socket]); a configuration survives being loaded and saved
      ([load_save_load]) and is typed by the tags of its entries
      ([loadConfigFile_typed]); a change drops the disabled chains
      ([chainsDelete_file]); the file's lock excludes nobody ([delete_lost]).
    Where the code departs from its intent the theorem says what it does; the
    doc comment names the departure.

    * Steps

    An action of RelaySystem.v runs without interruption.  For the router this
    loses nothing: a pass is a sequence of looks at one message each, which are
    actions too ([router_pass_looks]).  The handling of a failed attempt is
    taken apart in [fine_step].  The other actions do their writes one after
    the other, and a life of the process can end after any of them (Lives.v).

    * Idealised

    [CodecSpec] has every value survive being written as JSON and read back:
    this holds of strings that are valid UTF-8, as what the chains and the
    configuration give is taken to be, and of times that have a JSON form.

    * Fuel and bounds

    The loops of the code are over lists, except: the EVM batches ([blockReqs])
    and the CosmWasm ranges ([getHeightStream]) take a fuel, for which
    [latest - start + 1] is enough ([blockReqs_cover], [sync_overshoots]), and
    which [on_height] and [on_subscribe] give them; [getLogsRetry] and the
    polls for results run their code's own bounds, and the fuel of the ICON
    client's wait is one more than its bound on tries
    ([WaitForResults_refines]).  The digit loops of GoStd.v use the binary
    logarithm of their number.  Listeners and the relayer do not end: they are
    step functions, run over any list of events.  Heights and retry counts are
    in [uint64] and [uint8], durations and steps in [int64], with their
    wrap-around.

    * What is not modelled

    Network transport below the reads of a connection (websocket framing, HTTP,
    gRPC, the Unix socket's framing), logging except where a log line can
    panic, cryptography, the KMS and the registries of the Cosmos SDK behind
    their interfaces, how cobra reads a command line and prints its help, torn
    reads of a cache that is iterated without its lock.  A process that dies
    leaves what its last write left: writes that the operating system loses are
    not modelled; nor is a crash inside [Route], which is one step of the
    network.

    * Plan

    Modelled first: the relayer and its stores, then the socket, the providers,
    the command line, the listeners, the clients and bindings, and their
    compositions up to the network of chains and its restarts.  To come: the
    output of the commands that print JSON or YAML. *)
From stdpp Require Import gmap strings list pretty.
From Stdlib Require Import ZArith Lia.

(** * Outcomes of Go code *)

(** A Go [error] value: [None] is [nil], [Some m] an error with message [m]. *)
Abbreviation error := (option string).

(** Result of a Go function returning [(A, error)] whose value is not used
    when the error is not nil.  [Panic] is a run-time panic, which no code of
    the relay recovers: the process dies. *)
Inductive res (A : Type) : Type :=
| Ok (a : A)
| Err (e : string)
| Panic.
Arguments Ok {_} _.
Arguments Err {_} _.
Arguments Panic {_}.

#[export] Instance res_ret : MRet res := @Ok.
#[export] Instance res_bind : MBind res := λ A B f m,
  match m with Ok a => f a | Err e => Err e | Panic => Panic end.
#[export] Instance res_fmap : FMap res := λ A B f m,
  match m with Ok a => Ok (f a) | Err e => Err e | Panic => Panic end.

(** [fmt.Errorf("<prefix>%v", err)]: the same outcome with the error message
    prefixed. *)
Definition wrapErr {A} (p : string) (r : res A) : res A :=
  match r with Err e => Err (p +:+ e) | _ => r end.
(** [fmt.Errorf("<prefix>%v<suffix>", err)] *)
Definition wrapErr2 {A} (p q : string) (r : res A) : res A :=
  match r with Err e => Err (p +:+ e +:+ q) | _ => r end.

(** The value of a pointer that the code dereferences: [nil] panics. *)
Definition deref {A} (o : option A) : res A :=
  match o with Some a => Ok a | None => Panic end.

(** [xs[i]] on a slice: out of range panics. *)
Definition index {A} (l : list A) (i : nat) : res A := deref (l !! i).

Definition is_ok {A} (r : res A) : bool := match r with Ok _ => true | _ => false end.
Definition err_of {A} (r : res A) : error := match r with Err e => Some e | _ => None end.

Lemma res_bind_Ok {A B} (m : res A) (f : A → res B) b :
  m ≫= f = Ok b ↔ ∃ a, m = Ok a ∧ f a = Ok b.
Proof. unfold mbind, res_bind. destruct m; split; [eauto|by intros (? & [= ->] & ?)|done|by intros (? & ? & ?)|done|by intros (? & ? & ?)]. Qed.

Lemma res_bind_Panic {A B} (m : res A) (f : A → res B) :
  m ≫= f = Panic ↔ m = Panic ∨ ∃ a, m = Ok a ∧ f a = Panic.
Proof.
  unfold mbind, res_bind. destruct m; split; intros; destruct_or?; destruct_and?; eauto; try done.
  by match goal with H : ∃ _, _ |- _ => destruct H as (? & [= ->] & ?) end.
  by match goal with H : ∃ _, _ |- _ => destruct H as (? & ? & ?) end.
Qed.

(** [for _, x := range xs { y, err := f(x); if err != nil { return err } ... }] *)
Fixpoint res_mapM {A B} (f : A → res B) (l : list A) : res (list B) :=
  match l with
  | [] => Ok []
  | x :: l => y ← f x; ys ← res_mapM f l; Ok (y :: ys)
  end.

Lemma res_mapM_Ok {A B} (f : A → res B) l k :
  res_mapM f l = Ok k ↔ Forall2 (λ x y, f x = Ok y) l k.
Proof.
  revert k; induction l as [|x l IH]; intros k; cbn.
  - split; [intros [= <-]; constructor | by inversion 1].
  - rewrite res_bind_Ok. setoid_rewrite res_bind_Ok. split.
    + intros (y & ? & ys & ?%IH & [= <-]). by constructor.
    + inversion 1; subst. eexists; split; [done|]. eexists; split; [by apply IH|done].
Qed.

(** * Stateful code *)

(** A piece of Go code over a shared state: the new state and the returned
    value, or [None] for a panic.  Errors are ordinary returned values. *)
Definition proc (S A : Type) : Type := S → option (S * A).

#[export] Instance proc_ret {S} : MRet (proc S) := λ A a s, Some (s, a).
#[export] Instance proc_bind {S} : MBind (proc S) := λ A B f m s,
  match m s with Some (s', a) => f a s' | None => None end.

Definition gets {S A} (f : S → A) : proc S A := λ s, Some (s, f s).
Definition modify {S} (f : S → S) : proc S unit := λ s, Some (f s, tt).
Definition panic {S A} : proc S A := λ _, None.
Definition liftRes {S A} (r : res A) : proc S (A + string) := λ s,
  match r with Ok a => Some (s, inl a) | Err e => Some (s, inr e) | Panic => None end.

(** [for _, x := range xs { body(x) }] *)
Fixpoint for_each {S A} (l : list A) (body : A → proc S unit) : proc S unit :=
  match l with
  | [] => mret tt
  | x :: l => _ ← body x; for_each l body
  end.

(** [y, err := m; if err != nil { return nil, err }; ...] *)
Definition tryE {S A B} (m : proc S (A + string)) (f : A → proc S (B + string)) :
    proc S (B + string) :=
  r ← m; match r with inl a => f a | inr e => mret (inr e) end.
(** [return a, nil] *)
Definition okE {S A} (a : A) : proc S (A + string) := mret (inl a).
(** [if err := m; err != nil { return nil, err }; ...] *)
Definition checkE {S B} (m : proc S error) (f : proc S (B + string)) : proc S (B + string) :=
  e ← m; match e with Some e => mret (inr e) | None => f end.
Notation "x ←? m ; k" := (tryE m (λ x, k)) (at level 20, m at level 100, k at level 200, right associativity) : stdpp_scope.

(** * Reasoning about stateful code *)

Section WP.
Context {S : Type}.
Implicit Types (s : S).

(** [wpx F m Q s]: from [s], [m] either panics and [F] holds, or ends with a
    value and a state satisfying [Q].  [wp] excludes panics (total
    correctness), [wlp] tolerates them. *)
Definition wpx {A} (F : Prop) (m : proc S A) (Q : A → S → Prop) s : Prop :=
  match m s with Some (s', a) => Q a s' | None => F end.

Lemma wpx_ret {A} F (a : A) (Q : A → S → Prop) s : Q a s → wpx F (mret a) Q s.
Proof. done. Qed.

Lemma wpx_bind {A B} F (m : proc S A) (f : A → proc S B) Q s :
  wpx F m (λ a s', wpx F (f a) Q s') s → wpx F (m ≫= f) Q s.
Proof.
  unfold wpx, mbind, proc_bind. destruct (m s) as [[s' a]|]; auto.
Qed.

Lemma wpx_mono {A} F (m : proc S A) (P Q : A → S → Prop) s :
  wpx F m P s → (∀ a s', P a s' → Q a s') → wpx F m Q s.
Proof. unfold wpx. destruct (m s) as [[s' a]|]; auto. Qed.

Lemma wpx_gets {A} F (f : S → A) (Q : A → S → Prop) s : Q (f s) s → wpx F (gets f) Q s.
Proof. done. Qed.

Lemma wpx_modify F (f : S → S) (Q : unit → S → Prop) s : Q tt (f s) → wpx F (modify f) Q s.
Proof. done. Qed.

Lemma wpx_panic {A} (F : Prop) (Q : A → S → Prop) s : F → wpx F panic Q s.
Proof. done. Qed.

Lemma wpx_liftRes {A} (F : Prop) (r : res A) (Q : A + string → S → Prop) s :
  (r = Panic → F) → (∀ a, r = Ok a → Q (inl a) s) → (∀ e, r = Err e → Q (inr e) s) →
  wpx F (liftRes r) Q s.
Proof. unfold wpx, liftRes. destruct r; auto. Qed.

Lemma wlp_liftRes {A} (r : res A) (Q : A + string → S → Prop) s :
  (∀ a, r = Ok a → Q (inl a) s) → (∀ e, r = Err e → Q (inr e) s) → wpx True (liftRes r) Q s.
Proof. intros. by apply wpx_liftRes. Qed.

Lemma wp_liftRes {A} (r : res A) (Q : A + string → S → Prop) s :
  r ≠ Panic → (∀ a, r = Ok a → Q (inl a) s) → (∀ e, r = Err e → Q (inr e) s) → wpx False (liftRes r) Q s.
Proof. intros. by apply wpx_liftRes. Qed.

(** Code that does not panic has its partial specification in full. *)
Lemma wp_of_wlp {A} (m : proc S A) (P Q : A → S → Prop) s :
  wpx True m Q s → wpx False m P s → wpx False m Q s.
Proof. unfold wpx. by destruct (m s) as [[s' a]|]. Qed.

Lemma wp_wlp {A} (m : proc S A) (P Q : A → S → Prop) s :
  wpx False m P s → wpx True m Q s → wpx False m (λ a s', P a s' ∧ Q a s') s.
Proof. unfold wpx. by destruct (m s) as [[s' a]|]. Qed.

Lemma wp_partial {A} (m : proc S A) (Q : A → S → Prop) s : wpx False m Q s → wpx True m Q s.
Proof. unfold wpx. by destruct (m s) as [[s' a]|]. Qed.

Lemma wpx_and {A} F (m : proc S A) (P Q : A → S → Prop) s :
  wpx F m P s → wpx F m Q s → wpx F m (λ a s', P a s' ∧ Q a s') s.
Proof. unfold wpx. by destruct (m s) as [[s' a]|]. Qed.

Lemma wpx_tryE {A B} F (m : proc S (A + string)) (f : A → proc S (B + string)) Q s :
  wpx F m (λ r s', match r with inl a => wpx F (f a) Q s' | inr e => Q (inr e) s' end) s →
  wpx F (tryE m f) Q s.
Proof. intros Hm. apply wpx_bind. eapply wpx_mono; [exact Hm|]. by intros [a|e] s'. Qed.

Lemma wpx_for_each {A} F (l : list A) (body : A → proc S unit) (I : S → Prop) s :
  I s → (∀ x s, x ∈ l → I s → wpx F (body x) (λ _, I) s) →
  wpx F (for_each l body) (λ _, I) s.
Proof.
  intros Hs Hb. revert s Hs. induction l as [|x l IH]; intros s Hs; [done|].
  cbn. apply wpx_bind. eapply wpx_mono; [apply Hb; [set_solver|done]|].
  intros [] s' Hs'. apply IH; [|done]. intros y s'' Hy. apply Hb. set_solver.
Qed.

Lemma for_each_app {A} (l k : list A) (body : A → proc S unit) s s1 :
  for_each l body s = Some (s1, tt) → for_each (l ++ k) body s = for_each k body s1.
Proof.
  revert s. induction l as [|x l IH]; intros s; cbn; [by intros [= ->]|].
  unfold mbind, proc_bind. destruct (body x s) as [[s' []]|]; [apply IH|done].
Qed.

(** With an invariant that follows the elements already visited. *)
Lemma wpx_for_each_prefix {A} F (l : list A) (body : A → proc S unit) (I : list A → S → Prop) s :
  I [] s →
  (∀ dn x l' s, l = dn ++ x :: l' → I dn s → wpx F (body x) (λ _, I (dn ++ [x])) s) →
  wpx F (for_each l body) (λ _, I l) s.
Proof.
  intros Hs Hb. cut (∀ l' dn s, l = dn ++ l' → I dn s → wpx F (for_each l' body) (λ _, I l) s).
  { intros Hgen. by apply (Hgen l []). }
  clear s Hs. induction l' as [|x l' IH]; intros dn s Hl HI; cbn.
  - rewrite app_nil_r in Hl. by subst.
  - apply wpx_bind. eapply wpx_mono; [by eapply Hb|]. intros [] s' HI'.
    apply (IH (dn ++ [x])); [|done]. by rewrite <-app_assoc.
Qed.

(** [keeps I m]: [m] preserves [I] whenever it does not panic. *)
Definition keeps {A} (I : S → Prop) (m : proc S A) : Prop :=
  ∀ s, I s → wpx True m (λ _, I) s.

Lemma keeps_run {A} I (m : proc S A) s s' a : keeps I m → I s → m s = Some (s', a) → I s'.
Proof. intros H Hs Hm. specialize (H s Hs). unfold wpx in H. by rewrite Hm in H. Qed.

Lemma keeps_ret {A} I (a : A) : keeps I (mret a).
Proof. by intros s. Qed.

Lemma keeps_bind {A B} I (m : proc S A) (f : A → proc S B) :
  keeps I m → (∀ a, keeps I (f a)) → keeps I (m ≫= f).
Proof.
  intros Hm Hf s Hs. apply wpx_bind. eapply wpx_mono; [by apply Hm|].
  intros a s' Hs'. by apply Hf.
Qed.

(** The continuation may use a value read from the state. *)
Lemma keeps_bind_gets {A B} I (g : S → A) (f : A → proc S B) :
  (∀ s, I s → wpx True (f (g s)) (λ _, I) s) → keeps I (gets g ≫= f).
Proof. intros H s Hs. apply wpx_bind, wpx_gets. by apply H. Qed.

Lemma keeps_gets {A} I (g : S → A) : keeps I (gets g).
Proof. by intros s. Qed.

Lemma keeps_panic {A} I : keeps I (panic : proc S A).
Proof. by intros s. Qed.

Lemma keeps_modify I (f : S → S) : (∀ s, I s → I (f s)) → keeps I (modify f).
Proof. intros H s Hs. by apply H. Qed.

Lemma keeps_liftRes {A} I (r : res A) : keeps I (liftRes r).
Proof. intros s Hs. by apply wpx_liftRes. Qed.

Lemma keeps_for_each {A} I (l : list A) (body : A → proc S unit) :
  (∀ x, x ∈ l → keeps I (body x)) → keeps I (for_each l body).
Proof. intros H s Hs. apply wpx_for_each; [done|]. intros x s' Hx. by apply H. Qed.
End WP.

Abbreviation wp := (wpx False).
Abbreviation wlp := (wpx True).

(** Lemmas that prove [keeps] for composite code. *)
Create HintDb keeps discriminated.
#[export] Hint Resolve keeps_ret keeps_gets keeps_panic keeps_liftRes keeps_for_each : keeps.
#[export] Hint Extern 1 (keeps _ (_ ≫= _)) => apply keeps_bind; [|intros ?] : keeps.
#[export] Hint Extern 1 (keeps _ (match ?x with _ => _ end)) => destruct x : keeps.
#[export] Hint Extern 1 (keeps _ (if ?x then _ else _)) => destruct x : keeps.

(** * Generic lemmas *)

Lemma bool_decide_iff (P Q : Prop) `{Decision P, Decision Q} :
  (P ↔ Q) → bool_decide P = bool_decide Q.
Proof. intros. by apply bool_decide_ext. Qed.

Lemma list_elem_of_take {A} (l : list A) n x : x ∈ take n l → x ∈ l.
Proof. intros (i & Hi)%list_elem_of_lookup. apply lookup_take_Some in Hi as [Hi _].
  apply list_elem_of_lookup. eauto. Qed.

(** A loop that fills a map from the elements of a list. *)
Definition insert_all {A V} (f : A → option (string * V)) (l : list A) (m : gmap string V) : gmap string V :=
  foldl (λ m x, match f x with Some kv => <[kv.1 := kv.2]> m | None => m end) m l.

Lemma insert_all_Some {A V} (f : A → option (string * V)) l m k v :
  insert_all f l m !! k = Some v → m !! k = Some v ∨ ∃ x, x ∈ l ∧ f x = Some (k, v).
Proof.
  revert m. induction l as [|x l IH]; intros m; cbn; [auto|].
  intros [Hm|(y & Hy & Hf)]%IH; [|right; exists y; set_solver].
  destruct (f x) as [[k' v']|] eqn:E; [|auto].
  apply lookup_insert_Some in Hm as [[<- <-]|[_ Hm]]; [right; exists x; set_solver|auto].
Qed.

(** When the elements agree about each key, all their entries are there. *)
Lemma insert_all_elem {A V} (f : A → option (string * V)) l m x k v :
  (∀ y v', y ∈ l → f y = Some (k, v') → v' = v) → x ∈ l → f x = Some (k, v) →
  insert_all f l m !! k = Some v.
Proof.
  assert (∀ l m, (∀ y v', y ∈ l → f y = Some (k, v') → v' = v) → m !! k = Some v →
    insert_all f l m !! k = Some v) as Hkeep.
  { clear. induction l as [|y l IH]; intros m Hu Hm; cbn; [done|]. apply IH; [set_solver|].
    destruct (f y) as [[k' v']|] eqn:E; [|done]. cbn. destruct (decide (k' = k)) as [->|].
    - rewrite lookup_insert_eq. f_equal. eapply Hu; [|done]. set_solver.
    - by rewrite lookup_insert_ne. }
  revert m. induction l as [|y l IH]; intros m Hu Hx Hf; [set_solver|].
  assert (x = y ∨ x ∈ l) as [->|Hx'] by set_solver.
  - cbn. rewrite Hf. cbn. apply Hkeep; [set_solver|]. apply lookup_insert_eq.
  - cbn. apply IH; [set_solver|done..].
Qed.

Lemma insert_all_is_Some {A V} (f : A → option (string * V)) l m x k v :
  x ∈ l → f x = Some (k, v) → is_Some (insert_all f l m !! k).
Proof.
  assert (∀ l m, is_Some (m !! k) → is_Some (insert_all f l m !! k)) as Hkeep.
  { clear. induction l as [|y l IH]; intros m Hm; cbn; [done|]. apply IH.
    destruct (f y) as [[k' v']|]; [|done]. cbn. apply lookup_insert_is_Some'. auto. }
  revert m. induction l as [|y l IH]; intros m Hx Hf; [by apply elem_of_nil in Hx|].
  assert (x = y ∨ x ∈ l) as [->|Hx'] by set_solver; cbn.
  - rewrite Hf. apply Hkeep. cbn. rewrite lookup_insert_eq. eauto.
  - by apply IH.
Qed.
