(* ===== verification/GoStd.v ===== *)
(** Go language and standard library: what the relay's sources use of it.

    Integers at their width, [strings], [encoding/hex], [strconv] and the
    conversions of [math/big], over byte strings.  A Go [string] and a Go
    [[]byte] are both sequences of bytes, modelled as [string].  Of the errors
    of the standard library only the cause is kept, not the text in front of it
    that repeats the function's name and its argument. *)
From stdpp Require Import gmap strings list.
From Stdlib Require Import ZArith Lia Ascii.
From S2P Require Import Prelude.
Open Scope Z_scope.

(** * Fixed-width integers *)

(** Conversion to [uint64] and [uint8]: unsigned arithmetic wraps around. *)
Definition u64 (z : Z) : Z := z mod 2 ^ 64.
Definition u8 (z : Z) : Z := z mod 2 ^ 8.

(** Conversion to [int64]: two's complement wrap-around. *)
Definition i64 (z : Z) : Z := (z + 2 ^ 63) mod 2 ^ 64 - 2 ^ 63.

Lemma u64_range z : 0 ≤ u64 z < 2 ^ 64.
Proof. apply Z.mod_pos_bound. lia. Qed.
Lemma u64_small z : 0 ≤ z < 2 ^ 64 → u64 z = z.
Proof. apply Z.mod_small. Qed.
Lemma u8_range z : 0 ≤ u8 z < 256.
Proof. apply Z.mod_pos_bound. lia. Qed.
Lemma u8_small z : 0 ≤ z < 256 → u8 z = z.
Proof. apply Z.mod_small. Qed.
Lemma i64_range z : - 2 ^ 63 ≤ i64 z < 2 ^ 63.
Proof. unfold i64. pose proof (Z.mod_pos_bound (z + 2 ^ 63) (2 ^ 64)). lia. Qed.
Lemma i64_small z : - 2 ^ 63 ≤ z < 2 ^ 63 → i64 z = z.
Proof. intros. unfold i64. rewrite Z.mod_small; lia. Qed.

(** * Package strings *)

Fixpoint string_drop (n : nat) (s : string) : string :=
  match n, s with
  | S n, String _ s => string_drop n s
  | _, _ => s
  end.

Definition HasPrefix (s p : string) : bool := String.prefix p s.
Definition TrimPrefix (s p : string) : string :=
  if HasPrefix s p then string_drop (String.length p) s else s.

Fixpoint Contains (s sub : string) : bool :=
  HasPrefix s sub || match s with "" => false | String _ s => Contains s sub end.

Definition Join (l : list string) (sep : string) : string := String.concat sep l.
(** [path.Join], of elements that are clean already: the empty ones are left
    out. *)
Definition pathJoin (l : list string) : string := Join (filter (λ s, s ≠ "") l) "/".

(** [strings.ToLower], of ASCII text. *)
Definition lower_ascii (c : ascii) : ascii :=
  let n := nat_of_ascii c in
  if ((65 <=? n) && (n <=? 90))%nat then ascii_of_nat (n + 32) else c.
Fixpoint ToLower (s : string) : string :=
  match s with "" => "" | String c s => String (lower_ascii c) (ToLower s) end.

(** [strings.SplitN(s, sep, 2)] for a one-byte separator. *)
Fixpoint SplitN2 (s : string) (sep : ascii) : list string :=
  match s with
  | "" => [""]
  | String c s' =>
      if decide (c = sep) then [""; s']
      else match SplitN2 s' sep with
           | x :: rest => String c x :: rest
           | [] => []
           end
  end.

(** [strings.Split(s, sep)] for a one-byte separator. *)
Fixpoint Split (s : string) (sep : ascii) : list string :=
  match s with
  | "" => [""]
  | String c s' =>
      if decide (c = sep) then "" :: Split s' sep
      else match Split s' sep with
           | x :: rest => String c x :: rest
           | [] => []
           end
  end.

(** [strings.Replace(s, old, new, 1)] for a non-empty [old]. *)
Fixpoint Replace1 (s old new : string) : string :=
  if HasPrefix s old then new +:+ string_drop (String.length old) s
  else match s with "" => "" | String c s => String c (Replace1 s old new) end.

Create Rewrite HintDb str.
(** Computation rules of concatenation. *)
Lemma string_app_nil s : "" +:+ s = s.
Proof. done. Qed.
Lemma string_app_cons c s t : String c s +:+ t = String c (s +:+ t).
Proof. done. Qed.
Lemma string_app_nil_r s : s +:+ "" = s.
Proof. induction s as [|c s IH]; [done|]. by rewrite string_app_cons, IH. Qed.
Lemma string_app_assoc (a b c : string) : (a +:+ b) +:+ c = a +:+ (b +:+ c).
Proof. induction a as [|x a IH]; [done|]. by rewrite !string_app_cons, IH. Qed.
Lemma string_length_app (a b : string) :
  String.length (a +:+ b) = (String.length a + String.length b)%nat.
Proof. induction a as [|c a IH]; [done|]. rewrite string_app_cons. cbn. by rewrite IH. Qed.
#[export] Hint Rewrite string_app_nil string_app_cons string_app_nil_r string_app_assoc : str.

Lemma prefix_app p s : String.prefix p (p +:+ s) = true.
Proof. induction p as [|c p IH]; [by destruct s|].
  rewrite string_app_cons. cbn. destruct (ascii_dec c c); [apply IH|done]. Qed.

Lemma prefix_spec p s : String.prefix p s = true ↔ ∃ r, s = p +:+ r.
Proof.
  split; [|intros [r ->]; apply prefix_app].
  revert s; induction p as [|c p IH]; intros [|d s]; cbn; try done; eauto.
  destruct (ascii_dec c d) as [->|]; [|done].
  intros [r ->]%IH. by exists r.
Qed.

Lemma string_drop_app p s : string_drop (String.length p) (p +:+ s) = s.
Proof. induction p; [by destruct s|done]. Qed.

Lemma TrimPrefix_app p s : TrimPrefix (p +:+ s) p = s.
Proof. unfold TrimPrefix, HasPrefix. by rewrite prefix_app, string_drop_app. Qed.


(** * Digits *)

Definition hex_char (d : Z) : ascii :=
  match d with
  | 0 => "0" | 1 => "1" | 2 => "2" | 3 => "3" | 4 => "4" | 5 => "5" | 6 => "6" | 7 => "7"
  | 8 => "8" | 9 => "9" | 10 => "a" | 11 => "b" | 12 => "c" | 13 => "d" | 14 => "e" | _ => "f"
  end%char.

(** The value of a digit in base 16, either case. *)
Definition hex_val (c : ascii) : option Z :=
  let n := Z.of_nat (nat_of_ascii c) in
  if (48 <=? n) && (n <=? 57) then Some (n - 48)
  else if (97 <=? n) && (n <=? 102) then Some (n - 87)
  else if (65 <=? n) && (n <=? 70) then Some (n - 55)
  else None.

Lemma hex_val_char d : 0 ≤ d < 16 → hex_val (hex_char d) = Some d.
Proof.
  intros H. assert (d = 0 ∨ d = 1 ∨ d = 2 ∨ d = 3 ∨ d = 4 ∨ d = 5 ∨ d = 6 ∨ d = 7 ∨
    d = 8 ∨ d = 9 ∨ d = 10 ∨ d = 11 ∨ d = 12 ∨ d = 13 ∨ d = 14 ∨ d = 15) as Hd by lia.
  by repeat (destruct Hd as [->|Hd] || subst).
Qed.

Lemma hex_val_range c d : hex_val c = Some d → 0 ≤ d < 16.
Proof. unfold hex_val. repeat case_match; intros [= <-]; lia. Qed.

(** * Package encoding/hex *)

Definition byte_of (c : ascii) : Z := Z.of_nat (nat_of_ascii c).
Definition of_byte (z : Z) : ascii := ascii_of_nat (Z.to_nat z).

Lemma byte_of_range c : 0 ≤ byte_of c < 256.
Proof. unfold byte_of. pose proof (nat_ascii_bounded c). lia. Qed.
Lemma of_byte_of c : of_byte (byte_of c) = c.
Proof. unfold of_byte, byte_of. by rewrite Nat2Z.id, ascii_nat_embedding. Qed.

Fixpoint EncodeToString (b : string) : string :=
  match b with
  | "" => ""
  | String c b =>
      String (hex_char (byte_of c / 16)) (String (hex_char (byte_of c mod 16)) (EncodeToString b))
  end.

Definition errInvalidByte : string := "encoding/hex: invalid byte".
Definition errLength : string := "encoding/hex: odd length hex string".

Fixpoint DecodeString (s : string) : res string :=
  match s with
  | "" => Ok ""
  | String a "" => match hex_val a with Some _ => Err errLength | None => Err errInvalidByte end
  | String a (String b r) =>
      match hex_val a, hex_val b with
      | Some x, Some y => bs ← DecodeString r; Ok (String (of_byte (16 * x + y)) bs)
      | _, _ => Err errInvalidByte
      end
  end.

Lemma EncodeToString_app a b : EncodeToString (a +:+ b) = EncodeToString a +:+ EncodeToString b.
Proof. induction a as [|c a IH]; [done|]. rewrite string_app_cons. cbn. by rewrite IH. Qed.

Lemma Decode_Encode b : DecodeString (EncodeToString b) = Ok b.
Proof.
  induction b as [|c b IH]; [done|]. cbn [EncodeToString DecodeString].
  pose proof (byte_of_range c).
  rewrite !hex_val_char by (split; [apply Z.div_pos || apply Z.mod_pos_bound|
    apply Z.div_lt_upper_bound || apply Z.mod_pos_bound]; lia).
  rewrite IH. cbn. rewrite <-Z.div_mod by lia. by rewrite of_byte_of.
Qed.

Lemma length_EncodeToString b : String.length (EncodeToString b) = (2 * String.length b)%nat.
Proof. induction b as [|c b IH]; [done|]. cbn. rewrite IH. lia. Qed.

(** * Package strconv *)

(** The digits of [n] in base [b], least significant first, at least one.
    [fuel] is the binary length of [n] plus one, which is enough for any base
    from 2 on ([digits_value]). *)
Fixpoint digits (b : Z) (fuel : nat) (n : Z) : list Z :=
  match fuel with
  | O => []
  | S fuel => if n <? b then [n] else n mod b :: digits b fuel (n / b)
  end.

Definition digits_of (b n : Z) : list Z := digits b (S (Z.to_nat (Z.log2 n))) n.

Fixpoint string_of_digits (ds : list Z) (acc : string) : string :=
  match ds with [] => acc | d :: ds => string_of_digits ds (String (hex_char d) acc) end.

(** [strconv.FormatInt(z, b)] for bases up to 16; also [big.Int.Text]. *)
Definition FormatInt (z b : Z) : string :=
  if z <? 0 then String "-" (string_of_digits (digits_of b (- z)) "")
  else string_of_digits (digits_of b z) "".

Definition errSyntax : string := "invalid syntax".
Definition errRange : string := "value out of range".

(** The loop of [strconv.ParseUint]: [base] up to 16, result at most
    [maxVal]; stops at the first overflow. *)
Fixpoint parseUint_loop (base maxVal : Z) (s : string) (n : Z) : Z * error :=
  match s with
  | "" => (n, None)
  | String c s =>
      match hex_val c with
      | Some d =>
          if base <=? d then (0, Some errSyntax)
          else if (2 ^ 64 - 1) / base + 1 <=? n then (maxVal, Some errRange)
          else let n1 := n * base + d in
               if maxVal <? n1 then (maxVal, Some errRange)
               else parseUint_loop base maxVal s n1
      | None => (0, Some errSyntax)
      end
  end.

Definition ParseUint (s : string) (base bits : Z) : Z * error :=
  match s with
  | "" => (0, Some errSyntax)
  | _ => parseUint_loop base (2 ^ bits - 1) s 0
  end.

(** [strconv.ParseInt(s, base, bits)] for 0 < bits ≤ 64 and 2 ≤ base ≤ 16: the
    value is meaningful even with an error (0, or the nearest bound). *)
Definition ParseInt (s : string) (base bits : Z) : Z * error :=
  let '(neg, d) :=
    match s with
    | String "-" r => (true, r)
    | String "+" r => (false, r)
    | _ => (false, s)
    end in
  let '(un, err) := ParseUint d base bits in
  if decide (err = None ∨ err = Some errRange) then
    let cutoff := 2 ^ (bits - 1) in
    if negb neg && (cutoff <=? un) then (cutoff - 1, Some errRange)
    else if neg && (cutoff <? un) then (- cutoff, Some errRange)
    else (if neg then - un else un, None)
  else (0, err).

(** * Package math/big: conversions *)

Fixpoint bytes_value (s : string) (acc : Z) : Z :=
  match s with "" => acc | String c s => bytes_value s (256 * acc + byte_of c) end.

(** [new(big.Int).SetBytes(b)] *)
Definition SetBytes (b : string) : Z := bytes_value b 0.

Fixpoint dec_value (s : string) (acc : Z) : option Z :=
  match s with
  | "" => Some acc
  | String c s =>
      match hex_val c with
      | Some d => if d <? 10 then dec_value s (10 * acc + d) else None
      | None => None
      end
  end.

(** [new(big.Int).SetString(s, 10)]: [None] when [ok] is false. *)
Definition SetString10 (s : string) : option Z :=
  let '(neg, d) :=
    match s with
    | String "-" r => (true, r)
    | String "+" r => (false, r)
    | _ => (false, s)
    end in
  match d with
  | "" => None
  | _ => v ← dec_value d 0; Some (if neg : bool then - v else v)
  end.

(** [big.Int.String], [Int64] (low 64 bits, with the sign) and [Uint64]
    (low 64 bits of the absolute value). *)
Definition big_String (z : Z) : string := FormatInt z 10.
Definition big_Int64 (z : Z) : Z := i64 z.
Definition big_Uint64 (z : Z) : Z := u64 (Z.abs z).

(** * Facts about numerals *)

Definition undigits (b : Z) (ds : list Z) : Z := foldr (λ d a, d + b * a) 0 ds.

Lemma digits_value b fuel n : 2 ≤ b → 0 ≤ n < 2 ^ Z.of_nat fuel → undigits b (digits b fuel n) = n.
Proof.
  intros Hb. revert n. induction fuel as [|fuel IH]; intros n [H0 Hn]; cbn [digits].
  - cbn in *. lia.
  - destruct (Z.ltb_spec n b); cbn [undigits foldr]; [lia|].
    fold (undigits b (digits b fuel (n / b))). rewrite IH.
    + rewrite (Z.div_mod n b) at 3 by lia. lia.
    + split; [apply Z.div_pos; lia|]. apply Z.div_lt_upper_bound; [lia|].
      rewrite Nat2Z.inj_succ, Z.pow_succ_r in Hn by lia. nia.
Qed.

Lemma digits_range b fuel n : 0 < b → 0 ≤ n → Forall (λ d, 0 ≤ d < b) (digits b fuel n).
Proof.
  intros Hb. revert n. induction fuel as [|fuel IH]; intros n Hn; cbn; [constructor|].
  destruct (Z.ltb_spec n b); constructor; try lia; [constructor|by apply Z.mod_pos_bound|].
  apply IH, Z.div_pos; lia.
Qed.

Lemma digits_of_value b n : 2 ≤ b → 0 ≤ n → undigits b (digits_of b n) = n.
Proof.
  intros Hb Hn. apply digits_value; [done|]. split; [done|].
  rewrite Nat2Z.inj_succ, Z2Nat.id by apply Z.log2_nonneg.
  destruct (decide (n = 0)) as [->|]; [done|]. apply Z.log2_spec. lia.
Qed.

Lemma digits_of_nonempty b n : digits_of b n ≠ [].
Proof. unfold digits_of. cbn. by destruct (n <? b). Qed.

Lemma string_of_digits_app ds acc :
  string_of_digits ds acc = string_of_digits ds "" +:+ acc.
Proof.
  revert acc; induction ds as [|d ds IH]; intros acc; [done|]. cbn.
  rewrite (IH (String _ acc)), (IH (String _ "")). by autorewrite with str.
Qed.

Lemma parseUint_loop_digits b maxVal ds acc n :
  2 ≤ b ≤ 16 → maxVal < 2 ^ 64 → 0 ≤ n → Forall (λ d, 0 ≤ d < b) ds →
  n * b ^ Z.of_nat (length ds) + undigits b ds ≤ maxVal →
  parseUint_loop b maxVal (string_of_digits ds acc) n =
  parseUint_loop b maxVal acc (n * b ^ Z.of_nat (length ds) + undigits b ds).
Proof.
  intros Hb HM Hn Hds. revert acc. induction Hds as [|d ds Hd Hds IH]; intros acc Hle.
  - cbn. f_equal. lia.
  - cbn [string_of_digits length undigits foldr] in *.
    fold (undigits b ds) in *. rewrite Nat2Z.inj_succ, Z.pow_succ_r in * by lia.
    set (v := n * b ^ Z.of_nat (length ds) + undigits b ds) in *.
    assert (0 ≤ undigits b ds) as Hu.
    { clear -Hds Hb. induction Hds; cbn; [lia|]. unfold undigits in *. nia. }
    assert (0 ≤ v) by (unfold v; assert (0 ≤ b ^ Z.of_nat (length ds)) by (apply Z.pow_nonneg; lia); nia).
    assert (n * (b * b ^ Z.of_nat (length ds)) + (d + b * undigits b ds) = v * b + d) as Heq
      by (unfold v; lia).
    rewrite Heq in *. rewrite IH by nia.
    cbn [parseUint_loop]. rewrite hex_val_char by lia.
    replace (b <=? d) with false by lia.
    assert (v ≤ (2 ^ 64 - 1) / b) by (apply Z.div_le_lower_bound; nia).
    replace ((2 ^ 64 - 1) / b + 1 <=? v) with false by lia.
    by replace (maxVal <? v * b + d) with false by lia.
Qed.

Lemma string_of_digits_cons ds :
  ds ≠ [] → Forall (λ d, 0 ≤ d < 16) ds →
  ∃ d s, 0 ≤ d < 16 ∧ string_of_digits ds "" = String (hex_char d) s.
Proof.
  intros Hne Hds. destruct ds as [|d ds] using rev_ind; [done|].
  apply Forall_app in Hds as [_ Hd]. apply Forall_inv in Hd.
  exists d. enough (∀ acc, ∃ s, string_of_digits (ds ++ [d]) acc = String (hex_char d) s) as He.
  { destruct (He "") as [s ->]. by eauto. }
  clear. induction ds as [|x ds IH]; intros acc; cbn; eauto.
Qed.

Lemma hex_char_not_sign d : 0 ≤ d < 16 → hex_char d ≠ "-"%char ∧ hex_char d ≠ "+"%char.
Proof. intros H%hex_val_char. split; intros Heq; rewrite Heq in H; discriminate H. Qed.

(** Parsing what [FormatInt] printed gives the number back, at any width that
    holds it. *)
Lemma ParseInt_FormatInt b bits z :
  2 ≤ b ≤ 16 → 0 < bits ≤ 64 → - 2 ^ (bits - 1) ≤ z < 2 ^ (bits - 1) →
  ParseInt (FormatInt z b) b bits = (z, None).
Proof.
  intros Hb Hbits Hz.
  assert (2 ^ bits = 2 * 2 ^ (bits - 1)) as H2.
  { rewrite <-Z.pow_succ_r by lia. f_equal. lia. }
  assert (2 ^ bits ≤ 2 ^ 64) by (apply Z.pow_le_mono_r; lia).
  assert (0 < 2 ^ (bits - 1)) by (apply Z.pow_pos_nonneg; lia).
  assert (∀ n, 0 ≤ n < 2 ^ bits →
    ParseUint (string_of_digits (digits_of b n) "") b bits = (n, None)) as Hpu.
  { intros n Hn. pose proof (digits_range b (S (Z.to_nat (Z.log2 n))) n) as Hr.
    fold (digits_of b n) in Hr. specialize (Hr ltac:(lia) ltac:(lia)).
    destruct (string_of_digits_cons (digits_of b n)) as (d & s & Hd & Hs);
      [apply digits_of_nonempty|by eapply Forall_impl; [exact Hr|]; intros; cbn in *; lia|].
    unfold ParseUint. rewrite Hs. rewrite <-Hs.
    rewrite parseUint_loop_digits; rewrite ?digits_of_value; try lia; try done. }
  unfold ParseInt, FormatInt. destruct (Z.ltb_spec z 0).
  - cbn [ascii_dec]. rewrite Hpu by lia. cbn. rewrite decide_True by auto.
    replace (2 ^ (bits - 1) <? - z) with false by lia. by rewrite Z.opp_involutive.
  - destruct (string_of_digits_cons (digits_of b z)) as (d & s & Hd & Hs);
      [apply digits_of_nonempty|eapply Forall_impl; [apply digits_range; lia|]; intros; cbn in *; lia|].
    destruct (hex_char_not_sign d Hd) as [Hm Hp].
    assert ((match string_of_digits (digits_of b z) "" with
             | String "-" r => (true, r)
             | String "+" r => (false, r)
             | _ => (false, string_of_digits (digits_of b z) "") end)
            = (false, string_of_digits (digits_of b z) "")) as ->.
    { rewrite Hs. generalize (hex_char d), Hm, Hp. clear. intros c Hm Hp.
      destruct c as [[] [] [] [] [] [] [] []]; cbn; congruence. }
    rewrite Hpu by lia. cbn. rewrite decide_True by auto.
    by replace (2 ^ (bits - 1) <=? z) with false by lia.
Qed.

Lemma dec_value_digits ds acc n :
  Forall (λ d, 0 ≤ d < 10) ds →
  dec_value (string_of_digits ds acc) n =
  dec_value acc (10 ^ Z.of_nat (length ds) * n + undigits 10 ds).
Proof.
  intros Hds. revert acc. induction Hds as [|d ds Hd Hds IH]; intros acc.
  - cbn [string_of_digits length undigits foldr]. f_equal. lia.
  - cbn [string_of_digits]. rewrite IH. cbn [dec_value]. rewrite hex_val_char by lia.
    replace (d <? 10) with true by lia. f_equal.
    cbn [length undigits foldr]. fold (undigits 10 ds).
    rewrite Nat2Z.inj_succ, Z.pow_succ_r by lia. lia.
Qed.

Lemma digits10_range n : 0 ≤ n → Forall (λ d, 0 ≤ d < 10) (digits_of 10 n).
Proof. intros. apply digits_range; lia. Qed.

Lemma dec_value_FormatInt n : 0 ≤ n → dec_value (FormatInt n 10) 0 = Some n.
Proof.
  intros Hn. unfold FormatInt. replace (n <? 0) with false by lia.
  rewrite dec_value_digits by by apply digits10_range.
  cbn [dec_value]. f_equal. rewrite digits_of_value by lia. lia.
Qed.

Lemma big_String_inj m n : 0 ≤ m → 0 ≤ n → big_String m = big_String n → m = n.
Proof.
  intros Hm Hn H. apply (f_equal (λ s, dec_value s 0)) in H. unfold big_String in H.
  rewrite !dec_value_FormatInt in H by done. by injection H.
Qed.

(** [has_char c s]: the byte [c] occurs in [s]. *)
Fixpoint has_char (c : ascii) (s : string) : bool :=
  match s with "" => false | String x s => bool_decide (x = c) || has_char c s end.

Lemma has_char_app c s t : has_char c (s +:+ t) = has_char c s || has_char c t.
Proof.
  induction s as [|x s IH]; [done|]. rewrite string_app_cons. cbn. rewrite IH.
  by rewrite orb_assoc.
Qed.

Lemma SplitN2_cons c s t : has_char c s = false → SplitN2 (s +:+ String c t) c = [s; t].
Proof.
  induction s as [|x s IH]; cbn [has_char].
  - intros _. rewrite string_app_nil. cbn. by rewrite decide_True.
  - intros [Hx Hs]%orb_false_iff. rewrite bool_decide_eq_false in Hx. rewrite string_app_cons. cbn.
    by rewrite decide_False, IH.
Qed.

Lemma Split_no_sep c s : has_char c s = false → Split s c = [s].
Proof.
  induction s as [|x s IH]; cbn; [done|]. intros [Hx Hs]%orb_false_iff.
  rewrite bool_decide_eq_false in Hx. by rewrite decide_False, IH.
Qed.

Lemma Split_cons c s t : has_char c s = false → Split (s +:+ String c t) c = s :: Split t c.
Proof.
  induction s as [|x s IH]; cbn [has_char].
  - intros _. rewrite string_app_nil. cbn. by rewrite decide_True.
  - intros [Hx Hs]%orb_false_iff. rewrite bool_decide_eq_false in Hx. rewrite string_app_cons. cbn.
    by rewrite decide_False, IH.
Qed.

(** Splitting what was joined. *)
Lemma Split_Join c l :
  l ≠ [] → Forall (λ s, has_char c s = false) l → Split (Join l (String c "")) c = l.
Proof.
  intros Hne Hl. unfold Join. induction Hl as [|s l Hs Hl IH]; [done|]. cbn [String.concat].
  destruct l as [|t l]; [by apply Split_no_sep|].
  change (Split (s +:+ String c "" +:+ String.concat (String c "") (t :: l)) c = s :: t :: l).
  rewrite string_app_cons, string_app_nil, Split_cons by done. by rewrite IH.
Qed.

Lemma has_char_digits ds acc :
  Forall (λ d, 0 ≤ d < 16) ds →
  has_char "-" acc = false → has_char "-" (string_of_digits ds acc) = false.
Proof.
  intros Hds. revert acc. induction Hds as [|d ds Hd Hds IH]; intros acc Hacc; [done|].
  cbn. apply IH. cbn. rewrite bool_decide_false by by apply hex_char_not_sign. done.
Qed.

Lemma big_String_no_dash n : 0 ≤ n → has_char "-" (big_String n) = false.
Proof.
  intros Hn. unfold big_String, FormatInt. replace (n <? 0) with false by lia.
  apply has_char_digits; [|done]. eapply Forall_impl; [by apply digits10_range|].
  cbn; intros; lia.
Qed.

(** The last dash of a string is determined by the string. *)
Lemma split_last_dash s1 s2 d1 d2 :
  has_char "-" d1 = false → has_char "-" d2 = false →
  s1 +:+ String "-" d1 = s2 +:+ String "-" d2 → s1 = s2 ∧ d1 = d2.
Proof.
  intros H1 H2. revert s2. induction s1 as [|c s1 IH]; intros [|c2 s2] Heq;
    rewrite ?string_app_nil, ?string_app_cons in Heq.
  - by injection Heq as ->.
  - injection Heq as <- ->. by rewrite has_char_app, orb_true_r in H1.
  - injection Heq as -> <-. by rewrite has_char_app, orb_true_r in H2.
  - injection Heq as -> Heq. by destruct (IH s2 Heq) as [-> ->].
Qed.

Lemma string_app_inj_l (p s t : string) : p +:+ s = p +:+ t → s = t.
Proof. apply (inj (String.append p)). Qed.

(** * Values of digit strings *)

(** The number a string of digits in base [b] denotes, after [acc]. *)
Fixpoint base_value (b : Z) (s : string) (acc : Z) : option Z :=
  match s with
  | "" => Some acc
  | String c s =>
      match hex_val c with
      | Some d => if d <? b then base_value b s (b * acc + d) else None
      | None => None
      end
  end.

Lemma base_value_digits b ds acc n :
  2 ≤ b ≤ 16 → Forall (λ d, 0 ≤ d < b) ds →
  base_value b (string_of_digits ds acc) n =
  base_value b acc (b ^ Z.of_nat (length ds) * n + undigits b ds).
Proof.
  intros Hb Hds. revert acc. induction Hds as [|d ds Hd Hds IH]; intros acc.
  - cbn [string_of_digits length undigits foldr]. f_equal. lia.
  - cbn [string_of_digits]. rewrite IH. cbn [base_value]. rewrite hex_val_char by lia.
    replace (d <? b) with true by lia. f_equal.
    cbn [length undigits foldr]. fold (undigits b ds).
    rewrite Nat2Z.inj_succ, Z.pow_succ_r by lia. lia.
Qed.

Lemma base_value_FormatInt b n : 2 ≤ b ≤ 16 → 0 ≤ n → base_value b (FormatInt n b) 0 = Some n.
Proof.
  intros Hb Hn. unfold FormatInt. replace (n <? 0) with false by lia.
  rewrite base_value_digits; [|done|apply digits_range; lia].
  cbn [base_value]. f_equal. rewrite digits_of_value by lia. lia.
Qed.

Lemma base_value_ge b s acc v :
  2 ≤ b → 0 ≤ acc → base_value b s acc = Some v → acc ≤ v.
Proof.
  intros Hb. revert acc. induction s as [|c s IH]; intros acc H0; cbn; [intros [= <-]; lia|].
  destruct (hex_val c) as [d|] eqn:Hd; [|done]. apply hex_val_range in Hd.
  destruct (d <? b); [|done]. intros ?%IH; nia.
Qed.

(** Parsing a string of digits: its value, or a range error. *)
Lemma parseUint_loop_value b maxVal s n v :
  2 ≤ b ≤ 16 → 0 ≤ n ≤ maxVal → maxVal < 2 ^ 64 → base_value b s n = Some v →
  parseUint_loop b maxVal s n = if v <=? maxVal then (v, None) else (maxVal, Some errRange).
Proof.
  intros Hb Hn HM. revert n Hn. induction s as [|c s IH]; intros n Hn; cbn [base_value parseUint_loop].
  { intros [= <-]. by replace (n <=? maxVal) with true by lia. }
  destruct (hex_val c) as [d|] eqn:Hd; [|done]. apply hex_val_range in Hd.
  destruct (Z.ltb_spec d b); [|done]. replace (b <=? d) with false by lia. intros Hv.
  pose proof (base_value_ge b s (b * n + d) v ltac:(lia) ltac:(nia) Hv) as Hge.
  destruct (Z.leb_spec ((2 ^ 64 - 1) / b + 1) n) as [Hov|_].
  { pose proof (Z.mod_pos_bound (2 ^ 64 - 1) b ltac:(lia)). pose proof (Z.div_mod (2 ^ 64 - 1) b ltac:(lia)).
    assert (b * ((2 ^ 64 - 1) / b + 1) ≤ b * n) by (apply Z.mul_le_mono_nonneg_l; lia).
    replace (v <=? maxVal) with false by lia. done. }
  destruct (Z.ltb_spec maxVal (n * b + d)).
  { by replace (v <=? maxVal) with false by lia. }
  apply IH; [nia|]. by rewrite Z.mul_comm.
Qed.

(** The bytes that hex digits encode denote the same number. *)
Lemma Decode_value s acc v :
  Nat.even (String.length s) = true → base_value 16 s acc = Some v →
  ∃ bs, DecodeString s = Ok bs ∧ bytes_value bs acc = v.
Proof.
  remember (String.length s) as n eqn:Hn. revert s acc Hn.
  induction (lt_wf n) as [n _ IH]. intros [|a [|b s]] acc Hn He Hv.
  - cbn in *. injection Hv as <-. by exists "".
  - subst. done.
  - cbn [base_value] in Hv. cbn [DecodeString].
    destruct (hex_val a) as [x|] eqn:Ha; [|done]. apply hex_val_range in Ha.
    destruct (Z.ltb_spec x 16); [|done].
    destruct (hex_val b) as [y|] eqn:Hb; [|done]. apply hex_val_range in Hb.
    destruct (Z.ltb_spec y 16); [|done]. subst n. cbn [String.length] in He.
    destruct (IH (String.length s)) with (s := s) (acc := 16 * (16 * acc + x) + y)
      as (bs & Hbs & Hval); [cbn; lia|done|done|done|].
    exists (String (of_byte (16 * x + y)) bs). rewrite Hbs. split; [done|]. cbn [bytes_value].
    rewrite <-Hval. f_equal. unfold byte_of, of_byte. rewrite nat_ascii_embedding by lia. lia.
Qed.

(** * Package encoding/base64: [StdEncoding] *)

Module Base64.

Definition alphabet : string := "ABCDEFGHIJKLMNOPQRSTUVWXYZabcdefghijklmnopqrstuvwxyz0123456789+/".
Definition char (n : Z) : ascii := default "A"%char (String.get (Z.to_nat n) alphabet).
Fixpoint position (c : ascii) (s : string) : option Z :=
  match s with
  | "" => None
  | String x s => if decide (c = x) then Some 0 else Z.succ <$> position c s
  end.
Definition value (c : ascii) : option Z := position c alphabet.

Fixpoint EncodeToString (src : string) : string :=
  match src with
  | "" => ""
  | String a "" => let a := byte_of a in
      String (char (a / 4)) (String (char (a mod 4 * 16)) "==")
  | String a (String b "") => let a := byte_of a in let b := byte_of b in
      String (char (a / 4)) (String (char (a mod 4 * 16 + b / 16)) (String (char (b mod 16 * 4)) "="))
  | String a (String b (String c src)) => let a := byte_of a in let b := byte_of b in let c := byte_of c in
      String (char (a / 4)) (String (char (a mod 4 * 16 + b / 16))
        (String (char (b mod 16 * 4 + c / 64)) (String (char (c mod 64)) (EncodeToString src))))
  end.

Definition errCorruptInput : string := "illegal base64 data".

(** Four characters at a time; the last ones may be padded, and the bits that
    the padding cuts off are not looked at. *)
Fixpoint quanta (s : string) : res string :=
  match s with
  | "" => Ok ""
  | String a (String b (String c (String d rest))) =>
      match value a, value b, value c, value d with
      | Some x, Some y, Some z, Some w =>
          r ← quanta rest;
          Ok (String (of_byte (x * 4 + y / 16)) (String (of_byte (y mod 16 * 16 + z / 4)) (String (of_byte (z mod 4 * 64 + w)) r)))
      | Some x, Some y, Some z, None =>
          if decide (d = "="%char ∧ rest = "") then
            Ok (String (of_byte (x * 4 + y / 16)) (String (of_byte (y mod 16 * 16 + z / 4)) ""))
          else Err errCorruptInput
      | Some x, Some y, None, None =>
          if decide (c = "="%char ∧ d = "="%char ∧ rest = "") then Ok (String (of_byte (x * 4 + y / 16)) "")
          else Err errCorruptInput
      | _, _, _, _ => Err errCorruptInput
      end
  | _ => Err errCorruptInput
  end.

(** Line breaks are skipped. *)
Fixpoint without_breaks (s : string) : string :=
  match s with
  | "" => ""
  | String c s => if decide (byte_of c = 10 ∨ byte_of c = 13) then without_breaks s else String c (without_breaks s)
  end.
Definition DecodeString (s : string) : res string := quanta (without_breaks s).

Lemma base64_char_ok n : 0 ≤ n < 64 → value (char n) = Some n ∧ ¬ (byte_of (char n) = 10 ∨ byte_of (char n) = 13).
Proof.
  intros Hn. assert (Forall (λ n, value (char n) = Some n ∧ ¬ (byte_of (char n) = 10 ∨ byte_of (char n) = 13)) (seqZ 0 64)) as Hall.
  { apply (bool_decide_unpack _). vm_compute. exact I. }
  rewrite Forall_forall in Hall. apply Hall, elem_of_seqZ. lia.
Qed.
Lemma value_char n : 0 ≤ n < 64 → value (char n) = Some n.
Proof. apply base64_char_ok. Qed.
Lemma without_breaks_char n s : 0 ≤ n < 64 → without_breaks (String (char n) s) = String (char n) (without_breaks s).
Proof. intros Hn. cbn [without_breaks]. by rewrite decide_False by apply base64_char_ok, Hn. Qed.

Lemma of_byte_eq c z : z = byte_of c → of_byte z = c.
Proof. intros ->. apply of_byte_of. Qed.

(** What was encoded is decoded. *)
Lemma base64_roundtrip b : DecodeString (EncodeToString b) = Ok b.
Proof.
  unfold DecodeString. remember (String.length b) as n eqn:E. assert (String.length b ≤ n)%nat as Hn by lia. clear E.
  revert b Hn. induction n as [|n IH]; intros [|a [|b [|c r]]] Hn; cbn [String.length] in Hn; try lia; try done;
    cbn [EncodeToString]; pose proof (byte_of_range a); try pose proof (byte_of_range b); try pose proof (byte_of_range c);
    rewrite !without_breaks_char by (Z.to_euclidean_division_equations; lia).
  - change (without_breaks "==") with "==". cbn [quanta].
    rewrite !value_char by (Z.to_euclidean_division_equations; lia). cbn. 
    f_equal. f_equal. apply of_byte_eq. Z.to_euclidean_division_equations; lia.
  - change (without_breaks "=") with "=". cbn [quanta].
    rewrite !value_char by (Z.to_euclidean_division_equations; lia). cbn.
    f_equal. f_equal; [|f_equal]; apply of_byte_eq; Z.to_euclidean_division_equations; lia.
  - cbn [quanta]. rewrite !value_char by (Z.to_euclidean_division_equations; lia).
    rewrite IH by lia. cbn. f_equal. f_equal; [|f_equal; [|f_equal]]; apply of_byte_eq; Z.to_euclidean_division_equations; lia.
Qed.
End Base64.
