(* ===== verification/Sorter.v ===== *)
(** Package utils/sorter: a sorter for slices (sort.go).

    [sort.Sort] of the standard library works on the slice through [Len], [Less]
    and [Swap] only, ends in ascending order and does not say which order equal
    elements get; for short slices it is an insertion sort, which is written out
    here. *)
From stdpp Require Import list sorting.
From Stdlib Require Import ZArith Lia.
From S2P Require Import Prelude GoStd.

Module Sorter.

Section Sorter.
Context {T : Type}.

Record GenericSorter := mkSorter { Items : list T; By : T → T → bool }.

Definition Len (gs : GenericSorter) : nat := length (Items gs).

(** An index out of range panics. *)
Definition Swap (i j : nat) (gs : GenericSorter) : res GenericSorter :=
  x ← deref (Items gs !! i);
  y ← deref (Items gs !! j);
  Ok (mkSorter (<[i := y]> (<[j := x]> (Items gs))) (By gs)).
Definition Less (i j : nat) (gs : GenericSorter) : res bool :=
  x ← deref (Items gs !! i);
  y ← deref (Items gs !! j);
  Ok (By gs x y).

(** * [sort.Sort] *)

Inductive swapped : GenericSorter → GenericSorter → Prop :=
| swapped_refl gs : swapped gs gs
| swapped_step gs i j gs' gs'' : Swap i j gs = Ok gs' → swapped gs' gs'' → swapped gs gs''.
Definition ascending (gs : GenericSorter) : Prop :=
  ∀ i, (S i < Len gs)%nat → Less (S i) i gs = Ok false.
Definition sort_Sort (gs gs' : GenericSorter) : Prop := swapped gs gs' ∧ ascending gs'.

(** [Sort]; the slice is sorted in place. *)
Definition Sort (items : list T) (by_ : T → T → bool) (items' : list T) : Prop :=
  sort_Sort (mkSorter items by_) (mkSorter items' by_).

(** The insertion sort of short slices: [for j := i; j > 0 && Less(j, j-1); j--],
    for each [i] (from 1 on; nothing happens for 0). *)
Fixpoint insert_down (j : nat) (gs : GenericSorter) : res GenericSorter :=
  match j with
  | O => Ok gs
  | S k => less ← Less j k gs; if less : bool then gs ← Swap j k gs; insert_down k gs else Ok gs
  end.
Fixpoint insertionSort (n i : nat) (gs : GenericSorter) : res GenericSorter :=
  match n with
  | O => Ok gs
  | S n => gs ← insert_down i gs; insertionSort n (S i) gs
  end.

(** * What it gives *)

Lemma Swap_spec i j gs x y :
  Items gs !! i = Some x → Items gs !! j = Some y →
  Swap i j gs = Ok (mkSorter (<[i := y]> (<[j := x]> (Items gs))) (By gs)).
Proof. intros Hi Hj. unfold Swap. by rewrite Hi, Hj. Qed.

Lemma insert_Permutation (l : list T) j y z : l !! j = Some y → y :: <[j := z]> l ≡ₚ z :: l.
Proof.
  revert j. induction l as [|x l IH]; intros j Hj; [done|]. destruct j as [|j].
  - injection Hj as ->. apply perm_swap.
  - etrans; [apply perm_swap|]. etrans; [|apply perm_swap]. constructor. by apply IH.
Qed.

Lemma swap_Permutation (l : list T) i j x y :
  l !! i = Some x → l !! j = Some y → <[i := y]> (<[j := x]> l) ≡ₚ l.
Proof.
  intros Hi Hj. destruct (decide (i = j)) as [->|Hne].
  - rewrite Hi in Hj. injection Hj as ->. rewrite (list_insert_id l j y) by done. by rewrite list_insert_id.
  - revert i j Hne Hi Hj. induction l as [|z l IH]; intros i j Hne Hi Hj; [done|].
    destruct i as [|i], j as [|j]; [done|..].
    + injection Hi as <-. by apply insert_Permutation.
    + injection Hj as <-. by apply insert_Permutation.
    + apply (Permutation_cons eq_refl). apply IH; [congruence|done..].
Qed.

Lemma swapped_Permutation gs gs' : swapped gs gs' → Items gs' ≡ₚ Items gs ∧ By gs' = By gs.
Proof.
  induction 1 as [gs|gs i j gs' gs'' Hs Hsw [IH1 IH2]]; [done|]. unfold Swap in Hs.
  destruct (Items gs !! i) as [x|] eqn:Hi; [|done]. cbn in Hs. destruct (Items gs !! j) as [y|] eqn:Hj; [|done].
  cbn in Hs. injection Hs as <-. cbn in *. split; [|done]. rewrite IH1. by apply swap_Permutation.
Qed.

(** A strict weak order, as [sort.Interface] asks for: what is not less is
    transitive. *)
Record weak_order (by_ : T → T → bool) : Prop := {
  wo_asym x y : by_ x y = true → by_ y x = false;
  wo_trans x y z : by_ y x = false → by_ z y = false → by_ z x = false }.

(** [Sort] leaves the elements of the slice, in an order in which no later one is
    less than an earlier one. *)
Lemma Sort_sorted items by_ items' :
  weak_order by_ → Sort items by_ items' →
  items' ≡ₚ items ∧ StronglySorted (λ x y, by_ y x = false) items'.
Proof.
  intros Hw [Hs Ha]. destruct (swapped_Permutation _ _ Hs) as [Hp _]. split; [done|]. cbn in *.
  apply Sorted_StronglySorted; [intros x y z; by apply (wo_trans by_ Hw)|].
  clear Hs Hp. unfold ascending, Len, Less in Ha. cbn in Ha. induction items' as [|x l IH]; [constructor|].
  constructor.
  - apply IH. intros i Hi. apply (Ha (S i)). cbn. lia.
  - destruct l as [|y l]; constructor. specialize (Ha O ltac:(cbn; lia)). cbn in Ha. by injection Ha.
Qed.

(** When different elements are never equal in the order, there is one such
    order. *)
Lemma Sort_unique items by_ l1 l2 :
  weak_order by_ → (∀ x y, by_ x y = false → by_ y x = false → x = y) →
  Sort items by_ l1 → Sort items by_ l2 → l1 = l2.
Proof.
  intros Hw Ht H1 H2. destruct (Sort_sorted _ _ _ Hw H1) as [P1 S1]. destruct (Sort_sorted _ _ _ Hw H2) as [P2 S2].
  apply (StronglySorted_unique_strong (λ x y, by_ y x = false)); [|done..|by rewrite P1].
  intros x y _ _ Hx Hy. by apply Ht.
Qed.

(** ** The insertion sort does it *)

Lemma swapped_trans gs1 gs2 gs3 : swapped gs1 gs2 → swapped gs2 gs3 → swapped gs1 gs3.
Proof. induction 1; [done|]. intros ?. econstructor; eauto. Qed.

(** The element after [l1] moves down past those that it is less than. *)
Lemma insert_down_spec (by_ : T → T → bool) l1 x l2 :
  ∃ la lb, l1 = la ++ lb ∧
    insert_down (length l1) (mkSorter (l1 ++ x :: l2) by_) = Ok (mkSorter (la ++ x :: lb ++ l2) by_) ∧
    swapped (mkSorter (l1 ++ x :: l2) by_) (mkSorter (la ++ x :: lb ++ l2) by_) ∧
    Forall (λ y, by_ x y = true) lb ∧ (∀ y, last la = Some y → by_ x y = false).
Proof.
  revert l2. induction l1 as [|y l1 IH] using rev_ind; intros l2.
  { exists [], []. repeat constructor. done. }
  rewrite length_app, Nat.add_1_r. cbn [insert_down]. rewrite <-app_assoc. cbn [app].
  assert (∀ z (l : list T), (l1 ++ y :: z :: l) !! S (length l1) = Some z ∧ (l1 ++ y :: z :: l) !! length l1 = Some y) as Hl.
  { intros z l. split; rewrite lookup_app_r by lia; [by replace (S (length l1) - length l1)%nat with 1%nat by lia|].
    by rewrite Nat.sub_diag. }
  destruct (Hl x l2) as [Hx Hy]. unfold Less. cbn [Items By]. rewrite Hx, Hy. cbn [deref mbind res_bind].
  destruct (by_ x y) eqn:Hb.
  - assert (Swap (S (length l1)) (length l1) (mkSorter (l1 ++ y :: x :: l2) by_) = Ok (mkSorter (l1 ++ x :: y :: l2) by_)) as Hs.
    { rewrite (Swap_spec _ _ (mkSorter (l1 ++ y :: x :: l2) by_) x y Hx Hy). cbn [Items By]. do 2 f_equal.
      rewrite insert_app_r_alt by lia. rewrite Nat.sub_diag. cbn.
      rewrite insert_app_r_alt by lia. by replace (S (length l1) - length l1)%nat with 1%nat by lia. }
    rewrite Hs. destruct (IH (y :: l2)) as (la & lb & -> & Hd & Hsw & Hf & Hla).
    exists la, (lb ++ [y]). cbn [mbind res_bind].
    assert (la ++ x :: (lb ++ [y]) ++ l2 = la ++ x :: lb ++ y :: l2) as -> by (by rewrite <-app_assoc).
    split_and!; [by rewrite app_assoc|exact Hd| | |done].
    + econstructor; [exact Hs|exact Hsw].
    + apply Forall_app. by repeat constructor.
  - exists (l1 ++ [y]), []. rewrite app_nil_r, <-app_assoc. cbn [app].
    split_and!; [done..|constructor|constructor|]. intros z. rewrite last_snoc. by intros [= <-].
Qed.

Lemma insert_sorted by_ la lb x :
  weak_order by_ → StronglySorted (λ x y, by_ y x = false) (la ++ lb) →
  Forall (λ y, by_ x y = true) lb → (∀ y, last la = Some y → by_ x y = false) →
  StronglySorted (λ x y, by_ y x = false) (la ++ x :: lb).
Proof.
  intros Hw Hs Hb Ha. apply Sorted_StronglySorted; [intros a b c; by apply (wo_trans by_ Hw)|].
  apply StronglySorted_Sorted in Hs. revert Hs Ha. induction la as [|a la IH]; cbn; intros Hs Ha.
  - constructor; [done|]. destruct lb as [|b lb]; constructor. inversion Hb; subst. by apply (wo_asym by_ Hw).
  - inversion Hs as [|? ? Hs' Hh]; subst. constructor.
    + apply IH; [done|]. intros y Hy. apply Ha. by destruct la.
    + destruct la as [|a' la]; cbn; [constructor; by apply Ha|]. inversion Hh; subst. by constructor.
Qed.

Lemma insertionSort_spec by_ l1 l2 :
  weak_order by_ → StronglySorted (λ x y, by_ y x = false) l1 →
  ∃ l, insertionSort (length l2) (length l1) (mkSorter (l1 ++ l2) by_) = Ok (mkSorter l by_) ∧
    swapped (mkSorter (l1 ++ l2) by_) (mkSorter l by_) ∧ StronglySorted (λ x y, by_ y x = false) l.
Proof.
  intros Hw. revert l1. induction l2 as [|x l2 IH]; intros l1 Hs.
  { rewrite app_nil_r. exists l1. split_and!; [done|constructor|done]. }
  destruct (insert_down_spec by_ l1 x l2) as (la & lb & -> & Hd & Hsw & Hf & Hla). cbn [length insertionSort]. rewrite Hd.
  cbn [mbind res_bind]. destruct (IH (la ++ x :: lb)) as (l & Hi & Hsw' & Hl); [by apply insert_sorted|].
  rewrite <-!app_assoc in Hi, Hsw'. cbn [app] in Hi, Hsw'. exists l.
  replace (S (length (la ++ lb))) with (length (la ++ x :: lb)) by (rewrite !length_app; cbn; lia).
  split_and!; [done| |done]. by eapply swapped_trans.
Qed.

(** On every slice the insertion sort is a [sort.Sort]. *)
Lemma insertionSort_Sort items by_ :
  weak_order by_ → ∃ items', insertionSort (length items) 0 (mkSorter items by_) = Ok (mkSorter items' by_) ∧ Sort items by_ items'.
Proof.
  intros Hw. destruct (insertionSort_spec by_ [] items Hw ltac:(constructor)) as (l & Hi & Hsw & Hl).
  exists l. split; [exact Hi|]. split; [exact Hsw|]. intros i Hi'. unfold Len, Less in *. cbn in *.
  destruct (lookup_lt_is_Some_2 l i ltac:(lia)) as [x Hx]. destruct (lookup_lt_is_Some_2 l (S i) Hi') as [y Hy].
  rewrite Hx, Hy. cbn. f_equal. apply StronglySorted_Sorted in Hl. clear -Hl Hx Hy.
  revert i Hx Hy. induction Hl as [|a l Hl IH Hh]; intros i Hx Hy; [done|]. destruct i as [|i]; [|by apply (IH i)].
  injection Hx as ->. destruct l as [|b l]; [done|]. injection Hy as ->. by inversion Hh.
Qed.
End Sorter.
End Sorter.
