(* ===== verification/GoOs.v ===== *)
(** Packages os, path/filepath and fmt: what the command line uses of them.

    A file system is the content of each file and the set of directories.
    Device and permission errors are an argument ([deny]) of each operation.
    Of [fmt], the two verbs the tables are printed with, and what [Printf] makes
    of an argument that does not fit its verb. *)
From stdpp Require Import gmap strings list sorting.
From Stdlib Require Import ZArith Lia Ascii.
From S2P Require Import Prelude GoStd.
Open Scope Z_scope.

(** * Package strings *)

Definition HasSuffix (s suffix : string) : bool :=
  let n := (String.length s - String.length suffix)%nat in
  (String.length suffix <=? String.length s)%nat && bool_decide (string_drop n s = suffix).
Definition TrimSuffix (s suffix : string) : string :=
  if HasSuffix s suffix then String.substring 0 (String.length s - String.length suffix) s else s.

Definition Repeat (s : string) (n : nat) : string := String.concat "" (replicate n s).

(** * Package path/filepath *)

(** The elements of a path without the empty ones. *)
Definition path_elems (p : string) : list string := filter (λ s, s ≠ "") (Split p "/").
Definition is_abs (p : string) : bool := HasPrefix p "/".
Definition path_of (abs : bool) (elems : list string) : string :=
  if abs then "/" +:+ Join elems "/" else Join elems "/".

(** [filepath.Base] *)
Definition Base (p : string) : string :=
  if decide (p = "") then "."
  else match last (path_elems p) with Some e => e | None => "/" end.

(** The directories above a path, from the outermost; the root and the current
    directory, which always exist, are left out. *)
Definition ancestors (p : string) : list string :=
  (λ n, path_of (is_abs p) (take n (path_elems p))) <$> seq 1 (length (path_elems p) - 1).
Definition Dir (p : string) : option string := last (ancestors p).

(** * Package os *)

Record FS := mkFS { fs_files : gmap string string; fs_dirs : gset string }.

Definition errNotExist : string := "no such file or directory".
Definition errIsDir : string := "is a directory".
Definition errNotDir : string := "not a directory".
Definition IsNotExist (e : string) : bool := bool_decide (e = errNotExist).

Section OS.
(** The error of the device, or of missing permissions, for a path. *)
Context (deny : string → error).

Definition exists_ (fs : FS) (p : string) : bool :=
  bool_decide (is_Some (fs_files fs !! p)) || bool_decide (p ∈ fs_dirs fs).

Definition os_Stat (fs : FS) (p : string) : res unit :=
  match deny p with
  | Some e => Err e
  | None => if exists_ fs p then Ok tt else Err errNotExist
  end.

Definition os_ReadFile (fs : FS) (p : string) : res string :=
  match deny p with
  | Some e => Err e
  | None =>
      if decide (p ∈ fs_dirs fs) then Err errIsDir
      else match fs_files fs !! p with Some d => Ok d | None => Err errNotExist end
  end.

(** [os.WriteFile], and [os.Create] when [data] is empty: the directory of the
    file must exist. *)
Definition os_WriteFile (p data : string) (fs : FS) : FS * error :=
  match deny p with
  | Some e => (fs, Some e)
  | None =>
      if decide (p ∈ fs_dirs fs) then (fs, Some errIsDir)
      else match Dir p with
           | Some d =>
               if decide (d ∈ fs_dirs fs) then (mkFS (<[p := data]> (fs_files fs)) (fs_dirs fs), None)
               else (fs, Some errNotExist)
           | None => (mkFS (<[p := data]> (fs_files fs)) (fs_dirs fs), None)
           end
  end.

(** Makes the missing ones of a list of directories, the outermost first. *)
Fixpoint make_dirs (l : list string) (fs : FS) : FS * error :=
  match l with
  | [] => (fs, None)
  | d :: l =>
      if decide (d ∈ fs_dirs fs) then make_dirs l fs
      else if decide (is_Some (fs_files fs !! d)) then (fs, Some errNotDir)
      else match deny d with
           | Some e => (fs, Some e)
           | None => make_dirs l (mkFS (fs_files fs) ({[d]} ∪ fs_dirs fs))
           end
  end.

Definition os_MkdirAll (p : string) (fs : FS) : FS * error := make_dirs (ancestors p ++ [p]) fs.

(** The name of [p] in directory [d], if it is there. *)
Definition child_of (d p : string) : option string :=
  if HasPrefix p (d +:+ "/") then
    let n := TrimPrefix p (d +:+ "/") in
    if decide (n = "") then None else if Contains n "/" then None else Some n
  else None.

(** [os.ReadDir]: the names, sorted. *)
Definition os_ReadDir (fs : FS) (d : string) : res (list string) :=
  match deny d with
  | Some e => Err e
  | None =>
      if decide (d ∈ fs_dirs fs) then
        Ok (merge_sort String.le (omap (child_of d) (elements (dom (fs_files fs) ∪ fs_dirs fs))))
      else if decide (is_Some (fs_files fs !! d)) then Err errNotDir else Err errNotExist
  end.
End OS.

(** * Package fmt *)

(** The dynamic types of the values that the commands print. *)
Inductive Value : Type :=
| VString (s : string)
| VInt (z : Z)
| VUint (z : Z)
| VUint64 (z : Z)
| VUint8 (z : Z)
| VBig (z : option Z).

Inductive Verb : Type := Verb_s | Verb_d.

(** Width 10, aligned to the left. *)
Definition pad10 (s : string) : string := s +:+ Repeat " " (10 - String.length s).

Definition type_name (v : Value) : string :=
  match v with
  | VString _ => "string" | VInt _ => "int" | VUint _ => "uint" | VUint64 _ => "uint64"
  | VUint8 _ => "uint8" | VBig _ => "*big.Int"
  end.

(** The value under [%v]. *)
Definition text (v : Value) : string :=
  match v with
  | VString s => s
  | VInt z | VUint z | VUint64 z | VUint8 z | VBig (Some z) => FormatInt z 10
  | VBig None => "<nil>"
  end.

(** Whether a verb suits a value; a [*big.Int] formats itself under both,
    a nil one without padding. *)
Definition suits (verb : Verb) (v : Value) : bool :=
  match verb, v with
  | _, VBig _ => true
  | Verb_s, VString _ => true
  | Verb_s, _ => false
  | Verb_d, VString _ => false
  | Verb_d, _ => true
  end.

Definition verb_char (verb : Verb) : string := match verb with Verb_s => "s" | Verb_d => "d" end.

(** ["%-10s "] or ["%-10d "] applied to a value. *)
Definition cell (verb : Verb) (v : Value) : string :=
  if suits verb v then match v with VBig None => text v | _ => pad10 (text v) end +:+ " "
  else "%!" +:+ verb_char verb +:+ "(" +:+ type_name v +:+ "=" +:+ pad10 (text v) +:+ ") ".

(** [fmt.Sprintf] of cells and a line break: a verb without a value, and the
    values without a verb, are reported in the text. *)
Fixpoint cells (verbs : list Verb) (values : list Value) : string * list Value :=
  match verbs, values with
  | [], values => ("", values)
  | verb :: verbs, [] =>
      let '(s, extra) := cells verbs [] in ("%!" +:+ verb_char verb +:+ "(MISSING) " +:+ s, extra)
  | verb :: verbs, v :: values =>
      let '(s, extra) := cells verbs values in (cell verb v +:+ s, extra)
  end.

Definition newline : string := String (ascii_of_nat 10) "".

Definition Sprintf_cells (verbs : list Verb) (values : list Value) : string :=
  let '(s, extra) := cells verbs values in
  s +:+ newline +:+
  match extra with
  | [] => ""
  | _ => "%!(EXTRA " +:+ Join ((λ v, type_name v +:+ "=" +:+ text v) <$> extra) ", " +:+ ")"
  end.

(** * Facts *)

Lemma write_file_ok deny p data fs fs' :
  os_WriteFile deny p data fs = (fs', None) →
  fs' = mkFS (<[p := data]> (fs_files fs)) (fs_dirs fs) ∧ deny p = None ∧ p ∉ fs_dirs fs.
Proof.
  unfold os_WriteFile. destruct (deny p); [done|]. case_decide; [done|].
  destruct (Dir p); [case_decide; [|done]|]; intros [= <-]; by split_and!.
Qed.

(** A file just written is read back. *)
Lemma read_written deny p data fs fs' :
  os_WriteFile deny p data fs = (fs', None) → os_ReadFile deny fs' p = Ok data.
Proof.
  intros (-> & Hd & Hp)%write_file_ok. unfold os_ReadFile. rewrite Hd. cbn.
  rewrite decide_False by done. by rewrite lookup_insert_eq.
Qed.

Lemma make_dirs_ok deny l fs fs' :
  make_dirs deny l fs = (fs', None) →
  fs_files fs' = fs_files fs ∧ fs_dirs fs' = list_to_set l ∪ fs_dirs fs.
Proof.
  revert fs. induction l as [|d l IH]; intros fs; cbn; [intros [= <-]; split; [done|set_solver]|].
  case_decide as Hd; [intros [-> ->]%IH; split; [done|set_solver]|].
  case_decide; [done|]. destruct (deny d); [done|]. intros [-> ->]%IH. split; [done|cbn; set_solver].
Qed.

(** [MkdirAll] leaves the files, and makes the directory and those above it. *)
Lemma mkdir_all_ok deny p fs fs' :
  os_MkdirAll deny p fs = (fs', None) →
  fs_files fs' = fs_files fs ∧ fs_dirs fs' = list_to_set (ancestors p) ∪ {[p]} ∪ fs_dirs fs.
Proof. intros [-> ->]%make_dirs_ok. split; [done|]. rewrite list_to_set_app_L. set_solver. Qed.

Lemma string_drop_length n s : String.length (string_drop n s) = (String.length s - n)%nat.
Proof. revert n. induction s as [|c s IH]; intros [|n]; cbn; [done..|]. apply IH. Qed.

Lemma substring_app (a b : string) : String.substring 0 (String.length a) (a +:+ b) = a.
Proof. induction a as [|c a IH]; [by destruct b|]. rewrite string_app_cons. cbn. by rewrite IH. Qed.

Lemma TrimSuffix_app (a b : string) : HasSuffix (a +:+ b) b = true ∧ TrimSuffix (a +:+ b) b = a.
Proof.
  assert (HasSuffix (a +:+ b) b = true) as Hs.
  { unfold HasSuffix. rewrite string_length_app. apply andb_true_iff. split; [apply Nat.leb_le; lia|].
    rewrite Nat.add_sub, string_drop_app. by apply bool_decide_eq_true. }
  split; [done|]. unfold TrimSuffix. by rewrite Hs, string_length_app, Nat.add_sub, substring_app.
Qed.
