(* ===== verification/Types.v ===== *)
(** Package relayer/types and relayer/events: messages, their keys, the route
    message with its retry bookkeeping, and the message cache.

    [Message.Sn] is a pointer to a [big.Int], and [MessageKey], the key type of
    the message cache, holds that pointer: two keys are equal in Go when their
    pointers are.  A [BigInt] below is such a heap cell: its address and the
    integer it holds, which nothing writes once the cell is published in a
    message.  What is stored on disk holds the integer only.  The records are
    therefore parametric in the type of serial numbers: [BigInt] in memory,
    [Z] on disk. *)
From stdpp Require Import gmap strings list.
From Stdlib Require Import ZArith Lia.
From S2P Require Import Prelude GoStd.
Open Scope Z_scope.

(** * Pointers to big integers *)

Record BigInt := mkBigInt { bi_addr : positive; bi_val : Z }.

#[export] Instance BigInt_eq_dec : EqDecision BigInt.
Proof. solve_decision. Defined.
#[export] Instance BigInt_countable : Countable BigInt.
Proof. by apply (inj_countable' (λ b, (bi_addr b, bi_val b)) (λ p, mkBigInt p.1 p.2)); intros []. Defined.

(** * Constants (package events, and the variables of types.go) *)

Definition EmitMessage : string := "emitMessage".
Definition CallMessage : string := "callMessage".
Definition RollbackMessage : string := "rollbackMessage".
Definition RevertMessage : string := "revertMessage".
Definition SetAdmin : string := "setAdmin".
Definition GetFee : string := "getFee".
Definition SetFee : string := "setFee".
Definition ClaimFee : string := "claimFee".

(** Durations are in nanoseconds. *)
Definition Second : Z := 1000000000.
Definition MaxTxRetry : Z := 5.
Definition StaleMarkCount : Z := u8 (MaxTxRetry * 3).
Definition RouteDuration : Z := 3 * Second.
Definition XcallContract : string := "xcall".
Definition ConnectionContract : string := "connection".
Definition SupportedContracts : list string := [XcallContract; ConnectionContract].
Definition RetryInterval : Z := 3 * Second + RouteDuration.

(** * Messages *)

Record MessageOf (I : Type) := mkMessage {
  m_Dst : string;
  m_Src : string;
  m_Sn : option I;
  m_Data : string;
  m_MessageHeight : Z;
  m_EventType : string;
  m_ReqID : option Z }.
Arguments mkMessage {_} _ _ _ _ _ _ _.
Arguments m_Dst {_} _. Arguments m_Src {_} _. Arguments m_Sn {_} _. Arguments m_Data {_} _.
Arguments m_MessageHeight {_} _. Arguments m_EventType {_} _. Arguments m_ReqID {_} _.

Record BlockInfoOf (I : Type) := mkBlockInfo {
  bi_Height : Z;
  bi_Messages : list (MessageOf I) }.
Arguments mkBlockInfo {_} _ _. Arguments bi_Height {_} _. Arguments bi_Messages {_} _.

Record MessageKeyOf (I : Type) := mkMessageKey {
  k_Sn : option I;
  k_Src : string;
  k_Dst : string;
  k_EventType : string }.
Arguments mkMessageKey {_} _ _ _ _.
Arguments k_Sn {_} _. Arguments k_Src {_} _. Arguments k_Dst {_} _. Arguments k_EventType {_} _.

Abbreviation Message := (MessageOf BigInt).
Abbreviation BlockInfo := (BlockInfoOf BigInt).
Abbreviation MessageKey := (MessageKeyOf BigInt).

#[export] Instance MessageKeyOf_eq_dec {I} `{EqDecision I} : EqDecision (MessageKeyOf I).
Proof. solve_decision. Defined.
#[export] Instance MessageKeyOf_countable {I} `{Countable I} : Countable (MessageKeyOf I).
Proof.
  by apply (inj_countable' (λ k, (k_Sn k, k_Src k, k_Dst k, k_EventType k))
    (λ '(a, b, c, d), mkMessageKey a b c d)); intros [].
Defined.
#[export] Instance MessageOf_eq_dec {I} `{EqDecision I} : EqDecision (MessageOf I).
Proof. solve_decision. Defined.
#[export] Instance MessageOf_countable {I} `{Countable I} : Countable (MessageOf I).
Proof.
  by apply (inj_countable'
    (λ m, (m_Dst m, m_Src m, m_Sn m, m_Data m, m_MessageHeight m, m_EventType m, m_ReqID m))
    (λ '(a, b, c, d, e, f, g), mkMessage a b c d e f g)); intros [].
Defined.

Definition NewMessageKey {I} (sn : option I) (src dst eventType : string) : MessageKeyOf I :=
  mkMessageKey sn src dst eventType.

(** [Message.MessageKey()] *)
Definition Message_MessageKey {I} (m : MessageOf I) : MessageKeyOf I :=
  NewMessageKey (m_Sn m) (m_Src m) (m_Dst m) (m_EventType m).

(** [Sn.String()]: a nil [big.Int] prints as "<nil>". *)
Definition Sn_String (sn : option Z) : string :=
  match sn with Some z => big_String z | None => "<nil>" end.

(** The integer behind the pointer. *)
Definition sn_val (sn : option BigInt) : option Z := bi_val <$> sn.

(** What is written to disk: the pointer is replaced by its integer. *)
Definition message_wire (m : Message) : MessageOf Z :=
  mkMessage (m_Dst m) (m_Src m) (sn_val (m_Sn m)) (m_Data m) (m_MessageHeight m)
    (m_EventType m) (m_ReqID m).

(** What reading back gives: a new cell, at [addr], holding the integer. *)
Definition sn_alloc (addr : positive) (sn : option Z) : option BigInt := mkBigInt addr <$> sn.

Definition message_alloc (addr : positive) (m : MessageOf Z) : Message :=
  mkMessage (m_Dst m) (m_Src m) (sn_alloc addr (m_Sn m)) (m_Data m) (m_MessageHeight m)
    (m_EventType m) (m_ReqID m).

Lemma message_wire_alloc a m : message_wire (message_alloc a m) = m.
Proof. destruct m as [? ? [sn|]]; reflexivity. Qed.

(** [ContractConfigMap.Validate] *)
Fixpoint Validate_loop (c : gmap string string) (l : list string) : error :=
  match l with
  | [] => None
  | contract :: l =>
      match c !! contract with
      | None => Validate_loop c l
      | Some val => if decide (val = "") then Validate_loop c l else Validate_loop c l
      end
  end.
Definition ContractConfigMap_Validate (c : gmap string string) : error :=
  Validate_loop c SupportedContracts.

Record EventMap := mkEventMap {
  em_Address : string;
  em_ContractName : string;
  em_SigType : gmap string string }.

(** * Route messages *)

(** Times are nanoseconds since Go's zero [time.Time]; 0 is the zero time. *)
Record RouteMessageOf (I : Type) := mkRouteMessage {
  rm_Message : MessageOf I;
  rm_Retry : Z;
  rm_Processing : bool;
  rm_LastTry : Z }.
Arguments mkRouteMessage {_} _ _ _ _.
Arguments rm_Message {_} _. Arguments rm_Retry {_} _.
Arguments rm_Processing {_} _. Arguments rm_LastTry {_} _.
Abbreviation RouteMessage := (RouteMessageOf BigInt).

#[export] Instance RouteMessageOf_eq_dec {I} `{EqDecision I} : EqDecision (RouteMessageOf I).
Proof. solve_decision. Defined.
#[export] Instance RouteMessageOf_countable {I} `{Countable I} : Countable (RouteMessageOf I).
Proof.
  by apply (inj_countable' (λ r, (rm_Message r, rm_Retry r, rm_Processing r, rm_LastTry r))
    (λ '(a, b, c, d), mkRouteMessage a b c d)); intros [].
Defined.

Definition NewRouteMessage {I} (m : MessageOf I) : RouteMessageOf I := mkRouteMessage m 0 false 0.

Definition rm_key (r : RouteMessage) : MessageKey := Message_MessageKey (rm_Message r).

(** [time.Duration(math.Pow(2, float64(n)))]: exact below 2^63; above, the
    conversion is implementation-dependent and gives the least [int64] on
    amd64. *)
Definition pow2_duration (n : Z) : Z := if n <? 63 then 2 ^ n else - 2 ^ 63.

(** [RetryInterval * 2^Retry], in [int64] nanoseconds. *)
Definition backoff (retry : Z) : Z := i64 (RetryInterval * pow2_duration retry).

Definition AddNextTry {I} (now : Z) (r : RouteMessageOf I) : RouteMessageOf I :=
  mkRouteMessage (rm_Message r) (rm_Retry r) (rm_Processing r) (now + backoff (rm_Retry r)).

Definition IncrementRetry {I} (now : Z) (r : RouteMessageOf I) : RouteMessageOf I :=
  AddNextTry now
    (mkRouteMessage (rm_Message r) (u8 (rm_Retry r + 1)) (rm_Processing r) (rm_LastTry r)).

Definition ToggleProcessing {I} (r : RouteMessageOf I) : RouteMessageOf I :=
  mkRouteMessage (rm_Message r) (rm_Retry r) (negb (rm_Processing r)) (rm_LastTry r).

Definition GetRetry {I} (r : RouteMessageOf I) : Z := rm_Retry r.

Definition IsProcessing {I} (now : Z) (r : RouteMessageOf I) : bool :=
  rm_Processing r || negb ((rm_LastTry r =? 0) || (rm_LastTry r <? now)).

Definition IsStale {I} (r : RouteMessageOf I) : bool := StaleMarkCount <=? rm_Retry r.

Definition IsElasped {I} (now duration : Z) (r : RouteMessageOf I) : bool :=
  rm_LastTry r + duration <? now.

Definition route_wire (r : RouteMessage) : RouteMessageOf Z :=
  mkRouteMessage (message_wire (rm_Message r)) (rm_Retry r) (rm_Processing r) (rm_LastTry r).
Definition route_alloc (addr : positive) (r : RouteMessageOf Z) : RouteMessage :=
  mkRouteMessage (message_alloc addr (rm_Message r)) (rm_Retry r) (rm_Processing r) (rm_LastTry r).

Lemma route_wire_alloc a r : route_wire (route_alloc a r) = r.
Proof. destruct r. unfold route_wire, route_alloc. cbn. by rewrite message_wire_alloc. Qed.

(** * Transaction results *)

Definition Failed : Z := 0.
Definition Success : Z := 1.

Record TxResponse := mkTxResponse {
  tr_Height : Z;
  tr_TxHash : string;
  tr_Codespace : string;
  tr_Code : Z;
  tr_Data : string }.

(** [MessageKeyWithMessageHeight]: the embedded key and its height. *)
Record KeyWithHeightOf (I : Type) := mkKeyWithHeight {
  kh_Key : MessageKeyOf I;
  kh_Height : Z }.
Arguments mkKeyWithHeight {_} _ _. Arguments kh_Key {_} _. Arguments kh_Height {_} _.

Record TransactionObjectOf (I : Type) := mkTransactionObject {
  to_Key : KeyWithHeightOf I;
  to_TxHash : string;
  to_TxHeight : Z }.
Arguments mkTransactionObject {_} _ _ _.
Arguments to_Key {_} _. Arguments to_TxHash {_} _. Arguments to_TxHeight {_} _.

#[export] Instance KeyWithHeightOf_eq_dec {I} `{EqDecision I} : EqDecision (KeyWithHeightOf I).
Proof. solve_decision. Defined.
#[export] Instance TransactionObjectOf_eq_dec {I} `{EqDecision I} : EqDecision (TransactionObjectOf I).
Proof. solve_decision. Defined.
#[export] Instance TransactionObjectOf_countable {I} `{Countable I} : Countable (TransactionObjectOf I).
Proof.
  by apply (inj_countable' (λ t, (kh_Key (to_Key t), kh_Height (to_Key t), to_TxHash t, to_TxHeight t))
    (λ '(a, b, c, d), mkTransactionObject (mkKeyWithHeight a b) c d)); intros [[]].
Defined.

Definition NewMessagekeyWithMessageHeight {I} (k : MessageKeyOf I) (h : Z) : KeyWithHeightOf I :=
  mkKeyWithHeight k h.
Definition NewTransactionObject {I} (k : KeyWithHeightOf I) (txHash : string) (height : Z) :
  TransactionObjectOf I := mkTransactionObject k txHash height.

Record Receipt := mkReceipt { rc_TxHash : string; rc_Height : Z; rc_Status : bool }.

Definition key_wire (k : MessageKey) : MessageKeyOf Z :=
  mkMessageKey (sn_val (k_Sn k)) (k_Src k) (k_Dst k) (k_EventType k).
Definition key_alloc (addr : positive) (k : MessageKeyOf Z) : MessageKey :=
  mkMessageKey (sn_alloc addr (k_Sn k)) (k_Src k) (k_Dst k) (k_EventType k).
Definition tx_wire (t : TransactionObjectOf BigInt) : TransactionObjectOf Z :=
  mkTransactionObject (mkKeyWithHeight (key_wire (kh_Key (to_Key t))) (kh_Height (to_Key t)))
    (to_TxHash t) (to_TxHeight t).

Definition tx_alloc (addr : positive) (t : TransactionObjectOf Z) : TransactionObjectOf BigInt :=
  mkTransactionObject (mkKeyWithHeight (key_alloc addr (kh_Key (to_Key t))) (kh_Height (to_Key t)))
    (to_TxHash t) (to_TxHeight t).

(** * Coins *)

Record Coin := mkCoin { co_Denom : string; co_Amount : Z }.

Definition NewCoin (denom : string) (amount : Z) : Coin := mkCoin (ToLower denom) amount.
(** [Coin.String] *)
Definition Coin_String (c : Coin) : string := FormatInt (co_Amount c) 10 +:+ co_Denom c.

(** * The message cache *)

(** [Messages map[MessageKey]*RouteMessage]: a key is mapped to the address of
    a route message. *)
Abbreviation MessageCache := (gmap MessageKey positive).

Definition NewMessageCache : MessageCache := ∅.

(** [Add(r)] for the route message [r] at address [p]. *)
Definition MessageCache_Add (p : positive) (r : RouteMessage) (c : MessageCache) : MessageCache :=
  <[rm_key r := p]> c.
Definition MessageCache_Len (c : MessageCache) : nat := size c.
Definition MessageCache_Remove (key : MessageKey) (c : MessageCache) : MessageCache := delete key c.
Definition MessageCache_Get (key : MessageKey) (c : MessageCache) : option positive := c !! key.

(** * Facts about keys and route messages *)

Lemma IncrementRetry_message {I} now (r : RouteMessageOf I) :
  rm_Message (IncrementRetry now r) = rm_Message r.
Proof. done. Qed.
Lemma ToggleProcessing_message {I} (r : RouteMessageOf I) :
  rm_Message (ToggleProcessing r) = rm_Message r.
Proof. done. Qed.
Lemma IncrementRetry_key now r : rm_key (IncrementRetry now r) = rm_key r.
Proof. done. Qed.
Lemma ToggleProcessing_key r : rm_key (ToggleProcessing r) = rm_key r.
Proof. done. Qed.

Lemma ToggleProcessing_involutive {I} (r : RouteMessageOf I) :
  ToggleProcessing (ToggleProcessing r) = r.
Proof. destruct r. unfold ToggleProcessing. cbn. by rewrite negb_involutive. Qed.

Lemma IsProcessing_false {I} now (r : RouteMessageOf I) :
  IsProcessing now r = false ↔ rm_Processing r = false ∧ (rm_LastTry r = 0 ∨ rm_LastTry r < now).
Proof.
  unfold IsProcessing. rewrite orb_false_iff, negb_false_iff, orb_true_iff, Z.eqb_eq, Z.ltb_lt. done.
Qed.

Lemma IsProcessing_idle {I} now (r : RouteMessageOf I) :
  rm_Processing r = false → 0 < rm_LastTry r → IsProcessing now r = true ↔ now ≤ rm_LastTry r.
Proof.
  intros Hp Hl. unfold IsProcessing. rewrite Hp. cbn [orb].
  replace (rm_LastTry r =? 0) with false by lia. cbn [orb]. rewrite negb_true_iff. lia.
Qed.

Lemma StaleMarkCount_value : StaleMarkCount = 15.
Proof. reflexivity. Qed.

(** Up to thirty tries the wait is exact; the thirty-first overflows. *)
Lemma backoff_exact r : 0 ≤ r ≤ 30 → backoff r = RetryInterval * 2 ^ r.
Proof.
  intros Hr. unfold backoff, pow2_duration. replace (r <? 63) with true by lia.
  apply i64_small. unfold RetryInterval, RouteDuration, Second.
  assert (2 ^ r ≤ 2 ^ 30) by (apply Z.pow_le_mono_r; lia).
  assert (0 < 2 ^ r) by (apply Z.pow_pos_nonneg; lia). lia.
Qed.

Lemma backoff_overflow : backoff 31 < 0.
Proof. vm_compute. done. Qed.

(** Exponential backoff.  Attempt number [Retry r + 1 <= 30] made at time
    [t] keeps the message out of the routing loop until
    [t + RetryInterval * 2^(Retry r + 1)] included, and no longer (when it is
    not being routed any more). *)
Theorem backoff_window {I} (r : RouteMessageOf I) (t now : Z)
  (Hr : 0 ≤ rm_Retry r < 30) (Ht : 0 < t) (Hidle : rm_Processing r = false) :
  IsProcessing now (IncrementRetry t r) = true ↔ now ≤ t + RetryInterval * 2 ^ (rm_Retry r + 1).
Proof.
  rewrite IsProcessing_idle; cbn [IncrementRetry AddNextTry rm_Processing rm_LastTry rm_Retry];
    rewrite ?u8_small, ?backoff_exact by lia; [done|done|].
  assert (0 < 2 ^ (rm_Retry r + 1)) by (apply Z.pow_pos_nonneg; lia).
  unfold RetryInterval, RouteDuration, Second. lia.
Qed.

Lemma backoff_window_witness :
  (0 ≤ rm_Retry (NewRouteMessage (mkMessage (I := Z) "b" "a" (Some 1) "" 1 EmitMessage None)) < 30) ∧
  (IsProcessing 12000000001 (IncrementRetry 1 (NewRouteMessage
     (mkMessage (I := Z) "b" "a" (Some 1) "" 1 EmitMessage None))) = true
   ↔ 12000000001 ≤ 1 + RetryInterval * 2 ^ (0 + 1)).
Proof.
  split; [cbn; lia|]. apply (backoff_window (NewRouteMessage
    (mkMessage (I := Z) "b" "a" (Some 1) "" 1 EmitMessage None)) 1 12000000001); cbn; [lia|lia|done].
Defined.
