(* ===== verification/GoFloat.v ===== *)
(** Package math/big: the floating-point numbers that balances are printed
    with ([Coin.Calculate] of relayer/types).

    A float is the fraction it stands for; rounding is to the nearest, ties to
    even, as [big.Float], [float64] and [fmt]'s ["%.18f"] have it. *)
From stdpp Require Import gmap strings list.
From Stdlib Require Import ZArith Lia.
From S2P Require Import Prelude GoStd Types.
Open Scope Z_scope.

(** The integer nearest to [num / den]. *)
Definition rne (num den : Z) : Z :=
  let q := num / den in
  let r := num mod den in
  if 2 * r <? den then q
  else if den <? 2 * r then q + 1
  else if Z.even q then q else q + 1.

(** [num / den * 2 ^ k], for either sign of [k]. *)
Definition scale (k : Z) (x : Z * Z) : Z * Z :=
  if 0 <=? k then (x.1 * 2 ^ k, x.2) else (x.1, x.2 * 2 ^ (- k)).

(** A positive fraction rounded to a mantissa of [bits] bits. *)
Definition round_to (bits : Z) (x : Z * Z) : Z * Z :=
  if x.1 =? 0 then (0, 1)
  else
    let k := bits + Z.log2 x.2 - Z.log2 x.1 in
    let y := scale k x in
    let k := if 2 ^ bits * y.2 <=? y.1 then k - 1 else k in
    let y := scale k x in
    scale (- k) (rne y.1 y.2, 1).

(** [Coin.Calculate]: the amount over 1e18, as a [big.Float] of 64 bits, then as
    a [float64], printed with eighteen decimals. *)
Definition unit18 : Z := 10 ^ 18.
Definition pad18 (s : string) : string := String.concat "" (replicate (18 - String.length s) "0") +:+ s.

Definition Calculate_value (amount : Z) : Z :=
  let x := round_to 53 (round_to 64 (amount, unit18)) in rne (x.1 * unit18) x.2.

Definition Coin_Calculate (c : Coin) : string :=
  let v := Calculate_value (co_Amount c) in
  FormatInt (v / unit18) 10 +:+ "." +:+ pad18 (FormatInt (v mod unit18) 10) +:+ " " +:+ co_Denom c.

(** * How far a rounded number can be off *)

Lemma rne_error num den : 0 < den → - den ≤ 2 * (rne num den * den - num) ≤ den.
Proof.
  intros Hd. unfold rne. pose proof (Z.div_mod num den). pose proof (Z.mod_pos_bound num den Hd).
  destruct (Z.ltb_spec (2 * (num mod den)) den); [nia|].
  destruct (Z.ltb_spec den (2 * (num mod den))); [nia|]. destruct (Z.even _); nia.
Qed.

(** Two fractions that differ by at most one part in [2 ^ bits]. *)
Definition close (bits : Z) (x y : Z * Z) : Prop :=
  2 ^ bits * Z.abs (y.1 * x.2 - x.1 * y.2) ≤ x.1 * y.2.

Lemma scale_den k x : 0 < x.2 → 0 < (scale k x).2.
Proof.
  intros. unfold scale. destruct (Z.leb_spec 0 k); cbn; [done|].
  pose proof (Z.pow_pos_nonneg 2 (- k)). nia.
Qed.

(** Scaling by [k] and back multiplies both sides alike. *)
Lemma close_scaled bits k x m :
  0 < x.2 → 2 ^ bits * Z.abs (m * (scale k x).2 - (scale k x).1) ≤ (scale k x).1 →
  close bits x (scale (- k) (m, 1)).
Proof.
  intros Hx. unfold close, scale. destruct (Z.leb_spec 0 k) as [Hk|Hk]; cbn [fst snd].
  - destruct (Z.eq_dec k 0) as [->|]; cbn [fst snd].
    + change (0 <=? - 0) with true. cbn [fst snd]. change (2 ^ (- 0)) with 1. change (2 ^ 0) with 1.
      by rewrite !Z.mul_1_r.
    + destruct (Z.leb_spec 0 (- k)); [lia|]. cbn [fst snd]. by rewrite Z.opp_involutive, Z.mul_1_l.
  - destruct (Z.leb_spec 0 (- k)); [|lia]. cbn [fst snd]. rewrite Z.mul_1_r.
    by replace ((m * 2 ^ (- k)) * x.2) with (m * (x.2 * 2 ^ (- k))) by ring.
Qed.

(** The mantissa chosen has [bits] bits. *)
Lemma scale_large bits x :
  0 < x.1 → 0 < x.2 → 0 < bits →
  let k := bits + Z.log2 x.2 - Z.log2 x.1 in
  let y := scale k x in
  2 ^ (bits - 1) * y.2 ≤ y.1.
Proof.
  intros Hn Hd Hb k y. pose proof (Z.log2_spec x.1 Hn) as [Hn1 Hn2].
  pose proof (Z.log2_spec x.2 Hd) as [Hd1 Hd2]. pose proof (Z.log2_nonneg x.1). pose proof (Z.log2_nonneg x.2).
  assert (2 ^ (bits - 1) * 2 ^ Z.succ (Z.log2 x.2) = 2 ^ (bits + Z.log2 x.2)) as Hp.
  { rewrite <-Z.pow_add_r by lia. f_equal. lia. }
  assert (0 < 2 ^ (bits - 1)) by (apply Z.pow_pos_nonneg; lia).
  unfold y, scale. destruct (Z.leb_spec 0 k) as [Hk|Hk]; cbn [fst snd].
  - assert (2 ^ (bits + Z.log2 x.2) = 2 ^ k * 2 ^ Z.log2 x.1) as Hq.
    { rewrite <-Z.pow_add_r by lia. f_equal. unfold k. lia. }
    assert (0 < 2 ^ k) by (apply Z.pow_pos_nonneg; lia). nia.
  - assert (2 ^ (- k) * 2 ^ (bits + Z.log2 x.2) = 2 ^ Z.log2 x.1) as Hq.
    { rewrite <-Z.pow_add_r by lia. f_equal. unfold k. lia. }
    assert (0 < 2 ^ (- k)) by (apply Z.pow_pos_nonneg; lia). nia.
Qed.

Lemma scale_pred k x : (scale (k - 1) x).1 * 2 * (scale k x).2 = (scale k x).1 * (scale (k - 1) x).2.
Proof.
  unfold scale. destruct (Z.leb_spec 0 k) as [Hk|Hk], (Z.leb_spec 0 (k - 1)) as [Hk1|Hk1]; try lia; cbn [fst snd].
  - replace k with (Z.succ (k - 1)) at 2 by lia. rewrite Z.pow_succ_r by lia. ring.
  - replace k with 0 by lia. change (2 ^ (- (0 - 1))) with 2. change (2 ^ 0) with 1. ring.
  - replace (- (k - 1)) with (Z.succ (- k)) by lia. rewrite Z.pow_succ_r by lia. ring.
Qed.

(** A rounded fraction is close to the one it stands for. *)
Lemma round_to_close bits x :
  0 < x.1 → 0 < x.2 → 0 < bits → close bits x (round_to bits x).
Proof.
  intros Hn Hd Hb. unfold round_to. destruct (Z.eqb_spec x.1 0); [lia|].
  set (k0 := bits + Z.log2 x.2 - Z.log2 x.1). set (k := if _ : bool then k0 - 1 else k0).
  pose proof (scale_den k x Hd) as Hy.
  assert (2 ^ bits = 2 ^ (bits - 1) * 2) as Hp.
  { replace bits with (Z.succ (bits - 1)) at 1 by lia. rewrite Z.pow_succ_r by lia. ring. }
  assert (2 ^ (bits - 1) * (scale k x).2 ≤ (scale k x).1) as Hlarge.
  { pose proof (scale_large bits x Hn Hd Hb) as Hl. cbn zeta in Hl. fold k0 in Hl. unfold k.
    destruct (Z.leb_spec (2 ^ bits * (scale k0 x).2) (scale k0 x).1) as [H0|]; [|done].
    pose proof (scale_pred k0 x) as Hs. pose proof (scale_den k0 x Hd).
    pose proof (scale_den (k0 - 1) x Hd). nia. }
  apply close_scaled; [done|]. pose proof (rne_error (scale k x).1 (scale k x).2 Hy). nia.
Qed.

Lemma close_pos bits x y : 0 < x.1 → 0 < x.2 → 0 < y.2 → 1 < bits → close bits x y → 0 < y.1.
Proof.
  unfold close. intros. assert (2 ^ 1 < 2 ^ bits) by (apply Z.pow_lt_mono_r; lia). nia.
Qed.

Lemma round_to_den bits x : 0 < (round_to bits x).2.
Proof. unfold round_to. destruct (_ =? _); [done|]. by apply scale_den. Qed.

(** Amounts up to 2^51 of the smallest unit are printed exactly. *)
Theorem Calculate_exact amount (Ha : 0 ≤ amount ≤ 2 ^ 51) : Calculate_value amount = amount.
Proof.
  unfold Calculate_value. destruct (Z.eq_dec amount 0) as [->|Hne]; [done|].
  set (v1 := round_to 64 (amount, unit18)). set (v2 := round_to 53 v1).
  assert (0 < unit18) as HU by done.
  assert (close 64 (amount, unit18) v1) as H1 by (apply round_to_close; cbn [fst snd]; lia).
  pose proof (round_to_den 64 (amount, unit18)) as Hd1. fold v1 in Hd1.
  assert (0 < v1.1) as Hn1 by (eapply close_pos; [..|exact H1]; cbn [fst snd]; lia).
  assert (close 53 v1 v2) as H2 by (apply round_to_close; lia).
  pose proof (round_to_den 53 v1) as Hd2. fold v2 in Hd2.
  pose proof (rne_error (v2.1 * unit18) v2.2 Hd2) as Hr.
  unfold close in H1, H2. cbn [fst snd] in H1. change (2 ^ 64) with 18446744073709551616 in H1.
  change (2 ^ 53) with 9007199254740992 in H2. change (2 ^ 51) with 2251799813685248 in Ha.
  set (e1 := v1.1 * unit18 - amount * v1.2) in *. set (e2 := v2.1 * v1.2 - v1.1 * v2.2) in *.
  set (k := rne _ _) in *.
  assert ((v2.1 * unit18 - amount * v2.2) * v1.2 = e2 * unit18 + e1 * v2.2) as He by (unfold e1, e2; ring).
  assert (9007199254740992 * (Z.abs e2 * unit18) ≤ (amount * v1.2 + Z.abs e1) * v2.2) as Hb2.
  { unfold e1 in *. nia. }
  set (E := v2.1 * unit18 - amount * v2.2) in *.
  assert (Z.abs E * v1.2 ≤ Z.abs e2 * unit18 + Z.abs e1 * v2.2) as HE.
  { rewrite <-(Z.abs_eq v1.2), <-Z.abs_mul, He by lia. etransitivity; [apply Z.abs_triangle|].
    rewrite !Z.abs_mul, (Z.abs_eq unit18), (Z.abs_eq v2.2) by lia. lia. }
  assert (18446744073709551616 * (Z.abs e1 * v2.2) ≤ amount * v1.2 * v2.2) as H1' by nia.
  assert (amount * v1.2 * v2.2 ≤ 2251799813685248 * (v1.2 * v2.2)) as HP by nia.
  assert (2 * (Z.abs E * v1.2) < v2.2 * v1.2) as Hlt by lia.
  assert (2 * Z.abs E < v2.2) as Hlt' by nia.
  assert (- v2.2 < (k - amount) * v2.2 < v2.2) by (unfold E in *; lia). nia.
Qed.

Lemma Calculate_exact_witness :
  Coin_Calculate (mkCoin "eth" 2251799813685247) = "0.002251799813685247 eth".
Proof. unfold Coin_Calculate. cbn [co_Amount]. rewrite Calculate_exact by lia. reflexivity. Defined.

(** Above, the last digits can be lost: a coin and one unit prints as a coin. *)
Example Calculate_inexact : Coin_Calculate (mkCoin "eth" (10 ^ 18 + 1)) = "1.000000000000000000 eth".
Proof. vm_compute. reflexivity. Qed.
