(* ===== verification/Store.v ===== *)
(** Package relayer/store: the key-value store interface, the pagination
    record, and the block, message and finality stores built on the interface.

    [Store] is the Go interface of store.go; [StoreSpec] what its clients rely
    on, discharged for the LevelDB implementation in LvlDB.v.  Encoding to JSON
    is a third-party library: [Codec] is its pair of functions, [CodecSpec] its
    round trip. *)
From stdpp Require Import gmap strings list sorting.
From Stdlib Require Import ZArith Lia Ascii.
From S2P Require Import Prelude GoStd Types.
Open Scope Z_scope.

(** * The interface *)

(** Reads, writes and iteration over the rows whose key has a given prefix: the
    rows [iter.Next()] yields, in order, and [iter.Error()] at the end. *)
Class Store (St : Type) := {
  GetByKey : St → string → res string;
  SetByKey : St → string → string → St * error;
  DeleteByKey : St → string → St * error;
  NewIterator : St → string → list (string * string) * error;
  ClearStore : St → St * error }.

(** Rows in key order, of the keys with prefix [p]. *)
Definition row_le (x y : string * string) : Prop := String.le x.1 y.1.
#[export] Instance row_le_dec x y : Decision (row_le x y).
Proof. unfold row_le. apply _. Defined.

Definition prefix_rows (m : gmap string string) (p : string) : list (string * string) :=
  merge_sort row_le (filter (λ kv, HasPrefix kv.1 p = true) (map_to_list m)).

(** What a store promises while its medium does not fail ([healthy]): it is a
    map from keys to values, iterated in key order.  Each write is atomic:
    [versions] are the contents that the medium has had after the writes since
    it was opened, any of which may be the last if the process dies; a store
    that does not record them has none. *)
Class StoreSpec (St : Type) `{Store St} := {
  contents : St → gmap string string;
  healthy : St → Prop;
  get_present s k v : healthy s → contents s !! k = Some v → GetByKey s k = Ok v;
  errNotFound : string;
  get_absent s k : healthy s → contents s !! k = None → GetByKey s k = Err errNotFound;
  set_spec s k v : healthy s →
    ∃ s', SetByKey s k v = (s', None) ∧ healthy s' ∧ contents s' = <[k := v]> (contents s);
  delete_spec s k : healthy s →
    ∃ s', DeleteByKey s k = (s', None) ∧ healthy s' ∧ contents s' = delete k (contents s);
  iter_spec s p : healthy s → NewIterator s p = (prefix_rows (contents s) p, None);
  clear_spec s : healthy s →
    ∃ s', ClearStore s = (s', None) ∧ healthy s' ∧ contents s' = ∅;
  versions : St → list (gmap string string);
  versions_set s k v : healthy s → let s' := (SetByKey s k v).1 in
    versions s' = versions s ∨ versions s' = versions s ++ [contents s'];
  versions_delete s k : healthy s → let s' := (DeleteByKey s k).1 in
    versions s' = versions s ∨ versions s' = versions s ++ [contents s'];
  versions_clear s : healthy s → let s' := (ClearStore s).1 in
    versions s' = versions s ∨ versions s' = versions s ++ [contents s'] }.

(** [jsoniter.Marshal] (the bytes, or an error) and [jsoniter.Unmarshal] at a
    type. *)
Class Codec (A : Type) := { Marshal : A → string + string; Unmarshal : string → res A }.
Class CodecSpec (A : Type) `{Codec A} := {
  marshal_total (a : A) : ∃ s, Marshal a = inl s;
  unmarshal_marshal (a : A) s : Marshal a = inl s → Unmarshal s = Ok a }.

(** * Keys *)

Definition GetKey (keys : list string) : string := Join keys "-".

(** * Pagination *)

Record Pagination := mkPagination { pg_Limit : Z; pg_Offset : Z; pg_All : bool }.

Definition NewPagination : Pagination := mkPagination 0 0 false.
Definition GetAll (p : Pagination) : Pagination := mkPagination (pg_Limit p) (pg_Offset p) true.
Definition WithLimit (l : Z) (p : Pagination) : Pagination :=
  mkPagination l (pg_Offset p) (pg_All p).
Definition WithOffset (o : Z) (p : Pagination) : Pagination :=
  mkPagination (pg_Limit p) o (pg_All p).
Definition CalculateOffset (p : Pagination) (page : Z) : Z :=
  if page <=? 1 then 0 else u64 (page * pg_Limit p).
Definition WithPage (page limit : Z) (p : Pagination) : Pagination :=
  let p1 := mkPagination limit (pg_Offset p) (pg_All p) in
  mkPagination limit (CalculateOffset p1 page) (pg_All p1).

(** Division by a zero limit panics. *)
Definition CalculateTotalPages (p : Pagination) (total : Z) : res Z :=
  if pg_Limit p =? 0 then Panic
  else let page := u64 total / pg_Limit p in
       Ok (if negb (u64 total mod pg_Limit p =? 0) then u64 (page + 1) else page).

(** * The stores *)

(** The number of rows under [key]; shared by the message and finality stores. *)
Definition getCountByKey {St} `{Store St} (db : St) (key : string) : res Z :=
  let '(rows, err) := NewIterator db key in
  match err with Some e => Err e | None => Ok (u64 (Z.of_nat (length rows))) end.

Module BlockStore.
Section BlockStore.
Context {St : Type} `{Store St} `{Codec Z} (prefix : string).

Definition block_GetKey (nId : string) : string := GetKey [prefix; nId].

Definition StoreBlock (db : St) (height : Z) (nId : string) : St * error :=
  match Marshal height with
  | inl heightByte => SetByKey db (block_GetKey nId) heightByte
  | inr err => (db, Some err)
  end.

(** [return height, jsoniter.Unmarshal(v, &height)]: the height is read after
    the call. *)
Definition GetLastStoredBlock (db : St) (nId : string) : res Z :=
  v ← GetByKey db (block_GetKey nId); Unmarshal v.
End BlockStore.
End BlockStore.

Module MessageStore.
Section MessageStore.
Context {St : Type} `{Store St} `{Codec (RouteMessageOf Z)} (prefix : string).

(** The row of a message: its source chain and serial number only. *)
Definition message_key (src : string) (sn : option Z) : string :=
  GetKey [prefix; src; Sn_String sn].

Definition TotalCount (db : St) : res Z := getCountByKey db (GetKey [prefix]).
Definition TotalCountByChain (db : St) (nId : string) : res Z :=
  getCountByKey db (GetKey [prefix; nId]).

Definition errNilMessage : string := "error while storingMessage: message cannot be nil".

Definition StoreMessage (db : St) (message : option RouteMessage) : St * error :=
  match message with
  | None => (db, Some errNilMessage)
  | Some message =>
      let key := message_key (m_Src (rm_Message message)) (sn_val (m_Sn (rm_Message message))) in
      match Marshal (route_wire message) with
      | inl msgByte => SetByKey db key msgByte
      | inr err => (db, Some err)
      end
  end.

(** What is decoded; the caller allocates the pointers of the result. *)
Definition GetMessage (db : St) (k : MessageKey) : res (RouteMessageOf Z) :=
  v ← GetByKey db (message_key (k_Src k) (sn_val (k_Sn k))); Unmarshal v.

(** The loop of [GetMessages]: [messages] are those read so far, [err] is
    what [iter.Error()] returns once the rows are exhausted. *)
Fixpoint GetMessages_loop (limit : Z) (rows : list (string * string)) (err : error)
    (messages : list (RouteMessageOf Z)) : res (list (RouteMessageOf Z)) :=
  match rows with
  | [] => match err with None => Ok messages | Some e => Err e end
  | (_, v) :: rows =>
      msg ← Unmarshal v;
      let messages := messages ++ [msg] in
      if u64 (Z.of_nat (length messages)) =? limit then Ok messages
      else GetMessages_loop limit rows err messages
  end.

Definition GetMessages (db : St) (nId : string) (p : Pagination) : res (list (RouteMessageOf Z)) :=
  let '(rows, err) := NewIterator db (GetKey [prefix; nId]) in
  GetMessages_loop (pg_Limit p) rows err [].

Definition DeleteMessage (db : St) (k : MessageKey) : St * error :=
  DeleteByKey db (message_key (k_Src k) (sn_val (k_Sn k))).
End MessageStore.
End MessageStore.

Module FinalityStore.
Section FinalityStore.
Context {St : Type} `{Store St} `{Codec (TransactionObjectOf Z)} (prefix : string).

(** The row of a transaction object: destination chain and serial number. *)
Definition tx_key (dst : string) (sn : option Z) : string := GetKey [prefix; dst; Sn_String sn].

Definition tx_TotalCount (db : St) : res Z := getCountByKey db (GetKey [prefix]).
Definition tx_TotalCountByChain (db : St) (nId : string) : res Z :=
  getCountByKey db (GetKey [prefix; nId]).

Definition StoreTxObject (db : St) (message : option (TransactionObjectOf BigInt)) : St * error :=
  match message with
  | None => (db, Some MessageStore.errNilMessage)
  | Some t =>
      let k := kh_Key (to_Key t) in
      match Marshal (tx_wire t) with
      | inl msgByte => SetByKey db (tx_key (k_Dst k) (sn_val (k_Sn k))) msgByte
      | inr err => (db, Some err)
      end
  end.

Definition GetTxObject (db : St) (k : MessageKey) : res (TransactionObjectOf Z) :=
  v ← GetByKey db (tx_key (k_Dst k) (sn_val (k_Sn k))); Unmarshal v.

(** The loop over all rows, when [p.All]. *)
Fixpoint GetTxObjects_all (rows : list (string * string))
    (messages : list (TransactionObjectOf Z)) : res (list (TransactionObjectOf Z)) :=
  match rows with
  | [] => Ok messages
  | (_, v) :: rows => msg ← Unmarshal v; GetTxObjects_all rows (messages ++ [msg])
  end.

(** [for i := uint(0); i < p.Limit && iter.Next(); i++]: the fuel is the
    number of rows left. *)
Fixpoint GetTxObjects_limit (i limit : Z) (rows : list (string * string)) (err : error)
    (messages : list (TransactionObjectOf Z)) : res (list (TransactionObjectOf Z)) :=
  if i <? limit then
    match rows with
    | [] => match err with None => Ok messages | Some e => Err e end
    | (_, v) :: rows =>
        msg ← Unmarshal v; GetTxObjects_limit (i + 1) limit rows err (messages ++ [msg])
    end
  else Ok messages.

Definition GetTxObjects (db : St) (nId : string) (p : Pagination) :
    res (list (TransactionObjectOf Z)) :=
  let '(rows, err) := NewIterator db (GetKey [prefix; nId]) in
  if pg_All p then
    messages ← GetTxObjects_all rows [];
    match err with None => Ok messages | Some e => Err e end
  else GetTxObjects_limit 0 (pg_Limit p) rows err [].

Definition DeleteTxObject (db : St) (k : MessageKey) : St * error :=
  DeleteByKey db (tx_key (k_Dst k) (sn_val (k_Sn k))).
End FinalityStore.
End FinalityStore.

Import BlockStore MessageStore FinalityStore.

(** * Facts about keys *)

Lemma GetKey_2 a b : GetKey [a; b] = a +:+ String "-" b.
Proof. done. Qed.

Lemma GetKey_3 a b c : GetKey [a; b; c] = a +:+ String "-" (b +:+ String "-" c).
Proof. done. Qed.

(** Source and non-negative serial number are read off the key. *)
Lemma message_key_inj prefix src1 src2 n1 n2 :
  0 ≤ n1 → 0 ≤ n2 →
  message_key prefix src1 (Some n1) = message_key prefix src2 (Some n2) → src1 = src2 ∧ n1 = n2.
Proof.
  intros H1 H2 Heq. unfold message_key in Heq. rewrite !GetKey_3 in Heq.
  apply string_app_inj_l in Heq. injection Heq as Heq.
  apply split_last_dash in Heq as [-> Heq]; [|by apply big_String_no_dash..].
  split; [done|]. by apply big_String_inj.
Qed.

(** Every message of a chain whose NID extends [nId] lies under [nId]'s prefix. *)
Lemma message_key_prefix prefix nId x sn :
  HasPrefix (message_key prefix (nId +:+ x) sn) (GetKey [prefix; nId]) = true.
Proof.
  unfold HasPrefix. apply prefix_spec. exists (x +:+ String "-" (Sn_String sn)).
  unfold message_key. rewrite GetKey_2, GetKey_3. by autorewrite with str.
Qed.

Lemma elem_of_prefix_rows m p k v :
  (k, v) ∈ prefix_rows m p ↔ m !! k = Some v ∧ HasPrefix k p = true.
Proof.
  unfold prefix_rows. rewrite (merge_sort_Permutation _ _), list_elem_of_filter, elem_of_map_to_list.
  cbn. naive_solver.
Qed.

Lemma length_prefix_rows m p : (length (prefix_rows m p) ≤ size m)%nat.
Proof.
  unfold prefix_rows. rewrite (merge_sort_Permutation _ _).
  etrans; [apply length_filter|]. by rewrite length_map_to_list.
Qed.

Lemma size_insert_le (m : gmap string string) k v : (size (<[k := v]> m) ≤ S (size m))%nat.
Proof. rewrite map_size_insert. destruct (m !! k); cbn; lia. Qed.

#[export] Instance row_le_trans : Transitive row_le.
Proof. intros x y z. unfold row_le. apply transitivity. Qed.
#[export] Instance row_le_total : Total row_le.
Proof. intros x y. unfold row_le. apply (total String.le). Qed.

Lemma prefix_rows_sorted m p : StronglySorted row_le (prefix_rows m p).
Proof. apply StronglySorted_merge_sort; apply _. Qed.

(** * Correctness of the stores *)

Section Correct.
Context {St : Type} `{StoreSpec St}.
Context `{CodecSpec (RouteMessageOf Z)} `{CodecSpec (TransactionObjectOf Z)} `{CodecSpec Z}.
Implicit Types (db : St) (prefix nId : string).

Lemma get_by_contents db db' k :
  healthy db → healthy db' → contents db !! k = contents db' !! k → GetByKey db k = GetByKey db' k.
Proof.
  intros Hd Hd' Heq. destruct (contents db' !! k) eqn:Hk.
  - by rewrite !(get_present _ _ s).
  - by rewrite !get_absent.
Qed.

Lemma StoreMessage_spec prefix db (m : RouteMessage) :
  healthy db →
  ∃ db' v, StoreMessage prefix db (Some m) = (db', None) ∧ healthy db' ∧
    contents db' = <[message_key prefix (m_Src (rm_Message m)) (sn_val (m_Sn (rm_Message m))) := v]>
      (contents db) ∧ Unmarshal v = Ok (route_wire m).
Proof.
  intros Hdb. destruct (marshal_total (route_wire m)) as [v Hv].
  cbn [StoreMessage]. rewrite Hv.
  destruct (set_spec db (message_key prefix (m_Src (rm_Message m)) (sn_val (m_Sn (rm_Message m)))) v Hdb)
    as (db' & -> & Hh & Hc).
  exists db', v. split_and!; try done. by apply unmarshal_marshal.
Qed.

Lemma DeleteMessage_spec prefix db (k : MessageKey) :
  healthy db →
  ∃ db', DeleteMessage prefix db k = (db', None) ∧ healthy db' ∧
    contents db' = delete (message_key prefix (k_Src k) (sn_val (k_Sn k))) (contents db).
Proof. intros Hdb. apply delete_spec. done. Qed.

(** The message store is a map from (source, serial number): after
    [StoreMessage(m)], [GetMessage] of a key with the same source and serial
    number returns [m] (whatever the key's destination and event type), and
    any other key reads what it read before. *)
Theorem StoreMessage_GetMessage prefix db (m : RouteMessage) (b : BigInt)
  (Hdb : healthy db) (Hsn : m_Sn (rm_Message m) = Some b) (Hpos : 0 ≤ bi_val b) :
  ∃ db', StoreMessage prefix db (Some m) = (db', None) ∧ healthy db' ∧
    ∀ (k : MessageKey) (c : BigInt), k_Sn k = Some c → 0 ≤ bi_val c →
      GetMessage prefix db' k =
      if decide (k_Src k = m_Src (rm_Message m) ∧ bi_val c = bi_val b) then Ok (route_wire m)
      else GetMessage prefix db k.
Proof.
  destruct (StoreMessage_spec prefix db m Hdb) as (db' & v & Hs & Hh & Hc & Hv).
  exists db'. split_and!; [done..|]. intros k c Hk Hc0.
  unfold GetMessage. rewrite Hsn in Hc. rewrite Hk. cbn [sn_val fmap option_fmap option_map] in *.
  case_decide as Hdec.
  - destruct Hdec as [-> ->]. rewrite (get_present _ _ v); [done|done|].
    rewrite Hc. by rewrite lookup_insert_eq.
  - f_equal. apply get_by_contents; [done..|]. rewrite Hc. rewrite lookup_insert_ne; [done|].
    intros Heq. apply message_key_inj in Heq; naive_solver.
Qed.

(** [DeleteMessage] removes the row of that source and serial number and
    no other. *)
Theorem DeleteMessage_GetMessage prefix db (k : MessageKey) (b : BigInt)
  (Hdb : healthy db) (Hsn : k_Sn k = Some b) (Hpos : 0 ≤ bi_val b) :
  ∃ db', DeleteMessage prefix db k = (db', None) ∧ healthy db' ∧
    ∀ (k' : MessageKey) (c : BigInt), k_Sn k' = Some c → 0 ≤ bi_val c →
      GetMessage prefix db' k' =
      if decide (k_Src k' = k_Src k ∧ bi_val c = bi_val b) then Err errNotFound
      else GetMessage prefix db k'.
Proof.
  destruct (DeleteMessage_spec prefix db k Hdb) as (db' & Hs & Hh & Hc).
  exists db'. split_and!; [done..|]. intros k' c Hk Hc0.
  unfold GetMessage. rewrite Hsn in Hc. rewrite Hk. cbn [sn_val fmap option_fmap option_map] in *.
  case_decide as Hdec.
  - destruct Hdec as [-> ->]. rewrite get_absent; [done|done|].
    rewrite Hc. by rewrite lookup_delete_eq.
  - f_equal. apply get_by_contents; [done..|]. rewrite Hc. rewrite lookup_delete_ne; [done|].
    intros Heq. apply message_key_inj in Heq; naive_solver.
Qed.

(** ** Listing messages *)

Lemma GetMessages_loop_spec limit rows acc :
  0 ≤ limit < 2 ^ 64 →
  Z.of_nat (length acc + length rows) < 2 ^ 64 → limit = 0 ∨ Z.of_nat (length acc) < limit →
  GetMessages_loop limit rows None acc =
  (λ l, acc ++ l) <$> res_mapM (Unmarshal ∘ snd)
    (if limit =? 0 then rows else take (Z.to_nat limit - length acc) rows).
Proof.
  intros Hlim. revert acc. induction rows as [|[k v] rows IH]; intros acc Hlen Hacc.
  { cbn. rewrite take_nil. destruct (limit =? 0); cbn; by rewrite app_nil_r. }
  assert ((if limit =? 0 then (k, v) :: rows else take (Z.to_nat limit - length acc) ((k, v) :: rows))
    = (k, v) :: (if limit =? 0 then rows else take (Z.to_nat limit - S (length acc)) rows)) as ->.
  { destruct (Z.eqb_spec limit 0); [done|].
    destruct (Z.to_nat limit - length acc)%nat eqn:E; [lia|]. cbn. do 2 f_equal. lia. }
  cbn [GetMessages_loop res_mapM compose snd]. cbn [length] in Hlen.
  destruct (Unmarshal v) as [msg| |]; cbn [mbind res_bind]; [|done|done].
  rewrite length_app in *. cbn [length]. rewrite u64_small by lia.
  destruct (Z.eqb_spec (Z.of_nat (length acc + 1)) limit).
  - replace (limit =? 0) with false by lia.
    replace (Z.to_nat limit - S (length acc))%nat with O by lia. cbn. done.
  - rewrite IH by (rewrite length_app; cbn [length]; lia).
    rewrite length_app. cbn [length]. rewrite Nat.add_1_r.
    destruct (res_mapM _ _); cbn; [|done|done]. by rewrite <-app_assoc.
Qed.

(** [GetMessages] decodes the rows under the chain's prefix in key order,
    all of them for limit 0 and otherwise the first [Limit]; it fails only when
    one of those does not decode.  [Offset] and [All] are not read. *)
Theorem GetMessages_reference prefix db nId (p : Pagination)
  (Hdb : healthy db) (Hlim : 0 ≤ pg_Limit p < 2 ^ 64)
  (Hlen : Z.of_nat (length (prefix_rows (contents db) (GetKey [prefix; nId]))) < 2 ^ 64) :
  GetMessages prefix db nId p =
  let rows := prefix_rows (contents db) (GetKey [prefix; nId]) in
  res_mapM (Unmarshal ∘ snd) (if pg_Limit p =? 0 then rows else take (Z.to_nat (pg_Limit p)) rows).
Proof.
  unfold GetMessages. rewrite iter_spec by done.
  rewrite GetMessages_loop_spec by (cbn [length]; lia).
  cbn [length]. rewrite Nat.sub_0_r. by destruct (res_mapM _ _).
Qed.

(** What is listed are rows of the chain. *)
Lemma GetMessages_rows prefix db nId p (l : list (RouteMessageOf Z)) m :
  healthy db → GetMessages prefix db nId p = Ok l → m ∈ l →
  ∃ k v, contents db !! k = Some v ∧ HasPrefix k (GetKey [prefix; nId]) = true ∧ Unmarshal v = Ok m.
Proof.
  intros Hh. unfold GetMessages. rewrite iter_spec by done.
  set (is_row := λ m : RouteMessageOf Z, ∃ k v,
    contents db !! k = Some v ∧ HasPrefix k (GetKey [prefix; nId]) = true ∧ Unmarshal v = Ok m).
  assert (∀ rows acc, Forall (λ kv : string * string, contents db !! kv.1 = Some kv.2 ∧
      HasPrefix kv.1 (GetKey [prefix; nId]) = true) rows →
    GetMessages_loop (pg_Limit p) rows None acc = Ok l → m ∈ l → m ∈ acc ∨ is_row m) as HL.
  { intros rows. induction rows as [|[k v] rows IH]; intros acc Hrows; cbn.
    { intros [= ->]. auto. }
    apply Forall_cons in Hrows as [[Hkv Hp] Hrows]. intros (x & Hx & Hl)%res_bind_Ok Hm.
    assert (m ∈ acc ++ [x] ∨ is_row m) as Hcase by (case_match; [injection Hl as <-; by left|by eapply IH]).
    destruct Hcase as [[?| ->%list_elem_of_singleton]%elem_of_app|?]; [by left| |by right].
    right. by exists k, v. }
  intros Hl Hm. destruct (HL _ [] ltac:(apply Forall_forall; by intros [k v] ?%elem_of_prefix_rows) Hl Hm) as [?%elem_of_nil|?]; done.
Qed.

(** Every row under a chain's prefix decodes. *)
Definition decodable prefix db nId : Prop :=
  ∀ k v, contents db !! k = Some v → HasPrefix k (GetKey [prefix; nId]) = true →
    ∃ m : RouteMessageOf Z, Unmarshal v = Ok m.

Lemma decodable_rows prefix db nId :
  decodable prefix db nId →
  ∃ l, res_mapM (Unmarshal ∘ snd) (prefix_rows (contents db) (GetKey [prefix; nId])) = Ok l ∧
    ∀ k v (m : RouteMessageOf Z), contents db !! k = Some v →
      HasPrefix k (GetKey [prefix; nId]) = true → Unmarshal v = Ok m → m ∈ l.
Proof.
  intros Hdec. set (rows := prefix_rows _ _).
  assert (∀ r, r ∈ rows → ∃ m : RouteMessageOf Z, Unmarshal r.2 = Ok m) as Hrows.
  { intros [k v] [Hk Hp]%elem_of_prefix_rows. by eapply Hdec. }
  assert (∃ l, Forall2 (λ r (m : RouteMessageOf Z), Unmarshal r.2 = Ok m) rows l) as [l Hl].
  { clearbody rows. induction rows as [|r rows IH]; [by exists []|].
    destruct (Hrows r) as [m Hm]; [set_solver|]. destruct IH as [l Hl]; [set_solver|].
    exists (m :: l). by constructor. }
  exists l. split; [by apply res_mapM_Ok|]. intros k v m Hk Hp Hm.
  assert ((k, v) ∈ rows) as (i & Hi)%list_elem_of_lookup by by apply elem_of_prefix_rows.
  destruct (Forall2_lookup_l _ _ _ _ _ Hl Hi) as (m' & Hm' & Hu). cbn in Hu.
  rewrite Hm in Hu. injection Hu as ->. by eapply list_elem_of_lookup_2.
Qed.

(** Rows are found by key prefix, so listing a chain also lists the
    messages of every chain whose NID merely starts with the same characters
    ("0x1" lists "0x13.icon"'s messages). *)
Theorem GetMessages_prefix_leak prefix db nId (x : string) (m : RouteMessage)
  (Hdb : healthy db) (Hdec : decodable prefix db nId)
  (Hsrc : m_Src (rm_Message m) = nId +:+ x)
  (Hlen : Z.of_nat (size (contents db)) < 2 ^ 64 - 1) :
  ∃ db' l, StoreMessage prefix db (Some m) = (db', None) ∧
    GetMessages prefix db' nId (GetAll NewPagination) = Ok l ∧ route_wire m ∈ l.
Proof.
  destruct (StoreMessage_spec prefix db m Hdb) as (db' & v & Hs & Hh & Hc & Hv).
  rewrite Hsrc in Hc. set (key := message_key _ _ _) in *.
  assert (HasPrefix key (GetKey [prefix; nId]) = true) as Hp by apply message_key_prefix.
  destruct (decodable_rows prefix db' nId) as (l & Hl & Hin).
  { intros k w Hk Hkp. rewrite Hc in Hk. apply lookup_insert_Some in Hk as [[<- <-]|[_ Hk]]; eauto. }
  exists db', l. split_and!; [done| |].
  - unfold GetMessages. rewrite iter_spec by done.
    rewrite GetMessages_loop_spec; [|cbn; lia| |by left].
    + cbn [pg_Limit GetAll NewPagination Z.eqb length]. rewrite Hl. done.
    + cbn [length]. pose proof (length_prefix_rows (contents db') (GetKey [prefix; nId])).
      rewrite Hc in *. pose proof (size_insert_le (contents db) key v). lia.
  - apply (Hin key v); [|done|done]. rewrite Hc. apply lookup_insert_eq.
Qed.

(** ** Block heights *)

Lemma block_GetKey_inj prefix n1 n2 : block_GetKey prefix n1 = block_GetKey prefix n2 → n1 = n2.
Proof.
  unfold block_GetKey. rewrite !GetKey_2. intros Heq%string_app_inj_l. by injection Heq.
Qed.

(** The block store keeps one height per chain: [GetLastStoredBlock] reads
    what [StoreBlock] wrote, and the heights of other chains are untouched. *)
Theorem StoreBlock_GetLastStoredBlock prefix db (height : Z) nId (Hdb : healthy db) :
  ∃ db', StoreBlock prefix db height nId = (db', None) ∧ healthy db' ∧
    ∀ nId', GetLastStoredBlock prefix db' nId' =
      if decide (nId' = nId) then Ok height else GetLastStoredBlock prefix db nId'.
Proof.
  destruct (marshal_total height) as [v Hv]. unfold StoreBlock. rewrite Hv.
  destruct (set_spec db (block_GetKey prefix nId) v Hdb) as (db' & Hs & Hh & Hc).
  exists db'. split_and!; [done..|]. intros nId'. unfold GetLastStoredBlock. case_decide as Hd.
  - subst. rewrite (get_present _ _ v); [|done|by rewrite Hc, lookup_insert_eq].
    cbn. by apply unmarshal_marshal.
  - f_equal. apply get_by_contents; [done..|]. rewrite Hc. apply lookup_insert_ne.
    by intros ?%block_GetKey_inj.
Qed.
End Correct.

(** ** Pages *)

(** The pages of [WithPage] do not tile the list: page 1 starts at 0, but
    page [n >= 2] starts at [n * limit], so the second [limit] entries are on
    no page. *)
Theorem WithPage_gap (limit : Z) (i : Z)
  (Hl : 0 < limit) (Hi : limit ≤ i < 2 * limit) (page : Z) (Hb : 0 ≤ page * limit < 2 ^ 64) :
  let p := WithPage page limit NewPagination in
  ¬ (pg_Offset p ≤ i < pg_Offset p + pg_Limit p).
Proof.
  cbn. unfold CalculateOffset. cbn. destruct (Z.leb_spec page 1); [lia|].
  rewrite u64_small by lia. nia.
Qed.

Lemma WithPage_gap_witness :
  0 < 10 ∧ ¬ (pg_Offset (WithPage 2 10 NewPagination) ≤ 15
              < pg_Offset (WithPage 2 10 NewPagination) + pg_Limit (WithPage 2 10 NewPagination)).
Proof. split; [lia|]. apply (WithPage_gap 10 15); lia. Defined.

(** [CalculateTotalPages] is the number of pages of size [Limit] needed for
    [total] entries, and panics for a zero limit. *)
Theorem CalculateTotalPages_ceiling (p : Pagination) (total : Z)
  (Ht : 0 ≤ total < 2 ^ 63) (Hl : 0 ≤ pg_Limit p) :
  match CalculateTotalPages p total with
  | Ok n => (n - 1) * pg_Limit p < total ≤ n * pg_Limit p
  | Err _ => False
  | Panic => pg_Limit p = 0
  end.
Proof.
  unfold CalculateTotalPages. destruct (Z.eqb_spec (pg_Limit p) 0); [done|].
  rewrite (u64_small total) by lia.
  pose proof (Z.div_mod total (pg_Limit p) ltac:(lia)) as Hdm.
  pose proof (Z.mod_pos_bound total (pg_Limit p) ltac:(lia)).
  assert (total / pg_Limit p ≤ total) by (apply Z.div_le_upper_bound; nia).
  assert (0 ≤ total / pg_Limit p) by (apply Z.div_pos; lia).
  destruct (Z.eqb_spec (total mod pg_Limit p) 0); cbn [negb]; [|rewrite u64_small by lia]; nia.
Qed.

Lemma CalculateTotalPages_ceiling_witness :
  0 ≤ 25 < 2 ^ 63 ∧ match CalculateTotalPages (WithLimit 10 NewPagination) 25 with
  | Ok n => (n - 1) * 10 < 25 ≤ n * 10 | Err _ => False | Panic => 10 = 0 end.
Proof. split; [lia|]. apply (CalculateTotalPages_ceiling (WithLimit 10 NewPagination)); cbn; lia. Defined.
