(* ===== verification/LvlDB.v ===== *)
(** Package relayer/lvldb: the key-value store over LevelDB.

    LevelDB is a third-party library: [LevelDB] lists the calls the package
    makes, [LevelDBSpec] their documented behaviour.  The package then
    implements the [Store] interface ([lvldb_spec]).  [LvlFiles] opens, closes
    and removes it. *)
From stdpp Require Import gmap strings list.
From Stdlib Require Import ZArith Lia.
From S2P Require Import Prelude GoStd GoOs Types Store.

(** [leveldb.DB.Get], [Put], [Delete], [Write] of a batch of deletions,
    [NewIterator] over an optional key range, and [util.BytesPrefix]. *)
Class LevelDB (D R : Type) := {
  ldb_Get : D → string → res string;
  ldb_Put : D → string → string → D * error;
  ldb_Delete : D → string → D * error;
  ldb_NewIterator : D → option R → list (string * string) * error;
  ldb_Write : D → list string → D * error;
  BytesPrefix : string → R }.

Class LevelDBSpec (D R : Type) `{LevelDB D R} := {
  ldb_map : D → gmap string string;
  ldb_ok : D → Prop;
  ldb_ErrNotFound : string;
  ldb_get_spec d k : ldb_ok d →
    ldb_Get d k = match ldb_map d !! k with Some v => Ok v | None => Err ldb_ErrNotFound end;
  ldb_put_spec d k v : ldb_ok d →
    ∃ d', ldb_Put d k v = (d', None) ∧ ldb_ok d' ∧ ldb_map d' = <[k := v]> (ldb_map d);
  ldb_delete_spec d k : ldb_ok d →
    ∃ d', ldb_Delete d k = (d', None) ∧ ldb_ok d' ∧ ldb_map d' = delete k (ldb_map d);
  ldb_iter_all d : ldb_ok d → ldb_NewIterator d None = (prefix_rows (ldb_map d) "", None);
  ldb_iter_prefix d p : ldb_ok d →
    ldb_NewIterator d (Some (BytesPrefix p)) = (prefix_rows (ldb_map d) p, None);
  ldb_write_spec d ks : ldb_ok d →
    ∃ d', ldb_Write d ks = (d', None) ∧ ldb_ok d' ∧
      ldb_map d' = foldr (λ k m, delete k m) (ldb_map d) ks;
  ldb_versions : D → list (gmap string string);
  ldb_put_versions d k v : ldb_ok d → let d' := (ldb_Put d k v).1 in
    ldb_versions d' = ldb_versions d ∨ ldb_versions d' = ldb_versions d ++ [ldb_map d'];
  ldb_delete_versions d k : ldb_ok d → let d' := (ldb_Delete d k).1 in
    ldb_versions d' = ldb_versions d ∨ ldb_versions d' = ldb_versions d ++ [ldb_map d'];
  ldb_write_versions d ks : ldb_ok d → let d' := (ldb_Write d ks).1 in
    ldb_versions d' = ldb_versions d ∨ ldb_versions d' = ldb_versions d ++ [ldb_map d'] }.

Section LVLDB.
Context {D R : Type} `{LevelDB D R}.

Definition LVLDB_GetByKey (db : D) (key : string) : res string := ldb_Get db key.
Definition LVLDB_SetByKey (db : D) (key value : string) : D * error := ldb_Put db key value.
Definition LVLDB_DeleteByKey (db : D) (key : string) : D * error := ldb_Delete db key.
Definition LVLDB_NewIterator (db : D) (prefix : string) : list (string * string) * error :=
  ldb_NewIterator db (Some (BytesPrefix prefix)).

(** The loop of [ClearStore] that fills the batch. *)
Fixpoint ClearStore_batch (rows : list (string * string)) (batch : list string) : list string :=
  match rows with
  | [] => batch
  | (key, _) :: rows => ClearStore_batch rows (batch ++ [key])
  end.

Definition LVLDB_ClearStore (db : D) : D * error :=
  let '(rows, err) := ldb_NewIterator db None in
  let batch := ClearStore_batch rows [] in
  match err with
  | Some e => (db, Some e)
  | None => ldb_Write db batch
  end.
End LVLDB.

#[export] Instance lvldb_store {D R} `{LevelDB D R} : Store D := {
  GetByKey := LVLDB_GetByKey;
  SetByKey := LVLDB_SetByKey;
  DeleteByKey := LVLDB_DeleteByKey;
  NewIterator := LVLDB_NewIterator;
  ClearStore := LVLDB_ClearStore }.

Lemma ClearStore_batch_keys rows batch : ClearStore_batch rows batch = batch ++ rows.*1.
Proof.
  revert batch. induction rows as [|[k v] rows IH]; intros batch; cbn; [by rewrite app_nil_r|].
  rewrite IH. by rewrite <-app_assoc.
Qed.

Lemma delete_keys_lookup (m : gmap string string) ks k :
  foldr (λ k m, delete k m) m ks !! k = if decide (k ∈ ks) then None else m !! k.
Proof.
  induction ks as [|x ks IH]; cbn.
  - case_decide; [set_solver|done].
  - rewrite lookup_delete, IH. repeat case_decide; set_solver.
Qed.

Section Spec.
Context {D R : Type} `{LevelDBSpec D R}.

Lemma clear_contents (d : D) :
  ldb_ok d → foldr (λ k m, delete k m) (ldb_map d) (prefix_rows (ldb_map d) "").*1 = ∅.
Proof.
  intros Hd. apply map_eq. intros k. rewrite delete_keys_lookup, lookup_empty.
  case_decide as Hk; [done|]. destruct (ldb_map d !! k) as [v|] eqn:E; [|done].
  destruct Hk. apply list_elem_of_fmap. exists (k, v). split; [done|].
  apply elem_of_prefix_rows. split; [done|]. by destruct k.
Qed.

Lemma LVLDB_ClearStore_spec (d : D) :
  ldb_ok d → ∃ d', LVLDB_ClearStore d = (d', None) ∧ ldb_ok d' ∧ ldb_map d' = ∅.
Proof.
  intros Hd. unfold LVLDB_ClearStore. rewrite ldb_iter_all by done.
  rewrite ClearStore_batch_keys. cbn [app].
  destruct (ldb_write_spec d (prefix_rows (ldb_map d) "").*1 Hd) as (d' & -> & Hok & Hm).
  exists d'. split_and!; [done..|]. rewrite Hm. by apply clear_contents.
Qed.

(** The package keeps the promises of the [Store] interface. *)
#[export] Program Instance lvldb_spec : StoreSpec D := {
  contents := ldb_map;
  healthy := ldb_ok;
  errNotFound := ldb_ErrNotFound;
  clear_spec := LVLDB_ClearStore_spec;
  versions := ldb_versions;
  versions_set := ldb_put_versions;
  versions_delete := ldb_delete_versions }.
Next Obligation. intros d k v Hd Hk. cbn. unfold LVLDB_GetByKey. by rewrite ldb_get_spec, Hk. Qed.
Next Obligation. intros d k Hd Hk. cbn. unfold LVLDB_GetByKey. by rewrite ldb_get_spec, Hk. Qed.
Next Obligation. intros d k v Hd. by apply ldb_put_spec. Qed.
Next Obligation. intros d k Hd. by apply ldb_delete_spec. Qed.
Next Obligation. intros d p Hd. by apply ldb_iter_prefix. Qed.
Next Obligation.
  intros d Hd. cbn. unfold LVLDB_ClearStore. rewrite ldb_iter_all by done. by apply ldb_write_versions.
Qed.

(** [ClearStore] (PruneDB, and a start with --fresh) empties the database:
    it succeeds, and no key can be read afterwards. *)
Theorem LVLDB_ClearStore_empties (d : D) (Hd : ldb_ok d) :
  ∃ d', LVLDB_ClearStore d = (d', None) ∧
    (∀ k, LVLDB_GetByKey d' k = Err ldb_ErrNotFound) ∧ (∀ p, LVLDB_NewIterator d' p = ([], None)).
Proof.
  destruct (LVLDB_ClearStore_spec d Hd) as (d' & Hc & Hok & Hm). exists d'. split_and!; [done| |].
  - intros k. unfold LVLDB_GetByKey. by rewrite ldb_get_spec, Hm.
  - intros p. unfold LVLDB_NewIterator. by rewrite ldb_iter_prefix, Hm.
Qed.
End Spec.

(** * A database that records what it has held *)

(** The same database, with the contents that it had after each write; a batch
    is one write. *)
Record Journal (D : Type) := mkJournal { jn_db : D; jn_past : list (gmap string string) }.
Arguments mkJournal {_} _ _. Arguments jn_db {_} _. Arguments jn_past {_} _.

Section Journal.
Context {D R : Type} `{LevelDBSpec D R}.

Definition jn_write (j : Journal D) (r : D * error) : Journal D * error :=
  (mkJournal r.1 (jn_past j ++ [ldb_map r.1]), r.2).

#[export] Instance journal_leveldb : LevelDB (Journal D) R := {
  ldb_Get j := ldb_Get (jn_db j);
  ldb_Put j k v := jn_write j (ldb_Put (jn_db j) k v);
  ldb_Delete j k := jn_write j (ldb_Delete (jn_db j) k);
  ldb_NewIterator j := ldb_NewIterator (jn_db j);
  ldb_Write j ks := jn_write j (ldb_Write (jn_db j) ks);
  BytesPrefix := BytesPrefix }.

#[export] Program Instance journal_spec : LevelDBSpec (Journal D) R := {
  ldb_map j := ldb_map (jn_db j);
  ldb_ok j := ldb_ok (jn_db j);
  ldb_ErrNotFound := ldb_ErrNotFound;
  ldb_versions := jn_past }.
Next Obligation. intros j k Hj. exact (ldb_get_spec (jn_db j) k Hj). Qed.
Next Obligation.
  intros j k v Hj. destruct (ldb_put_spec (jn_db j) k v Hj) as (d' & Hp & ? & ?). cbn. rewrite Hp. by eexists.
Qed.
Next Obligation.
  intros j k Hj. destruct (ldb_delete_spec (jn_db j) k Hj) as (d' & Hp & ? & ?). cbn. rewrite Hp. by eexists.
Qed.
Next Obligation. intros j Hj. exact (ldb_iter_all (jn_db j) Hj). Qed.
Next Obligation. intros j p Hj. exact (ldb_iter_prefix (jn_db j) p Hj). Qed.
Next Obligation.
  intros j ks Hj. destruct (ldb_write_spec (jn_db j) ks Hj) as (d' & Hp & ? & ?). cbn. rewrite Hp. by eexists.
Qed.
Solve Obligations with (intros; by right).

(** Nothing is left out: every write adds the contents it leaves. *)
Lemma journal_complete (j : Journal D) k v ks :
  let added (j' : Journal D) := ldb_versions j' = ldb_versions j ++ [ldb_map j'] in
  added (ldb_Put j k v).1 ∧ added (ldb_Delete j k).1 ∧ added (ldb_Write j ks).1.
Proof. done. Qed.
End Journal.

(** * relayer/lvldb: opening, closing and removing the database
    (lvldb.go).  goleveldb's handle is a parameter; after [Close] it refuses
    every call. *)

Module LvlFiles.

(** [errors.Wrap] of a possibly nil error. *)
Definition errors_Wrap (err : error) (message : string) : error :=
  match err with Some e => Some (message +:+ ": " +:+ e) | None => None end.

Section Files.
Context {D : Type} `{Store D}.

(** [leveldb.DB] behind its pointer, which is nil when [OpenFile] failed. *)
Inductive Handle : Type :=
| NilDB
| OpenDB (d : D)
| ClosedDB (d : D).
Definition ErrClosed : string := "leveldb: closed".

(** It returns a store with a nil database beside the error. *)
Definition NewLvlDB (OpenFile : res D) : option Handle * error :=
  match OpenFile with
  | Ok d => (Some (OpenDB d), errors_Wrap None "levelDB.OpenFile fail")
  | Err e => (Some NilDB, errors_Wrap (Some e) "levelDB.OpenFile fail")
  | Panic => (None, None)
  end.

(** A call through the handle. *)
Definition through {A} (call : D → res A) (h : Handle) : res A :=
  match h with NilDB => Panic | OpenDB d => call d | ClosedDB _ => Err ErrClosed end.

(** [Close]: twice is an error. *)
Definition Close (h : Handle) : res (Handle * error) :=
  match h with
  | NilDB => Panic
  | OpenDB d => Ok (ClosedDB d, None)
  | ClosedDB d => Ok (ClosedDB d, Some ErrClosed)
  end.

(** ** Removing *)

Context (deny : string → error).

(** [os.Remove]: a file, or a directory with nothing in it. *)
Definition os_Remove (p : string) (fs : FS) : FS * error :=
  match deny p with
  | Some e => (fs, Some e)
  | None =>
      if decide (p ∈ fs_dirs fs) then
        match os_ReadDir deny fs p with
        | Ok [] => (mkFS (fs_files fs) (fs_dirs fs ∖ {[p]}), None)
        | Ok _ => (fs, Some "directory not empty")
        | Err e => (fs, Some e)
        | Panic => (fs, None)
        end
      else if decide (is_Some (fs_files fs !! p)) then (mkFS (delete p (fs_files fs)) (fs_dirs fs), None)
      else (fs, Some errNotExist)
  end.

Definition RemoveDbFile (filepath : string) (fs : FS) : FS * error :=
  let '(fs, err) := os_Remove filepath fs in (fs, errors_Wrap err "unable to remove db file").

(** A database is a directory with files in it, and [RemoveDbFile] removes
    neither. *)
Lemma RemoveDbFile_fails filepath fs :
  filepath ∈ fs_dirs fs → os_ReadDir deny fs filepath ≠ Ok [] → os_ReadDir deny fs filepath ≠ Panic →
  (RemoveDbFile filepath fs).1 = fs ∧ is_Some (RemoveDbFile filepath fs).2.
Proof.
  intros Hd Hne Hp. unfold RemoveDbFile, os_Remove. destruct (deny filepath); [by split; [|eexists]|].
  rewrite decide_True by done. destruct (os_ReadDir deny fs filepath) as [[|x l]| |]; try done; by split; [|eexists].
Qed.

Lemma NewLvlDB_failed e : NewLvlDB (Err e) = (Some NilDB, Some ("levelDB.OpenFile fail: " +:+ e)).
Proof. done. Qed.
Lemma closed_refuses (h h' : Handle) {A} (call : D → res A) :
  Close h = Ok (h', None) → through call h' = Err ErrClosed.
Proof. destruct h; cbn; [done|by intros [= <-]|done]. Qed.
End Files.
End LvlFiles.
