(* ===== verification/Concrete.v ===== *)
(** Concrete instances of the third-party interfaces: an in-memory LevelDB and
    an encoding of any countable type as a string of binary digits.  The
    witnesses evaluate the development's definitions on them. *)
From stdpp Require Import gmap strings list.
From Stdlib Require Import ZArith Lia Ascii.
From S2P Require Import Prelude GoStd Types Store LvlDB.

(** * An in-memory LevelDB *)

Abbreviation MemDB := (gmap string string).

#[export] Instance mem_leveldb : LevelDB MemDB string := {
  ldb_Get d k := match d !! k with Some v => Ok v | None => Err "leveldb: not found" end;
  ldb_Put d k v := (<[k := v]> d, None);
  ldb_Delete d k := (delete k d, None);
  ldb_NewIterator d r := (prefix_rows d (default "" r), None);
  ldb_Write d ks := (foldr (λ k m, delete k m) d ks, None);
  BytesPrefix p := p }.

#[export] Program Instance mem_leveldb_spec : LevelDBSpec MemDB string := {
  ldb_map d := d;
  ldb_ok _ := True;
  ldb_ErrNotFound := "leveldb: not found";
  ldb_versions _ := [] }.
Solve Obligations with (cbn; eauto).

(** The in-memory database never fails. *)
Lemma mem_healthy (db : MemDB) : healthy db.
Proof. exact I. Defined.
Lemma mem_ok (db : MemDB) : ldb_ok db.
Proof. exact I. Defined.

(** * A codec for countable types *)

Fixpoint bits_of (p : positive) : string :=
  match p with
  | xH => ""
  | xO p => String "0" (bits_of p)
  | xI p => String "1" (bits_of p)
  end.

Fixpoint of_bits (s : string) : option positive :=
  match s with
  | "" => Some xH
  | String "0" s => xO <$> of_bits s
  | String "1" s => xI <$> of_bits s
  | _ => None
  end.

Lemma of_bits_of p : of_bits (bits_of p) = Some p.
Proof. induction p as [p IH|p IH|]; cbn; [by rewrite IH|by rewrite IH|done]. Qed.

#[export] Instance countable_codec {A} `{Countable A} : Codec A := {
  Marshal a := inl (bits_of (encode a));
  Unmarshal s := match of_bits s ≫= decode with Some a => Ok a | None => Err "invalid" end }.

#[export] Program Instance countable_codec_spec {A} `{Countable A} : CodecSpec A.
Next Obligation. intros. cbn. eauto. Qed.
Next Obligation. intros A ?? a s [= <-]. cbn. rewrite of_bits_of. cbn. by rewrite decode_encode. Qed.
