(* ===== verification/Provider.v ===== *)
(** Package relayer/provider: the interface of a chain provider, and the
    configuration fields common to all of them.

    A [ChainProvider] holds the answers a chain gives during one call of a
    relayer operation: the relayer's theorems quantify over all of them.  The
    providers' own code is in Evm.v, Icon.v, Wasm.v and Mock.v; [RouteLaws] is what
    they promise about their callbacks, proved in Delivery.v. *)
From stdpp Require Import gmap strings list.
From Stdlib Require Import ZArith Lia.
From S2P Require Import Prelude GoStd Types.
Open Scope Z_scope.

(** One call of the [TxResponseFunc] handed to [Route]. *)
Record CallbackCall := mkCallbackCall {
  cb_key : MessageKey;
  cb_response : TxResponse;
  cb_err : error }.

(** The methods the relayer and the socket server call.  [Route] is given by
    the calls it makes of its callback, in order, and the error it returns.
    Messages found on chain come with their serial numbers as plain integers:
    the caller of the parser allocates the cells. *)
Record ChainProvider := mkChainProvider {
  QueryLatestHeight : res Z;
  QueryTransactionReceipt : string → res (option Receipt);
  Route : Message → list CallbackCall * res unit;
  ShouldReceiveMessage : Message → res bool;
  ShouldSendMessage : Message → res bool;
  MessageReceived : MessageKey → res bool;
  FinalityBlock : Z;
  GenerateMessages : KeyWithHeightOf BigInt → res (list (MessageOf Z));
  p_RevertMessage : option Z → res unit;
  p_GetFee : string → bool → res Z;
  p_SetFee : string → option Z → option Z → res unit;
  p_ClaimFee : res unit }.

(** What the relayer relies on in a [Route] that returned: its calls of the
    callback are about its own message, no call before the last reports a
    success, and the last one does exactly when no error is returned. *)
Definition reports (code : Z → Prop) (c : CallbackCall) : Prop := code (tr_Code (cb_response c)).
Abbreviation reports_failure := (reports (λ code, code ≠ Success)).

Definition route_law (m : Message) (out : list CallbackCall * res unit) : Prop :=
  Forall (λ c, cb_key c = Message_MessageKey m) out.1 ∧
  match out.2 with
  | Ok _ => ∃ failures c, out.1 = failures ++ [c] ∧ Forall reports_failure failures ∧
      tr_Code (cb_response c) = Success
  | Err _ => Forall reports_failure out.1
  | Panic => True
  end.

Class RouteLaws (route : Message → list CallbackCall * res unit) : Prop := {
  route_lawful m : route_law m (route m) }.

(** * Common configuration *)

Record CommonConfig := mkCommonConfig {
  cc_ChainName : string;
  cc_RPCUrl : string;
  cc_StartHeight : Z;
  cc_Address : string;
  cc_Contracts : gmap string string;
  cc_FinalityBlock : Z;
  cc_NID : string;
  cc_HomeDir : string;
  cc_Disabled : bool }.

Definition Enabled (c : CommonConfig) : bool := negb (cc_Disabled c).

Definition SetWallet (addr : string) (c : CommonConfig) : CommonConfig :=
  mkCommonConfig (cc_ChainName c) (cc_RPCUrl c) (cc_StartHeight c) addr (cc_Contracts c)
    (cc_FinalityBlock c) (cc_NID c) (cc_HomeDir c) (cc_Disabled c).

Definition GetWallet (c : CommonConfig) : string := cc_Address c.

Definition CommonConfig_Validate (c : CommonConfig) : error :=
  if decide (cc_ChainName c = "") then Some "chain-name cannot be empty"
  else if decide (cc_HomeDir c = "") then Some "home-dir cannot be empty"
  else None.
