(* ===== verification/Relay.v ===== *)
(** Package relayer: the chain runtimes and the relayer's operations.

    The state is what the goroutines of the relayer share: the database, the
    runtime of each chain (with its message cache), the heap of route
    messages that the caches and the routing goroutines point into, and the
    routing goroutines themselves.  Each operation is one Go method, over that
    state; [None] is a panic.  Iteration over a Go map has no fixed order, so
    operations that range over one take the order as an argument. *)
From stdpp Require Import gmap strings list.
From Stdlib Require Import ZArith Lia.
From S2P Require Import Prelude GoStd Types Store Provider.
Import BlockStore MessageStore FinalityStore.
Open Scope Z_scope.

(** * Constants *)

Definition maxFlushMessage : Z := 10.
Definition MessageExpiration : Z := 24 * 60 * 60 * Second.
Definition prefixMessageStore : string := "message".
Definition prefixBlockStore : string := "block".
Definition prefixFinalityStore : string := "finality".
Definition listenerChannelBufferSize : Z := 1000 * 5.
Definition DefaultFlushInterval : Z := 5 * 60 * Second.
Definition HeightSaveInterval : Z := 5 * 60 * Second.
Definition FinalityInterval : Z := 30 * Second.
Definition DeleteExpiredInterval : Z := 6 * 60 * 60 * Second.

(** * State *)

(** [Provider] is looked up by NID when an operation runs; [listenerChan] is
    the queue of blocks the listener sent and no processor took yet. *)
Record ChainRuntime := mkChainRuntime {
  listenerChan : list BlockInfo;
  LastBlockHeight : Z;
  LastSavedHeight : Z;
  MessageCache : Types.MessageCache }.

(** A goroutine running [RouteMessage]: the route message, the destination and
    source chains, and whether [IncrementRetry] has run. *)
Record Task := mkTask {
  tk_msg : positive;
  tk_dst : string;
  tk_src : string;
  tk_started : bool }.

Record Relayer (St : Type) := mkRelayer {
  rl_db : St;
  rl_chains : gmap string ChainRuntime;
  rl_heap : gmap positive RouteMessage;
  rl_next : positive;
  rl_tasks : list Task }.
Arguments mkRelayer {_} _ _ _ _ _.
Arguments rl_db {_} _. Arguments rl_chains {_} _. Arguments rl_heap {_} _.
Arguments rl_next {_} _. Arguments rl_tasks {_} _.

Definition cr_with_cache (f : Types.MessageCache → Types.MessageCache) (c : ChainRuntime) :=
  mkChainRuntime (listenerChan c) (LastBlockHeight c) (LastSavedHeight c) (f (MessageCache c)).
Definition cr_with_block (h : Z) (c : ChainRuntime) : ChainRuntime :=
  mkChainRuntime (listenerChan c) h (LastSavedHeight c) (MessageCache c).
Definition cr_with_saved (h : Z) (c : ChainRuntime) : ChainRuntime :=
  mkChainRuntime (listenerChan c) (LastBlockHeight c) h (MessageCache c).
Definition cr_with_chan (l : list BlockInfo) (c : ChainRuntime) : ChainRuntime :=
  mkChainRuntime l (LastBlockHeight c) (LastSavedHeight c) (MessageCache c).

(** [NewChainRuntime]: no runtime for a nil chain. *)
Definition NewChainRuntime (chain : option string) : res ChainRuntime :=
  match chain with
  | None => Err "failed to construct chain runtime"
  | Some _ => Ok (mkChainRuntime [] 0 0 NewMessageCache)
  end.

Section Relayer.
Context {St : Type} `{Store St} `{Codec Z}.
Context `{Codec (RouteMessageOf Z)} `{Codec (TransactionObjectOf Z)}.
(** The chains' answers, by NID, during the operation. *)
Context (prov : string → ChainProvider).

Abbreviation Rly := (proc (Relayer St)).
Implicit Types (s : Relayer St).

(** * Access to the state *)

Definition with_db (f : St → St * error) : Rly error := λ s,
  let '(db, err) := f (rl_db s) in
  Some (mkRelayer db (rl_chains s) (rl_heap s) (rl_next s) (rl_tasks s), err).

Definition on_chain (nId : string) (f : ChainRuntime → ChainRuntime) : Rly unit :=
  modify (λ s, mkRelayer (rl_db s) (alter f nId (rl_chains s)) (rl_heap s) (rl_next s) (rl_tasks s)).

(** A new address. *)
Definition new_addr : Rly positive := λ s,
  Some (mkRelayer (rl_db s) (rl_chains s) (rl_heap s) (Pos.succ (rl_next s)) (rl_tasks s), rl_next s).

(** [&RouteMessage{...}] *)
Definition new_route (r : RouteMessage) : Rly positive := λ s,
  Some (mkRelayer (rl_db s) (rl_chains s) (<[rl_next s := r]> (rl_heap s)) (Pos.succ (rl_next s))
    (rl_tasks s), rl_next s).

(** The route message a pointer refers to. *)
Definition load (p : positive) : Rly RouteMessage := λ s,
  match rl_heap s !! p with Some r => Some (s, r) | None => None end.

(** A method that updates the route message in place. *)
Definition on_route (p : positive) (f : RouteMessage → RouteMessage) : Rly unit :=
  modify (λ s, mkRelayer (rl_db s) (rl_chains s) (alter f p (rl_heap s)) (rl_next s) (rl_tasks s)).

(** [go r.RouteMessage(ctx, message, dst, src)] *)
Definition spawn (t : Task) : Rly unit :=
  modify (λ s, mkRelayer (rl_db s) (rl_chains s) (rl_heap s) (rl_next s) (rl_tasks s ++ [t])).

Definition chain_cache s (nId : string) : Types.MessageCache :=
  match rl_chains s !! nId with Some c => MessageCache c | None => ∅ end.

(** [chain.MessageCache.Add(m)] and [Remove(key)] *)
Definition cache_Add (nId : string) (p : positive) : Rly unit :=
  r ← load p; on_chain nId (cr_with_cache (MessageCache_Add p r)).
Definition cache_Remove (nId : string) (key : MessageKey) : Rly unit :=
  on_chain nId (cr_with_cache (MessageCache_Remove key)).

(** The serial number a log line prints: [Sn.Uint64()] panics on nil. *)
Definition log_sn (sn : option BigInt) : Rly unit :=
  match sn with Some _ => mret tt | None => panic end.

(** * Chain runtimes (chain_runtime.go) *)

(** Messages come with plain serial numbers; each gets a new cell. *)
Definition new_message (m : MessageOf Z) : Rly Message :=
  a ← new_addr; mret (message_alloc a m).

Definition mergeMessages (nId : string) (messages : list (MessageOf Z)) : Rly unit :=
  for_each messages (λ m,
    m ← new_message m;
    routeMessage ← new_route (NewRouteMessage m);
    cache_Add nId routeMessage).

Definition clearMessageFromCache (nId : string) (msgs : list MessageKey) : Rly unit :=
  for_each msgs (cache_Remove nId).

Definition shouldSendMessage (dst src : string) (now : Z) (routeMessage : option RouteMessage) :
    Rly bool :=
  match routeMessage with
  | None => mret false
  | Some rm =>
      if IsProcessing now rm then mret false
      else
        ok ← liftRes (ShouldReceiveMessage (prov dst) (rm_Message rm));
        match ok with
        | inr _ | inl false => mret false
        | inl true =>
            ok ← liftRes (ShouldSendMessage (prov src) (rm_Message rm));
            match ok with
            | inr _ | inl false => mret false
            | inl true => mret true
            end
        end
  end.

Definition shouldExecuteCall (now : Z) (msg : RouteMessage) : bool := negb (IsProcessing now msg).

(** * The relayer (relay.go) *)

Definition FindChainRuntime s (nId : string) : res ChainRuntime :=
  match rl_chains s !! nId with
  | Some chain => Ok chain
  | None => Err ("chain runtime not found, nId:" +:+ nId +:+ " ")
  end.

Definition GetAllChainsRuntime s (order : list string) : list (string * ChainRuntime) :=
  omap (λ nId, (λ c, (nId, c)) <$> rl_chains s !! nId) order.

(** PruneDB removes all the messages from the database. *)
Definition PruneDB : Rly error := with_db ClearStore.

(** [for _, m := range msgs { if err := DeleteMessage(m); err != nil { return err } }] *)
Fixpoint ClearMessages_delete (msgs : list MessageKey) : Rly error :=
  match msgs with
  | [] => mret None
  | m :: msgs =>
      err ← with_db (λ db, DeleteMessage prefixMessageStore db m);
      match err with
      | Some e => mret (Some e)
      | None => ClearMessages_delete msgs
      end
  end.

Definition ClearMessages (msgs : list MessageKey) (srcChain : string) : Rly error :=
  _ ← clearMessageFromCache srcChain msgs;
  ClearMessages_delete msgs.

(** [getActiveMessagesFromStore]: what is read, before pointers are made. *)
Definition getActiveMessagesFromStore (db : St) (nId : string) (maxMessages : Z) :
    res (list (RouteMessageOf Z)) :=
  msgs ← GetMessages prefixMessageStore db nId (WithLimit maxMessages NewPagination);
  Ok (filter (λ m, IsStale m = false) msgs).

(** A route message read from the database: new cells all over. *)
Definition new_stored (m : RouteMessageOf Z) : Rly positive :=
  a ← new_addr; new_route (route_alloc a m).

Definition flushMessages (order : list string) : Rly unit :=
  for_each order (λ nId,
    messages ← gets (λ s, getActiveMessagesFromStore (rl_db s) nId maxFlushMessage);
    match messages with
    | Panic => panic
    | Err _ => mret tt
    | Ok messages => for_each messages (λ m, p ← new_stored m; cache_Add nId p)
    end).

(** The body of the loop of [processMessages], for the entry [key] of [src]'s
    cache; an entry deleted before the iteration reaches it is not produced. *)
Definition processMessage (now : Z) (src : string) (key : MessageKey) : Rly unit :=
  entry ← gets (λ s, chain_cache s src !! key);
  match entry with
  | None => mret tt
  | Some p =>
      message ← load p;
      dst ← gets (λ s, FindChainRuntime s (m_Dst (rm_Message message)));
      match dst with
      | Panic => panic
      | Err _ => _ ← ClearMessages [key] src; mret tt
      | Ok _ =>
          let dst := m_Dst (rm_Message message) in
          ok ← shouldSendMessage dst src now (Some message);
          if negb ok then mret tt
          else
            _ ← on_route p ToggleProcessing;
            messageReceived ← liftRes (MessageReceived (prov dst) key);
            match messageReceived with
            | inr _ =>
                _ ← log_sn (m_Sn (rm_Message message));
                on_route p ToggleProcessing
            | inl true =>
                _ ← log_sn (m_Sn (rm_Message message));
                _ ← ClearMessages [key] src; mret tt
            | inl false => spawn (mkTask p dst src false)
            end
      end
  end.

Definition processMessages (now : Z) (order : list (string * list MessageKey)) : Rly unit :=
  for_each order (λ '(src, keys), for_each keys (processMessage now src)).

Definition processBlockInfo (src : string) (blockInfo : BlockInfo) : Rly unit :=
  _ ← on_chain src (cr_with_block (bi_Height blockInfo));
  for_each (bi_Messages blockInfo) (λ msg,
    p ← new_route (NewRouteMessage msg);
    _ ← cache_Add src p;
    _ ← with_db (λ db, StoreMessage prefixMessageStore db (Some (NewRouteMessage msg)));
    mret tt).

Definition SaveBlockHeight (chainRuntime : string) (height : Z) : Rly error :=
  _ ← on_chain chainRuntime (cr_with_saved height);
  _ ← on_chain chainRuntime (cr_with_block height);
  with_db (λ db, StoreBlock prefixBlockStore db height chainRuntime).

(** The function [callback] returns, called with [key] and [response]. *)
Definition callback (src dst : string) (key : MessageKey) (response : TxResponse) (err : error) :
    Rly unit :=
  entry ← gets (λ s, MessageCache_Get key (chain_cache s src));
  match entry with
  | None => mret tt
  | Some p =>
      routeMessage ← load p;
      if tr_Code response =? Success then
        _ ← log_sn (k_Sn key);
        if 0 <? FinalityBlock (prov dst) then
          let txObj := NewTransactionObject
            (NewMessagekeyWithMessageHeight key (m_MessageHeight (rm_Message routeMessage)))
            (tr_TxHash response) (u64 (tr_Height response)) in
          err ← with_db (λ db, StoreTxObject prefixFinalityStore db (Some txObj));
          match err with
          | Some _ => mret tt
          | None => _ ← ClearMessages [key] src; mret tt
          end
        else _ ← ClearMessages [key] src; mret tt
      else mret tt
  end.

(** The two halves of [HandleMessageFailed]: other goroutines may run between
    them (RelaySystem.v). *)
Definition HandleMessageFailed_unmark (p : positive) : Rly unit := on_route p ToggleProcessing.
Definition HandleMessageFailed_store (p : positive) (src : string) : Rly unit :=
  routeMessage ← load p;
  if MaxTxRetry <=? rm_Retry routeMessage then
    err ← with_db (λ db, StoreMessage prefixMessageStore db (Some routeMessage));
    match err with
    | Some _ => mret tt
    | None =>
        _ ← cache_Remove src (rm_key routeMessage);
        log_sn (m_Sn (rm_Message routeMessage))
    end
  else mret tt.
Definition HandleMessageFailed (p : positive) (dst src : string) : Rly unit :=
  _ ← HandleMessageFailed_unmark p;
  HandleMessageFailed_store p src.

(** The goroutine: the provider's [Route] calls back while it runs; a provider
    may also call back after [Route] has returned (RelaySystem.v). *)
Definition RouteMessage (now : Z) (p : positive) (dst src : string) : Rly unit :=
  _ ← on_route p (IncrementRetry now);
  m ← load p;
  let '(calls, err) := Route (prov dst) (rm_Message m) in
  _ ← for_each calls (λ c, callback src dst (cb_key c) (cb_response c) (cb_err c));
  match err with
  | Panic => panic
  | Err _ => HandleMessageFailed p dst src
  | Ok _ => mret tt
  end.

(** ** Finality *)

(** A transaction object read from the database. *)
Definition new_tx (t : TransactionObjectOf Z) : Rly (TransactionObjectOf BigInt) :=
  a ← new_addr; mret (tx_alloc a t).

Fixpoint new_txs (l : list (TransactionObjectOf Z)) : Rly (list (TransactionObjectOf BigInt)) :=
  match l with
  | [] => mret []
  | t :: l => t ← new_tx t; l ← new_txs l; mret (t :: l)
  end.

(** The body of the loop of [CheckFinality] over the objects of chain [nid]. *)
Definition CheckFinality_tx (nid : string) (finalityBlock latestHeight : Z)
    (txObject : TransactionObjectOf BigInt) : Rly unit :=
  let key := kh_Key (to_Key txObject) in
  if to_TxHeight txObject =? 0 then mret tt
  else if latestHeight <? u64 (to_TxHeight txObject + finalityBlock) then mret tt
  else
    receipt ← liftRes (QueryTransactionReceipt (prov nid) (to_TxHash txObject));
    match receipt with
    | inr _ => mret tt
    | inl None => panic
    | inl (Some receipt) =>
        if rc_Status receipt then
          _ ← with_db (λ db, DeleteTxObject prefixFinalityStore db key); mret tt
        else
          srcChainRuntime ← gets (λ s, rl_chains s !! k_Src key);
          match srcChainRuntime with
          | None => mret tt
          | Some _ =>
              err ← with_db (λ db, DeleteTxObject prefixFinalityStore db key);
              match err with
              | Some _ => mret tt
              | None =>
                  messages ← liftRes (GenerateMessages (prov (k_Src key)) (to_Key txObject));
                  match messages with
                  | inr _ => mret tt
                  | inl messages => mergeMessages (k_Src key) messages
                  end
              end
          end
    end.

Definition CheckFinality (order : list string) : Rly unit :=
  for_each order (λ nid,
    c ← gets (λ s, rl_chains s !! nid);
    match c with
    | None => mret tt
    | Some c =>
        let finalityBlock := FinalityBlock (prov nid) in
        let latestHeight := LastBlockHeight c in
        if 0 <? finalityBlock then
          txObjects ← gets (λ s,
            GetTxObjects prefixFinalityStore (rl_db s) nid (WithLimit 10 NewPagination));
          match txObjects with
          | Panic => panic
          | Err _ => mret tt
          | Ok txObjects =>
              txObjects ← new_txs txObjects;
              for_each txObjects (CheckFinality_tx nid finalityBlock latestHeight)
          end
        else mret tt
    end).

(** ** Periodic work *)

Definition SaveChainsBlockHeight (order : list string) : Rly unit :=
  for_each order (λ nid,
    height ← liftRes (QueryLatestHeight (prov nid));
    match height with
    | inr _ => mret tt
    | inl height => _ ← SaveBlockHeight nid height; mret tt
    end).

Definition cleanExpiredMessages (now : Z) (order : list string) : Rly unit :=
  for_each order (λ nid,
    messages ← gets (λ s,
      GetMessages prefixMessageStore (rl_db s) nid (WithLimit maxFlushMessage NewPagination));
    match messages with
    | Panic => panic
    | Err _ => mret tt
    | Ok messages =>
        for_each messages (λ m,
          if IsElasped now MessageExpiration m then
            a ← new_addr;
            _ ← ClearMessages [rm_key (route_alloc a m)] nid; mret tt
          else mret tt)
    end).

(** ** The loops *)

(** One block processor iteration of [StartBlockProcessors]: the head of the
    channel, if there is one. *)
Definition StartBlockProcessors_step (nid : string) : Rly unit :=
  c ← gets (λ s, rl_chains s !! nid);
  match listenerChan <$> c with
  | Some (blockInfo :: rest) =>
      _ ← on_chain nid (cr_with_chan rest);
      processBlockInfo nid blockInfo
  | _ => mret tt
  end.

(** The tickers of [StartRouter]; [resetTimer] fires once, three seconds in. *)
Inductive RouterTick : Type := flushTimer | routeTimer | heightTimer | cleanMessageTimer | resetTimer.

Record RouterTimers := mkRouterTimers { flushPeriod : Z; cleanPeriod : Z; resetRunning : bool }.

Definition StartRouter_timers : RouterTimers := mkRouterTimers Second Second true.

Definition StartRouter_reset (flushInterval : Z) (t : RouterTimers) : RouterTimers :=
  mkRouterTimers flushInterval DeleteExpiredInterval false.

(** One iteration of the [select] of [StartRouter]. *)
Definition StartRouter_step (now : Z) (chains : list string) (keys : list (string * list MessageKey))
    (t : RouterTick) : Rly unit :=
  match t with
  | flushTimer => flushMessages chains
  | routeTimer => processMessages now keys
  | heightTimer => SaveChainsBlockHeight chains
  | cleanMessageTimer => cleanExpiredMessages now chains
  | resetTimer => mret tt
  end.

(** [Start]: a fresh start flushes before the goroutines are created. *)
Definition Start (fresh : bool) (order : list string) : Rly unit :=
  if fresh then flushMessages order else mret tt.

(** ** Construction *)

(** The loop of [NewRelayer] over the chains; a nil chain is an error. *)
Fixpoint NewRelayer_chains (db : St) (chains : list (option string))
    (chainRuntimes : gmap string ChainRuntime) : res (gmap string ChainRuntime) :=
  match chains with
  | [] => Ok chainRuntimes
  | chain :: chains =>
      chainRuntime ← NewChainRuntime chain;
      nid ← deref chain;
      match GetLastStoredBlock prefixBlockStore db nid with
      | Panic => Panic
      | Err _ => NewRelayer_chains db chains (<[nid := chainRuntime]> chainRuntimes)
      | Ok lastSavedHeight =>
          NewRelayer_chains db chains
            (<[nid := cr_with_saved lastSavedHeight chainRuntime]> chainRuntimes)
      end
  end.

Definition NewRelayer (db : St) (chains : list (option string)) (fresh : bool) :
    res (Relayer St) :=
  let '(db, err) := if fresh then ClearStore db else (db, None) in
  match err with
  | Some e => Err e
  | None =>
      chainRuntimes ← NewRelayer_chains db chains ∅;
      Ok (mkRelayer db chainRuntimes ∅ 1%positive [])
  end.
End Relayer.

(** * Chains (chain.go) *)

(** [Chains] maps a chain name to a chain; of a chain only the NID matters
    here.  [order] is the order the range visits the names in. *)
Fixpoint Chains_Get (order : list (string * string)) (nid : string) : res (string * string) :=
  match order with
  | [] => Err ("chain with NID " +:+ nid +:+ " is not configured")
  | (name, n) :: order => if decide (nid = n) then Ok (name, n) else Chains_Get order nid
  end.

(** [out[chain.NID()] = chain], in the order visited. *)
Fixpoint Chains_GetAll (order : list (string * string)) (out : gmap string string) :
    gmap string string :=
  match order with
  | [] => out
  | (name, n) :: order => Chains_GetAll order (<[n := name]> out)
  end.
