(* ===== verification/RelaySystem.v ===== *)
(** The relayer as a transition system, and its invariants.

    relay.go starts one listener and one block processor per chain, the router
    loop, the finality loop, and a goroutine per routed message; providers call
    back from goroutines of their own, and operators act through the socket.
    [action] lists what each of these does to the shared state in one go,
    [run] is its effect (the definitions of Relay.v), and [reachable] closes
    the initial states under it.  The answers of the chains and the clock are
    arbitrary, and differ from one action to the next. *)
From stdpp Require Import gmap strings list.
From Stdlib Require Import ZArith Lia.
From S2P Require Import Prelude GoStd Types Store Provider Relay.
Import BlockStore MessageStore FinalityStore.
Open Scope Z_scope.

(** * Actions *)

Inductive action : Type :=
| Listen (nid : string) (height : Z) (messages : list (MessageOf Z))
| ProcessBlock (nid : string)
| Flush (chains : list string)
| Router (prov : string → ChainProvider) (now : Z) (chains : list string)
    (keys : list (string * list MessageKey)) (t : RouterTick)
| Finality (prov : string → ChainProvider) (chains : list string)
| TaskStart (now : Z) (i : nat)
| TaskCallback (prov : string → ChainProvider) (src dst : string) (key : MessageKey)
    (response : TxResponse) (err : error)
| TaskReturn (i : nat) (err : error)
| Prune
| RemoveRow (key : MessageKey)
| RelayMessages (nid : string) (messages : list (MessageOf Z))
| RelayRow (nid : string) (m : RouteMessageOf Z).

(** Putting a stored row back in a cache is the one action that does not look
    at its retry count. *)
Definition is_RelayRow (a : action) : bool := match a with RelayRow _ _ => true | _ => false end.

Section System.
Context {St : Type} `{StoreSpec St} `{CodecSpec Z}.
Context `{CodecSpec (RouteMessageOf Z)} `{CodecSpec (TransactionObjectOf Z)}.
Abbreviation Rly := (proc (Relayer St)).
Implicit Types (s : Relayer St).

Definition on_tasks (f : list Task → list Task) : Rly unit :=
  modify (λ s, mkRelayer (rl_db s) (rl_chains s) (rl_heap s) (rl_next s) (f (rl_tasks s))).

(** A listener sends a block: its messages are new objects. *)
Fixpoint new_messages (l : list (MessageOf Z)) : Rly (list Message) :=
  match l with
  | [] => mret []
  | m :: l => m ← new_message m; l ← new_messages l; mret (m :: l)
  end.

Definition listen (nid : string) (height : Z) (messages : list (MessageOf Z)) : Rly unit :=
  messages ← new_messages messages;
  on_chain nid (λ c, cr_with_chan (listenerChan c ++ [mkBlockInfo height messages]) c).

(** The first statement of the [i]-th goroutine. *)
Definition task_start (now : Z) (i : nat) : Rly unit :=
  t ← gets (λ s, rl_tasks s !! i);
  match t with
  | Some (mkTask p dst src false) =>
      _ ← on_tasks (<[i := mkTask p dst src true]>);
      on_route p (IncrementRetry now)
  | _ => mret tt
  end.

(** [Route] returns [err], and the [i]-th goroutine ends. *)
Definition task_return (i : nat) (err : error) : Rly unit :=
  t ← gets (λ s, rl_tasks s !! i);
  match t with
  | Some (mkTask p dst src true) =>
      _ ← on_tasks (delete i);
      match err with
      | Some _ => HandleMessageFailed p dst src
      | None => mret tt
      end
  | _ => mret tt
  end.

Definition run (a : action) : Rly unit :=
  match a with
  | Listen nid height messages => listen nid height messages
  | ProcessBlock nid => StartBlockProcessors_step nid
  | Flush chains => Start true chains
  | Router prov now chains keys t => StartRouter_step prov now chains keys t
  | Finality prov chains => CheckFinality prov chains
  | TaskStart now i => task_start now i
  | TaskCallback prov src dst key response err => callback prov src dst key response err
  | TaskReturn i err => task_return i err
  | Prune => _ ← PruneDB; mret tt
  | RemoveRow key => _ ← with_db (λ db, DeleteMessage prefixMessageStore db key); mret tt
  | RelayMessages nid messages => mergeMessages nid messages
  | RelayRow nid m => p ← new_stored m; cache_Add nid p
  end.

(** Running actions in order; [None] when one of them panics. *)
Definition run_all (l : list action) : Rly unit := for_each l run.

(** What an action needs: room in the channel the listener sends to, and
    iteration orders without repetition over the right chains.  The keys of a
    router pass may be any of those in the caches: a pass over many messages is
    as good as passes over one message each (Marks.v, [router_pass_looks]), so
    that whatever can happen between two of them is in some run. *)
Definition enabled (a : action) s : Prop :=
  match a with
  | Listen nid _ _ => ∃ c, rl_chains s !! nid = Some c ∧
      Z.of_nat (length (listenerChan c)) < listenerChannelBufferSize
  | Flush chains | Finality _ chains => chains ≡ₚ (map_to_list (rl_chains s)).*1
  | Router _ _ chains keys _ =>
      chains ≡ₚ (map_to_list (rl_chains s)).*1 ∧ keys.*1 ≡ₚ (map_to_list (rl_chains s)).*1 ∧
      Forall (λ k, NoDup k.2) keys
  | _ => True
  end.

Inductive step (manual : bool) s : Relayer St → Prop :=
| step_run a s' :
    enabled a s → (is_RelayRow a = true → manual = true) → run a s = Some (s', tt) → step manual s s'.

(** What [NewRelayer] builds: empty caches and queues, no goroutine. *)
Definition initial s : Prop :=
  rl_heap s = ∅ ∧ rl_tasks s = [] ∧
  ∀ nid c, rl_chains s !! nid = Some c → listenerChan c = [] ∧ MessageCache c = ∅.

Inductive reachable (manual : bool) (s0 : Relayer St) : Relayer St → Prop :=
| reachable_refl : reachable manual s0 s0
| reachable_step s s' : reachable manual s0 s → step manual s s' → reachable manual s0 s'.

#[export] Instance enabled_dec a s : Decision (enabled a s).
Proof.
  destruct a; cbn [enabled]; try apply _.
  destruct (rl_chains s !! nid) as [c|] eqn:E; [|right; by intros (? & ? & _)].
  destruct (decide (Z.of_nat (length (listenerChan c)) < listenerChannelBufferSize));
    [left; eauto|right; naive_solver].
Defined.

(** A run of enabled actions, evaluated. *)
Fixpoint exec (manual : bool) (l : list action) s : option (Relayer St) :=
  match l with
  | [] => Some s
  | a :: l =>
      if decide (enabled a s ∧ (is_RelayRow a = true → manual = true)) then
        match run a s with Some (s', _) => exec manual l s' | None => None end
      else None
  end.

Lemma exec_reachable manual l s0 s s' :
  reachable manual s0 s → exec manual l s = Some s' → reachable manual s0 s'.
Proof.
  revert s. induction l as [|a l IH]; intros s Hr; cbn; [by intros [= <-]|].
  case_decide as Ha; [|done]. destruct (run a s) as [[s1 []]|] eqn:E; [|done].
  apply IH. eapply reachable_step; [done|]. by eapply step_run; [apply Ha..|].
Qed.

(** * The invariant *)

Definition cached s (nid : string) (k : MessageKey) (p : positive) : Prop :=
  chain_cache s nid !! k = Some p.

(** The rows of the message store decode, and hold messages that are not being
    routed and were tried at most [StaleMarkCount] times. *)
Definition db_wf (db : St) : Prop :=
  healthy db ∧
  ∀ k v, contents db !! k = Some v → HasPrefix k (GetKey [prefixMessageStore; ""]) = true →
    ∃ m : RouteMessageOf Z, Unmarshal v = Ok m ∧ rm_Processing m = false ∧
      0 ≤ rm_Retry m ≤ StaleMarkCount.

(** [auto]: the database works, and no stored row was put back by hand. *)
Record Inv (auto : Prop) s : Prop := {
  inv_next p r : rl_heap s !! p = Some r → (p < rl_next s)%positive;
  inv_cached n k p : cached s n k p → ∃ r, rl_heap s !! p = Some r ∧ rm_key r = k;
  inv_owner n1 k1 n2 k2 p : cached s n1 k1 p → cached s n2 k2 p → n1 = n2;
  inv_task t : t ∈ rl_tasks s → ∃ r, rl_heap s !! tk_msg t = Some r ∧ rm_Processing r = true ∧
    (∀ n k, cached s n k (tk_msg t) → n = tk_src t);
  inv_nodup : NoDup (tk_msg <$> rl_tasks s);
  inv_db : auto → db_wf (rl_db s);
  inv_retry p r : auto → rl_heap s !! p = Some r → 0 ≤ rm_Retry r ≤ StaleMarkCount;
  inv_idle n k p r : auto → cached s n k p → rl_heap s !! p = Some r →
    rm_Processing r = false → rm_Retry r < StaleMarkCount;
  inv_unstarted t r : auto → t ∈ rl_tasks s → tk_started t = false →
    rl_heap s !! tk_msg t = Some r → rm_Retry r < StaleMarkCount }.

(** ** Updates that preserve it *)

Lemma chain_cache_alter s f n nid (db : St) heap next tasks :
  chain_cache (mkRelayer db (alter f n (rl_chains s)) heap next tasks) nid =
  if decide (n = nid) then from_option (MessageCache ∘ f) ∅ (rl_chains s !! nid)
  else chain_cache s nid.
Proof.
  unfold chain_cache; cbn. case_decide as Hn.
  - subst. rewrite lookup_alter_eq. by destruct (rl_chains s !! nid).
  - by rewrite lookup_alter_ne.
Qed.

(** Only fewer cache entries, and a database that stays well formed. *)
Lemma Inv_shrink auto s s' :
  Inv auto s → rl_heap s' = rl_heap s → (rl_next s ≤ rl_next s')%positive → rl_tasks s' = rl_tasks s →
  (∀ n k p, cached s' n k p → cached s n k p) → (auto → db_wf (rl_db s')) → Inv auto s'.
Proof.
  intros HI Hh Hn Ht Hc Hd. split.
  - intros p r. rewrite Hh. intros ?%(inv_next _ _ HI). lia.
  - intros n k p ?%Hc. rewrite Hh. by eapply inv_cached.
  - intros n1 k1 n2 k2 p ?%Hc ?%Hc. by eapply inv_owner.
  - intros t. rewrite Ht, Hh. intros (r & ? & ? & ?)%(inv_task _ _ HI). exists r. naive_solver.
  - rewrite Ht. by eapply inv_nodup.
  - done.
  - intros p r. rewrite Hh. by eapply inv_retry.
  - intros n k p r ? ?%Hc. rewrite Hh. by eapply inv_idle.
  - intros t r ?. rewrite Ht, Hh. by eapply inv_unstarted.
Qed.

Lemma keeps_with_db auto (f : St → St * error) :
  (auto → ∀ db, db_wf db → db_wf (f db).1) → keeps (Inv auto) (with_db f).
Proof.
  intros Hf s HI. unfold wpx, with_db. destruct (f (rl_db s)) as [db e] eqn:E.
  eapply Inv_shrink; [done..|]. intros Ha. cbn. specialize (Hf Ha (rl_db s) (inv_db _ _ HI Ha)).
  by rewrite E in Hf.
Qed.

Lemma keeps_on_chain auto nid f :
  (∀ c, MessageCache (f c) ⊆ MessageCache c) → keeps (Inv auto) (on_chain nid f).
Proof.
  intros Hf. apply keeps_modify. intros s HI. eapply Inv_shrink; [done..| |by apply HI].
  intros n k p. unfold cached. rewrite chain_cache_alter. case_decide; [|done]. subst.
  unfold chain_cache. destruct (rl_chains s !! n) as [c|]; [|done]. cbn.
  intros Hk. eapply lookup_weaken; [done|apply Hf].
Qed.

Lemma keeps_cache_Remove auto nid key : keeps (Inv auto) (cache_Remove nid key).
Proof. apply keeps_on_chain. intros c. cbn. apply delete_subseteq. Qed.

Lemma keeps_new_addr auto : keeps (Inv auto) new_addr.
Proof. intros s HI. eapply Inv_shrink; [done|done| |done|done|by apply HI]. cbn. lia. Qed.

Lemma keeps_load auto p : keeps (Inv auto) (load p).
Proof. intros s HI. unfold wpx, load. by destruct (rl_heap s !! p). Qed.

Lemma keeps_log_sn auto sn : keeps (Inv auto) (log_sn sn).
Proof. destruct sn; [apply keeps_ret|apply keeps_panic]. Qed.

Lemma wpx_load F p r (Q : Types.RouteMessage → Relayer St → Prop) s :
  rl_heap s !! p = Some r → Q r s → wpx F (load p) Q s.
Proof. intros Hr HQ. unfold wpx, load. by rewrite Hr. Qed.

Lemma wlp_load p (Q : Types.RouteMessage → Relayer St → Prop) s :
  (∀ r, rl_heap s !! p = Some r → Q r s) → wlp (load p) Q s.
Proof. intros HQ. unfold wpx, load. destruct (rl_heap s !! p); auto. Qed.

Lemma wpx_new_route F r (Q : positive → Relayer St → Prop) s :
  Q (rl_next s) (mkRelayer (rl_db s) (rl_chains s) (<[rl_next s := r]> (rl_heap s))
    (Pos.succ (rl_next s)) (rl_tasks s)) → wpx F (new_route r) Q s.
Proof. done. Qed.

Lemma wpx_cache_Add F nid p r (Q : unit → Relayer St → Prop) s :
  rl_heap s !! p = Some r →
  Q tt (mkRelayer (rl_db s) (alter (cr_with_cache (MessageCache_Add p r)) nid (rl_chains s))
    (rl_heap s) (rl_next s) (rl_tasks s)) → wpx F (cache_Add nid p) Q s.
Proof. intros Hr HQ. apply wpx_bind. by eapply wpx_load. Qed.

(** A new route message put in a cache. *)
Lemma wlp_add_route {A} auto nid r (f : positive → Rly A) s (Q : A → Relayer St → Prop) :
  Inv auto s → (auto → 0 ≤ rm_Retry r < StaleMarkCount) →
  (∀ p s', Inv auto s' → wlp (f p) Q s') →
  wlp (p ← new_route r; _ ← cache_Add nid p; f p) Q s.
Proof.
  intros HI Hr Hf. set (p := rl_next s). apply wpx_bind, wpx_new_route, wpx_bind.
  eapply wpx_cache_Add; [apply lookup_insert_eq|]. apply Hf. fold p. cbn.
  assert (Hfresh : rl_heap s !! p = None).
  { destruct (rl_heap s !! p) eqn:E; [|done]. apply (inv_next _ _ HI) in E. unfold p in E. lia. }
  assert (Hnc : ∀ n k, ¬ cached s n k p).
  { intros n k (r' & Hr' & _)%(inv_cached _ _ HI). by rewrite Hfresh in Hr'. }
  set (s' := mkRelayer _ _ _ _ _).
  assert (Hc : ∀ n k q, cached s' n k q → (q = p ∧ n = nid ∧ k = rm_key r) ∨ (q ≠ p ∧ cached s n k q)).
  { intros n k q. unfold cached, s'. rewrite chain_cache_alter. cbn.
    assert (∀ m, chain_cache s n = m → m !! k = Some q → q ≠ p ∧ cached s n k q) as Hold.
    { intros m <- Hq. split; [|done]. intros ->. by eapply Hnc. }
    case_decide; [|by intros ?%Hold; auto]. subst n. unfold chain_cache in Hold.
    destruct (rl_chains s !! nid) as [c|]; cbn; [|done].
    intros [[<- <-]|[_ Hq]]%lookup_insert_Some; [auto|]. right. by eapply Hold. }
  split; cbn.
  - intros q r' [[<- _]|[_ ?%(inv_next _ _ HI)]]%lookup_insert_Some; unfold p in *; lia.
  - intros n k q [(-> & _ & ->)|[? (r' & ? & ?)%(inv_cached _ _ HI)]]%Hc.
    + exists r. by rewrite lookup_insert_eq.
    + exists r'. by rewrite lookup_insert_ne.
  - intros n1 k1 n2 k2 q [(-> & -> & _)|[? ?]]%Hc [(? & ? & _)|[? ?]]%Hc; try done. by eapply inv_owner.
  - intros t (r' & Hh & Hp & Ho)%(inv_task _ _ HI). exists r'.
    rewrite lookup_insert_ne by (intros E; by rewrite <-E, Hfresh in Hh).
    split_and!; [done..|]. intros n k [(E & _)|[_ ?]]%Hc; [|by eapply Ho]. by rewrite E, Hfresh in Hh.
  - by eapply inv_nodup.
  - by eapply inv_db.
  - intros q r' Ha [[_ <-]|[_ ?]]%lookup_insert_Some; [specialize (Hr Ha); lia|by eapply inv_retry].
  - intros n k q r' Ha [(-> & _)|[Hq ?]]%Hc Hl Hp.
    + rewrite lookup_insert_eq in Hl. injection Hl as <-. by apply Hr.
    + rewrite lookup_insert_ne in Hl by done. by eapply inv_idle.
  - intros t r' Ha Ht Hs [[_ <-]|[_ ?]]%lookup_insert_Some; [by apply Hr|by eapply inv_unstarted].
Qed.

Lemma keeps_add_route {A} auto nid r (f : positive → Rly A) :
  (auto → 0 ≤ rm_Retry r < StaleMarkCount) → (∀ p, keeps (Inv auto) (f p)) →
  keeps (Inv auto) (p ← new_route r; _ ← cache_Add nid p; f p).
Proof. intros Hr Hf s HI. eapply wlp_add_route; [done..|]. intros p s' HI'. by apply Hf. Qed.

Lemma keeps_add_cached auto nid r :
  (auto → 0 ≤ rm_Retry r < StaleMarkCount) →
  keeps (Inv auto) (p ← new_route r; cache_Add nid p).
Proof.
  intros Hr s HI. assert (keeps (Inv auto) (p ← new_route r; _ ← cache_Add nid p; mret tt)) as Hk.
  { apply keeps_add_route; [done|]. intros. apply keeps_ret. }
  specialize (Hk s HI). unfold wpx, mbind, proc_bind in *.
  destruct (new_route r s) as [[s' p]|]; [|done]. by destruct (cache_Add nid p s') as [[? []]|].
Qed.

(** ** Databases *)

Lemma db_wf_delete db k : db_wf db → db_wf (DeleteByKey db k).1.
Proof.
  intros [Hh Hr]. destruct (delete_spec db k Hh) as (db' & -> & Hh' & Hc). split; [done|].
  cbn [fst]. intros k' v. rewrite Hc. intros [_ ?]%lookup_delete_Some. eauto.
Qed.

(** Rows of the other stores are under other prefixes. *)
Lemma db_wf_set_other db k v :
  HasPrefix k (GetKey [prefixMessageStore; ""]) = false → db_wf db → db_wf (SetByKey db k v).1.
Proof.
  intros Hk [Hh Hr]. destruct (set_spec db k v Hh) as (db' & -> & Hh' & Hc). split; [done|].
  cbn [fst]. intros k' v'. rewrite Hc. intros [[<- _]|[_ ?]]%lookup_insert_Some Hp; [congruence|eauto].
Qed.

Lemma db_wf_StoreMessage db (r : Types.RouteMessage) :
  rm_Processing r = false → 0 ≤ rm_Retry r ≤ StaleMarkCount →
  db_wf db → db_wf (StoreMessage prefixMessageStore db (Some r)).1.
Proof.
  intros Hp Hr [Hh Hrow]. destruct (StoreMessage_spec prefixMessageStore db r Hh)
    as (db' & v & -> & Hh' & Hc & Hu). split; [done|]. cbn [fst]. intros k' v'. rewrite Hc.
  intros [[_ <-]|[_ ?]]%lookup_insert_Some Hk; [|eauto]. eauto.
Qed.

Lemma db_wf_StoreTxObject db t : db_wf db → db_wf (StoreTxObject prefixFinalityStore db t).1.
Proof.
  intros Hdb. destruct t as [t|]; [|done]. cbn. destruct (Marshal (tx_wire t)); [|done].
  by apply db_wf_set_other.
Qed.

Lemma db_wf_StoreBlock db h nid : db_wf db → db_wf (StoreBlock prefixBlockStore db h nid).1.
Proof.
  intros Hdb. unfold StoreBlock. destruct (Marshal h); [|done]. by apply db_wf_set_other.
Qed.

Lemma db_wf_ClearStore db : db_wf db → db_wf (ClearStore db).1.
Proof.
  intros [Hh _]. destruct (clear_spec db Hh) as (db' & -> & Hh' & Hc). split; [done|].
  cbn [fst]. intros k v. by rewrite Hc, lookup_empty.
Qed.

(** The messages of a chain can be read back, and satisfy the row invariant. *)
Lemma GetMessages_total db nid p :
  db_wf db → ∃ l, GetMessages prefixMessageStore db nid p = Ok l ∧
    Forall (λ m, rm_Processing m = false ∧ 0 ≤ rm_Retry m ≤ StaleMarkCount) l.
Proof.
  intros [Hh Hr]. unfold GetMessages. rewrite iter_spec by done.
  set (P := λ m : RouteMessageOf Z, _).
  assert (Forall (λ kv, ∃ m, Unmarshal kv.2 = Ok m ∧ P m)
    (prefix_rows (contents db) (GetKey [prefixMessageStore; nid]))) as Hrows.
  { apply Forall_forall. intros [k v] [Hk Hp]%elem_of_prefix_rows. apply (Hr k v Hk).
    unfold HasPrefix in *. apply prefix_spec in Hp as [x ->]. apply prefix_spec.
    exists (nid +:+ x). by rewrite !GetKey_2, !string_app_assoc. }
  revert Hrows. generalize (prefix_rows (contents db) (GetKey [prefixMessageStore; nid])) as rows.
  assert (∀ rows, Forall (λ kv : string * string, ∃ m, Unmarshal kv.2 = Ok m ∧ P m) rows →
    ∀ acc, Forall P acc → ∃ l, GetMessages_loop (pg_Limit p) rows None acc = Ok l ∧ Forall P l)
    as HL; [|by intros rows Hrows; apply HL].
  induction 1 as [|[k v] rows (m & Hm & HP) _ IH]; intros acc Hacc; cbn in *; [eauto|].
  rewrite Hm. cbn. assert (Forall P (acc ++ [m])).
  { apply Forall_app. split; [done|by apply Forall_singleton]. }
  case_match; eauto.
Qed.

Lemma getActiveMessages_wf db nid n (l : list (RouteMessageOf Z)) :
  db_wf db → getActiveMessagesFromStore db nid n = Ok l →
  Forall (λ m, rm_Processing m = false ∧ 0 ≤ rm_Retry m < StaleMarkCount) l.
Proof.
  intros Hdb. unfold getActiveMessagesFromStore. intros (msgs & Hm & [= <-])%res_bind_Ok.
  destruct (GetMessages_total db nid (WithLimit n NewPagination) Hdb) as (l' & Hl' & Hall).
  rewrite Hl' in Hm. injection Hm as <-. rewrite Forall_forall in *.
  intros m [Hs [? ?]%Hall]%list_elem_of_filter. unfold IsStale in Hs. split; [done|lia].
Qed.

(** ** Every operation preserves the invariant *)

Lemma keeps_with_db_ret auto (f : St → St * error) :
  (auto → ∀ db, db_wf db → db_wf (f db).1) → keeps (Inv auto) (_ ← with_db f; mret tt).
Proof. intros Hf. apply keeps_bind; [by apply keeps_with_db|]. intros. apply keeps_ret. Qed.

Lemma keeps_ClearMessages auto keys src : keeps (Inv auto) (ClearMessages keys src).
Proof.
  apply keeps_bind.
  - apply keeps_for_each. intros. apply keeps_cache_Remove.
  - intros _. induction keys as [|k keys IH]; [apply keeps_ret|].
    cbn. apply keeps_bind; [apply keeps_with_db; intros; by apply db_wf_delete|].
    intros [e|]; [apply keeps_ret|apply IH].
Qed.

Lemma keeps_clear1 auto keys src : keeps (Inv auto) (_ ← ClearMessages keys src; mret tt).
Proof. apply keeps_bind; [apply keeps_ClearMessages|]. intros. apply keeps_ret. Qed.

Lemma keeps_mergeMessages auto nid msgs : keeps (Inv auto) (mergeMessages nid msgs).
Proof.
  apply keeps_for_each. intros m _. apply keeps_bind.
  - apply keeps_bind; [apply keeps_new_addr|]. intros. apply keeps_ret.
  - intros m'. by apply keeps_add_cached.
Qed.

Lemma keeps_flushMessages auto order : keeps (Inv auto) (flushMessages order).
Proof.
  apply keeps_for_each. intros nid _. apply keeps_bind_gets. intros s HI.
  destruct (getActiveMessagesFromStore _ _ _) as [l| |] eqn:Hl; [|done|done].
  apply keeps_for_each; [|done]. intros m Hm. 
  assert (auto → 0 ≤ rm_Retry m < StaleMarkCount) as Hr.
  { intros Ha. eapply getActiveMessages_wf in Hl; [|by eapply inv_db].
    rewrite Forall_forall in Hl. by apply Hl. }
  intros s' HI'. unfold new_stored. apply wpx_bind, wpx_bind.
  eapply wpx_mono; [by apply keeps_new_addr|]. intros a s2 HI2.
  exact (keeps_add_cached auto nid (route_alloc a m) Hr s2 HI2).
Qed.

Lemma keeps_processBlockInfo auto src b : keeps (Inv auto) (processBlockInfo src b).
Proof.
  apply keeps_bind; [by apply keeps_on_chain|]. intros _. apply keeps_for_each. intros m _.
  apply keeps_add_route; [done|]. intros p. apply keeps_with_db_ret.
  intros Ha db. by apply db_wf_StoreMessage.
Qed.

Lemma keeps_SaveBlockHeight auto nid h : keeps (Inv auto) (SaveBlockHeight nid h).
Proof.
  apply keeps_bind; [by apply keeps_on_chain|]. intros _.
  apply keeps_bind; [by apply keeps_on_chain|]. intros _.
  apply keeps_with_db. intros _ db. apply db_wf_StoreBlock.
Qed.

Lemma keeps_callback auto prov src dst key response err :
  keeps (Inv auto) (callback prov src dst key response err).
Proof.
  apply keeps_bind; [apply keeps_gets|]. intros [p|]; [|apply keeps_ret].
  apply keeps_bind; [apply keeps_load|]. intros r.
  destruct (_ =? _); [|apply keeps_ret].
  apply keeps_bind; [apply keeps_log_sn|]. intros _.
  destruct (0 <? _); [|apply keeps_clear1].
  apply keeps_bind; [apply keeps_with_db; intros _ db; apply db_wf_StoreTxObject|].
  intros [e|]; [apply keeps_ret|apply keeps_clear1].
Qed.

Lemma keeps_new_txs auto l : keeps (Inv auto) (new_txs l).
Proof.
  induction l as [|t l IH]; [apply keeps_ret|]. apply keeps_bind.
  - apply keeps_bind; [apply keeps_new_addr|]. intros. apply keeps_ret.
  - intros t'. apply keeps_bind; [done|]. intros. apply keeps_ret.
Qed.

Lemma keeps_CheckFinality_tx auto prov nid f h t : keeps (Inv auto) (CheckFinality_tx prov nid f h t).
Proof.
  unfold CheckFinality_tx. destruct (_ =? 0); [apply keeps_ret|].
  destruct (h <? _); [apply keeps_ret|].
  apply keeps_bind; [apply keeps_liftRes|]. intros [[r|]|e]; [|apply keeps_panic|apply keeps_ret].
  destruct (rc_Status r); [apply keeps_with_db_ret; intros _ db; apply db_wf_delete|].
  apply keeps_bind; [apply keeps_gets|]. intros [c|]; [|apply keeps_ret].
  apply keeps_bind; [apply keeps_with_db; intros _ db; apply db_wf_delete|].
  intros [e|]; [apply keeps_ret|]. apply keeps_bind; [apply keeps_liftRes|].
  intros [l|e]; [apply keeps_mergeMessages|apply keeps_ret].
Qed.

Lemma keeps_CheckFinality auto prov order : keeps (Inv auto) (CheckFinality prov order).
Proof.
  apply keeps_for_each. intros nid _. apply keeps_bind; [apply keeps_gets|].
  intros [c|]; [|apply keeps_ret]. cbn. case_match; [|apply keeps_ret].
  apply keeps_bind; [apply keeps_gets|]. intros [l|e|]; [|apply keeps_ret|apply keeps_panic].
  apply keeps_bind; [apply keeps_new_txs|]. intros l'.
  apply keeps_for_each. intros t _. apply keeps_CheckFinality_tx.
Qed.

Lemma keeps_SaveChainsBlockHeight auto prov order :
  keeps (Inv auto) (SaveChainsBlockHeight prov order).
Proof.
  apply keeps_for_each. intros nid _. apply keeps_bind; [apply keeps_liftRes|].
  intros [h|e]; [|apply keeps_ret]. apply keeps_bind; [apply keeps_SaveBlockHeight|].
  intros. apply keeps_ret.
Qed.

Lemma keeps_cleanExpiredMessages auto now order : keeps (Inv auto) (cleanExpiredMessages now order).
Proof.
  apply keeps_for_each. intros nid _. apply keeps_bind; [apply keeps_gets|].
  intros [l|e|]; [|apply keeps_ret|apply keeps_panic]. apply keeps_for_each. intros m _.
  destruct (IsElasped _ _ _); [|apply keeps_ret].
  apply keeps_bind; [apply keeps_new_addr|]. intros a. apply keeps_clear1.
Qed.

Lemma keeps_listen auto nid h msgs : keeps (Inv auto) (listen nid h msgs).
Proof.
  apply keeps_bind; [|intros l; by apply keeps_on_chain].
  induction msgs as [|m msgs IH]; [apply keeps_ret|]. apply keeps_bind.
  - apply keeps_bind; [apply keeps_new_addr|]. intros. apply keeps_ret.
  - intros m'. apply keeps_bind; [done|]. intros. apply keeps_ret.
Qed.

Lemma keeps_StartBlockProcessors auto nid : keeps (Inv auto) (StartBlockProcessors_step nid).
Proof.
  apply keeps_bind; [apply keeps_gets|]. intros c. destruct (listenerChan <$> c) as [[|b l]|];
    [apply keeps_ret| |apply keeps_ret].
  apply keeps_bind; [by apply keeps_on_chain|]. intros _. apply keeps_processBlockInfo.
Qed.

(** *** Routing *)

(** A message in place of which [f]'s image is written, no goroutine routing it
    unless it stays marked. *)
Lemma Inv_on_route auto p (f : Types.RouteMessage → Types.RouteMessage) s r :
  Inv auto s → rl_heap s !! p = Some r → rm_key (f r) = rm_key r →
  (p ∈ tk_msg <$> rl_tasks s → rm_Processing (f r) = true) →
  (auto → 0 ≤ rm_Retry (f r) ≤ StaleMarkCount) →
  (auto → ∀ n k, cached s n k p → rm_Processing (f r) = false → rm_Retry (f r) < StaleMarkCount) →
  (auto → ∀ t, t ∈ rl_tasks s → tk_msg t = p → tk_started t = false → rm_Retry (f r) < StaleMarkCount) →
  Inv auto (mkRelayer (rl_db s) (rl_chains s) (alter f p (rl_heap s)) (rl_next s) (rl_tasks s)).
Proof.
  intros HI Hr Hkey Hp Hret Hidle Hun. split; cbn.
  - intros q r'. destruct (decide (p = q)) as [->|].
    + intros _. by eapply inv_next.
    + rewrite lookup_alter_ne by done. by eapply inv_next.
  - intros n k q (r0 & Hq & <-)%(inv_cached _ _ HI). destruct (decide (p = q)) as [->|].
    + rewrite lookup_alter_eq, Hq. rewrite Hq in Hr. injection Hr as ->. eexists. split; [done|done].
    + rewrite lookup_alter_ne by done. eauto.
  - by apply HI.
  - intros t Ht. destruct (inv_task _ _ HI t Ht) as (r0 & Hq & ? & ?).
    destruct (decide (p = tk_msg t)) as [->|].
    + rewrite lookup_alter_eq, Hq. rewrite Hq in Hr. injection Hr as ->. eexists. split; [done|].
      split; [|done]. apply Hp. by apply list_elem_of_fmap_2.
    + rewrite lookup_alter_ne by done. eauto.
  - by apply HI.
  - by apply HI.
  - intros q r' Ha. destruct (decide (p = q)) as [->|].
    + rewrite lookup_alter_eq, Hr. intros [= <-]. by apply Hret.
    + rewrite lookup_alter_ne by done. by eapply inv_retry.
  - intros n k q r' Ha Hc. destruct (decide (p = q)) as [->|].
    + rewrite lookup_alter_eq, Hr. intros [= <-]. by eapply Hidle.
    + rewrite lookup_alter_ne by done. by eapply inv_idle.
  - intros t r' Ha Ht Hs. destruct (decide (p = tk_msg t)) as [->|].
    + rewrite lookup_alter_eq, Hr. intros [= <-]. by eapply Hun.
    + rewrite lookup_alter_ne by done. by eapply inv_unstarted.
Qed.

(** The message at [p] is cached by [src], is not being routed, and may be
    tried once more; [r] is its content. *)
Record routable (auto : Prop) (src : string) (p : positive) (r : Types.RouteMessage) s : Prop := {
  rt_inv : Inv auto s;
  rt_heap : rl_heap s !! p = Some r;
  rt_owner n k : cached s n k p → n = src;
  rt_free : p ∉ tk_msg <$> rl_tasks s;
  rt_retry : auto → rm_Retry r < StaleMarkCount }.

Lemma routable_toggle auto src p r s :
  routable auto src p r s →
  wlp (on_route p ToggleProcessing) (λ _, routable auto src p (ToggleProcessing r)) s.
Proof.
  intros [HI Hr Ho Hf Ht]. apply wpx_modify. split; cbn; [|by rewrite lookup_alter_eq, Hr|done..].
  eapply Inv_on_route; try done.
  - intros Ha. exact (inv_retry _ _ HI _ _ Ha Hr).
  - intros Ha n k _ _. by apply Ht.
  - intros Ha t Hin Htp _. by apply Ht.
Qed.

Lemma routable_cached auto n k p r s :
  Inv auto s → cached s n k p → rl_heap s !! p = Some r → rm_Processing r = false →
  routable auto n p r s.
Proof.
  intros HI Hc Hr Hp. split; [done|done| | |].
  - intros n' k' Hc'. by eapply inv_owner.
  - intros (t & -> & Ht)%list_elem_of_fmap. destruct (inv_task _ _ HI t Ht) as (r' & Hr' & ? & _).
    congruence.
  - intros Ha. by eapply inv_idle.
Qed.

Lemma shouldSendMessage_idle prov dst src now rm (Q : bool → Relayer St → Prop) s :
  Q false s → (rm_Processing rm = false → Q true s) →
  wlp (shouldSendMessage (St := St) prov dst src now (Some rm)) Q s.
Proof.
  intros Hno Hyes. unfold shouldSendMessage. destruct (IsProcessing now rm) eqn:E; [done|].
  apply IsProcessing_false in E as [E _].
  apply wpx_bind, wpx_liftRes; [done| |done]. intros [] _; [|done].
  apply wpx_bind, wpx_liftRes; [done| |done]. intros [] _; [|done]. by apply Hyes.
Qed.

Lemma keeps_spawn auto dst src p r s :
  routable auto src p r s → rm_Processing r = true →
  wlp (spawn (mkTask p dst src false)) (λ _, Inv auto) s.
Proof.
  intros [HI Hr Ho Hf Ht] Hp. apply wpx_modify. split; cbn.
  - exact (inv_next _ _ HI).
  - exact (inv_cached _ _ HI).
  - exact (inv_owner _ _ HI).
  - intros t [Ht'| ->%list_elem_of_singleton]%elem_of_app; [exact (inv_task _ _ HI t Ht')|]. cbn. eauto.
  - rewrite fmap_app. apply NoDup_app. split_and!; [exact (inv_nodup _ _ HI)| |apply NoDup_singleton].
    intros q Hq ->%list_elem_of_singleton. done.
  - exact (inv_db _ _ HI).
  - exact (inv_retry _ _ HI).
  - exact (inv_idle _ _ HI).
  - intros t r' Ha [Ht'| ->%list_elem_of_singleton]%elem_of_app Hs Hh; [exact (inv_unstarted _ _ HI t r' Ha Ht' Hs Hh)|].
    cbn in Hh. rewrite Hr in Hh. injection Hh as <-. by apply Ht.
Qed.

Lemma keeps_processMessage auto prov now src key : keeps (Inv auto) (processMessage prov now src key).
Proof.
  apply keeps_bind_gets. intros s HI. destruct (chain_cache s src !! key) as [p|] eqn:Hc; [|done].
  apply wpx_bind, wlp_load. intros r Hr. apply wpx_bind, wpx_gets.
  destruct (FindChainRuntime _ _); [|by apply keeps_clear1|done].
  apply wpx_bind, shouldSendMessage_idle; [done|]. intros Hidle. cbn [negb].
  apply wpx_bind. eapply wpx_mono; [by eapply routable_toggle, routable_cached|].
  intros [] s1 Hrt. apply wpx_bind, wpx_liftRes; [done| |].
  - intros [] _.
    + eapply wpx_bind, wpx_mono; [apply keeps_log_sn, Hrt|]. intros [] s2 HI2. by apply keeps_clear1.
    + eapply keeps_spawn; [done|]. cbn. by rewrite Hidle.
  - intros e _. apply wpx_bind. destruct (m_Sn _); [|done]. apply wpx_ret.
    eapply wpx_mono; [by apply routable_toggle|]. by intros [] s2 [].
Qed.

Lemma keeps_processMessages auto prov now order :
  keeps (Inv auto) (processMessages prov now order).
Proof.
  apply keeps_for_each. intros [src keys] _. apply keeps_for_each. intros k _.
  apply keeps_processMessage.
Qed.

(** *** Routing goroutines *)

Lemma elem_of_insert_task (l : list Task) i p dst src t :
  l !! i = Some (mkTask p dst src false) → t ∈ <[i := mkTask p dst src true]> l →
  t = mkTask p dst src true ∨ t ∈ l.
Proof.
  intros Hi [j Hj]%list_elem_of_lookup. apply list_lookup_insert_Some in Hj.
  destruct Hj as [(<- & -> & _)|[_ Hj]]; [by left|right]. by eapply list_elem_of_lookup_2.
Qed.

Lemma fmap_insert_task (l : list Task) i p dst src :
  l !! i = Some (mkTask p dst src false) →
  tk_msg <$> <[i := mkTask p dst src true]> l = tk_msg <$> l.
Proof.
  intros Hi. rewrite list_fmap_insert. apply list_insert_id. cbn. by rewrite list_lookup_fmap, Hi.
Qed.

(** Fewer or further goroutines. *)
Lemma Inv_tasks auto s l :
  Inv auto s → NoDup (tk_msg <$> l) →
  (∀ t, t ∈ l → ∃ t', t' ∈ rl_tasks s ∧ tk_msg t' = tk_msg t ∧ tk_src t' = tk_src t ∧
     (tk_started t = false → tk_started t' = false)) →
  Inv auto (mkRelayer (rl_db s) (rl_chains s) (rl_heap s) (rl_next s) l).
Proof.
  intros HI Hn Hl. split; cbn; [exact (inv_next _ _ HI)|exact (inv_cached _ _ HI)|exact (inv_owner _ _ HI)
    | |done|exact (inv_db _ _ HI)|exact (inv_retry _ _ HI)|exact (inv_idle _ _ HI)|].
  - intros t (t' & Ht' & <- & <- & _)%Hl. exact (inv_task _ _ HI t' Ht').
  - intros t r Ha (t' & Ht' & <- & _ & Hs)%Hl Hst Hh. by eapply (inv_unstarted _ _ HI t'); auto.
Qed.

Lemma keeps_task_start auto now i : keeps (Inv auto) (task_start now i).
Proof.
  apply keeps_bind_gets. intros s HI.
  destruct (rl_tasks s !! i) as [[p dst src []]|] eqn:Hi; [done| |done].
  assert (mkTask p dst src false ∈ rl_tasks s) as Hin by by eapply list_elem_of_lookup_2.
  destruct (inv_task _ _ HI _ Hin) as (r & Hr & Hp & Ho). cbn in Hr, Ho.
  assert (auto → rm_Retry r < StaleMarkCount) as Hlt by (intros Ha; by eapply inv_unstarted).
  apply wpx_bind, wpx_modify, wpx_modify. set (l := <[i := _]> (rl_tasks s)).
  assert (NoDup (tk_msg <$> l)) as Hnd.
  { unfold l. rewrite fmap_insert_task by done. by eapply inv_nodup. }
  assert (Inv auto (mkRelayer (rl_db s) (rl_chains s) (rl_heap s) (rl_next s) l)) as HI1.
  { apply Inv_tasks; [done..|]. intros t [->|?]%elem_of_insert_task; [|by eauto|done].
    eexists. split; [done|]. by cbn. }
  assert (auto → 0 ≤ rm_Retry r < 15) as Hb.
  { intros Ha. split; [by eapply (inv_retry _ _ HI p r)|]. rewrite <-StaleMarkCount_value. auto. }
  eapply (Inv_on_route auto p (IncrementRetry now) _ r HI1); cbn; try done.
  - intros Ha. rewrite u8_small, StaleMarkCount_value by (specialize (Hb Ha); lia).
    specialize (Hb Ha); lia.
  - intros Ha n k _. rewrite Hp. done.
  - intros Ha t [j Hj]%list_elem_of_lookup Ht Hs.
    assert (i = j) as <-.
    { eapply (NoDup_lookup _ i j p Hnd); rewrite list_lookup_fmap; [|by rewrite Hj; cbn; f_equal].
      unfold l. rewrite list_lookup_insert_eq; [done|]. by eapply lookup_lt_Some. }
    unfold l in Hj. rewrite list_lookup_insert_eq in Hj by by eapply lookup_lt_Some.
    injection Hj as <-. done.
Qed.

Lemma StoreMessage_ok db (r : Types.RouteMessage) e :
  db_wf db → (StoreMessage prefixMessageStore db (Some r)).2 ≠ Some e.
Proof.
  intros [Hh _]. destruct (StoreMessage_spec prefixMessageStore db r Hh) as (db' & v & -> & _).
  done.
Qed.

(** Removing the key of the message at [p] removes the only entry for [p]. *)
Lemma cache_Remove_gone auto src p r s :
  Inv auto s → rl_heap s !! p = Some r → (∀ n k, cached s n k p → n = src) →
  ∀ n k, ¬ cached (mkRelayer (rl_db s) (alter (cr_with_cache (MessageCache_Remove (rm_key r))) src
    (rl_chains s)) (rl_heap s) (rl_next s) (rl_tasks s)) n k p.
Proof.
  intros HI Hr Ho n k Hc. unfold cached in Hc. rewrite chain_cache_alter in Hc.
  case_decide as Hn; [|by apply Hn, eq_sym; eapply Ho].
  subst n. destruct (rl_chains s !! src) as [c|] eqn:Ec; [|done]. cbn in Hc.
  apply lookup_delete_Some in Hc as [Hk Hc].
  assert (cached s src k p) as Hc' by (unfold cached, chain_cache; by rewrite Ec).
  destruct (inv_cached _ _ HI _ _ _ Hc') as (r0 & Hr0 & <-). rewrite Hr in Hr0.
  by injection Hr0 as <-.
Qed.

Lemma keeps_HandleMessageFailed auto p dst src r s :
  Inv auto s → rl_heap s !! p = Some r → rm_Processing r = true →
  (∀ n k, cached s n k p → n = src) → p ∉ tk_msg <$> rl_tasks s →
  wlp (HandleMessageFailed (St := St) p dst src) (λ _, Inv auto) s.
Proof.
  intros HI Hr Hp Ho Hf. set (r' := ToggleProcessing r).
  assert (auto → 0 ≤ rm_Retry r ≤ StaleMarkCount) as Hret by (intros Ha; by eapply inv_retry).
  assert (∀ t, t ∈ rl_tasks s → tk_msg t ≠ p) as Hft.
  { intros t Ht <-. destruct Hf. by apply list_elem_of_fmap_2. }
  apply wpx_bind, wpx_modify, wpx_bind, (wpx_load _ _ r'); [by cbn; rewrite lookup_alter_eq, Hr|].
  destruct (Z.leb_spec MaxTxRetry (rm_Retry r')) as [Hmax|Hmax].
  - apply wpx_bind. unfold wpx at 1, with_db; cbn [rl_db rl_chains rl_heap rl_next rl_tasks].
    assert (rm_Processing r' = false) as Hp' by (cbn; by rewrite Hp).
    pose proof (db_wf_StoreMessage (rl_db s) r' Hp') as Hwf.
    pose proof (StoreMessage_ok (rl_db s) r') as Hok.
    destruct (StoreMessage _ _ _) as [db' [e|]].
    + eapply (Inv_shrink _ (mkRelayer (rl_db s) (rl_chains s) (alter ToggleProcessing p (rl_heap s))
        (rl_next s) (rl_tasks s))); try done.
      * eapply Inv_on_route; [done|done|done|done|done| |by intros Ha t Ht Hm; destruct (Hft t)].
        intros Ha. destruct (Hok e); [by eapply inv_db|done].
      * intros Ha. destruct (Hok e); [by eapply inv_db|done].
    + apply wpx_bind, wpx_modify. apply keeps_log_sn.
      set (s1 := mkRelayer (rl_db s) (alter (cr_with_cache (MessageCache_Remove (rm_key r'))) src
        (rl_chains s)) (rl_heap s) (rl_next s) (rl_tasks s)).
      assert (Inv auto s1) as HI1.
      { pose proof (keeps_cache_Remove auto src (rm_key r') s HI). done. }
      pose proof (cache_Remove_gone auto src p r s HI Hr Ho) as Hnc. fold s1 in Hnc.
      eapply (Inv_shrink _ (mkRelayer (rl_db s) (rl_chains s1) (alter ToggleProcessing p (rl_heap s))
        (rl_next s) (rl_tasks s))); try done.
      * eapply (Inv_on_route _ _ _ s1); [done|done|done|done|done| |by intros Ha t Ht Hm; destruct (Hft t)].
        intros Ha n k Hc. by destruct (Hnc n k).
      * intros Ha. apply Hwf; [by apply Hret|by eapply inv_db].
  - eapply Inv_on_route; [done|done|done|done|done| |].
    + intros Ha n k _ _. rewrite StaleMarkCount_value. unfold r', MaxTxRetry in *. lia.
    + by intros Ha t Ht Hm; destruct (Hft t).
Qed.

Lemma keeps_task_return auto i err : keeps (Inv auto) (task_return i err).
Proof.
  apply keeps_bind_gets. intros s HI.
  destruct (rl_tasks s !! i) as [[p dst src []]|] eqn:Hi; [|done|done].
  assert (mkTask p dst src true ∈ rl_tasks s) as Hin by by eapply list_elem_of_lookup_2.
  destruct (inv_task _ _ HI _ Hin) as (r & Hr & Hp & Ho). cbn in Hr, Ho.
  pose proof (inv_nodup _ _ HI) as Hnd.
  apply wpx_bind, wpx_modify. set (s1 := mkRelayer _ _ _ _ _).
  assert (p ∉ tk_msg <$> delete i (rl_tasks s)) as Hnin.
  { rewrite <-(take_drop_middle _ _ _ Hi) in Hnd. rewrite fmap_app, fmap_cons in Hnd.
    apply NoDup_app in Hnd as (_ & Hd & [Hc _]%NoDup_cons).
    rewrite delete_take_drop, fmap_app, elem_of_app. intros [?|?]; [|done].
    eapply Hd; [done|]. by left. }
  assert (Inv auto s1) as HI1.
  { apply Inv_tasks; [done| |].
    - eapply sublist_NoDup; [exact Hnd|]. apply fmap_sublist, sublist_delete.
    - intros t Ht. exists t. split; [|done].
      eapply elem_of_submseteq; [exact Ht|]. apply sublist_submseteq, sublist_delete. }
  destruct err; [|done]. by eapply keeps_HandleMessageFailed.
Qed.

(** *** The system *)

Lemma keeps_action (auto : Prop) a :
  (auto → is_RelayRow a = false) → keeps (Inv auto) (run a).
Proof.
  intros Hauto. destruct a; cbn [run].
  - apply keeps_listen.
  - apply keeps_StartBlockProcessors.
  - apply keeps_flushMessages.
  - destruct t; cbn [StartRouter_step].
    + apply keeps_flushMessages.
    + apply keeps_processMessages.
    + apply keeps_SaveChainsBlockHeight.
    + apply keeps_cleanExpiredMessages.
    + apply keeps_ret.
  - apply keeps_CheckFinality.
  - apply keeps_task_start.
  - apply keeps_callback.
  - apply keeps_task_return.
  - apply keeps_with_db_ret. intros _ db. apply db_wf_ClearStore.
  - apply keeps_with_db_ret. intros _ db. apply db_wf_delete.
  - apply keeps_mergeMessages.
  - intros s HI. unfold new_stored. apply wpx_bind, wpx_bind.
    eapply wpx_mono; [by apply keeps_new_addr|]. intros b s2 HI2.
    refine (keeps_add_cached auto nid (route_alloc b m) _ s2 HI2). by intros ?%Hauto.
Qed.

Lemma initial_Inv (auto : Prop) s : initial s → (auto → db_wf (rl_db s)) → Inv auto s.
Proof.
  intros (Hh & Ht & Hc) Hdb.
  assert (∀ n k p, ¬ cached s n k p) as Hn.
  { intros n k p. unfold cached, chain_cache. destruct (rl_chains s !! n) as [c|] eqn:E; [|done].
    destruct (Hc _ _ E) as [_ ->]. done. }
  split; rewrite ?Hh, ?Ht; try done; try (intros; by exfalso; eapply Hn).
  - set_solver.
  - constructor.
Qed.

Lemma reachable_Inv (auto : Prop) manual s0 s :
  initial s0 → (auto → db_wf (rl_db s0)) → (auto → manual = false) →
  reachable manual s0 s → Inv auto s.
Proof.
  intros Hi Hdb Hm. induction 1 as [|s s' _ IH [a s2 _ Ha Hrun]]; [by apply initial_Inv|].
  refine (keeps_run _ _ _ _ _ (keeps_action auto a _) IH Hrun). intros Hau. specialize (Hm Hau). subst.
  destruct (is_RelayRow a); [by specialize (Ha eq_refl)|done].
Qed.

(** C6: whatever the chains answer, however the goroutines interleave and
    whether or not the database works, no route message is ever routed by two
    goroutines at once: every message in flight is marked as processing, has
    exactly one routing goroutine, and is cached under no chain but the
    goroutine's source. *)
Theorem one_route_in_flight manual s0 s (Hinit : initial s0) (Hr : reachable manual s0 s) :
  NoDup (tk_msg <$> rl_tasks s) ∧
  ∀ t, t ∈ rl_tasks s → ∃ r, rl_heap s !! tk_msg t = Some r ∧ rm_Processing r = true ∧
    ∀ nid k, chain_cache s nid !! k = Some (tk_msg t) → nid = tk_src t ∧ k = rm_key r.
Proof.
  assert (Inv False s) as HI by by apply (reachable_Inv False manual s0).
  split; [by eapply inv_nodup|]. intros t Ht.
  destruct (inv_task _ _ HI t Ht) as (r & Hh & Hp & Ho). exists r. split_and!; [done..|].
  intros nid k Hc. split; [by eapply Ho|].
  destruct (inv_cached _ _ HI _ _ _ Hc) as (r' & Hh' & <-). congruence.
Qed.

(** C7: the caches stay coherent: every entry of a chain's cache points to a
    live route message whose own key is the entry's key, and no message is in
    the caches of two chains. *)
Theorem cache_coherent manual s0 s (Hinit : initial s0) (Hr : reachable manual s0 s) :
  ∀ nid k p, chain_cache s nid !! k = Some p →
    (∃ r, rl_heap s !! p = Some r ∧ rm_key r = k) ∧
    ∀ nid' k', chain_cache s nid' !! k' = Some p → nid' = nid ∧ k' = k.
Proof.
  assert (Inv False s) as HI by by apply (reachable_Inv False manual s0).
  intros nid k p Hc. destruct (inv_cached _ _ HI _ _ _ Hc) as (r & Hh & Hk).
  split; [by exists r|]. intros nid' k' Hc'. split; [by eapply inv_owner|].
  destruct (inv_cached _ _ HI _ _ _ Hc') as (r' & Hh' & <-). congruence.
Qed.

(** C8: the bound on the tries of a route message, the object that a cache entry
    points to.  With a working database whose rows at the start are well formed,
    and as long as no stored row is put back by hand, no such object is ever
    tried more than [StaleMarkCount] = 15 times, so that its backoff never
    overflows, and one that waits in a cache has a try left.  The bound is not
    one on the message: the flush can make a second object of the row of a
    message in flight (RelayWitness.v, [flush_routes_twice]). *)
Theorem retry_bounded s0 s (Hinit : initial s0) (Hdb : db_wf (rl_db s0))
  (Hr : reachable false s0 s) :
  (∀ p r, rl_heap s !! p = Some r →
     0 ≤ rm_Retry r ≤ StaleMarkCount ∧ backoff (rm_Retry r) = RetryInterval * 2 ^ rm_Retry r) ∧
  (∀ nid k p r, chain_cache s nid !! k = Some p → rl_heap s !! p = Some r →
     rm_Processing r = false → IsStale r = false).
Proof.
  assert (Inv True s) as HI by by apply (reachable_Inv True false s0).
  split.
  - intros p r Hh. pose proof (inv_retry _ _ HI p r I Hh) as Hb. split; [done|].
    apply backoff_exact. rewrite StaleMarkCount_value in Hb. lia.
  - intros nid k p r Hc Hh Hp. pose proof (inv_idle _ _ HI nid k p r I Hc Hh Hp).
    unfold IsStale. lia.
Qed.


(** * Between the halves of a failed attempt *)

(** The relayer, and the goroutines in [HandleMessageFailed] whose message has
    lost its mark and is not stored yet. *)
Record FineState := mkFine { fs_relayer : Relayer St; fs_failed : list (positive * string) }.

Inductive fine_action : Type :=
| FineRun (a : action)
(** The [i]-th goroutine's [Route] has returned an error. *)
| FineUnmark (i : nat)
(** The [i]-th of those that have unmarked their message goes on. *)
| FineStore (i : nat).

Definition is_failure (a : action) : bool := match a with TaskReturn _ (Some _) => true | _ => false end.

Definition fine_run (f : fine_action) (x : FineState) : option FineState :=
  let s := fs_relayer x in
  match f with
  | FineRun a =>
      if decide (enabled a s ∧ is_RelayRow a = false ∧ is_failure a = false) then
        '(s', _) ← run a s; Some (mkFine s' (fs_failed x))
      else None
  | FineUnmark i =>
      match rl_tasks s !! i with
      | Some (mkTask p dst src true) =>
          '(s', _) ← (_ ← on_tasks (delete i); HandleMessageFailed_unmark p) s;
          Some (mkFine s' (fs_failed x ++ [(p, src)]))
      | _ => None
      end
  | FineStore i =>
      '(p, src) ← fs_failed x !! i;
      '(s', _) ← HandleMessageFailed_store p src s;
      Some (mkFine s' (delete i (fs_failed x)))
  end.
Definition fine_step (x x' : FineState) : Prop := ∃ f, fine_run f x = Some x'.

Fixpoint fine_exec (l : list fine_action) (x : FineState) : option FineState :=
  match l with [] => Some x | f :: l => x ← fine_run f x; fine_exec l x end.

Lemma fine_exec_steps l x x' : fine_exec l x = Some x' → rtc fine_step x x'.
Proof.
  revert x. induction l as [|f l IH]; intros x; cbn; [intros [= <-]; apply rtc_refl|].
  destruct (fine_run f x) as [x1|] eqn:E; [|done]. intros Hl. eapply rtc_l; [by exists f|by apply IH].
Qed.

(** The handling of a failure in one step is one way to do it in two. *)
Lemma failure_in_two i e s s' l :
  run (TaskReturn i (Some e)) s = Some (s', tt) → rtc fine_step (mkFine s l) (mkFine s' l).
Proof.
  cbn [run]. unfold task_return, gets, mbind, proc_bind.
  destruct (rl_tasks s !! i) as [[p dst src [|]]|] eqn:Ht; [|by intros [= <-]; apply rtc_refl..].
  cbn [on_tasks modify]. set (s1 := mkRelayer _ _ _ _ _). unfold HandleMessageFailed, mbind, proc_bind.
  destruct (HandleMessageFailed_unmark p s1) as [[s2 []]|] eqn:Hu; [|done]. intros Hs.
  apply rtc_l with (mkFine s2 (l ++ [(p, src)])).
  - exists (FineUnmark i). cbn [fine_run fs_relayer]. rewrite Ht. unfold mbind at 2, proc_bind.
    cbn [on_tasks modify]. fold s1. by rewrite Hu.
  - apply rtc_once. exists (FineStore (length l)). cbn [fine_run fs_relayer fs_failed].
    rewrite list_lookup_middle by done. cbn. rewrite Hs. cbn. by rewrite delete_middle, app_nil_r.
Qed.

(** So every run of the relayer is one of the finer relation. *)
Lemma step_fine s s' l : step false s s' → rtc fine_step (mkFine s l) (mkFine s' l).
Proof.
  intros [a s1 He Hm Hrun]. destruct (is_failure a) eqn:Hf.
  - destruct a as [| | | | | | |i [e|]| | | |]; try done. by eapply failure_in_two.
  - apply rtc_once. exists (FineRun a). cbn [fine_run fs_relayer]. rewrite decide_True; [by rewrite Hrun|].
    split_and!; [done| |done]. destruct (is_RelayRow a); [by discriminate Hm|done].
Qed.

Lemma reachable_fine s0 s : reachable false s0 s → rtc fine_step (mkFine s0 []) (mkFine s []).
Proof. induction 1 as [|s s' _ IH Hs]; [apply rtc_refl|]. etrans; [exact IH|by apply step_fine]. Qed.

(** A router pass leaves messages alone that carry the mark. *)
Lemma marked_left_alone prov now chains keys s :
  (∀ n k p, chain_cache s n !! k = Some p → ∃ r, rl_heap s !! p = Some r ∧ rm_Processing r = true ∧
     is_Some (rl_chains s !! m_Dst (rm_Message r))) →
  run (Router prov now chains keys routeTimer) s = Some (s, tt).
Proof.
  intros Hall. assert (∀ n k, processMessage prov now n k s = Some (s, tt)) as Hone.
  { intros n k. unfold processMessage, gets, mbind, proc_bind. destruct (chain_cache s n !! k) as [p|] eqn:Hk; [|done].
    destruct (Hall n k p Hk) as (r & Hr & Hp & [c Hc]). unfold load. rewrite Hr. unfold FindChainRuntime. rewrite Hc.
    unfold shouldSendMessage, IsProcessing. by rewrite Hp. }
  assert (∀ (A : Type) (l : list A) body, (∀ a, body a s = Some (s, tt)) → for_each l body s = Some (s, tt)) as Hskip.
  { intros A l body Hb. induction l as [|a l IH]; [done|]. cbn [for_each]. unfold mbind, proc_bind. by rewrite Hb. }
  cbn [run StartRouter_step]. unfold processMessages. apply Hskip. intros [n ks]. by apply Hskip.
Qed.
End System.
