(* ===== verification/RelayCorrect.v ===== *)
(** What each operation of the relayer does to the caches and the database, on
    every branch: delivery, failure, routing, finality, expiry, restart.

    [wp m Q s] says that [m], run from [s], does not panic and ends in a state
    satisfying [Q] (Prelude.v). *)
From stdpp Require Import gmap strings list.
From Stdlib Require Import ZArith Lia.
From S2P Require Import Prelude GoStd Types Store Provider Relay RelaySystem.
Import BlockStore MessageStore FinalityStore.
Open Scope Z_scope.

Section Correct.
Context {St : Type} `{StoreSpec St} `{CodecSpec Z}.
Context `{CodecSpec (RouteMessageOf Z)} `{CodecSpec (TransactionObjectOf Z)}.
Implicit Types (s : Relayer St) (prov : string → ChainProvider).

(** The row of the message with key [k]. *)
Definition row_of (k : MessageKey) : string :=
  message_key prefixMessageStore (k_Src k) (sn_val (k_Sn k)).

(** [s'] differs from [s] by the database and the cache of [nid] only. *)
Record only_cleared nid (cache' : Types.MessageCache) (rows' : gmap string string) s s' : Prop := {
  oc_healthy : healthy (rl_db s');
  oc_rows : contents (rl_db s') = rows';
  oc_cache : chain_cache s' nid = cache';
  oc_other n : n ≠ nid → rl_chains s' !! n = rl_chains s !! n;
  oc_heap : rl_heap s' = rl_heap s;
  oc_next : rl_next s' = rl_next s;
  oc_tasks : rl_tasks s' = rl_tasks s }.

Lemma wpx_with_db F (f : St → St * error) (Q : error → Relayer St → Prop) s db' e :
  f (rl_db s) = (db', e) →
  Q e (mkRelayer db' (rl_chains s) (rl_heap s) (rl_next s) (rl_tasks s)) → wpx F (with_db f) Q s.
Proof. intros Hf HQ. unfold wpx, with_db. by rewrite Hf. Qed.

Lemma chain_cache_Remove s nid key (db : St) heap next tasks :
  chain_cache (mkRelayer db (alter (cr_with_cache (MessageCache_Remove key)) nid (rl_chains s))
    heap next tasks) nid = delete key (chain_cache s nid).
Proof.
  rewrite chain_cache_alter, decide_True by done. unfold chain_cache.
  destruct (rl_chains s !! nid) as [c|]; cbn; [done|]. by rewrite delete_empty.
Qed.

(** Clearing one message: its cache entry and its row. *)
Lemma ClearMessages_one key nid s :
  healthy (rl_db s) →
  wp (ClearMessages [key] nid) (λ e s', e = None ∧
    only_cleared nid (delete key (chain_cache s nid)) (delete (row_of key) (contents (rl_db s))) s s') s.
Proof.
  intros Hdb. destruct (DeleteMessage_spec prefixMessageStore (rl_db s) key Hdb)
    as (db' & Hd & Hh & Hc).
  apply wpx_bind. cbn. apply wpx_bind, wpx_modify, wpx_ret, wpx_bind.
  eapply wpx_with_db; [exact Hd|]. apply wpx_ret. split; [done|]. split; cbn; try done.
  - apply chain_cache_Remove.
  - intros n Hn. by rewrite lookup_alter_ne.
Qed.

Lemma ClearMessages_one_ret key nid s :
  healthy (rl_db s) →
  wp (_ ← ClearMessages [key] nid; mret tt) (λ _, only_cleared nid
    (delete key (chain_cache s nid)) (delete (row_of key) (contents (rl_db s))) s) s.
Proof.
  intros Hdb. apply wpx_bind. eapply wpx_mono; [by apply ClearMessages_one|]. by intros e s' [_ ?].
Qed.

(** * Delivery *)

(** The transaction object kept until the destination has finalised. *)
Definition delivered_tx key (r : Types.RouteMessage) (response : TxResponse) :
    TransactionObjectOf BigInt :=
  NewTransactionObject (NewMessagekeyWithMessageHeight key (m_MessageHeight (rm_Message r)))
    (tr_TxHash response) (u64 (tr_Height response)).

Lemma wp_callback_success prov src dst key (b : BigInt) response err p r s
  (Hdb : healthy (rl_db s)) (Hc : chain_cache s src !! key = Some p)
  (Hr : rl_heap s !! p = Some r) (Hsn : k_Sn key = Some b) (Hok : tr_Code response = Success) :
  wp (callback prov src dst key response err) (λ _ s', ∃ rows,
    only_cleared src (delete key (chain_cache s src)) (delete (row_of key) rows) s s' ∧
    (if 0 <? FinalityBlock (prov dst) then ∃ v,
       rows = <[tx_key prefixFinalityStore (k_Dst key) (Some (bi_val b)) := v]> (contents (rl_db s)) ∧
       Unmarshal v = Ok (tx_wire (delivered_tx key r response))
     else rows = contents (rl_db s))) s.
Proof.
  apply wpx_bind, wpx_gets. unfold MessageCache_Get. rewrite Hc.
  apply wpx_bind, (wpx_load _ _ r); [done|]. rewrite Hok. cbn [Z.eqb Success].
  rewrite Hsn. apply wpx_bind, wpx_ret.
  destruct (0 <? FinalityBlock (prov dst)).
  - destruct (marshal_total (tx_wire (delivered_tx key r response))) as [v Hv].
    destruct (set_spec (rl_db s) (tx_key prefixFinalityStore (k_Dst key) (sn_val (k_Sn key))) v Hdb)
      as (db' & Hs & Hh & Hrows). rewrite Hsn in Hs, Hrows.
    apply wpx_bind. eapply (wpx_with_db _ _ _ _ db' None).
    { unfold StoreTxObject. fold (delivered_tx key r response). rewrite Hv. cbn.
      rewrite Hsn. exact Hs. }
    eapply wpx_mono; [by apply ClearMessages_one_ret|]. intros [] s' [H1' H2' H3' H4' H5' H6' H7'].
    cbn in *. exists (contents db'). split; [by split|]. exists v. split; [done|].
    by apply unmarshal_marshal.
  - eapply wpx_mono; [by apply ClearMessages_one_ret|]. intros [] s' Hcl. by exists (contents (rl_db s)).
Qed.

(** C11: a success reported for a cached message removes that message, and
    nothing else, from the source's cache and from the message store; and when
    the destination has a finality period, the transaction is recorded under
    the destination so that it can be checked later. *)
Theorem callback_success prov src dst key (b : BigInt) response err p r s
  (Hdb : healthy (rl_db s)) (Hc : chain_cache s src !! key = Some p)
  (Hr : rl_heap s !! p = Some r) (Hsn : k_Sn key = Some b) (Hok : tr_Code response = Success) :
  wp (callback prov src dst key response err) (λ _ s', ∃ rows,
    only_cleared src (delete key (chain_cache s src)) (delete (row_of key) rows) s s' ∧
    (if 0 <? FinalityBlock (prov dst) then ∃ v,
       rows = <[tx_key prefixFinalityStore (k_Dst key) (Some (bi_val b)) := v]> (contents (rl_db s)) ∧
       Unmarshal v = Ok (tx_wire (delivered_tx key r response))
     else rows = contents (rl_db s))) s.
Proof. by eapply wp_callback_success. Qed.

(** A report that is not a success, or about a message that is not cached,
    changes nothing. *)
Lemma callback_ignored prov src dst key response err s :
  tr_Code response ≠ Success →
  (∀ p, chain_cache s src !! key = Some p → is_Some (rl_heap s !! p)) →
  callback prov src dst key response err s = Some (s, tt).
Proof.
  intros Hfail Hlive. unfold callback, MessageCache_Get, load, mbind, proc_bind, gets.
  destruct (chain_cache s src !! key) as [p|]; [|done]. destruct (Hlive p eq_refl) as [r ->].
  by destruct (Z.eqb_spec (tr_Code response) Success).
Qed.

(** A report that is not a success changes nothing: its message stays
    cached and marked as processing, and the router skips it until the routing
    goroutine has handled the failure. *)
Theorem callback_otherwise prov prov' src dst dst' key response err now p r s
  (Hc : chain_cache s src !! key = Some p) (Hr : rl_heap s !! p = Some r)
  (Hp : rm_Processing r = true) (Hd : m_Dst (rm_Message r) = dst') (Hdst : is_Some (rl_chains s !! dst'))
  (Hfail : tr_Code response ≠ Success) :
  callback prov src dst key response err s = Some (s, tt) ∧
  processMessage prov' now src key s = Some (s, tt).
Proof.
  split.
  - apply callback_ignored; [done|]. rewrite Hc. intros q [= <-]. by exists r.
  - destruct Hdst as [c Hdst]. subst. unfold processMessage, load, mbind, proc_bind, gets.
    rewrite Hc, Hr. unfold FindChainRuntime. rewrite Hdst.
    unfold shouldSendMessage, IsProcessing. rewrite Hp. done.
Qed.

(** * Failure *)

Definition with_route p (r : Types.RouteMessage) s : Relayer St :=
  mkRelayer (rl_db s) (rl_chains s) (<[p := r]> (rl_heap s)) (rl_next s) (rl_tasks s).

Lemma wpx_on_route F p f r (Q : unit → Relayer St → Prop) s :
  rl_heap s !! p = Some r → Q tt (with_route p (f r) s) → wpx F (on_route p f) Q s.
Proof.
  intros Hr HQ. apply wpx_modify. replace (alter f p (rl_heap s)) with (<[p := f r]> (rl_heap s)); [done|].
  apply map_eq. intros q. destruct (decide (p = q)) as [<-|].
  - by rewrite lookup_alter_eq, lookup_insert_eq, Hr.
  - by rewrite lookup_alter_ne, lookup_insert_ne.
Qed.

(** [s'] is [s] after a failed attempt of the message [r] at [p], cached by
    [src]. *)
Definition failed_outcome p src (r : Types.RouteMessage) s s' : Prop :=
  if rm_Retry r <? MaxTxRetry then s' = with_route p (ToggleProcessing r) s
  else ∃ v, only_cleared src (delete (rm_key r) (chain_cache s src))
         (<[row_of (rm_key r) := v]> (contents (rl_db s))) (with_route p (ToggleProcessing r) s) s' ∧
       Unmarshal v = Ok (route_wire (ToggleProcessing r)).

Lemma wp_HandleMessageFailed p dst src (b : BigInt) r s
  (Hdb : healthy (rl_db s)) (Hr : rl_heap s !! p = Some r) (Hsn : m_Sn (rm_Message r) = Some b) :
  wp (HandleMessageFailed p dst src) (λ _ s', failed_outcome p src r s s') s.
Proof.
  unfold failed_outcome.
  set (r' := ToggleProcessing r).
  apply wpx_bind. eapply wpx_on_route; [done|]. fold r'. apply wpx_bind, (wpx_load _ _ r'); [apply lookup_insert_eq|].
  change (rm_Retry r') with (rm_Retry r).
  destruct (Z.ltb_spec (rm_Retry r) MaxTxRetry); destruct (Z.leb_spec MaxTxRetry (rm_Retry r)); try lia; [done|].
  destruct (StoreMessage_spec prefixMessageStore (rl_db s) r' Hdb) as (db' & v & Hs & Hh & Hc & Hv).
  apply wpx_bind. eapply wpx_with_db; [exact Hs|]. apply wpx_bind, wpx_modify.
  change (m_Sn (rm_Message r')) with (m_Sn (rm_Message r)). rewrite Hsn. apply wpx_ret.
  exists v. split; [|done]. split; cbn; try done.
  - apply chain_cache_Remove.
  - intros n Hn. by rewrite lookup_alter_ne.
Qed.

(** C12: a failed attempt unmarks the message.  Before the fifth attempt that is
    all, and the message stays cached to be tried again; from the fifth on the
    message is also written to the store, with its retry count and unmarked,
    and leaves the cache. *)
Theorem HandleMessageFailed_outcome p dst src (b : BigInt) r s
  (Hdb : healthy (rl_db s)) (Hr : rl_heap s !! p = Some r) (Hsn : m_Sn (rm_Message r) = Some b) :
  wp (HandleMessageFailed p dst src) (λ _ s',
    if rm_Retry r <? MaxTxRetry then s' = with_route p (ToggleProcessing r) s
    else ∃ v, only_cleared src (delete (rm_key r) (chain_cache s src))
           (<[row_of (rm_key r) := v]> (contents (rl_db s))) (with_route p (ToggleProcessing r) s) s' ∧
         Unmarshal v = Ok (route_wire (ToggleProcessing r))) s.
Proof. by eapply wp_HandleMessageFailed. Qed.

(** * Routing *)

Definition ok_true (r : res bool) : bool := match r with Ok b => b | _ => false end.
Definition ok_false (r : res bool) : bool := match r with Ok b => negb b | _ => false end.

Definition known s (nid : string) : bool := bool_decide (is_Some (rl_chains s !! nid)).

(** The message may be handed to its destination now. *)
Definition ready prov now src (r : Types.RouteMessage) s : bool :=
  let dst := m_Dst (rm_Message r) in
  known s dst && negb (IsProcessing now r) && ok_true (ShouldReceiveMessage (prov dst) (rm_Message r))
  && ok_true (ShouldSendMessage (prov src) (rm_Message r)).

Lemma shouldSendMessage_ready prov now src (r : Types.RouteMessage) (Q : bool → Relayer St → Prop) s :
  ShouldReceiveMessage (prov (m_Dst (rm_Message r))) (rm_Message r) ≠ Panic →
  ShouldSendMessage (prov src) (rm_Message r) ≠ Panic →
  known s (m_Dst (rm_Message r)) = true → Q (ready prov now src r s) s →
  wp (shouldSendMessage prov (m_Dst (rm_Message r)) src now (Some r)) Q s.
Proof.
  intros H1' H2' Hk HQ. unfold ready in HQ. rewrite Hk in HQ. unfold shouldSendMessage.
  destruct (IsProcessing now r); [done|]. cbn [andb negb] in HQ.
  apply wpx_bind, wpx_liftRes; [done| |]; [intros a Ha|intros e Ha]; rewrite Ha in HQ; [|done].
  destruct a; [|done]. cbn [andb ok_true] in HQ.
  apply wpx_bind, wpx_liftRes; [done| |]; [intros a' Ha'|intros e Ha']; rewrite Ha' in HQ; [|done].
  by destruct a'.
Qed.

(** One look of the router at a message. *)
Lemma wp_processMessage prov now src key p (b : BigInt) r s
  (Hdb : healthy (rl_db s)) (Hc : chain_cache s src !! key = Some p)
  (Hr : rl_heap s !! p = Some r) (Hsn : m_Sn (rm_Message r) = Some b)
  (Hp1 : ShouldReceiveMessage (prov (m_Dst (rm_Message r))) (rm_Message r) ≠ Panic)
  (Hp2 : ShouldSendMessage (prov src) (rm_Message r) ≠ Panic)
  (Hp3 : MessageReceived (prov (m_Dst (rm_Message r))) key ≠ Panic) :
  let dst := m_Dst (rm_Message r) in
  let received := MessageReceived (prov dst) key in
  wp (processMessage prov now src key) (λ _ s',
    rl_tasks s' = (rl_tasks s ++
      if ready prov now src r s && ok_false received then [mkTask p dst src false] else []) ∧
    chain_cache s' src = (if negb (known s dst) || (ready prov now src r s && ok_true received)
      then delete key (chain_cache s src) else chain_cache s src) ∧
    rl_heap s' !! p = Some (if ready prov now src r s && is_ok received
      then ToggleProcessing r else r)) s.
Proof.
  cbn zeta. set (dst := m_Dst (rm_Message r)) in *. apply wpx_bind, wpx_gets. rewrite Hc.
  apply wpx_bind, (wpx_load _ _ r); [done|]. apply wpx_bind, wpx_gets. unfold FindChainRuntime. fold dst.
  destruct (rl_chains s !! dst) as [c|] eqn:Hd.
  2:{ assert (known s dst = false) as Hk by (unfold known; by rewrite Hd).
      unfold ready. fold dst. rewrite Hk. cbn [andb orb negb].
      eapply wpx_mono; [by apply ClearMessages_one_ret|]. intros [] s' []. 
      rewrite app_nil_r. split_and!; [done|done|]. by rewrite oc_heap0. }
  assert (known s dst = true) as Hk by (unfold known; by rewrite Hd).
  apply wpx_bind, shouldSendMessage_ready; [done..|]. rewrite Hk.
  destruct (ready prov now src r s) eqn:Hready; cbn [andb orb negb]; [|by rewrite app_nil_r].
  apply wpx_bind, wpx_modify. set (s1 := mkRelayer _ _ _ _ _).
  assert (rl_heap s1 !! p = Some (ToggleProcessing r)) as Hr1 by (cbn; by rewrite lookup_alter_eq, Hr).
  apply wpx_bind, wpx_liftRes; [done| |].
  - intros [] Ha; rewrite Ha; cbn [ok_true ok_false is_ok negb].
    + rewrite Hsn. apply wpx_bind, wpx_ret. eapply wpx_mono; [by apply ClearMessages_one_ret|].
      intros [] s' []. rewrite app_nil_r. split_and!; [done|done|]. by rewrite oc_heap0.
    + by apply wpx_modify.
  - intros e Ha; rewrite Ha; cbn [ok_true ok_false is_ok negb].
    rewrite Hsn. apply wpx_bind, wpx_ret, wpx_modify. rewrite app_nil_r. split_and!; [done|done|].
    cbn [rl_heap]. rewrite lookup_alter_eq, Hr1. cbn. by rewrite ToggleProcessing_involutive.
Qed.

(** C13: one look of the router at a cached message that has a serial number, on
    a working database, when the providers answer or fail.  A routing goroutine
    is started for it, and the message marked, exactly when the destination is
    configured, the message is idle and past its backoff, both chains want it
    and the destination answers that it does not have it.  Its cache entry goes
    exactly when the destination is not configured, or when the message is idle,
    past its backoff and wanted by both chains, and the destination answers that
    it has it: an entry in flight or in its backoff stays, whatever the
    destination has. *)
Theorem processMessage_routes prov now src key p (b : BigInt) r s
  (Hdb : healthy (rl_db s)) (Hc : chain_cache s src !! key = Some p)
  (Hr : rl_heap s !! p = Some r) (Hsn : m_Sn (rm_Message r) = Some b)
  (Hp1 : ShouldReceiveMessage (prov (m_Dst (rm_Message r))) (rm_Message r) ≠ Panic)
  (Hp2 : ShouldSendMessage (prov src) (rm_Message r) ≠ Panic)
  (Hp3 : MessageReceived (prov (m_Dst (rm_Message r))) key ≠ Panic) :
  let dst := m_Dst (rm_Message r) in
  let received := MessageReceived (prov dst) key in
  wp (processMessage prov now src key) (λ _ s',
    rl_tasks s' = (rl_tasks s ++
      if ready prov now src r s && ok_false received then [mkTask p dst src false] else []) ∧
    chain_cache s' src = (if negb (known s dst) || (ready prov now src r s && ok_true received)
      then delete key (chain_cache s src) else chain_cache s src) ∧
    rl_heap s' !! p = Some (if ready prov now src r s && is_ok received
      then ToggleProcessing r else r)) s.
Proof. by eapply wp_processMessage. Qed.

(** * Construction *)

Definition saved_height s (nid : string) : option Z := LastSavedHeight <$> rl_chains s !! nid.

Lemma NewRelayer_chains_spec db nids chains0 :
  (∀ nid, nid ∈ nids → GetLastStoredBlock prefixBlockStore db nid ≠ Panic) →
  ∃ chains, NewRelayer_chains db (Some <$> nids) chains0 = Ok chains ∧
    ∀ nid, chains !! nid = if decide (nid ∈ nids) then
        Some (mkChainRuntime [] 0 (match GetLastStoredBlock prefixBlockStore db nid with
          Ok h => h | _ => 0 end) ∅)
      else chains0 !! nid.
Proof.
  revert chains0. induction nids as [|n nids IH]; intros chains0 Hp.
  { exists chains0. split; [done|]. intros nid. by case_decide; [set_solver|]. }
  assert (∀ nid, nid ∈ nids → GetLastStoredBlock prefixBlockStore db nid ≠ Panic) as Hp' by set_solver.
  assert (∀ c, c = mkChainRuntime [] 0 (match GetLastStoredBlock prefixBlockStore db n with
            Ok h => h | _ => 0 end) ∅ →
    ∃ chains, NewRelayer_chains db (Some <$> nids) (<[n := c]> chains0) = Ok chains ∧
    ∀ nid, chains !! nid = if decide (nid ∈ n :: nids) then
        Some (mkChainRuntime [] 0 (match GetLastStoredBlock prefixBlockStore db nid with
          Ok h => h | _ => 0 end) ∅)
      else chains0 !! nid) as Hstep.
  { intros c Hc. destruct (IH (<[n := c]> chains0) Hp') as (chains & Hch & Hl).
    exists chains. split; [exact Hch|]. intros nid. rewrite Hl.
    destruct (decide (nid = n)) as [->|Hne].
    - rewrite (decide_True (P := n ∈ n :: nids)) by left.
      case_decide; [done|]. by rewrite lookup_insert_eq, Hc.
    - rewrite lookup_insert_ne by done. apply decide_ext. rewrite elem_of_cons. split; [by right|by intros [?|?]]. }
  specialize (Hp n). cbn. destruct (GetLastStoredBlock prefixBlockStore db n) as [h|e|];
    [by apply Hstep..|]. by destruct Hp; [left|].
Qed.

(** A relayer resumes each chain at the height its database holds, and at
    0 when it holds none or the start is fresh; the caches and queues start
    empty, and nothing is in flight. *)
Theorem NewRelayer_resumes (db : St) nids (fresh : bool) (Hdb : healthy db)
  (Hp : ∀ nid, nid ∈ nids → GetLastStoredBlock prefixBlockStore db nid ≠ Panic) :
  ∃ s, NewRelayer db (Some <$> nids) fresh = Ok s ∧ initial s ∧
    (∀ nid, saved_height s nid = if decide (nid ∈ nids) then
       Some (if fresh then 0 else match GetLastStoredBlock prefixBlockStore db nid with
               Ok h => h | _ => 0 end)
     else None) ∧
    contents (rl_db s) = if fresh then ∅ else contents db.
Proof.
  unfold NewRelayer.
  assert (∃ db', (if fresh then ClearStore db else (db, None)) = (db', None) ∧
    contents db' = (if fresh then ∅ else contents db) ∧
    ∀ nid, nid ∈ nids → GetLastStoredBlock prefixBlockStore db' nid =
      if fresh then Err errNotFound else GetLastStoredBlock prefixBlockStore db nid)
    as (db' & -> & Hcont & Hget).
  { destruct fresh; [|by exists db]. destruct (clear_spec db Hdb) as (db' & Hcl & Hh & Hc).
    exists db'. split_and!; [done..|]. intros nid _. unfold GetLastStoredBlock.
    by rewrite get_absent by (done || rewrite Hc; apply lookup_empty). }
  destruct (NewRelayer_chains_spec db' nids ∅) as (chains & Hch & Hl).
  { intros nid Hn. rewrite Hget by done. destruct fresh; [done|by apply Hp]. }
  rewrite Hch. eexists. split; [done|]. cbn. split_and!; [|intros nid|done].
  - split_and!; [done..|]. cbn. intros nid c. rewrite Hl. case_decide; [|by rewrite lookup_empty].
    by intros [= <-].
  - unfold saved_height. cbn. rewrite Hl. case_decide; [|by rewrite lookup_empty].
    cbn. rewrite Hget by done. by destruct fresh.
Qed.

(** * Messages added to a cache *)

(** New addresses are above every address in use. *)
Record fresh_ok s : Prop := {
  fo_heap p r : rl_heap s !! p = Some r → (p < rl_next s)%positive;
  fo_keys n k p b : chain_cache s n !! k = Some p → k_Sn k = Some b → (bi_addr b < rl_next s)%positive }.

(** [l] was added to [nid]'s cache, as new entries next to the old ones. *)
Record added nid (l : list (RouteMessageOf Z)) s s' : Prop := {
  ad_fresh : fresh_ok s';
  ad_size : size (chain_cache s' nid) = (size (chain_cache s nid) + length l)%nat;
  ad_old : chain_cache s nid ⊆ chain_cache s' nid;
  ad_new m : m ∈ l → ∃ k p r, chain_cache s nid !! k = None ∧ chain_cache s' nid !! k = Some p ∧
    rl_heap s' !! p = Some r ∧ route_wire r = m;
  ad_heap : rl_heap s ⊆ rl_heap s';
  ad_known n : is_Some (rl_chains s' !! n) ↔ is_Some (rl_chains s !! n);
  ad_other n : n ≠ nid → rl_chains s' !! n = rl_chains s !! n;
  ad_db : rl_db s' = rl_db s;
  ad_tasks : rl_tasks s' = rl_tasks s }.

Lemma added_nil nid s : fresh_ok s → added nid [] s s.
Proof. intros Hf. split; try done. by intros m ?%elem_of_nil. Qed.

Lemma added_trans nid l1 l2 s1 s2 s3 :
  added nid l1 s1 s2 → added nid l2 s2 s3 → added nid (l1 ++ l2) s1 s3.
Proof.
  intros [] []. split; try done.
  - rewrite length_app. lia.
  - by etrans.
  - intros m [Hm|Hm]%elem_of_app.
    + destruct (ad_new0 m Hm) as (k & p & r & ? & ? & ? & ?). exists k, p, r.
      split_and!; [done|by eapply lookup_weaken|by eapply lookup_weaken|done].
    + destruct (ad_new1 m Hm) as (k & p & r & Hk & ? & ? & ?). exists k, p, r.
      split_and!; [|done..]. destruct (chain_cache s1 nid !! k) eqn:E; [|done].
      by rewrite (lookup_weaken _ _ _ _ E ad_old0) in Hk.
  - by etrans.
  - intros n. by rewrite ad_known1.
  - intros n Hn. by rewrite ad_other1, ad_other0.
  - by rewrite ad_db1.
  - by rewrite ad_tasks1.
Qed.

Definition add_fresh nid (m : RouteMessageOf Z) : proc (Relayer St) unit :=
  a ← new_addr; p ← new_route (route_alloc a m); cache_Add nid p.

Lemma add_fresh_added nid m s :
  fresh_ok s → is_Some (rl_chains s !! nid) → m_Sn (rm_Message m) ≠ None →
  wp (add_fresh nid m) (λ _ s', added nid [m] s s') s.
Proof.
  intros [Hh Hk] [c Hc] Hsn. destruct (m_Sn (rm_Message m)) as [z|] eqn:Hz; [|done]. clear Hsn.
  apply wpx_bind. unfold wpx at 1, new_addr. apply wpx_bind, wpx_new_route. cbn [rl_db rl_chains rl_heap rl_next rl_tasks].
  set (a := rl_next s). set (r := route_alloc a m).
  eapply wpx_cache_Add; [apply lookup_insert_eq|]. cbn [rl_db rl_chains rl_heap rl_next rl_tasks].
  assert (k_Sn (rm_key r) = Some (mkBigInt a z)) as Hkey.
  { unfold r, rm_key. cbn. by rewrite Hz. }
  assert (chain_cache s nid !! rm_key r = None) as Hnew.
  { destruct (chain_cache s nid !! rm_key r) eqn:E; [|done]. pose proof (Hk _ _ _ _ E Hkey) as Hlt. cbn in Hlt. unfold a in Hlt. lia. }
  assert (rl_heap s !! Pos.succ a = None) as Hnh.
  { destruct (rl_heap s !! Pos.succ a) eqn:E; [|done]. apply Hh in E. unfold a in E. lia. }
  set (s' := mkRelayer _ _ _ _ _).
  assert (chain_cache s' nid = <[rm_key r := Pos.succ a]> (chain_cache s nid)) as Hcache.
  { unfold s'. rewrite chain_cache_alter, decide_True by done. cbn. unfold chain_cache. by rewrite Hc. }
  assert (∀ n, n ≠ nid → rl_chains s' !! n = rl_chains s !! n) as Hoth.
  { intros n Hn. cbn. by rewrite lookup_alter_ne. }
  split; try done.
  - split; cbn [rl_heap rl_next s'].
    + intros p r' [[<- _]|[_ Hp]]%lookup_insert_Some; [|apply Hh in Hp]; unfold a; lia.
    + intros n k p b. destruct (decide (n = nid)) as [->|Hn].
      * rewrite Hcache. intros [[<- _]|[_ Hp]]%lookup_insert_Some Hb.
        { rewrite Hkey in Hb. injection Hb as <-. cbn. unfold a. lia. }
        { pose proof (Hk _ _ _ _ Hp Hb). unfold a. lia. }
      * unfold chain_cache. rewrite Hoth by done. intros Hp Hb. pose proof (Hk _ _ _ _ Hp Hb).
        unfold a. lia.
  - rewrite Hcache, map_size_insert_None by done. cbn. lia.
  - rewrite Hcache. by apply insert_subseteq.
  - intros m' ->%list_elem_of_singleton. exists (rm_key r), (Pos.succ a), r.
    rewrite Hcache, lookup_insert_eq. split_and!; [done..|apply lookup_insert_eq|].
    unfold r. apply route_wire_alloc.
  - by apply insert_subseteq.
  - intros n. cbn. by rewrite lookup_alter_is_Some.
Qed.

Lemma add_all_added nid l (body : RouteMessageOf Z → proc (Relayer St) unit) s :
  (∀ m s Q, wp (add_fresh nid m) Q s → wp (body m) Q s) →
  fresh_ok s → is_Some (rl_chains s !! nid) → Forall (λ m, m_Sn (rm_Message m) ≠ None) l →
  wp (for_each l body) (λ _ s', added nid l s s') s.
Proof.
  intros Hbody Hf Hc Hl.
  apply (wpx_for_each_prefix _ l body (λ dn s', added nid dn s s')); [by apply added_nil|].
  intros dn m l' s' -> Had. apply Hbody. eapply wpx_mono.
  - apply add_fresh_added; [apply Had|by apply (ad_known _ _ _ _ Had)|].
    apply Forall_app in Hl as [_ [Hm _]%Forall_cons]. done.
  - intros [] s'' Had'. by eapply added_trans.
Qed.

Lemma wpx_assoc {A B C} F (m : proc (Relayer St) A) (f : A → proc (Relayer St) B)
    (g : B → proc (Relayer St) C) (Q : C → Relayer St → Prop) s :
  wpx F (a ← m; b ← f a; g b) Q s → wpx F (b ← (a ← m; f a); g b) Q s.
Proof. unfold wpx, mbind, proc_bind. by destruct (m s) as [[]|]. Qed.

Lemma mergeMessages_added nid (msgs : list (MessageOf Z)) s :
  fresh_ok s → is_Some (rl_chains s !! nid) → Forall (λ m, m_Sn m ≠ None) msgs →
  wp (mergeMessages nid msgs) (λ _ s', added nid (NewRouteMessage <$> msgs) s s') s.
Proof.
  intros Hf Hc Hm.
  apply (wpx_for_each_prefix _ msgs _ (λ dn s', added nid (NewRouteMessage <$> dn) s s')).
  { by apply added_nil. }
  intros dn m l' s' -> Had. rewrite fmap_app. eapply wpx_mono.
  - apply wpx_assoc. apply (add_fresh_added nid (NewRouteMessage m)); [apply Had| |].
    + by apply (ad_known _ _ _ _ Had).
    + apply Forall_app in Hm as [_ [Hm _]%Forall_cons]. done.
  - intros [] s'' Had'. by eapply added_trans.
Qed.

(** A flush gives every active row of the chain that it reads a new entry
    of the cache, next to the entries that are there already, whether or not
    one of those stands for the same message: the keys compare the addresses
    of the serial numbers. *)
Theorem flushMessages_adds nid l s (Hf : fresh_ok s) (Hc : is_Some (rl_chains s !! nid))
  (Hl : getActiveMessagesFromStore (rl_db s) nid maxFlushMessage = Ok l)
  (Hsn : Forall (λ m, m_Sn (rm_Message m) ≠ None) l) :
  wp (flushMessages [nid]) (λ _ s',
    size (chain_cache s' nid) = (size (chain_cache s nid) + length l)%nat ∧
    chain_cache s nid ⊆ chain_cache s' nid ∧
    ∀ m, m ∈ l → ∃ k p r, chain_cache s nid !! k = None ∧ chain_cache s' nid !! k = Some p ∧
      rl_heap s' !! p = Some r ∧ route_wire r = m) s.
Proof.
  apply wpx_bind, wpx_bind, wpx_gets. rewrite Hl. eapply wpx_mono.
  - apply add_all_added; try done. intros m s1 Q HQ. by apply wpx_assoc.
  - intros [] s' []. by apply wpx_ret.
Qed.

(** * Finality *)

(** The block of a recorded transaction is final. *)
Definition is_final (f h : Z) (t : TransactionObjectOf BigInt) : Prop :=
  to_TxHeight t ≠ 0 ∧ u64 (to_TxHeight t + f) ≤ h.

(** Until then, or while its receipt cannot be queried. *)
Lemma CheckFinality_waits prov nid f h (t : TransactionObjectOf BigInt) s :
  ¬ is_final f h t ∨ (∃ e, QueryTransactionReceipt (prov nid) (to_TxHash t) = Err e) →
  CheckFinality_tx prov nid f h t s = Some (s, tt).
Proof.
  intros Hw. unfold CheckFinality_tx. destruct (Z.eqb_spec (to_TxHeight t) 0); [done|].
  destruct (Z.ltb_spec h (u64 (to_TxHeight t + f))); [done|].
  destruct Hw as [Hw|[e He]]; [by destruct Hw|]. unfold mbind, proc_bind, liftRes. by rewrite He.
Qed.

(** What the check does once the receipt is there. *)
Lemma CheckFinality_final prov nid f h (t : TransactionObjectOf BigInt) :
  is_final f h t →
  CheckFinality_tx prov nid f h t =
    (receipt ← liftRes (QueryTransactionReceipt (prov nid) (to_TxHash t));
     match receipt with
     | inr _ => mret tt
     | inl None => panic
     | inl (Some receipt) =>
         if rc_Status receipt then
           _ ← with_db (λ db, DeleteTxObject prefixFinalityStore db (kh_Key (to_Key t))); mret tt
         else
           src ← gets (λ s, rl_chains s !! k_Src (kh_Key (to_Key t)));
           match src with
           | None => mret tt
           | Some _ =>
               err ← with_db (λ db, DeleteTxObject prefixFinalityStore db (kh_Key (to_Key t)));
               match err with
               | Some _ => mret tt
               | None =>
                   messages ← liftRes (GenerateMessages (prov (k_Src (kh_Key (to_Key t)))) (to_Key t));
                   match messages with
                   | inr _ => mret tt
                   | inl messages => mergeMessages (k_Src (kh_Key (to_Key t))) messages
                   end
               end
           end
     end).
Proof.
  intros [Hh Hf]. unfold CheckFinality_tx. destruct (Z.eqb_spec (to_TxHeight t) 0); [done|].
  by destruct (Z.ltb_spec h (u64 (to_TxHeight t + f))); [lia|].
Qed.

(** C17: what becomes of a recorded transaction, on a working database.  It
    stays as it is while it has no height, its block is not final or its receipt
    cannot be queried; a missing receipt without an error ends the process.
    Once it is final, a receipt that shows success takes its record away, and
    nothing else.  When the receipt shows failure: if the source chain is not
    configured, nothing changes, and the record stays; if it is, the record goes
    first, and then the messages of the source block are generated anew and
    enter the source's cache; but when they cannot be generated, nothing takes
    the place of the record. *)
Theorem CheckFinality_settles prov nid f h (t : TransactionObjectOf BigInt) s (Hdb : healthy (rl_db s)) :
  let check := CheckFinality_tx prov nid f h t in
  let receipt := QueryTransactionReceipt (prov nid) (to_TxHash t) in
  let key := kh_Key (to_Key t) in
  let src := k_Src key in
  let record := tx_key prefixFinalityStore (k_Dst key) (sn_val (k_Sn key)) in
  let forgotten s' := contents (rl_db s') = delete record (contents (rl_db s)) in
  let otherwise_same s' := rl_chains s' = rl_chains s ∧ rl_heap s' = rl_heap s ∧ rl_tasks s' = rl_tasks s in
  (¬ is_final f h t ∨ (∃ e, receipt = Err e) → check s = Some (s, tt)) ∧
  (is_final f h t → receipt = Ok None ∨ receipt = Panic → check s = None) ∧
  (∀ rc, is_final f h t → receipt = Ok (Some rc) →
     (rc_Status rc = true → wp check (λ _ s', forgotten s' ∧ otherwise_same s') s) ∧
     (rc_Status rc = false →
        (rl_chains s !! src = None → check s = Some (s, tt)) ∧
        (is_Some (rl_chains s !! src) →
           (∀ e, GenerateMessages (prov src) (to_Key t) = Err e → wp check (λ _ s', forgotten s' ∧ otherwise_same s') s) ∧
           (GenerateMessages (prov src) (to_Key t) = Panic → check s = None) ∧
           (∀ msgs, GenerateMessages (prov src) (to_Key t) = Ok msgs → fresh_ok s → Forall (λ m, m_Sn m ≠ None) msgs →
              wp check (λ _ s', forgotten s' ∧
                size (chain_cache s' src) = (size (chain_cache s src) + length msgs)%nat ∧
                ∀ m, m ∈ msgs → ∃ k p r, chain_cache s' src !! k = Some p ∧
                  rl_heap s' !! p = Some r ∧ route_wire r = NewRouteMessage m) s)))).
Proof.
  cbn zeta. set (key := kh_Key (to_Key t)).
  destruct (delete_spec (rl_db s) (tx_key prefixFinalityStore (k_Dst key) (sn_val (k_Sn key))) Hdb)
    as (db' & Hd & Hh & Hrows).
  split; [apply CheckFinality_waits|]. split.
  { intros Hfin Hrc. rewrite (CheckFinality_final prov nid f h t Hfin). unfold mbind, proc_bind, liftRes.
    by destruct Hrc as [-> | ->]. }
  intros rc Hfin Hrc. rewrite (CheckFinality_final prov nid f h t Hfin), Hrc. fold key. split; [|intros Hst; split].
  - intros Hst. apply wpx_bind, wpx_ret. rewrite Hst. apply wpx_bind. eapply wpx_with_db; [exact Hd|]. by apply wpx_ret.
  - intros Hno. unfold mbind, proc_bind, liftRes, mret, proc_ret, gets. by rewrite Hst, Hno.
  - intros [c Hc]. split_and!.
    + intros e Hg. apply wpx_bind, wpx_ret. rewrite Hst. apply wpx_bind, wpx_gets. rewrite Hc.
      apply wpx_bind. eapply wpx_with_db; [exact Hd|]. rewrite Hg. apply wpx_bind, wpx_ret. by apply wpx_ret.
    + intros Hg. unfold mbind, proc_bind, liftRes, mret, proc_ret, gets. rewrite Hst, Hc. unfold with_db at 1.
      unfold DeleteTxObject. rewrite Hd. by rewrite Hg.
    + intros msgs Hg Hf Hsn. apply wpx_bind, wpx_ret. rewrite Hst.
      apply wpx_bind, wpx_gets. rewrite Hc. apply wpx_bind. eapply wpx_with_db; [exact Hd|].
      rewrite Hg. apply wpx_bind, wpx_ret. eapply wpx_mono.
      * apply mergeMessages_added; [by destruct Hf; split|by exists c|done].
      * intros [] s' []. cbn in *. rewrite ad_db0. split_and!; [done| |].
        -- by rewrite ad_size0, length_fmap.
        -- intros m Hm. destruct (ad_new0 (NewRouteMessage m)) as (k & p & r & _ & ? & ? & ?);
             [by apply list_elem_of_fmap_2|]. by exists k, p, r.
Qed.

(** * Expiry *)

Lemma clean_body_spec nid now (m : RouteMessageOf Z) s :
  healthy (rl_db s) → fresh_ok s → m_Sn (rm_Message m) ≠ None → IsElasped now MessageExpiration m = true →
  wp (a ← new_addr; _ ← ClearMessages [rm_key (route_alloc a m)] nid; mret tt) (λ _ s',
    healthy (rl_db s') ∧ fresh_ok s' ∧ (∀ n, chain_cache s' n = chain_cache s n) ∧
    contents (rl_db s') = delete (message_key prefixMessageStore (m_Src (rm_Message m))
      (m_Sn (rm_Message m))) (contents (rl_db s))) s.
Proof.
  intros Hdb [Hh Hk] Hsn He. destruct (m_Sn (rm_Message m)) as [z|] eqn:Hz; [|done].
  apply wpx_bind. unfold wpx at 1, new_addr. set (s1 := mkRelayer _ _ _ _ _).
  eapply wpx_mono; [by apply (ClearMessages_one_ret _ nid s1)|]. intros [] s' [].
  assert (∀ n, chain_cache s' n = chain_cache s n) as Hcache.
  { intros n. destruct (decide (n = nid)) as [->|Hn].
    - rewrite oc_cache0. apply delete_id. change (chain_cache s1 nid) with (chain_cache s nid).
      destruct (chain_cache s nid !! _) eqn:E; [|done].
      assert (k_Sn (rm_key (route_alloc (rl_next s) m)) = Some (mkBigInt (rl_next s) z)) as Hkey.
      { cbn. by rewrite Hz. }
      pose proof (Hk _ _ _ _ E Hkey) as Hlt. cbn in Hlt. lia.
    - unfold chain_cache. by rewrite oc_other0. }
  split_and!; [done| |done|].
  - split; rewrite oc_next0; cbn.
    + intros p r. rewrite oc_heap0. cbn. intros ?%Hh. lia.
    + intros n k p b. rewrite Hcache. intros Hp Hb. pose proof (Hk _ _ _ _ Hp Hb). lia.
  - rewrite oc_rows0. unfold row_of. cbn. by rewrite Hz.
Qed.

(** C18: the expiry run of a chain, on a working database, reads the first
    [maxFlushMessage] = 10 rows of the chain, in the order of their keys.  Of
    these it deletes the rows of the messages last tried more than a day ago and
    of those not tried yet, whatever their age, when all ten have serial numbers
    and the clock is past the first day.  Every other row stays, those after the
    tenth included, and nothing is removed from a cache. *)
Theorem cleanExpired_deletes now nid l s
  (Hdb : healthy (rl_db s)) (Hf : fresh_ok s) (Hnow : MessageExpiration < now)
  (Hl : GetMessages prefixMessageStore (rl_db s) nid (WithLimit maxFlushMessage NewPagination) = Ok l)
  (Hsn : Forall (λ m, m_Sn (rm_Message m) ≠ None) l) :
  wp (cleanExpiredMessages now [nid]) (λ _ s',
    (∀ n, chain_cache s' n = chain_cache s n) ∧
    ∀ k, contents (rl_db s') !! k =
      if decide (k ∈ (λ m, message_key prefixMessageStore (m_Src (rm_Message m)) (m_Sn (rm_Message m)))
           <$> filter (λ m, rm_LastTry m = 0 ∨ rm_LastTry m + MessageExpiration < now) l)
      then None else contents (rl_db s) !! k) s.
Proof.
  apply wpx_bind, wpx_bind, wpx_gets. rewrite Hl.
  set (row := λ m : RouteMessageOf Z, message_key _ _ _).
  set (P := λ m : RouteMessageOf Z, rm_LastTry m = 0 ∨ _).
  set (I := λ (dn : list (RouteMessageOf Z)) s', healthy (rl_db s') ∧ fresh_ok s' ∧ (∀ n, chain_cache s' n = chain_cache s n) ∧
    ∀ k, contents (rl_db s') !! k = if decide (k ∈ row <$> filter P dn) then None
      else contents (rl_db s) !! k).
  eapply wpx_mono; [apply (wpx_for_each_prefix _ l _ I)|].
  - split_and!; [done..|]. intros k. by rewrite decide_False by (by intros ?%elem_of_nil).
  - intros dn m l' s' -> (Hdb' & Hf' & Hc' & Hk').
    assert (IsElasped now MessageExpiration m = true ↔ P m) as HP.
    { unfold IsElasped, P. rewrite Z.ltb_lt. unfold MessageExpiration, Second in *. lia. }
    assert (m_Sn (rm_Message m) ≠ None) as Hm.
    { by apply Forall_app in Hsn as [_ [Hm _]%Forall_cons]. }
    unfold I. rewrite filter_app, filter_cons, filter_nil.
    destruct (IsElasped now MessageExpiration m) eqn:He.
    + rewrite decide_True by by apply HP. eapply wpx_mono; [by eapply clean_body_spec|].
      intros [] s'' (Hdb'' & Hf'' & Hc'' & Hr''). split_and!; [done|done| |].
      * intros n. by rewrite Hc'', Hc'.
      * intros k. rewrite Hr''. fold (row m). rewrite lookup_delete, Hk', fmap_app.
        destruct (decide (row m = k)) as [<-|Hne].
        { case_decide as Hin; [done|]. destruct Hin. apply elem_of_app. right. by left. }
        apply decide_ext. change (row <$> [m]) with [row m]. rewrite elem_of_app, list_elem_of_singleton.
        split; [by left|by intros [?|?]].
    + rewrite decide_False by (by intros ?%HP). rewrite app_nil_r. by apply wpx_ret.
  - intros [] s' (_ & _ & Hc' & Hk'). by apply wpx_ret.
Qed.

(** * Blocks *)

(** [m] is cached by [src] as a new route message, and stored. *)
Definition taken src (m : Message) s : Prop :=
  (∃ p, chain_cache s src !! Message_MessageKey m = Some p ∧
     rl_heap s !! p = Some (NewRouteMessage m)) ∧
  GetMessage prefixMessageStore (rl_db s) (Message_MessageKey m) = Ok (route_wire (NewRouteMessage m)).

Lemma take_message src (dn : list Message) (m : Message) s :
  healthy (rl_db s) → (∀ p r, rl_heap s !! p = Some r → (p < rl_next s)%positive) →
  is_Some (rl_chains s !! src) → (∀ m', m' ∈ dn → taken src m' s) →
  (∀ m', m' ∈ dn → Message_MessageKey m' ≠ Message_MessageKey m ∧
     row_of (Message_MessageKey m') ≠ row_of (Message_MessageKey m)) →
  wp (p ← new_route (NewRouteMessage m); _ ← cache_Add src p;
      _ ← with_db (λ db, StoreMessage prefixMessageStore db (Some (NewRouteMessage m))); mret tt)
    (λ _ s', healthy (rl_db s') ∧ (∀ p r, rl_heap s' !! p = Some r → (p < rl_next s')%positive) ∧
      is_Some (rl_chains s' !! src) ∧ (LastBlockHeight <$> rl_chains s' !! src) =
        (LastBlockHeight <$> rl_chains s !! src) ∧ ∀ m', m' ∈ dn ++ [m] → taken src m' s') s.
Proof.
  intros Hdb Hh [c Hc] Hdn Hne. set (p := rl_next s).
  destruct (StoreMessage_spec prefixMessageStore (rl_db s) (NewRouteMessage m) Hdb)
    as (db' & v & Hs & Hh' & Hrows & Hv).
  apply wpx_bind, wpx_new_route, wpx_bind. eapply wpx_cache_Add; [apply lookup_insert_eq|].
  apply wpx_bind. eapply wpx_with_db; [exact Hs|]. apply wpx_ret. fold p.
  cbn [rl_db rl_chains rl_heap rl_next rl_tasks]. set (s' := mkRelayer _ _ _ _ _).
  assert (chain_cache s' src = <[Message_MessageKey m := p]> (chain_cache s src)) as Hcache.
  { unfold s'. rewrite chain_cache_alter, decide_True by done. cbn. unfold chain_cache. by rewrite Hc. }
  split_and!; [done| | | |].
  - intros q r [[<- _]|[_ ?%Hh]]%lookup_insert_Some; unfold p in *; lia.
  - cbn. rewrite lookup_alter_eq, Hc. by eexists.
  - cbn. by rewrite lookup_alter_eq, Hc.
  - intros m' [Hin| ->%list_elem_of_singleton]%elem_of_app; (split; [|unfold GetMessage]).
    + destruct (Hdn m' Hin) as [(q & Hq & Hqr) _]. destruct (Hne m' Hin) as [Hk _]. exists q.
      rewrite Hcache, lookup_insert_ne by done. split; [done|].
      cbn. rewrite lookup_insert_ne; [done|]. apply Hh in Hqr. unfold p. lia.
    + destruct (Hdn m' Hin) as [_ Hg]. destruct (Hne m' Hin) as [_ Hr]. rewrite <-Hg.
      unfold GetMessage. f_equal. apply get_by_contents; [done..|]. cbn [rl_db s']. rewrite Hrows.
      rewrite lookup_insert_ne; [done|]. intros E. by apply Hr.
    + exists p. rewrite Hcache, lookup_insert_eq. split; [done|]. apply lookup_insert_eq.
    + cbn [rl_db s']. rewrite (get_present _ _ v); [done|done|].
      rewrite Hrows. apply lookup_insert_eq.
Qed.

(** Processing a block records its height and puts every message of it,
    untried, both in the source's cache and in the message store, provided the
    messages differ in their keys and rows (in source or serial number). *)
Theorem processBlockInfo_takes src (blk : BlockInfo) s
  (Hdb : healthy (rl_db s)) (Hc : is_Some (rl_chains s !! src))
  (Hh : ∀ p r, rl_heap s !! p = Some r → (p < rl_next s)%positive)
  (Hk : NoDup (Message_MessageKey <$> bi_Messages blk))
  (Hrow : NoDup (row_of ∘ Message_MessageKey <$> bi_Messages blk)) :
  wp (processBlockInfo src blk) (λ _ s',
    LastBlockHeight <$> rl_chains s' !! src = Some (bi_Height blk) ∧
    ∀ m, m ∈ bi_Messages blk → taken src m s') s.
Proof.
  destruct Hc as [c Hc]. apply wpx_bind, wpx_modify. set (s1 := mkRelayer _ _ _ _ _).
  eapply wpx_mono; [apply (wpx_for_each_prefix _ _ _ (λ dn s', healthy (rl_db s') ∧
    (∀ p r, rl_heap s' !! p = Some r → (p < rl_next s')%positive) ∧ is_Some (rl_chains s' !! src) ∧
    (LastBlockHeight <$> rl_chains s' !! src) = Some (bi_Height blk) ∧
    ∀ m, m ∈ dn → taken src m s'))|].
  - split_and!; [done|done| | |by intros m ?%elem_of_nil]; cbn; rewrite lookup_alter_eq, Hc;
      [by eexists|done].
  - intros dn m l' s' Hl (Hdb' & Hh' & Hc' & Hlb & Hdn). eapply wpx_mono.
    + apply (take_message src dn m); try done. intros m' Hin.
      rewrite Hl in Hk, Hrow. rewrite fmap_app, fmap_cons in Hk. rewrite fmap_app, fmap_cons in Hrow.
      apply NoDup_app in Hk as (_ & Hk & _). apply NoDup_app in Hrow as (_ & Hrow & _).
      split; intros E.
      * apply (Hk (Message_MessageKey m')); [by apply list_elem_of_fmap_2|]. rewrite E. by left.
      * apply (Hrow (row_of (Message_MessageKey m'))).
        { by apply (list_elem_of_fmap_2 (row_of ∘ Message_MessageKey)). }
        rewrite E. by left.
    + intros [] s'' (?&?&?&Hlb'&?). split_and!; try done. by rewrite Hlb'.
  - intros [] s' (_ & _ & _ & ? & ?). done.
Qed.
End Correct.
