(* ===== verification/RelayTermination.v ===== *)
(** Routing ends: every attempt uses up a try of some route message, and only
    new messages bring new tries. *)
From stdpp Require Import gmap strings list.
From Stdlib Require Import ZArith Lia.
From S2P Require Import Prelude GoStd Types Store Provider Relay RelaySystem.
Open Scope Z_scope.

(** An action that makes no route message: neither a block is processed, nor
    are stored messages read back, nor messages generated again. *)
Definition quiet (a : action) : bool :=
  match a with
  | ProcessBlock _ | Flush _ | Finality _ _ | RelayMessages _ _ | RelayRow _ _ => false
  | Router _ _ _ _ flushTimer => false
  | _ => true
  end.

Section Termination.
Context {St : Type} `{StoreSpec St} `{CodecSpec Z}.
Context `{CodecSpec (RouteMessageOf Z)} `{CodecSpec (TransactionObjectOf Z)}.
Abbreviation Rly := (proc (Relayer St)).
Implicit Types (s : Relayer St).

(** The tries made so far, by route message, and the tries left in all. *)
Definition tries s : gmap positive Z := rm_Retry <$> rl_heap s.
Definition tries_left (m : gmap positive Z) : nat :=
  map_fold (λ _ z n, Z.to_nat (StaleMarkCount - z) + n)%nat 0%nat m.

(** A routing goroutine that is started. *)
Definition is_attempt (a : action) s : bool :=
  match a with
  | TaskStart _ i => match rl_tasks s !! i with Some t => negb (tk_started t) | None => false end
  | _ => false
  end.

Fixpoint attempts (l : list action) s : nat :=
  match l with
  | [] => 0
  | a :: l =>
      (if is_attempt a s then 1 else 0) +
      match run a s with Some (s', _) => attempts l s' | None => 0 end
  end%nat.

(** * Tries *)

Lemma tries_left_insert m p z :
  m !! p = Some z → z < StaleMarkCount → tries_left m = S (tries_left (<[p := z + 1]> m)).
Proof.
  intros Hp Hz. unfold tries_left. rewrite <-(insert_delete_id m p z Hp) at 1. rewrite <-(insert_delete_eq m p (z + 1)).
  rewrite !map_fold_insert_L; [lia|..]; try (intros; lia); by rewrite lookup_delete_eq.
Qed.

Lemma tries_alter s p f :
  (∀ r : Types.RouteMessage, rm_Retry (f r) = rm_Retry r) → rm_Retry <$> alter f p (rl_heap s) = tries s.
Proof.
  intros Hf. apply map_eq. intros q. unfold tries. rewrite !lookup_fmap. destruct (decide (p = q)) as [<-|Hq].
  - rewrite lookup_alter_eq. destruct (rl_heap s !! p); cbn; [by rewrite Hf|done].
  - by rewrite lookup_alter_ne.
Qed.

(** [m] makes no try. *)
Abbreviation no_try T m := (keeps (λ s, tries s = T) m).

Lemma no_try_with_db T f : no_try T (with_db f).
Proof. intros s Hs. unfold wpx, with_db. by destruct (f (rl_db s)). Qed.
Lemma no_try_on_chain T n f : no_try T (on_chain n f).
Proof. by apply keeps_modify. Qed.
Lemma no_try_on_tasks T f : no_try T (on_tasks f).
Proof. by apply keeps_modify. Qed.
Lemma no_try_spawn T t : no_try T (spawn t).
Proof. by apply keeps_modify. Qed.
Lemma no_try_new_addr T : no_try T new_addr.
Proof. by intros s. Qed.
Lemma no_try_load T p : no_try T (load p).
Proof. intros s Hs. unfold wpx, load. by destruct (rl_heap s !! p). Qed.
Lemma no_try_log_sn T sn : no_try T (log_sn sn).
Proof. destruct sn; [apply keeps_ret|apply keeps_panic]. Qed.
Lemma no_try_toggle T p : no_try T (on_route p ToggleProcessing).
Proof. apply keeps_modify. intros s <-. by apply tries_alter. Qed.
Lemma no_try_cache_Remove T n k : no_try T (cache_Remove n k).
Proof. apply no_try_on_chain. Qed.

#[local] Hint Resolve no_try_with_db no_try_on_chain no_try_on_tasks no_try_spawn no_try_new_addr no_try_load
  no_try_log_sn no_try_toggle no_try_cache_Remove : keeps.

Lemma no_try_ClearMessages_delete T msgs : no_try T (ClearMessages_delete msgs).
Proof. induction msgs as [|m msgs IH]; cbn [ClearMessages_delete]; auto with keeps. Qed.
#[local] Hint Resolve no_try_ClearMessages_delete : keeps.

Lemma no_try_ClearMessages T msgs n : no_try T (ClearMessages msgs n).
Proof. unfold ClearMessages, clearMessageFromCache. auto 6 with keeps. Qed.
#[local] Hint Resolve no_try_ClearMessages : keeps.

Lemma no_try_shouldSendMessage T prov dst src now m : no_try T (shouldSendMessage prov dst src now m).
Proof. unfold shouldSendMessage. auto 20 with keeps. Qed.
#[local] Hint Resolve no_try_shouldSendMessage : keeps.

Lemma no_try_processMessage T prov now src key : no_try T (processMessage prov now src key).
Proof. unfold processMessage. auto 25 with keeps. Qed.

Lemma no_try_callback T prov src dst key r err : no_try T (callback prov src dst key r err).
Proof. unfold callback. auto 25 with keeps. Qed.

Lemma no_try_HandleMessageFailed T p dst src : no_try T (HandleMessageFailed p dst src).
Proof. unfold HandleMessageFailed, HandleMessageFailed_unmark, HandleMessageFailed_store. auto 25 with keeps. Qed.
#[local] Hint Resolve no_try_HandleMessageFailed : keeps.

Lemma no_try_SaveChains T prov order : no_try T (SaveChainsBlockHeight prov order).
Proof. apply keeps_for_each. intros nid _. unfold SaveBlockHeight. auto 10 with keeps. Qed.

Lemma no_try_clean T now order : no_try T (cleanExpiredMessages now order).
Proof.
  apply keeps_for_each. intros nid _. apply keeps_bind; [auto with keeps|]. intros [l|e|]; [|auto with keeps..].
  apply keeps_for_each. intros m _. auto with keeps.
Qed.

Lemma no_try_listen T nid h msgs : no_try T (listen nid h msgs).
Proof.
  unfold listen. apply keeps_bind; [|auto with keeps]. induction msgs as [|m msgs IH]; cbn [new_messages]; [auto with keeps|].
  unfold new_message. auto 8 with keeps.
Qed.

(** * Attempts *)

Lemma quiet_no_try T a s s' :
  quiet a = true → is_attempt a s = false → run a s = Some (s', tt) → tries s = T → tries s' = T.
Proof.
  intros Hq Ha Hrun Hs. assert (wlp (run a) (λ _ s', tries s' = T) s) as Hw; [|unfold wpx in Hw; by rewrite Hrun in Hw].
  destruct a; try done; cbn [run] in *.
  - by apply no_try_listen.
  - destruct t; try done; cbn [StartRouter_step].
    + apply keeps_for_each; [|done]. intros [src ks] _. apply keeps_for_each. intros k _. apply no_try_processMessage.
    + by apply no_try_SaveChains.
    + by apply no_try_clean.
  - apply wpx_bind, wpx_gets. cbn in Ha. destruct (rl_tasks s !! i) as [[p dst src []]|]; done.
  - by apply no_try_callback.
  - apply wpx_bind, wpx_gets. destruct (rl_tasks s !! i) as [[p dst src []]|]; [|done|done].
    apply wpx_bind. eapply wpx_mono; [by apply no_try_on_tasks|]. intros [] s1 Hs1.
    destruct err; [by apply no_try_HandleMessageFailed|done].
  - apply wpx_bind. eapply wpx_mono; [by apply no_try_with_db|]. done.
  - apply wpx_bind. eapply wpx_mono; [by apply no_try_with_db|]. done.
Qed.

Lemma attempt_tries a s s' :
  Inv True s → is_attempt a s = true → run a s = Some (s', tt) →
  tries_left (tries s) = S (tries_left (tries s')).
Proof.
  intros HI Ha Hrun. destruct a; try done. cbn in Ha.
  destruct (rl_tasks s !! i) as [[p dst src []]|] eqn:Hi; try done.
  assert (mkTask p dst src false ∈ rl_tasks s) as Hin by by eapply list_elem_of_lookup_2.
  destruct (inv_task _ _ HI _ Hin) as (r & Hr & _). cbn in Hr.
  pose proof (inv_unstarted _ _ HI _ _ I Hin eq_refl Hr) as Hlt. pose proof (inv_retry _ _ HI _ _ I Hr) as [Hge _].
  cbn [run] in Hrun. unfold task_start in Hrun. unfold mbind, proc_bind, gets in Hrun. rewrite Hi in Hrun.
  injection Hrun as <-. rewrite StaleMarkCount_value in *.
  assert (tries (mkRelayer (rl_db s) (rl_chains s) (alter (IncrementRetry now) p (rl_heap s)) (rl_next s)
    (<[i := mkTask p dst src true]> (rl_tasks s))) = <[p := rm_Retry r + 1]> (tries s)) as ->.
  { apply map_eq. intros q. unfold tries. rewrite lookup_fmap; cbn [rl_heap]. destruct (decide (p = q)) as [<-|Hq].
    - rewrite lookup_alter_eq, lookup_insert_eq, Hr. cbn. by rewrite u8_small by lia.
    - by rewrite lookup_alter_ne, lookup_insert_ne, lookup_fmap. }
  apply tries_left_insert; [unfold tries; by rewrite lookup_fmap, Hr|rewrite StaleMarkCount_value; lia].
Qed.

(** C9: with a working database, as long as no message arrives and none is read
    back or generated again, every attempt to route uses up one of the tries
    left, whatever the chains answer and however the goroutines interleave: there
    are never more attempts than tries, and routing comes to an end. *)
Theorem routing_ends s0 s l s'
  (Hinit : initial s0) (Hdb : db_wf (rl_db s0)) (Hr : reachable false s0 s)
  (Hquiet : Forall (λ a, quiet a = true) l) (Hrun : exec false l s = Some s') :
  (attempts l s + tries_left (tries s') = tries_left (tries s))%nat.
Proof.
  assert (Inv True s) as HI by by eapply (reachable_Inv True false s0).
  clear Hr. revert s HI Hrun. induction Hquiet as [|a l Ha _ IH]; intros s HI Hrun; cbn in Hrun |- *; [by injection Hrun as <-|].
  case_decide as Hen; [|done]. destruct (run a s) as [[s1 []]|] eqn:E; [|done].
  assert (Inv True s1) as HI1.
  { refine (keeps_run _ _ _ _ _ (keeps_action True a _) HI E). intros _. destruct Hen as [_ Hm].
    destruct (is_RelayRow a); [by specialize (Hm eq_refl)|done]. }
  specialize (IH s1 HI1 Hrun). destruct (is_attempt a s) eqn:Hat.
  - pose proof (attempt_tries a s s1 HI Hat E). lia.
  - rewrite (quiet_no_try (tries s) a s s1) in IH by done. lia.
Qed.
End Termination.
