(* ===== verification/RelayFrame.v ===== *)
(** What the relayer's operations leave alone.

    [Frame I allowed saves] says that an assertion [I] about the relayer's state
    survives every elementary step but the ones on a listener's queue, the
    deletion of a row that is not [allowed], and the saving of a height that
    [saves] does not have.  Each operation of Relay.v then keeps [I], if the rows
    it may delete are allowed.

    [rows_ok Q] says that the rows of the message store satisfy [Q], and did
    after every write: a process that dies inside an operation leaves one of
    these. *)
From stdpp Require Import gmap strings list.
From Stdlib Require Import ZArith Lia.
From S2P Require Import Prelude GoStd Types Store Provider Relay RelaySystem RelayCorrect.
Import BlockStore MessageStore FinalityStore.
Open Scope Z_scope.

Class Frame {St : Type} `{Store St} (I : Relayer St → Prop) (allowed : string → Prop)
    (saves : string → Z → Prop) := {
  frame_chain nid f : (∀ c, listenerChan (f c) = listenerChan c) → (∀ c, LastSavedHeight (f c) = LastSavedHeight c) →
    keeps I (on_chain nid f);
  frame_saved nid h : saves nid h → keeps I (on_chain nid (cr_with_saved h));
  frame_other s s' : rl_db s' = rl_db s → rl_chains s' = rl_chains s → I s → I s';
  frame_set k v : keeps I (with_db (λ db, SetByKey db k v));
  frame_delete k : allowed k → keeps I (with_db (λ db, DeleteByKey db k)) }.

(** * The rows of the message store *)

Section Rows.
Context {St : Type} `{StoreSpec St} `{CodecSpec (RouteMessageOf Z)}.
Implicit Types (db : St) (Q : RouteMessageOf Z → Prop) (c : gmap string string).

Definition contents_ok Q c : Prop :=
  ∀ k v (m : RouteMessageOf Z), c !! k = Some v → HasPrefix k (GetKey [prefixMessageStore; ""]) = true → Unmarshal v = Ok m → Q m.
Definition rows_ok Q db : Prop := healthy db ∧ contents_ok Q (contents db) ∧ ∀ c, c ∈ versions db → contents_ok Q c.

Lemma rows_ok_row Q db k v m :
  rows_ok Q db → contents db !! k = Some v → HasPrefix k (GetKey [prefixMessageStore; ""]) = true → Unmarshal v = Ok m → Q m.
Proof. intros (_ & Hr & _). apply Hr. Qed.

(** A database that was opened just now. *)
Lemma rows_ok_opened Q db : healthy db → versions db = [] → contents_ok Q (contents db) → rows_ok Q db.
Proof. intros Hh Hv Hc. split_and!; [done..|]. intros c. rewrite Hv. by intros ?%elem_of_nil. Qed.

Lemma rows_ok_mono Q Q' db : (∀ m, Q m → Q' m) → rows_ok Q db → rows_ok Q' db.
Proof.
  intros HQ (Hh & Hr & Hv). split_and!; [done|intros k v m ? ? ?; by eapply HQ, Hr|].
  intros c Hc k v m ? ? ?. by eapply HQ, (Hv c).
Qed.

(** A write. *)
Lemma rows_ok_written Q db db' :
  rows_ok Q db → healthy db' → versions db' = versions db ∨ versions db' = versions db ++ [contents db'] →
  contents_ok Q (contents db') → rows_ok Q db'.
Proof.
  intros (_ & _ & Hv) Hh Hw Hc. split_and!; [done..|]. intros c. destruct Hw as [->| ->]; [apply Hv|].
  by intros [?| ->%list_elem_of_singleton]%elem_of_app; [apply Hv|].
Qed.

Lemma rows_ok_set Q db k v :
  (HasPrefix k (GetKey [prefixMessageStore; ""]) = true → ∀ m, Unmarshal v = Ok m → Q m) →
  rows_ok Q db → rows_ok Q (SetByKey db k v).1.
Proof.
  intros Hk Hr. pose proof (versions_set db k v (proj1 Hr)) as Hw. destruct (set_spec db k v (proj1 Hr)) as (db' & Hs & Hh & Hc).
  rewrite Hs in *. eapply rows_ok_written; [done..|]. cbn [fst] in *. intros k' v' m. rewrite Hc.
  intros [[<- <-]|[_ ?]]%lookup_insert_Some Hp Hu; [by apply Hk|by eapply rows_ok_row].
Qed.

Lemma rows_ok_set_other Q db k v :
  HasPrefix k (GetKey [prefixMessageStore; ""]) = false → rows_ok Q db → rows_ok Q (SetByKey db k v).1.
Proof. intros Hk. apply rows_ok_set. by rewrite Hk. Qed.

Lemma rows_ok_delete Q db k : rows_ok Q db → rows_ok Q (DeleteByKey db k).1.
Proof.
  intros Hr. pose proof (versions_delete db k (proj1 Hr)) as Hw. destruct (delete_spec db k (proj1 Hr)) as (db' & Hs & Hh & Hc).
  rewrite Hs in *. eapply rows_ok_written; [done..|]. cbn [fst] in *. intros k' v' m. rewrite Hc.
  intros [_ ?]%lookup_delete_Some. by eapply rows_ok_row.
Qed.

Lemma rows_ok_clear Q db : rows_ok Q db → rows_ok Q (ClearStore db).1.
Proof.
  intros Hr. pose proof (versions_clear db (proj1 Hr)) as Hw. destruct (clear_spec db (proj1 Hr)) as (db' & Hs & Hh & Hc).
  rewrite Hs in *. eapply rows_ok_written; [done..|]. cbn [fst] in *. intros k' v' m. by rewrite Hc, lookup_empty.
Qed.

Lemma rows_ok_StoreMessage Q db (r : Types.RouteMessage) :
  Q (route_wire r) → rows_ok Q db → rows_ok Q (StoreMessage prefixMessageStore db (Some r)).1.
Proof.
  intros HQ Hr. destruct (marshal_total (route_wire r)) as [v Hv]. cbn [StoreMessage]. rewrite Hv.
  apply rows_ok_set; [|done]. intros _ m Hu. rewrite (unmarshal_marshal _ _ Hv) in Hu. by injection Hu as <-.
Qed.

(** What a flush reads. *)
Lemma rows_ok_listed Q db nid n (l : list (RouteMessageOf Z)) m :
  rows_ok Q db → getActiveMessagesFromStore db nid n = Ok l → m ∈ l → Q m.
Proof.
  intros Hr. unfold getActiveMessagesFromStore. intros (msgs & Hm & [= <-])%res_bind_Ok [_ Hin]%list_elem_of_filter.
  destruct (GetMessages_rows prefixMessageStore db nid _ msgs m (proj1 Hr) Hm Hin) as (k & v & Hkv & Hp & Hu).
  eapply rows_ok_row; [done..| |done]. unfold HasPrefix in *. apply prefix_spec in Hp as [x ->]. apply prefix_spec.
  exists (nid +:+ x). by rewrite !GetKey_2, !string_app_assoc.
Qed.
End Rows.

Section Frame.
Context {St : Type} `{StoreSpec St} `{CodecSpec Z}.
Context `{CodecSpec (RouteMessageOf Z)} `{CodecSpec (TransactionObjectOf Z)}.
Abbreviation Rly := (proc (Relayer St)).
Implicit Types (s : Relayer St) (prov : string → ChainProvider).
Context (I : Relayer St → Prop) (allowed : string → Prop) (saves : string → Z → Prop) `{!Frame I allowed saves}.

(** * Elementary steps *)

Lemma frame_modify f : (∀ s, rl_db (f s) = rl_db s ∧ rl_chains (f s) = rl_chains s) → keeps I (modify f).
Proof. intros Hf. apply keeps_modify. intros s. destruct (Hf s). by apply frame_other. Qed.
Lemma frame_on_route p f : keeps I (on_route p f).
Proof. by apply frame_modify. Qed.
Lemma frame_on_tasks f : keeps I (on_tasks f).
Proof. by apply frame_modify. Qed.
Lemma frame_spawn t : keeps I (spawn t).
Proof. by apply frame_modify. Qed.
Lemma frame_new_addr : keeps I new_addr.
Proof. intros s. unfold wpx; cbn. by apply frame_other. Qed.
Lemma frame_new_route r : keeps I (new_route r).
Proof. intros s. unfold wpx; cbn. by apply frame_other. Qed.
Lemma frame_load p : keeps I (load p).
Proof. intros s Hs. unfold wpx, load. by destruct (rl_heap s !! p). Qed.
Lemma frame_log_sn sn : keeps I (log_sn sn).
Proof. destruct sn; [apply keeps_ret|apply keeps_panic]. Qed.
Lemma frame_cache nid f : keeps I (on_chain nid (cr_with_cache f)).
Proof. by apply frame_chain. Qed.

Lemma frame_StoreMessage (m : Types.RouteMessage) :
  keeps I (with_db (λ db, StoreMessage prefixMessageStore db (Some m))).
Proof.
  destruct (marshal_total (route_wire m)) as [v Hv]. cbn [StoreMessage]. rewrite Hv. apply frame_set.
Qed.

Lemma frame_StoreTxObject t : keeps I (with_db (λ db, StoreTxObject prefixFinalityStore db (Some t))).
Proof. destruct (marshal_total (tx_wire t)) as [v Hv]. cbn [StoreTxObject]. rewrite Hv. apply frame_set. Qed.

Lemma frame_StoreBlock h nid : keeps I (with_db (λ db, StoreBlock prefixBlockStore db h nid)).
Proof. destruct (marshal_total h) as [v Hv]. unfold StoreBlock. rewrite Hv. apply frame_set. Qed.

#[local] Hint Resolve frame_on_route frame_on_tasks frame_spawn frame_new_addr frame_new_route frame_load
  frame_log_sn frame_cache frame_StoreMessage frame_StoreTxObject frame_StoreBlock : keeps.
#[local] Hint Extern 1 (keeps _ (on_chain _ _)) => by apply frame_chain : keeps.

(** * Operations *)

Lemma frame_cache_Add nid p : keeps I (cache_Add nid p).
Proof. unfold cache_Add. auto with keeps. Qed.
Lemma frame_new_stored m : keeps I (new_stored m).
Proof. unfold new_stored. auto with keeps. Qed.
#[local] Hint Resolve frame_cache_Add frame_new_stored : keeps.

Lemma frame_ClearMessages key src : allowed (row_of key) → keeps I (_ ← ClearMessages [key] src; mret tt).
Proof.
  intros Ha. unfold ClearMessages. apply keeps_bind; [|auto with keeps]. apply keeps_bind.
  - apply keeps_for_each. intros k _. apply frame_cache.
  - intros _. cbn. apply keeps_bind; [by apply frame_delete|auto with keeps].
Qed.

Lemma frame_mergeMessages nid l : keeps I (mergeMessages nid l).
Proof. apply keeps_for_each. intros m _. unfold new_message. auto 10 with keeps. Qed.

Lemma frame_flushMessages order : keeps I (flushMessages order).
Proof.
  apply keeps_for_each. intros nid _. apply keeps_bind; [auto with keeps|]. intros [l| |]; [|auto with keeps..].
  apply keeps_for_each. intros m _. auto with keeps.
Qed.

Lemma frame_processBlockInfo nid b : keeps I (processBlockInfo nid b).
Proof.
  apply keeps_bind; [auto with keeps|]. intros _. apply keeps_for_each. intros m _. auto 10 with keeps.
Qed.

Lemma frame_SaveChainsBlockHeight prov order :
  (∀ nid h, QueryLatestHeight (prov nid) = Ok h → saves nid h) → keeps I (SaveChainsBlockHeight prov order).
Proof.
  intros Hs. apply keeps_for_each. intros nid _ s HI. apply wpx_bind.
  destruct (QueryLatestHeight (prov nid)) as [h|e|] eqn:Hq; cbn; [|done..].
  assert (keeps I (_ ← SaveBlockHeight nid h; mret tt)) as Hk; [|by apply Hk].
  pose proof (frame_saved nid h (Hs nid h Hq)). unfold SaveBlockHeight. auto 12 with keeps.
Qed.

Lemma frame_HandleMessageFailed p dst src : keeps I (HandleMessageFailed p dst src).
Proof. unfold HandleMessageFailed, HandleMessageFailed_unmark, HandleMessageFailed_store, cache_Remove. auto 12 with keeps. Qed.

Lemma frame_callback prov src dst key response err :
  (tr_Code response = Success → allowed (row_of key)) → keeps I (callback prov src dst key response err).
Proof.
  intros Ha. apply keeps_bind; [auto with keeps|]. intros [p|]; [|auto with keeps].
  apply keeps_bind; [auto with keeps|]. intros r. destruct (Z.eqb_spec (tr_Code response) Success); [|auto with keeps].
  assert (keeps I (_ ← ClearMessages [key] src; mret tt)) as Hclear by (apply frame_ClearMessages; auto).
  apply keeps_bind; [auto with keeps|]. intros _. destruct (0 <? _); [|done].
  apply keeps_bind; [auto with keeps|]. intros [e'|]; [auto with keeps|done].
Qed.

Lemma frame_CheckFinality prov order :
  (∀ dst sn, allowed (tx_key prefixFinalityStore dst sn)) → keeps I (CheckFinality prov order).
Proof.
  intros Ha. apply keeps_for_each. intros nid _. apply keeps_bind; [auto with keeps|].
  intros [c|]; [|auto with keeps]. cbn. case_match; [|auto with keeps].
  apply keeps_bind; [auto with keeps|]. intros [l|e|]; [|auto with keeps..].
  apply keeps_bind. { induction l as [|t l IH]; cbn [new_txs]; unfold new_tx in *; auto 10 with keeps. }
  intros l'. apply keeps_for_each. intros t _. unfold CheckFinality_tx.
  assert (∀ k, keeps I (with_db (λ db, DeleteTxObject prefixFinalityStore db k))) as Hdel
    by (intros k; by apply frame_delete).
  destruct (_ =? 0); [apply keeps_ret|]. destruct (_ <? u64 _); [apply keeps_ret|].
  apply keeps_bind; [apply keeps_liftRes|]. intros [[r|]|e]; [|auto with keeps..].
  destruct (rc_Status r); [auto with keeps|].
  pose proof frame_mergeMessages. auto 15 with keeps.
Qed.

Lemma frame_task_start now i : keeps I (task_start now i).
Proof. unfold task_start. auto 12 with keeps. Qed.
Lemma frame_task_return i err : keeps I (task_return i err).
Proof. pose proof frame_HandleMessageFailed. unfold task_return. auto 12 with keeps. Qed.

Lemma shouldSendMessage_keeps prov dst src now rm : keeps I (shouldSendMessage (St := St) prov dst src now rm).
Proof. unfold shouldSendMessage. auto 20 with keeps. Qed.

Lemma frame_processMessage prov now src key :
  allowed (row_of key) → keeps I (processMessage prov now src key).
Proof.
  intros Ha. pose proof (frame_ClearMessages key src Ha).
  apply keeps_bind; [auto with keeps|]. intros [p|]; [|auto with keeps].
  apply keeps_bind; [auto with keeps|]. intros r. apply keeps_bind; [auto with keeps|].
  intros [c|e|]; [|auto with keeps..]. apply keeps_bind; [apply shouldSendMessage_keeps|].
  intros [|]; cbn [negb]; auto 10 with keeps.
Qed.

Lemma frame_cleanExpiredMessages now order :
  (∀ k, allowed k) → keeps I (cleanExpiredMessages now order).
Proof.
  intros Ha. apply keeps_for_each. intros nid _. apply keeps_bind; [auto with keeps|].
  intros [l|e|]; [|auto with keeps..]. apply keeps_for_each. intros m _.
  destruct (IsElasped _ _ _); [|auto with keeps]. apply keeps_bind; [auto with keeps|]. intros a.
  by apply frame_ClearMessages.
Qed.

Lemma frame_RelayRow nid m : keeps I (run (RelayRow nid m)).
Proof. cbn [run]. auto with keeps. Qed.

(** The height of a chain that an action saves. *)
Definition saves_height (a : action) (nid : string) (h : Z) : Prop :=
  match a with Router prov _ _ _ heightTimer => QueryLatestHeight (prov nid) = Ok h | _ => False end.

(** All actions but those on a queue, when any row may be deleted. *)
Lemma frame_action a :
  match a with Listen _ _ _ | ProcessBlock _ => False | _ => True end →
  keeps I PruneDB → (∀ k, allowed k) → (∀ nid h, saves_height a nid h → saves nid h) → keeps I (run a).
Proof.
  intros Ha Hprune Hall Hsaves. destruct a; try done; cbn [run].
  - apply frame_flushMessages.
  - destruct t; cbn [StartRouter_step].
    + apply frame_flushMessages.
    + apply keeps_for_each. intros [src ks] _. apply keeps_for_each. intros k _. by apply frame_processMessage.
    + by apply frame_SaveChainsBlockHeight.
    + by apply frame_cleanExpiredMessages.
    + apply keeps_ret.
  - by apply frame_CheckFinality.
  - apply frame_task_start.
  - by apply frame_callback.
  - apply frame_task_return.
  - apply keeps_bind; [done|auto with keeps].
  - apply keeps_bind; [by apply frame_delete|auto with keeps].
  - apply frame_mergeMessages.
  - apply frame_RelayRow.
Qed.
End Frame.
