(* ===== verification/Provenance.v ===== *)
(** Where the relayer's messages come from.

    [authentic P] says that every message the relayer holds, in a queue, in
    memory or in the message store, satisfies [P], and that a goroutine routes
    a message to the chain the message names.  The actions that bring messages
    in are the listeners', the finality check's and an operator's; whatever
    they bring satisfies [P], the relayer never holds or routes anything else.
    With [P] for "a listener sent it" that is: nothing is forged. *)
From stdpp Require Import gmap strings list.
From Stdlib Require Import ZArith Lia.
From S2P Require Import Prelude GoStd Types Store Provider Relay RelaySystem RelayCorrect RelayFrame.
Import BlockStore MessageStore FinalityStore.
Open Scope Z_scope.

Section Provenance.
Context {St : Type} `{StoreSpec St} `{CodecSpec Z}.
Context `{CodecSpec (RouteMessageOf Z)} `{CodecSpec (TransactionObjectOf Z)}.
Abbreviation Rly := (proc (Relayer St)).
Implicit Types (s : Relayer St) (prov : string → ChainProvider).
Context (P : MessageOf Z → Prop).

(** * The invariant *)

Abbreviation db_authentic := (rows_ok (St := St) (λ m, P (rm_Message m))).

Record authentic s : Prop := mkAuthentic {
  au_heap p r : rl_heap s !! p = Some r → (p < rl_next s)%positive ∧ P (message_wire (rm_Message r));
  au_queue n c blk m : rl_chains s !! n = Some c → blk ∈ listenerChan c → m ∈ bi_Messages blk → P (message_wire m);
  au_task t : t ∈ rl_tasks s → ∃ r, rl_heap s !! tk_msg t = Some r ∧ tk_dst t = m_Dst (rm_Message r);
  au_db : db_authentic (rl_db s) }.

(** What an action brings in. *)
Definition brings (a : action) : Prop :=
  match a with
  | Listen _ _ l | RelayMessages _ l => ∀ m, m ∈ l → P m
  | RelayRow _ m => P (rm_Message m)
  | Finality prov _ => ∀ n k l, GenerateMessages (prov n) k = Ok l → ∀ m, m ∈ l → P m
  | _ => True
  end.

Lemma initial_authentic s : initial s → db_authentic (rl_db s) → authentic s.
Proof.
  intros (Hh & Ht & Hc) Hdb. split; [|..|done].
  - intros p r. by rewrite Hh, lookup_empty.
  - intros n c blk m Hn. destruct (Hc n c Hn) as [-> _]. by intros ?%elem_of_nil.
  - intros t. rewrite Ht. by intros ?%elem_of_nil.
Qed.

(** * Elementary steps *)

Lemma authentic_chain nid f : (∀ c, listenerChan (f c) = listenerChan c) → keeps authentic (on_chain nid f).
Proof.
  intros Hf. apply keeps_modify. intros s [Hh Hq Ht Hdb]. split; [done| |done..].
  intros n c blk m. cbn [rl_chains]. destruct (decide (nid = n)) as [->|Hn]; [|rewrite lookup_alter_ne by done; apply Hq].
  rewrite lookup_alter_eq. intros (c0 & Hc0 & ->)%fmap_Some. rewrite Hf. by eapply Hq.
Qed.

Lemma authentic_db (f : St → St * error) :
  (∀ db, db_authentic db → db_authentic (f db).1) → keeps authentic (with_db f).
Proof.
  intros Hf s [Hh Hq Ht Hdb]. unfold wpx, with_db. specialize (Hf (rl_db s) Hdb).
  destruct (f (rl_db s)) as [db e]. by split.
Qed.

Lemma authentic_delete k : keeps authentic (with_db (λ db, DeleteByKey db k)).
Proof. apply authentic_db. intros db. apply rows_ok_delete. Qed.
Lemma authentic_StoreTxObject t : keeps authentic (with_db (λ db, StoreTxObject prefixFinalityStore db (Some t))).
Proof.
  destruct (marshal_total (tx_wire t)) as [v Hv]. cbn [StoreTxObject]. rewrite Hv. apply authentic_db. intros db.
  by apply rows_ok_set_other.
Qed.
Lemma authentic_StoreBlock h nid : keeps authentic (with_db (λ db, StoreBlock prefixBlockStore db h nid)).
Proof.
  destruct (marshal_total h) as [v Hv]. unfold StoreBlock. rewrite Hv. apply authentic_db. intros db.
  by apply rows_ok_set_other.
Qed.
Lemma authentic_StoreMessage (r : Types.RouteMessage) :
  P (message_wire (rm_Message r)) → keeps authentic (with_db (λ db, StoreMessage prefixMessageStore db (Some r))).
Proof. intros HP. apply authentic_db. intros db. by apply rows_ok_StoreMessage. Qed.

Lemma authentic_on_route p f :
  (∀ r, rm_Message (f r) = rm_Message r) → keeps authentic (on_route p f).
Proof.
  intros Hf. apply keeps_modify. intros s [Hh Hq Ht Hdb]. split; [|done| |done].
  - intros q r. cbn [rl_heap rl_next]. destruct (decide (p = q)) as [->|Hn]; [|rewrite lookup_alter_ne by done; apply Hh].
    rewrite lookup_alter_eq. intros (r0 & Hr0 & ->)%fmap_Some. rewrite Hf. by apply Hh.
  - intros t Hin. destruct (Ht t Hin) as (r & Hr & Hd). cbn [rl_heap]. destruct (decide (p = tk_msg t)) as [->|Hn].
    + exists (f r). by rewrite lookup_alter_eq, Hr, Hf.
    + exists r. by rewrite lookup_alter_ne.
Qed.

Lemma authentic_tasks f :
  (∀ l t, t ∈ f l → ∃ t', t' ∈ l ∧ tk_msg t = tk_msg t' ∧ tk_dst t = tk_dst t') → keeps authentic (on_tasks f).
Proof.
  intros Hf. apply keeps_modify. intros s [Hh Hq Ht Hdb]. split; [done..| |done].
  intros t (t' & Hin & -> & ->)%Hf. by apply Ht.
Qed.

Lemma authentic_new_addr : keeps authentic new_addr.
Proof.
  intros s [Hh Hq Ht Hdb]. unfold wpx; cbn. split; [|done..]. intros p r Hr. cbn in *.
  destruct (Hh p r Hr). split; [lia|done].
Qed.

Lemma authentic_new_route r : P (message_wire (rm_Message r)) → keeps authentic (new_route r).
Proof.
  intros HP s [Hh Hq Ht Hdb]. unfold wpx; cbn. split; [|done| |done].
  - intros p r'. cbn [rl_heap rl_next]. intros [[<- <-]|[_ [? ?]%Hh]]%lookup_insert_Some; split; (lia || done).
  - intros t Hin. destruct (Ht t Hin) as (r' & Hr' & Hd). exists r'. split; [|done]. cbn [rl_heap].
    rewrite lookup_insert_ne; [done|]. intros E. apply Hh in Hr' as [? _]. lia.
Qed.

Lemma authentic_load {A} p (f : Types.RouteMessage → Rly A) :
  (∀ r, P (message_wire (rm_Message r)) → keeps authentic (f r)) → keeps authentic (r ← load p; f r).
Proof.
  intros Hf s Hs. apply wpx_bind, wlp_load. intros r Hr. apply Hf; [|done]. by eapply au_heap.
Qed.

Lemma authentic_log_sn sn : keeps authentic (log_sn sn).
Proof. destruct sn; [apply keeps_ret|apply keeps_panic]. Qed.
Lemma authentic_cache nid f : keeps authentic (on_chain nid (cr_with_cache f)).
Proof. by apply authentic_chain. Qed.
Lemma authentic_cache_Add nid p : keeps authentic (cache_Add nid p).
Proof. apply authentic_load. intros r _. apply authentic_cache. Qed.

#[local] Hint Resolve authentic_delete authentic_StoreTxObject authentic_StoreBlock authentic_new_addr authentic_log_sn
  authentic_cache authentic_cache_Add : keeps.
#[local] Hint Extern 1 (keeps _ (on_chain _ _)) => by apply authentic_chain : keeps.
#[local] Hint Extern 1 (keeps _ (on_route _ _)) => by apply authentic_on_route : keeps.

(** * Operations *)

Lemma authentic_add m nid : P m → keeps authentic (m ← new_message m; p ← new_route (NewRouteMessage m); cache_Add nid p).
Proof.
  intros HP. unfold new_message. intros s Hs. apply wpx_bind, wpx_bind. eapply wpx_mono; [by apply authentic_new_addr|].
  intros a s1 Hs1. apply wpx_ret. revert s1 Hs1. apply keeps_bind; [|auto with keeps]. apply authentic_new_route. cbn.
  by rewrite message_wire_alloc.
Qed.

Lemma authentic_add_stored m nid : P (rm_Message m) → keeps authentic (p ← new_stored m; cache_Add nid p).
Proof.
  intros HP. apply keeps_bind; [|auto with keeps]. apply keeps_bind; [auto with keeps|].
  intros a. apply authentic_new_route. cbn. by rewrite message_wire_alloc.
Qed.

Lemma authentic_mergeMessages nid l : (∀ m, m ∈ l → P m) → keeps authentic (mergeMessages nid l).
Proof. intros HP. apply keeps_for_each. intros m Hm. by apply authentic_add, HP. Qed.

Lemma authentic_ClearMessages keys src : keeps authentic (_ ← ClearMessages keys src; mret tt).
Proof.
  apply keeps_bind; [|auto with keeps]. apply keeps_bind.
  - apply keeps_for_each. intros k _. apply authentic_cache.
  - intros _. induction keys as [|k keys IH]; [apply keeps_ret|]. cbn. apply keeps_bind; [apply authentic_delete|].
    intros [e|]; [apply keeps_ret|exact IH].
Qed.

Lemma authentic_flushMessages order : keeps authentic (flushMessages order).
Proof.
  apply keeps_for_each. intros nid _. apply keeps_bind_gets. intros s Hs.
  destruct (getActiveMessagesFromStore _ _ _) as [l| |] eqn:Hl; [|done..].
  apply keeps_for_each; [|done]. intros m Hm. apply authentic_add_stored.
  by eapply (rows_ok_listed _ _ _ _ _ _ (au_db _ Hs)).
Qed.

Lemma authentic_processBlockInfo nid b :
  (∀ m, m ∈ bi_Messages b → P (message_wire m)) → keeps authentic (processBlockInfo nid b).
Proof.
  intros HP. apply keeps_bind; [auto with keeps|]. intros _. apply keeps_for_each. intros m Hm.
  apply keeps_bind; [by apply authentic_new_route, HP|]. intros p. apply keeps_bind; [auto with keeps|]. intros _.
  apply keeps_bind; [by apply authentic_StoreMessage, HP|auto with keeps].
Qed.

Lemma authentic_StartBlockProcessors nid : keeps authentic (StartBlockProcessors_step nid).
Proof.
  apply keeps_bind_gets. intros s Hs. destruct (rl_chains s !! nid) as [c|] eqn:Hc; [|done]. cbn.
  destruct (listenerChan c) as [|b rest] eqn:Hl; [done|]. destruct Hs as [Hh Hq Ht Hdb].
  apply wpx_bind, wpx_modify. apply authentic_processBlockInfo.
  { intros m Hm. eapply (Hq nid c b); [done| |done]. rewrite Hl. by left. }
  split; [done| |done..]. intros n c' blk m. cbn [rl_chains].
  destruct (decide (nid = n)) as [<-|Hn]; [|rewrite lookup_alter_ne by done; apply Hq].
  rewrite lookup_alter_eq, Hc. intros [= <-] Hin. cbn in Hin. eapply Hq; [done|]. rewrite Hl. by right.
Qed.

Lemma authentic_callback prov src dst key response err : keeps authentic (callback prov src dst key response err).
Proof.
  apply keeps_bind; [auto with keeps|]. intros [p|]; [|auto with keeps].
  apply authentic_load. intros r _. destruct (_ =? _); [|auto with keeps].
  apply keeps_bind; [auto with keeps|]. intros _. destruct (0 <? _); [|apply authentic_ClearMessages].
  apply keeps_bind; [auto with keeps|]. intros [e|]; [auto with keeps|apply authentic_ClearMessages].
Qed.

Lemma authentic_CheckFinality prov order :
  (∀ n k l, GenerateMessages (prov n) k = Ok l → ∀ m, m ∈ l → P m) → keeps authentic (CheckFinality prov order).
Proof.
  intros HP. apply keeps_for_each. intros nid _. apply keeps_bind; [auto with keeps|].
  intros [c|]; [|auto with keeps]. cbn. case_match; [|auto with keeps].
  apply keeps_bind; [auto with keeps|]. intros [l|e|]; [|auto with keeps..].
  apply keeps_bind. { induction l as [|t l IH]; cbn [new_txs]; unfold new_tx in *; auto 10 with keeps. }
  intros l'. apply keeps_for_each. intros t _. unfold CheckFinality_tx.
  assert (∀ k, keeps authentic (with_db (λ db, DeleteTxObject prefixFinalityStore db k))) as Hdel
    by (intros k; by apply authentic_delete).
  destruct (_ =? 0); [apply keeps_ret|]. destruct (_ <? u64 _); [apply keeps_ret|].
  apply keeps_bind; [apply keeps_liftRes|]. intros [[r|]|e]; [|auto with keeps..].
  destruct (rc_Status r); [auto with keeps|]. apply keeps_bind; [auto with keeps|]. intros [c'|]; [|auto with keeps].
  apply keeps_bind; [done|]. intros [e|]; [auto with keeps|]. intros s Hs. apply wpx_bind, wpx_liftRes; [done| |done].
  intros l2 Hl2. apply authentic_mergeMessages; [|done]. by eapply HP.
Qed.

Lemma authentic_HandleMessageFailed p dst src : keeps authentic (HandleMessageFailed p dst src).
Proof.
  apply keeps_bind; [unfold HandleMessageFailed_unmark; auto with keeps|]. intros _. apply authentic_load. intros r HP.
  destruct (_ <=? _); [|auto with keeps]. apply keeps_bind; [by apply authentic_StoreMessage|].
  intros [e|]; [auto with keeps|]. unfold cache_Remove. auto with keeps.
Qed.
(** A goroutine is started for the chain that its message names. *)
Definition aimed p dst s : Prop :=
  authentic s ∧ ∃ r, rl_heap s !! p = Some r ∧ m_Dst (rm_Message r) = dst.

Lemma aimed_shouldSendMessage p d prov dst src now rm :
  keeps (aimed p d) (shouldSendMessage (St := St) prov dst src now rm).
Proof. unfold shouldSendMessage. auto 20 with keeps. Qed.

Lemma authentic_spawn p dst src s : aimed p dst s → wlp (spawn (mkTask p dst src false)) (λ _, authentic) s.
Proof.
  intros [[Hh Hq Ht Hdb] (r & Hr & Hd)]. apply wpx_modify. split; [done..| |done].
  intros t. cbn [rl_tasks rl_heap]. intros [?%Ht| ->%list_elem_of_singleton]%elem_of_app; [done|]. by exists r.
Qed.

Lemma aimed_toggle p dst s : aimed p dst s → wlp (on_route p ToggleProcessing) (λ _, aimed p dst) s.
Proof.
  intros [Ha (r & Hr & Hd)]. pose proof (authentic_on_route p ToggleProcessing ltac:(done) s Ha) as Hk.
  apply wpx_modify. split; [exact Hk|]. exists (ToggleProcessing r). cbn. by rewrite lookup_alter_eq, Hr.
Qed.

Lemma authentic_processMessage prov now src key : keeps authentic (processMessage prov now src key).
Proof.
  apply keeps_bind; [auto with keeps|]. intros [p|]; [|auto with keeps].
  intros s Hs. apply wpx_bind, wlp_load. intros r Hr. set (dst := m_Dst (rm_Message r)).
  assert (aimed p dst s) as Ha by (split; [done|by exists r]).
  apply wpx_bind, wpx_gets. destruct (FindChainRuntime s dst) as [c|e|]; [|by apply authentic_ClearMessages|done].
  apply wpx_bind. eapply wpx_mono; [by apply aimed_shouldSendMessage|].
  intros [|] s1 Ha1; [|apply Ha1]. cbn [negb]. apply wpx_bind. eapply wpx_mono; [by apply aimed_toggle|].
  intros [] s2 Ha2. apply wpx_bind, wpx_liftRes; [done| |].
  - intros [|] _; [|by apply authentic_spawn].
    apply wpx_bind. eapply wpx_mono; [apply authentic_log_sn, Ha2|]. intros [] s3 Hs3. by apply authentic_ClearMessages.
  - intros e _. apply wpx_bind. eapply wpx_mono; [apply authentic_log_sn, Ha2|]. intros [] s3 Hs3.
    by apply authentic_on_route.
Qed.

Lemma authentic_SaveChainsBlockHeight prov order : keeps authentic (SaveChainsBlockHeight prov order).
Proof. apply keeps_for_each. intros nid _. unfold SaveBlockHeight. auto 12 with keeps. Qed.

Lemma authentic_cleanExpiredMessages now order : keeps authentic (cleanExpiredMessages now order).
Proof.
  apply keeps_for_each. intros nid _. apply keeps_bind; [auto with keeps|].
  intros [l|e|]; [|auto with keeps..]. apply keeps_for_each. intros m _.
  destruct (IsElasped _ _ _); [|auto with keeps]. apply keeps_bind; [auto with keeps|]. intros a.
  apply authentic_ClearMessages.
Qed.

Lemma authentic_task_start now i : keeps authentic (task_start now i).
Proof.
  apply keeps_bind_gets. intros s Hs. destruct (rl_tasks s !! i) as [[p dst src [|]]|] eqn:Hi; [done| |done].
  apply wpx_bind. apply wpx_modify. apply authentic_on_route; [done|]. destruct Hs as [Hh Hq Ht Hdb]. split; [done..| |done].
  intros t. cbn [rl_tasks rl_heap]. intros [j Hj]%list_elem_of_lookup.
  apply list_lookup_insert_Some in Hj as [(-> & <- & _)|[_ Hj]]; [|by eapply Ht, list_elem_of_lookup_2].
  apply (Ht (mkTask p dst src false)). by eapply list_elem_of_lookup_2.
Qed.

Lemma authentic_task_return i err : keeps authentic (task_return i err).
Proof.
  apply keeps_bind; [auto with keeps|]. intros [[p dst src [|]]|]; [|auto with keeps..].
  apply keeps_bind.
  - apply authentic_tasks. intros l t Hin. exists t. split; [|done]. eapply elem_of_submseteq; [done|].
    apply sublist_submseteq, sublist_delete.
  - intros _. destruct err; [apply authentic_HandleMessageFailed|auto with keeps].
Qed.

Lemma authentic_listen nid h msgs : (∀ m, m ∈ msgs → P m) → keeps authentic (listen nid h msgs).
Proof.
  intros HP s Hs. apply wpx_bind. 
  assert (wlp (new_messages msgs) (λ ms s', authentic s' ∧ ∀ m, m ∈ ms → P (message_wire m)) s) as Hn.
  { revert s Hs. induction msgs as [|m msgs IH]; intros s Hs; cbn [new_messages].
    { split; [done|]. by intros m ?%elem_of_nil. }
    apply wpx_bind, wpx_bind. eapply wpx_mono; [by apply authentic_new_addr|]. intros a s1 Hs1.
    apply wpx_bind. eapply wpx_mono; [apply IH; [|done]|].
    { intros m' Hm'. apply HP. by right. }
    intros ms s2 [Hs2 Hms]. split; [done|]. intros m' [->|?]%elem_of_cons; [|by apply Hms].
    rewrite message_wire_alloc. apply HP. by left. }
  eapply wpx_mono; [exact Hn|]. intros ms s1 [[Hh Hq Ht Hdb] Hms]. apply wpx_modify. split; [done| |done..].
  intros n c blk m. cbn [rl_chains]. destruct (decide (nid = n)) as [->|Hne]; [|rewrite lookup_alter_ne by done; apply Hq].
  rewrite lookup_alter_eq. intros (c0 & Hc0 & ->)%fmap_Some. cbn [cr_with_chan listenerChan].
  intros [Hin| ->%list_elem_of_singleton]%elem_of_app; [by eapply Hq|]. apply Hms.
Qed.

(** * Every action *)

Lemma authentic_action a : brings a → keeps authentic (run a).
Proof.
  intros Ha. destruct a; cbn [run brings] in *.
  - by apply authentic_listen.
  - apply authentic_StartBlockProcessors.
  - apply authentic_flushMessages.
  - destruct t; cbn [StartRouter_step].
    + apply authentic_flushMessages.
    + apply keeps_for_each. intros [src ks] _. apply keeps_for_each. intros k _. apply authentic_processMessage.
    + apply authentic_SaveChainsBlockHeight.
    + apply authentic_cleanExpiredMessages.
    + apply keeps_ret.
  - by apply authentic_CheckFinality.
  - apply authentic_task_start.
  - apply authentic_callback.
  - apply authentic_task_return.
  - apply keeps_bind; [|auto with keeps]. apply authentic_db. intros db. apply rows_ok_clear.
  - apply keeps_bind; [apply authentic_delete|auto with keeps].
  - by apply authentic_mergeMessages.
  - by apply authentic_add_stored.
Qed.

Lemma exec_authentic manual l s s' :
  Forall brings l → authentic s → exec manual l s = Some s' → authentic s'.
Proof.
  intros Hl. revert s. induction Hl as [|a l Ha _ IH]; intros s Hs; cbn [exec]; [by intros [= <-]|].
  case_decide; [|done]. destruct (run a s) as [[s1 []]|] eqn:Hrun; [|done]. apply IH.
  by apply (keeps_run _ _ s s1 tt (authentic_action a Ha)).
Qed.
End Provenance.
