(* ===== verification/Custody.v ===== *)
(** Who may delete a stored message.

    [StartBlockProcessors] writes every message it takes from a listener to the
    message store, and the relayer reads it back after a crash, a flush or a
    failed attempt.  [releases] lists the actions that delete the row of a
    message; all other actions keep it, so a message that was taken stays in
    the store until one of them releases it. *)
From stdpp Require Import gmap strings list.
From Stdlib Require Import ZArith Lia.
From S2P Require Import Prelude GoStd Types Store Provider Relay RelaySystem RelayCorrect RelayFrame.
Import BlockStore MessageStore FinalityStore.
Open Scope Z_scope.

Section Custody.
Context {St : Type} `{StoreSpec St} `{CodecSpec Z}.
Context `{CodecSpec (RouteMessageOf Z)} `{CodecSpec (TransactionObjectOf Z)}.
Abbreviation Rly := (proc (Relayer St)).
Implicit Types (s : Relayer St) (prov : string → ChainProvider).

(** The row of a message as it travels, and as it is stored. *)
Definition wire_row (m : MessageOf Z) : string := message_key prefixMessageStore (m_Src m) (m_Sn m).
Definition stored_row (m : RouteMessageOf Z) : string := wire_row (rm_Message m).

Lemma row_of_wire (m : Message) : row_of (Message_MessageKey m) = wire_row (message_wire m).
Proof. done. Qed.

(** * The actions that release a row *)

(** A success is reported for the message; the router finds its destination
    not configured, or that the destination has it; its row is found expired;
    an operator prunes the database or removes the row. *)
Definition releases (a : action) s (rk : string) : Prop :=
  match a with
  | TaskCallback _ _ _ key response _ => tr_Code response = Success ∧ row_of key = rk
  | Router prov _ _ keys routeTimer =>
      ∃ src ks key, (src, ks) ∈ keys ∧ key ∈ ks ∧ row_of key = rk ∧
        (rl_chains s !! k_Dst key = None ∨ MessageReceived (prov (k_Dst key)) key = Ok true)
  | Router _ now _ _ cleanMessageTimer =>
      ∃ k v (m : RouteMessageOf Z), contents (rl_db s) !! k = Some v ∧ Unmarshal v = Ok m ∧
        IsElasped now MessageExpiration m = true ∧ stored_row m = rk
  | Prune => True
  | RemoveRow key => row_of key = rk
  | _ => False
  end.

(** * Every other action keeps it *)

(** What only the deletion of the row [rk], once [R] holds, can break. *)
Class Keeper (rk : string) (R : Prop) (Q : St → Prop) := {
  keeper_healthy db : Q db → healthy db;
  keeper_set db k v : Q db → Q (SetByKey db k v).1;
  keeper_delete db k : (k = rk → R) → Q db → Q (DeleteByKey db k).1;
  keeper_clear db : R → Q db → Q (ClearStore db).1 }.

(** The database works, and the row is there unless it was released; and it was
    there after every write but the first [n]. *)
Definition held (n : nat) (rk : string) (R : Prop) (db : St) : Prop :=
  healthy db ∧ ((is_Some (contents db !! rk) ∧ ∀ c, c ∈ drop n (versions db) → is_Some (c !! rk)) ∨ R).

(** A write that leaves the row. *)
Lemma held_written n rk (R : Prop) (db db' : St) :
  healthy db' → (is_Some (contents db !! rk) → is_Some (contents db' !! rk) ∨ R) →
  versions db' = versions db ∨ versions db' = versions db ++ [contents db'] → held n rk R db → held n rk R db'.
Proof.
  intros Hh Hc Hv (_ & [[Hrow Hall]|]); (split; [done|]); [|by right]. destruct (Hc Hrow) as [Hrow'|]; [left|by right].
  split; [done|]. intros c. destruct Hv as [->| ->]; [apply Hall|]. rewrite drop_app.
  intros [?|[i Hi]%list_elem_of_lookup]%elem_of_app; [by apply Hall|]. rewrite lookup_drop in Hi.
  by apply list_lookup_singleton_Some in Hi as [_ <-].
Qed.

#[export] Instance held_keeper n rk (R : Prop) : Keeper rk R (held n rk R).
Proof.
  split.
  - by intros db [].
  - intros db k v Hk. pose proof (versions_set db k v (proj1 Hk)) as Hv. destruct (set_spec db k v (proj1 Hk)) as (db' & Hs & Hh & Hc).
    rewrite Hs in *. eapply held_written; [done| |done..]. intros Hr. left. cbn. rewrite Hc. apply lookup_insert_is_Some'. by right.
  - intros db k HR Hk. pose proof (versions_delete db k (proj1 Hk)) as Hv. destruct (delete_spec db k (proj1 Hk)) as (db' & Hs & Hh & Hc).
    rewrite Hs in *. eapply held_written; [done| |done..]. intros Hr. cbn. rewrite Hc.
    destruct (decide (k = rk)) as [->|?]; [right; auto|left]. by rewrite lookup_delete_ne.
  - intros db HR Hk. pose proof (versions_clear db (proj1 Hk)) as Hv. destruct (clear_spec db (proj1 Hk)) as (db' & Hs & Hh & Hc).
    rewrite Hs in *. eapply held_written; [done| |done..]. by right.
Qed.

(** Without its history. *)
Definition kept (rk : string) (R : Prop) s : Prop :=
  healthy (rl_db s) ∧ (is_Some (contents (rl_db s) !! rk) ∨ R).

Lemma kept_held rk R s : kept rk R s → held (length (versions (rl_db s))) rk R (rl_db s).
Proof. intros [? [?|?]]; (split; [done|]); [left|by right]. split; [done|]. rewrite drop_all. by intros c ?%elem_of_nil. Qed.

(** The queues between listeners and block processors. *)
Definition queues s : gmap string (list BlockInfo) := listenerChan <$> rl_chains s.

#[export] Instance queues_frame Q : Frame (λ s, queues s = Q) (λ _, True) (λ _ _, True).
Proof.
  assert (∀ nid f, (∀ c, listenerChan (f c) = listenerChan c) → keeps (λ s, queues s = Q) (on_chain nid f)) as Hchain.
  { intros nid f Hf. apply keeps_modify. intros s <-. apply map_eq. intros n. unfold queues; cbn.
    rewrite !lookup_fmap. destruct (decide (nid = n)) as [->|]; [|by rewrite lookup_alter_ne].
    rewrite lookup_alter_eq. destruct (rl_chains s !! n); cbn; [by rewrite Hf|done]. }
  split.
  - intros nid f Hf _. by apply Hchain.
  - intros nid h _. by apply Hchain.
  - intros s s' _ Hc. unfold queues. by rewrite Hc.
  - intros k v s Hs. unfold wpx, with_db. by destruct (SetByKey (rl_db s) k v).
  - intros k _ s Hs. unfold wpx, with_db. by destruct (DeleteByKey (rl_db s) k).
Qed.

(** Queues tell which chains there are. *)
Lemma queues_chains s s' n : queues s' = queues s → rl_chains s' !! n = None → rl_chains s !! n = None.
Proof.
  intros Hq Hn. assert (queues s !! n = None) as Hs by (rewrite <-Hq; unfold queues; by rewrite lookup_fmap, Hn).
  unfold queues in Hs. rewrite lookup_fmap in Hs. by apply fmap_None in Hs.
Qed.

(** Recorded transactions are rows of another store. *)
Lemma tx_row_differs rk dst sn :
  HasPrefix rk (GetKey [prefixMessageStore; ""]) = true → tx_key prefixFinalityStore dst sn ≠ rk.
Proof. intros Hrk <-. done. Qed.

Section Keeping.
Context (rk : string) (R : Prop) (Q : St → Prop) `{!Keeper rk R Q}.
Definition keeping s : Prop := Q (rl_db s).

Lemma keeping_db (f : St → St * error) : (∀ db, Q db → Q (f db).1) → keeps keeping (with_db f).
Proof. intros Hf s Hs. unfold wpx, with_db, keeping. specialize (Hf (rl_db s) Hs). by destruct (f (rl_db s)). Qed.

#[local] Instance keeping_frame : Frame keeping (λ k, k = rk → R) (λ _ _, True).
Proof.
  split.
  - intros nid f _ _. by apply keeps_modify.
  - intros nid h _. by apply keeps_modify.
  - intros s s' E _. unfold keeping. by rewrite E.
  - intros k v. apply keeping_db. intros db. apply keeper_set.
  - intros k HR. apply keeping_db. intros db. by apply keeper_delete.
Qed.

Lemma kept_listen nid h msgs : keeps keeping (listen nid h msgs).
Proof.
  apply keeps_bind; [|intros l; by apply keeps_modify].
  induction msgs as [|m msgs IH]; cbn [new_messages]; [auto with keeps|].
  apply keeps_bind; [|auto with keeps]. unfold new_message. apply keeps_bind; [|auto with keeps].
  by eapply (frame_new_addr keeping), keeping_frame.
Qed.

Lemma kept_StartBlockProcessors nid : keeps keeping (StartBlockProcessors_step nid).
Proof.
  apply keeps_bind; [auto with keeps|]. intros c. destruct (listenerChan <$> c) as [[|b l]|]; [auto with keeps| |auto with keeps].
  apply keeps_bind; [by apply keeps_modify|]. intros _. eapply (frame_processBlockInfo keeping), keeping_frame.
Qed.

(** ** Routing *)

Lemma kept_processMessage prov now src key s :
  Inv False s → keeping s →
  (row_of key = rk → rl_chains s !! k_Dst key = None ∨ MessageReceived (prov (k_Dst key)) key = Ok true → R) →
  wlp (processMessage prov now src key) (λ _, keeping) s.
Proof.
  intros HI Hk HR. apply wpx_bind, wpx_gets. destruct (chain_cache s src !! key) as [p|] eqn:Hc; [|done].
  destruct (inv_cached _ _ HI _ _ _ Hc) as (r & Hr & Hkey).
  assert (m_Dst (rm_Message r) = k_Dst key) as Hdst by (by rewrite <-Hkey).
  apply wpx_bind, (wpx_load _ _ r); [done|]. apply wpx_bind, wpx_gets. rewrite Hdst.
  unfold FindChainRuntime. destruct (rl_chains s !! k_Dst key) as [c|] eqn:Hch.
  2:{ refine (frame_ClearMessages keeping (λ k, k = rk → R) (λ _ _, True) key src _ s Hk). auto. }
  apply wpx_bind. eapply wpx_mono; [by apply (shouldSendMessage_keeps keeping)|].
  intros [|] s1 Hk1; [|done]. cbn [negb]. apply wpx_bind. eapply wpx_mono; [by apply (frame_on_route keeping (λ k, k = rk → R) (λ _ _, True))|].
  intros [] s2 Hk2. apply wpx_bind, wpx_liftRes; [done| |].
  - intros [|] Hm; [|by apply wpx_modify]. apply wpx_bind. eapply wpx_mono; [by apply (frame_log_sn keeping)|].
    intros [] s3 Hk3. refine (frame_ClearMessages keeping (λ k, k = rk → R) (λ _ _, True) key src _ s3 Hk3). auto.
  - intros e _. apply wpx_bind. eapply wpx_mono; [by apply (frame_log_sn keeping)|]. intros [] s3 Hk3. by apply wpx_modify.
Qed.

Lemma kept_processMessages prov now keys s :
  Inv False s → keeping s →
  (∀ src ks key, (src, ks) ∈ keys → key ∈ ks → row_of key = rk →
     rl_chains s !! k_Dst key = None ∨ MessageReceived (prov (k_Dst key)) key = Ok true → R) →
  wlp (processMessages prov now keys) (λ _, keeping) s.
Proof.
  intros HI Hk HR. eapply wpx_mono.
  - apply (wpx_for_each _ _ _ (λ s', Inv False s' ∧ queues s' = queues s ∧ keeping s')); [done|].
    intros [src ks] s1 Hin1 Hs1. apply wpx_for_each; [done|]. intros key s2 Hin2 (HI2 & Hc2 & Hk2).
    eapply wpx_mono; [eapply wpx_and|].
    + by apply keeps_processMessage.
    + eapply wpx_and; [by apply (frame_processMessage (λ s', queues s' = queues s) (λ _, True) (λ _ _, True))|].
      apply kept_processMessage; [done|done|]. intros Hrow Hd. eapply HR; [done..|].
      destruct Hd as [Hd|Hd]; [left; by eapply queues_chains|by right].
    + by intros [] s3 (? & ? & ?).
  - by intros [] s' (_ & _ & ?).
Qed.

(** ** Expiry *)

(** Rows are only deleted. *)
Definition shrinks s0 s : Prop := healthy (rl_db s) ∧ contents (rl_db s) ⊆ contents (rl_db s0).

Lemma shrinks_clear s0 key src : keeps (shrinks s0) (_ ← ClearMessages [key] src; mret tt).
Proof.
  intros s [Hh Hsub]. eapply wpx_mono.
  - by apply wp_partial, ClearMessages_one_ret.
  - intros [] s' Hcl. split; [by eapply oc_healthy|]. rewrite (oc_rows _ _ _ _ _ Hcl).
    etrans; [apply delete_subseteq|done].
Qed.

Lemma kept_cleanExpiredMessages now order s :
  keeping s →
  (∀ k v (m : RouteMessageOf Z), contents (rl_db s) !! k = Some v → Unmarshal v = Ok m →
     IsElasped now MessageExpiration m = true → stored_row m = rk → R) →
  wlp (cleanExpiredMessages now order) (λ _, keeping) s.
Proof.
  intros Hk HR. eapply wpx_mono.
  - apply (wpx_for_each _ _ _ (λ s', shrinks s s' ∧ keeping s')); [split; [by split; [apply (keeper_healthy _ Hk)|]|done]|].
    intros nid s1 _ [Hs1 Hk1]. apply wpx_bind, wpx_gets.
    destruct (GetMessages _ _ _ _) as [l|e|] eqn:Hl; [|done..].
    apply wpx_for_each; [done|]. intros m s2 Hm [Hs2 Hk2].
    destruct (IsElasped now MessageExpiration m) eqn:He; [|done].
    destruct (GetMessages_rows _ _ _ _ _ m (proj1 Hs1) Hl Hm) as (k & v & Hkv & _ & Hu).
    apply wpx_bind. unfold wpx at 1, new_addr. set (s3 := mkRelayer _ _ _ _ _). set (key := rm_key _).
    eapply wpx_mono; [eapply wpx_and|].
    + apply (shrinks_clear s key nid s3). done.
    + refine (frame_ClearMessages keeping (λ k, k = rk → R) (λ _ _, True) key nid _ s3 Hk2). intros Hrow. eapply (HR k v m); try done.
      * eapply lookup_weaken; [exact Hkv|]. apply Hs1.
      * rewrite <-Hrow. unfold stored_row, row_of, key, rm_key. cbn. by destruct (m_Sn (rm_Message m)).
    + by intros [] s4.
  - by intros [] s' [_ ?].
Qed.

Lemma keeping_action a s :
  HasPrefix rk (GetKey [prefixMessageStore; ""]) = true → Inv False s → keeping s →
  (releases a s rk → R) → wlp (run a) (λ _, keeping) s.
Proof.
  intros Hrk HI Hk HR. set (allowed := λ k, k = rk → R). destruct a; cbn [run].
  - by apply kept_listen.
  - by apply kept_StartBlockProcessors.
  - by apply (frame_flushMessages _ allowed (λ _ _, True)).
  - destruct t; cbn [StartRouter_step].
    + by apply (frame_flushMessages _ allowed (λ _ _, True)).
    + apply kept_processMessages; [done..|]. intros src ks key ? ? ? ?. apply HR. by exists src, ks, key.
    + by apply (frame_SaveChainsBlockHeight _ allowed (λ _ _, True)).
    + apply kept_cleanExpiredMessages; [done|]. intros k v m ? ? ? ?. apply HR. by exists k, v, m.
    + exact Hk.
  - apply (frame_CheckFinality _ allowed (λ _ _, True)); [|done]. intros dst sn E. by destruct (tx_row_differs rk dst sn Hrk).
  - by apply (frame_task_start _ allowed (λ _ _, True)).
  - apply (frame_callback _ allowed (λ _ _, True)); [|done]. intros ? ?. by apply HR.
  - by apply (frame_task_return _ allowed (λ _ _, True)).
  - assert (keeps keeping (run Prune)) as Ht; [|by apply Ht].
    apply keeps_bind; [|auto with keeps]. apply keeping_db.
    intros db. apply keeper_clear. by apply HR.
  - assert (keeps keeping (run (RemoveRow key))) as Ht; [|by apply Ht].
    apply keeps_bind; [by apply frame_delete|auto with keeps].
  - by apply (frame_mergeMessages _ allowed (λ _ _, True)).
  - by apply (frame_RelayRow _ allowed (λ _ _, True)).
Qed.

End Keeping.

(** * Custody *)

Lemma held_action n a s rk (R : Prop) :
  HasPrefix rk (GetKey [prefixMessageStore; ""]) = true → Inv False s → held n rk R (rl_db s) →
  (releases a s rk → R) → wlp (run a) (λ _ s', held n rk R (rl_db s')) s.
Proof. intros. by apply (keeping_action rk R (held n rk R)). Qed.

Lemma kept_action a s rk (R : Prop) :
  HasPrefix rk (GetKey [prefixMessageStore; ""]) = true → Inv False s → kept rk R s →
  (releases a s rk → R) → wlp (run a) (λ _, kept rk R) s.
Proof.
  intros Hrk HI Hk HR. eapply wpx_mono; [eapply held_action; [done..|by apply kept_held|done]|].
  intros [] s' [? [[? _]|?]]; (split; [done|tauto]).
Qed.

Lemma row_of_prefix k : HasPrefix (row_of k) (GetKey [prefixMessageStore; ""]) = true.
Proof. exact (message_key_prefix prefixMessageStore "" (k_Src k) (sn_val (k_Sn k))). Qed.

(** The database goes on working. *)
Lemma reachable_healthy manual s0 s :
  initial s0 → healthy (rl_db s0) → reachable manual s0 s → healthy (rl_db s).
Proof.
  intros Hi Hdb. assert (∀ s, healthy (rl_db s) → ∀ rk, kept rk True s) as Hkept by (intros ? ? ?; by split; [|right]).
  induction 1 as [|s s' Hr IH [a s2 _ _ Hrun]]; [done|].
  assert (Inv False s) as HI by by apply (reachable_Inv False manual s0).
  pose proof (kept_action a s (row_of (mkMessageKey None "" "" "")) True (row_of_prefix _) HI (Hkept s IH _)) as Hk.
  unfold wpx in Hk. rewrite Hrun in Hk. by apply Hk.
Qed.

(** Some action of the run released the row. *)
Fixpoint released (l : list action) s (rk : string) : Prop :=
  match l with
  | [] => False
  | a :: l => releases a s rk ∨ match run a s with Some (s', _) => released l s' rk | None => False end
  end.

Lemma exec_kept manual rk l s s' :
  HasPrefix rk (GetKey [prefixMessageStore; ""]) = true → Inv False s → healthy (rl_db s) →
  is_Some (contents (rl_db s) !! rk) → exec manual l s = Some s' →
  is_Some (contents (rl_db s') !! rk) ∨ released l s rk.
Proof.
  intros Hrk. revert s. induction l as [|a l IH]; intros s HI Hh Hrow; cbn [exec released].
  { intros [= <-]. by left. }
  case_decide; [|done]. assert (kept rk (releases a s rk) s) as Hk by (split; [done|by left]).
  pose proof (kept_action a s rk _ Hrk HI Hk id) as Hka. unfold wpx in Hka.
  destruct (run a s) as [[s1 []]|] eqn:Hrun; [|done]. destruct Hka as [Hh1 [Hrow1|Hrel]]; [|by right; left].
  intros He. destruct (IH s1) as [?|?]; [|done..|by left|by right; right].
  refine (keeps_run _ _ _ _ _ (keeps_action False a _) HI Hrun). done.
Qed.

(** Processing a block stores the row of each of its messages. *)
Lemma processBlockInfo_rows nid b s :
  healthy (rl_db s) →
  wlp (processBlockInfo nid b) (λ _ s', healthy (rl_db s') ∧
    ∀ m, m ∈ bi_Messages b → is_Some (contents (rl_db s') !! row_of (Message_MessageKey m))) s.
Proof.
  intros Hh. apply wpx_bind, wpx_modify.
  apply (wpx_for_each_prefix _ _ _ (λ dn s', healthy (rl_db s') ∧
    ∀ m, m ∈ dn → is_Some (contents (rl_db s') !! row_of (Message_MessageKey m)))).
  { split; [done|]. by intros m ?%elem_of_nil. }
  intros dn m l' s1 _ [Hh1 Hdn]. apply wpx_bind, wpx_new_route, wpx_bind.
  eapply wpx_cache_Add; [apply lookup_insert_eq|]. apply wpx_bind.
  destruct (StoreMessage_spec prefixMessageStore (rl_db s1) (NewRouteMessage m) Hh1) as (db' & v & Hs & Hh' & Hrows & _).
  eapply wpx_with_db; [exact Hs|]. apply wpx_ret. split; [done|]. cbn [rl_db]. intros m' Hm'. rewrite Hrows.
  apply lookup_insert_is_Some'. apply elem_of_app in Hm' as [Hm'| ->%list_elem_of_singleton]; [right; by apply Hdn|by left].
Qed.

(** C14: the relayer keeps what it has taken.  Whatever happens after the block
    processor has taken a block from a listener, in any interleaving, the row of
    every message of the block stays in the message store, unless an action
    released it: a success reported for it, a destination that is not
    configured or has it already, its expiry, or an operator's removal. *)
Theorem taken_message_kept manual s0 s s' nid c (blk : BlockInfo) rest m l
  (Hinit : initial s0) (Hdb : healthy (rl_db s0)) (Hr : reachable manual s0 s)
  (Hc : rl_chains s !! nid = Some c) (Hq : listenerChan c = blk :: rest) (Hm : m ∈ bi_Messages blk)
  (Hrun : exec manual (ProcessBlock nid :: l) s = Some s') :
  let rk := row_of (Message_MessageKey m) in
  is_Some (contents (rl_db s') !! rk) ∨ released (ProcessBlock nid :: l) s rk.
Proof.
  cbn zeta. assert (Inv False s) as HI by by apply (reachable_Inv False manual s0).
  assert (healthy (rl_db s)) as Hh by by eapply reachable_healthy.
  cbn [exec] in Hrun. case_decide; [|done]. cbn [released].
  assert (wlp (run (ProcessBlock nid)) (λ _ s1, healthy (rl_db s1) ∧
    ∀ m, m ∈ bi_Messages blk → is_Some (contents (rl_db s1) !! row_of (Message_MessageKey m))) s) as Hp.
  { apply wpx_bind, wpx_gets. rewrite Hc. cbn [fmap option_fmap option_map]. rewrite Hq.
    apply wpx_bind, wpx_modify. by apply processBlockInfo_rows. }
  unfold wpx in Hp. destruct (run (ProcessBlock nid) s) as [[s1 []]|] eqn:Hs1; [|done].
  destruct Hp as [Hh1 Hrows]. destruct (exec_kept manual (row_of (Message_MessageKey m)) l s1 s') as [?|?];
    [apply row_of_prefix| |done|by apply Hrows|done|by left|by right; right].
  refine (keeps_run _ _ _ _ _ (keeps_action False (ProcessBlock nid) _) HI Hs1). done.
Qed.
End Custody.
