(* ===== verification/Feed.v ===== *)
(** A listener beside the relayer it sends to.

    [Feeder] is what the relayer is told of a listener: the blocks it has sent
    so far, of which there are ever more.  Whatever it does between its sends,
    and whatever the relayer does, a block that was sent is in the queue of its
    chain or its messages are in the store, unless they were released: what
    Custody.v says of one block, for all that a listener ever sends. *)
From stdpp Require Import gmap strings list.
From Stdlib Require Import ZArith Lia.
From S2P Require Import Prelude GoStd Types Store Provider Relay RelaySystem RelayCorrect RelayFrame Custody.
Import BlockStore MessageStore FinalityStore.
Open Scope Z_scope.

Section Feed.
Context {St : Type} `{StoreSpec St} `{CodecSpec Z}.
Context `{CodecSpec (RouteMessageOf Z)} `{CodecSpec (TransactionObjectOf Z)}.
Implicit Types (s : Relayer St).

(** A listener with the chain it listens to: how it starts and what it does
    next may depend on the relayer's state, where the saved height is. *)
Record Feeder (L : Type) := mkFeeder {
  feeds : L → list (BlockInfoOf Z);
  begins : Relayer St → L → Prop;
  steps : Relayer St → L → L → Prop;
  begins_empty s l : begins s l → feeds l = [];
  steps_grow s l l' : steps s l l' → ∃ new, feeds l' = feeds l ++ new }.
Arguments feeds {_} _ _.
Arguments begins {_} _ _ _.
Arguments steps {_} _ _ _ _.
Arguments begins_empty {_} _ _ _ _.
Arguments steps_grow {_} _ _ _ _ _.

(** The chain that the listener is of. *)
Context (nid : string).

(** [chainRuntime.LastSavedHeight], which [GetLastSavedBlockHeight] reads. *)
Definition last_saved s : Z := from_option LastSavedHeight 0 (rl_chains s !! nid).

Definition is_listener (a : action) : bool :=
  match a with Listen n _ _ => bool_decide (n = nid) | _ => false end.

(** The sends of a step of the listener, as the relayer sees them. *)
Definition sends {L} (f : Feeder L) (l l' : L) : list action :=
  (λ b, Listen nid (bi_Height b) (bi_Messages b)) <$> drop (length (feeds f l)) (feeds f l').

(** A run of the two: the listener, the relayer, and the actions of the relayer
    so far with the states they were run in. *)
Inductive fed {L} (f : Feeder L) : L → Relayer St → list (action * Relayer St) → Prop :=
| fed_begin l s : begins f s l → initial s → healthy (rl_db s) → fed f l s []
| fed_listener l s hist l' s' :
    fed f l s hist → steps f s l l' → exec true (sends f l l') s = Some s' → fed f l' s' hist
| fed_relayer l s hist a s' :
    fed f l s hist → is_listener a = false → exec true [a] s = Some s' → fed f l s' (hist ++ [(a, s)]).

Lemma fed_reachable {L} (f : Feeder L) l s hist :
  fed f l s hist → ∃ s0, initial s0 ∧ healthy (rl_db s0) ∧ reachable true s0 s.
Proof.
  induction 1 as [l s ? Hi Hh|l s hist l' s' _ IH ? Hex|l s hist a s' _ IH ? Hex].
  - exists s. split_and!; [done..|constructor].
  - destruct IH as (s0 & ? & ? & Hr). exists s0. split_and!; [done..|]. by eapply exec_reachable.
  - destruct IH as (s0 & ? & ? & Hr). exists s0. split_and!; [done..|]. by eapply exec_reachable.
Qed.

Lemma fed_Inv {L} (f : Feeder L) l s hist : fed f l s hist → Inv False s ∧ healthy (rl_db s).
Proof.
  intros (s0 & Hi & Hh & Hr)%fed_reachable. split; [by apply (reachable_Inv False true s0)|].
  by eapply reachable_healthy.
Qed.

(** * The queue *)

(** The block waits in the chain's queue. *)
Definition in_queue s (b : BlockInfoOf Z) : Prop :=
  ∃ q blk, queues s !! nid = Some q ∧ blk ∈ q ∧ message_wire <$> bi_Messages blk = bi_Messages b.

Lemma queues_same a s s' :
  match a with Listen _ _ _ | ProcessBlock _ => False | _ => True end →
  run a s = Some (s', tt) → queues s' = queues s.
Proof.
  intros Ha Hrun. assert (keeps (λ s', queues s' = queues s) (run a)) as Hk; [|exact (keeps_run _ _ s s' tt Hk eq_refl Hrun)].
  apply (frame_action (λ s', queues s' = queues s) (λ _, True) (λ _ _, True)); [done| |done..].
  intros s1 Hs1. unfold wpx, PruneDB, with_db. destruct (ClearStore (rl_db s1)). exact Hs1.
Qed.

Lemma new_messages_wire (l : list (MessageOf Z)) s :
  ∃ ms next, new_messages l s = Some (mkRelayer (rl_db s) (rl_chains s) (rl_heap s) next (rl_tasks s), ms) ∧
    message_wire <$> ms = l.
Proof.
  revert s. induction l as [|m l IH]; intros s; cbn [new_messages].
  { exists [], (rl_next s). by destruct s. }
  set (s1 := mkRelayer (rl_db s) (rl_chains s) (rl_heap s) (Pos.succ (rl_next s)) (rl_tasks s)).
  destruct (IH s1) as (ms & next & Hms & Hw). exists (message_alloc (rl_next s) m :: ms), next.
  split.
  { transitivity (match new_messages l s1 with
      | Some (s', ms) => Some (s', message_alloc (rl_next s) m :: ms) | None => None end); [done|].
    by rewrite Hms. } cbn. f_equal; [|done]. by destruct m as [? ? []].
Qed.

(** A send appends to the queue of its chain. *)
Lemma listen_queue h msgs s s' :
  is_Some (rl_chains s !! nid) → run (Listen nid h msgs) s = Some (s', tt) →
  rl_db s' = rl_db s ∧ in_queue s' (mkBlockInfo h msgs) ∧ ∀ b, in_queue s b → in_queue s' b.
Proof.
  intros [c Hc]. cbn [run]. unfold listen, mbind, proc_bind.
  destruct (new_messages_wire msgs s) as (ms & next & -> & Hw). intros [= <-].
  set (s' := mkRelayer _ _ _ _ _).
  assert (queues s' !! nid = Some (listenerChan c ++ [mkBlockInfo h ms])) as Hq.
  { unfold queues, s'. cbn. by rewrite lookup_fmap, lookup_alter_eq, Hc. }
  split_and!; [done|..].
  - eexists _, (mkBlockInfo h ms). split; [exact Hq|]. split; [set_solver|done].
  - intros b (q & blk & Hq' & Hin & ?). eexists _, blk. split; [exact Hq|]. split; [|done].
    unfold queues in Hq'. rewrite lookup_fmap, Hc in Hq'. injection Hq' as <-. set_solver.
Qed.

(** Another chain's processor leaves the queue alone. *)
Lemma process_other n s s' :
  n ≠ nid → run (ProcessBlock n) s = Some (s', tt) → queues s' !! nid = queues s !! nid.
Proof.
  intros Hn Hrun. assert (keeps (λ s', queues s' !! nid = queues s !! nid) (run (ProcessBlock n))) as Hk;
    [|exact (keeps_run _ _ s s' tt Hk eq_refl Hrun)].
  apply keeps_bind; [auto with keeps|]. intros c. destruct (listenerChan <$> c) as [[|b l]|]; [auto with keeps| |auto with keeps].
  apply keeps_bind.
  - apply keeps_modify. intros s1 <-. unfold queues; cbn. by rewrite !lookup_fmap, lookup_alter_ne.
  - intros _ s1 Hs1. eapply wpx_mono; [by apply (frame_processBlockInfo (λ s', queues s' = queues s1) (λ _, True) (λ _ _, True))|].
    by intros [] s2 ->.
Qed.

(** The chain's own processor takes the head. *)
Lemma process_queue s s' b :
  healthy (rl_db s) → run (ProcessBlock nid) s = Some (s', tt) → in_queue s b →
  in_queue s' b ∨ ∀ m : MessageOf Z, m ∈ bi_Messages b → is_Some (contents (rl_db s') !! wire_row m).
Proof.
  intros Hh Hrun (q & blk & Hq & Hin & Hw). unfold queues in Hq. rewrite lookup_fmap in Hq.
  apply fmap_Some in Hq as (c & Hc & ->).
  assert (wlp (run (ProcessBlock nid)) (λ _ s', in_queue s' b ∨ ∀ m : MessageOf Z, m ∈ bi_Messages b →
    is_Some (contents (rl_db s') !! wire_row m)) s) as Hp;
    [|unfold wpx in Hp; by rewrite Hrun in Hp].
  apply wpx_bind, wpx_gets. rewrite Hc. cbn [fmap option_fmap option_map].
  destruct (listenerChan c) as [|x rest] eqn:Hl; [by apply elem_of_nil in Hin|].
  apply wpx_bind, wpx_modify. set (s1 := mkRelayer _ _ _ _ _).
  assert (queues s1 !! nid = Some rest) as Hq1.
  { unfold queues, s1; cbn. by rewrite lookup_fmap, lookup_alter_eq, Hc. }
  eapply wpx_mono; [eapply wpx_and|].
  - apply (frame_processBlockInfo (λ s', queues s' = queues s1) (λ _, True) (λ _ _, True) nid x s1 eq_refl).
  - by apply (processBlockInfo_rows nid x s1).
  - intros [] s2 (Hq2 & _ & Hrows). apply elem_of_cons in Hin as [->|Hin].
    + right. intros m Hm. rewrite <-Hw in Hm. apply list_elem_of_fmap in Hm as (m' & -> & Hm').
      exact (Hrows m' Hm').
    + left. exists rest, blk. by rewrite Hq2, Hq1.
Qed.

Lemma listens_queue l s s' :
  exec true ((λ b, Listen nid (bi_Height b) (bi_Messages b)) <$> l) s = Some s' →
  rl_db s' = rl_db s ∧ ∀ b, b ∈ l ∨ in_queue s b → in_queue s' b.
Proof.
  revert s. induction l as [|x l IH]; intros s; cbn [fmap list_fmap exec].
  { intros [= <-]. split; [done|]. by intros b [?%elem_of_nil|]. }
  case_decide as Hen; [|done]. destruct Hen as [(c & Hc & _) _].
  destruct (run _ s) as [[s1 []]|] eqn:Hrun; [|done]. intros (Hdb & Hl)%IH.
  destruct (listen_queue (bi_Height x) (bi_Messages x) s s1) as (Hdb1 & Hx & Hq); [by eexists|exact Hrun|].
  split; [by rewrite Hdb|]. intros b [[->|Hb]%elem_of_cons|Hb]; apply Hl; [right; by destruct x|by left|right; auto].
Qed.

(** * Custody from end to end *)

(** Its row is in the message store, or was released. *)
Definition secured s (hist : list (action * Relayer St)) (m : MessageOf Z) : Prop :=
  is_Some (contents (rl_db s) !! wire_row m) ∨
  ∃ a s0, (a, s0) ∈ hist ∧ releases a s0 (wire_row m).

Lemma secured_step s hist a s' m :
  Inv False s → healthy (rl_db s) → run a s = Some (s', tt) → secured s hist m → secured s' (hist ++ [(a, s)]) m.
Proof.
  intros HI Hh Hrun [Hrow|(a0 & s0 & Hin & Hrel)]; [|right; exists a0, s0; set_solver].
  assert (kept (wire_row m) (releases a s (wire_row m)) s) as Hk by (split; [done|by left]).
  assert (HasPrefix (wire_row m) (GetKey [prefixMessageStore; ""]) = true) as Hp.
  { exact (message_key_prefix prefixMessageStore "" (m_Src m) (m_Sn m)). }
  pose proof (kept_action a s _ _ Hp HI Hk id) as Hka. unfold wpx in Hka. rewrite Hrun in Hka.
  destruct Hka as [_ [?|?]]; [by left|right]. exists a, s. set_solver.
Qed.

(** A block waits in the queue, or all its messages are secured. *)
Definition handed s hist (b : BlockInfoOf Z) : Prop :=
  in_queue s b ∨ ∀ m, m ∈ bi_Messages b → secured s hist m.

Lemma handed_step s hist a s' b :
  Inv False s → healthy (rl_db s) → is_listener a = false → run a s = Some (s', tt) →
  handed s hist b → handed s' (hist ++ [(a, s)]) b.
Proof.
  intros HI Hh Ha Hrun [Hq|Hs]; [|right; intros m Hm; eapply secured_step; eauto].
  assert (queues s' !! nid = queues s !! nid → in_queue s' b) as Hsame.
  { intros E. destruct Hq as (q & blk & Hq & ?). exists q, blk. by rewrite E. }
  destruct a as [n h msgs|n| | | | | | | | | |];
    try (left; apply Hsame; f_equal; eapply (queues_same _ s s'); [|exact Hrun]; exact I).
  - cbn in Ha. apply bool_decide_eq_false in Ha. left. apply Hsame.
    cbn [run] in Hrun. unfold listen, mbind, proc_bind in Hrun.
    destruct (new_messages_wire msgs s) as (ms & next & Hms & _). rewrite Hms in Hrun. injection Hrun as <-.
    unfold queues; cbn. by rewrite !lookup_fmap, lookup_alter_ne.
  - destruct (decide (n = nid)) as [->|Hn]; [|left; by apply Hsame, (process_other n)].
    destruct (process_queue s s' b Hh Hrun Hq) as [?|Hrows]; [by left|right]. intros m Hm. left. by apply Hrows.
Qed.

Lemma fed_handed {L} (f : Feeder L) l s hist : fed f l s hist → ∀ b, b ∈ feeds f l → handed s hist b.
Proof.
  induction 1 as [l s Hst|l s hist l' s' Hp IH Hs Hex|l s hist a s' Hp IH Ha Hex]; intros b Hb.
  - rewrite (begins_empty f s l Hst) in Hb. by apply elem_of_nil in Hb.
  - destruct (steps_grow f s l l' Hs) as [new Ho]. unfold sends in Hex. rewrite Ho, drop_app_length in Hex.
    destruct (listens_queue new s s' Hex) as [Hdb Hq]. rewrite Ho in Hb.
    apply elem_of_app in Hb as [Hb|Hb]; [|left; apply Hq; by left].
    destruct (IH b Hb) as [?|Hsec]; [left; apply Hq; by right|right]. unfold secured. rewrite Hdb. exact Hsec.
  - cbn [exec] in Hex. case_decide; [|done]. destruct (run a s) as [[s1 []]|] eqn:Hrun; [|done]. injection Hex as <-.
    destruct (fed_Inv _ _ _ _ Hp) as [HI Hh]. eapply handed_step; eauto.
Qed.

(** Once the queue is empty every message of every block sent is secured. *)
Lemma fed_secured {L} (f : Feeder L) l s hist c b m :
  fed f l s hist → rl_chains s !! nid = Some c → listenerChan c = [] → b ∈ feeds f l → m ∈ bi_Messages b →
  secured s hist m.
Proof.
  intros Hfed Hc Hempty Hb Hm. destruct (fed_handed f l s hist Hfed b Hb) as [(q & blk & Hq & Hin & _)|Hs]; [|by apply Hs].
  unfold queues in Hq. rewrite lookup_fmap, Hc in Hq. injection Hq as <-. rewrite Hempty in Hin. by apply elem_of_nil in Hin.
Qed.
End Feed.
Arguments feeds {_ _} _ _.
Arguments begins {_ _} _ _ _.
Arguments steps {_ _} _ _ _ _.
Arguments begins_empty {_ _} _ _ _ _.
Arguments steps_grow {_ _} _ _ _ _ _.
