(* ===== verification/Network.v ===== *)
(** Many chains around one relayer.

    Every chain has a listener that feeds the relayer (Feed.v) and a provider
    that carries messages to it ([Destination]).  A step of the network is a
    step of one listener, an action of the relayer, or a part of a routing
    goroutine: [Route] runs on the destination's provider, its callbacks come in
    the order it makes them, and it returns.  What Feed.v says of one listener
    holds of each ([net_fed]); a success is only ever reported by a [Route] that
    had its message executed; and all that is routed has an origin.

    Messages are looked for by the key of their row, which is the source and
    the serial number: two messages that agree in both share a row. *)
From stdpp Require Import gmap strings list relations.
From Stdlib Require Import ZArith Lia.
From S2P Require Import Prelude GoStd Types Store Provider Relay RelaySystem RelayCorrect RelayFrame Provenance Custody Feed.
Import BlockStore MessageStore FinalityStore.
Open Scope Z_scope.

(** The provider of a chain that messages are sent to: [routes] relates its
    state before and after a [Route], with the calls of the callback and the
    result, a panic standing for a [Route] that does not return; [executed] are
    the messages that its chain has executed for it. *)
Record Destination (N : Type) := mkDestination {
  routes : N → Message → list CallbackCall * res unit → N → Prop;
  executed : N → MessageOf Z → Prop;
  routes_keys n m out n' : routes n m out n' → Forall (λ c, cb_key c = Message_MessageKey m) out.1;
  routes_success n m out n' c :
    routes n m out n' → c ∈ out.1 → tr_Code (cb_response c) = Success → executed n' (message_wire m);
  routes_stays n m out n' x : routes n m out n' → executed n x → executed n' x;
  routes_only n m out n' x : routes n m out n' → executed n' x → executed n x ∨ x = message_wire m }.
Arguments routes {_} _ _ _ _ _.
Arguments executed {_} _ _ _.
Arguments routes_keys {_} _ _ _ _ _ _.
Arguments routes_success {_} _ _ _ _ _ _ _ _ _.
Arguments routes_stays {_} _ _ _ _ _ _ _ _.
Arguments routes_only {_} _ _ _ _ _ _ _ _.

Section Network.
Context {St : Type} `{StoreSpec St} `{CodecSpec Z}.
Context `{CodecSpec (RouteMessageOf Z)} `{CodecSpec (TransactionObjectOf Z)}.
Implicit Types (s : Relayer St) (prov : string → ChainProvider).

(** The chains, by an index, with their listeners and destinations. *)
Context {I : Type} `{!EqDecision I} (nid : I → string) `{!Inj (=) (=) nid}.
Context {L N : I → Type} (f : ∀ i, Feeder (St := St) (L i)) (d : ∀ i, Destination (N i)).

(** [n_routing] holds, for a message whose [Route] is running, what that is yet
    to do: its further calls of the callback, then its result. *)
Record Net := mkNet {
  n_sides : ∀ i, L i;
  n_relayer : Relayer St;
  n_nodes : ∀ i, N i;
  n_routing : gmap positive (list CallbackCall * res unit);
  n_hist : list (action * Relayer St) }.

(** What the relayer and its operators do by themselves. *)
Definition spontaneous (a : action) : bool :=
  match a with Listen _ _ _ | TaskCallback _ _ _ _ _ _ | TaskReturn _ _ => false | _ => true end.

Definition result_error (r : res unit) : error := match r with Err e => Some e | _ => None end.

Inductive net_step (w : Net) : Net → Prop :=
| net_source i sides s' :
    steps (f i) (n_relayer w) (n_sides w i) (sides i) → (∀ j, j ≠ i → sides j = n_sides w j) →
    exec true (sends (nid i) (f i) (n_sides w i) (sides i)) (n_relayer w) = Some s' →
    net_step w (mkNet sides s' (n_nodes w) (n_routing w) (n_hist w))
| net_acts a s' :
    spontaneous a = true → exec true [a] (n_relayer w) = Some s' →
    net_step w (mkNet (n_sides w) s' (n_nodes w) (n_routing w) (n_hist w ++ [(a, n_relayer w)]))
| net_route i k p src r out nodes :
    rl_tasks (n_relayer w) !! k = Some (mkTask p (nid i) src true) → n_routing w !! p = None →
    rl_heap (n_relayer w) !! p = Some r →
    routes (d i) (n_nodes w i) (rm_Message r) out (nodes i) → (∀ j, j ≠ i → nodes j = n_nodes w j) →
    net_step w (mkNet (n_sides w) (n_relayer w) nodes (<[p := out]> (n_routing w)) (n_hist w))
| net_callback k p dst src c calls res prov s' :
    let a := TaskCallback prov src dst (cb_key c) (cb_response c) (cb_err c) in
    rl_tasks (n_relayer w) !! k = Some (mkTask p dst src true) → n_routing w !! p = Some (c :: calls, res) →
    exec true [a] (n_relayer w) = Some s' →
    net_step w (mkNet (n_sides w) s' (n_nodes w) (<[p := (calls, res)]> (n_routing w)) (n_hist w ++ [(a, n_relayer w)]))
| net_return k p dst src res s' :
    let a := TaskReturn k (result_error res) in
    rl_tasks (n_relayer w) !! k = Some (mkTask p dst src true) → n_routing w !! p = Some ([], res) → res ≠ Panic →
    exec true [a] (n_relayer w) = Some s' →
    net_step w (mkNet (n_sides w) s' (n_nodes w) (delete p (n_routing w)) (n_hist w ++ [(a, n_relayer w)])).

(** The relayer starts: every listener, with a database opened just now, and
    nothing is in flight. *)
Record net_initial (w : Net) : Prop := {
  ni_begins i : begins (f i) (n_relayer w) (n_sides w i);
  ni_relayer : initial (n_relayer w);
  ni_healthy : healthy (rl_db (n_relayer w));
  ni_versions : versions (rl_db (n_relayer w)) = [];
  ni_routing : n_routing w = ∅;
  ni_hist : n_hist w = [] }.

Definition net_run (w0 w : Net) : Prop := net_initial w0 ∧ rtc net_step w0 w.

(** * Each listener is fed as if it were alone *)

Lemma fed_exec {A} (g : Feeder (St := St) A) n l s hist acts s' :
  fed n g l s hist → Forall (λ a, is_listener n a = false) acts → exec true acts s = Some s' →
  ∃ hist', fed n g l s' (hist ++ hist') ∧ ∀ a s0, (a, s0) ∈ hist' → a ∈ acts.
Proof.
  intros Hf Hacts. revert s hist Hf. induction Hacts as [|a acts Ha _ IH]; intros s hist Hf.
  { intros [= <-]. exists []. rewrite app_nil_r. split; [done|]. by intros a s0 ?%elem_of_nil. }
  cbn [exec]. case_decide as Hen; [|done]. destruct (run a s) as [[s1 []]|] eqn:Hrun; [|done].
  assert (exec true [a] s = Some s1) as Hone by (cbn [exec]; by rewrite decide_True, Hrun by done).
  intros He. destruct (IH s1 (hist ++ [(a, s)]) (fed_relayer n g l s hist a s1 Hf Ha Hone) He) as (hist' & Hf' & Hin).
  exists ((a, s) :: hist'). rewrite <-app_assoc in Hf'. split; [done|].
  intros a' s0 [[= -> ->]|?]%elem_of_cons; [by left|right; by eapply Hin].
Qed.

Lemma sends_listens {A} (g : Feeder (St := St) A) n l l' a :
  a ∈ sends n g l l' → ∃ b, a = Listen n (bi_Height b) (bi_Messages b).
Proof. intros (b & -> & _)%list_elem_of_fmap. by exists b. Qed.

Lemma net_fed w0 w i : net_run w0 w →
  ∃ hist, fed (nid i) (f i) (n_sides w i) (n_relayer w) hist ∧
    ∀ a s0, (a, s0) ∈ hist → (a, s0) ∈ n_hist w ∨ ∃ n h l, a = Listen n h l.
Proof.
  intros [Hi Hr]. revert Hr. apply (rtc_ind_r (λ w, ∃ hist, fed (nid i) (f i) (n_sides w i) (n_relayer w) hist ∧
    ∀ a s0, (a, s0) ∈ hist → (a, s0) ∈ n_hist w ∨ ∃ n h l, a = Listen n h l)).
  { exists []. split; [|by intros a s0 ?%elem_of_nil]. constructor; apply Hi. }
  clear w. intros w w' _ Hs (hist & Hf & Hh).
  destruct Hs as [j sides s' Hst Hsame Hex|a s' Hsp Hex|j k p src r out nodes _ _ _ _ _|k p dst src c calls res prov s' a _ _ Hex
    |k p dst src res s' a _ _ _ Hex]; cbn [n_sides n_relayer n_hist].
  - destruct (decide (j = i)) as [->|Hne].
    { exists hist. split; [|done]. by eapply fed_listener. }
    rewrite (Hsame i) by done. eapply fed_exec in Hex as (hist' & Hf' & Hin); [|exact Hf|].
    + eexists. split; [exact Hf'|]. intros a s0 [?|Ha]%elem_of_app; [by apply Hh|]. right.
      apply Hin, sends_listens in Ha as [b ->]. by eexists _, _, _.
    + apply Forall_forall. intros a (b & ->)%sends_listens. cbn. apply bool_decide_eq_false.
      by intros ?%(inj nid).
  - exists (hist ++ [(a, n_relayer w)]). split; [|set_solver].
    constructor; [done| |done]. by destruct a.
  - by exists hist.
  - exists (hist ++ [(a, n_relayer w)]). split; [|set_solver]. by constructor.
  - exists (hist ++ [(a, n_relayer w)]). split; [|set_solver]. by constructor.
Qed.
(** * Where messages come from *)

(** The messages an operator or the finality check hands to the relayer. *)
Definition given (a : action) (m : MessageOf Z) : Prop :=
  match a with
  | RelayMessages _ l => m ∈ l
  | RelayRow _ r => rm_Message r = m
  | Finality prov _ => ∃ n k l, GenerateMessages (prov n) k = Ok l ∧ m ∈ l
  | _ => False
  end.

(** A listener of the network sent it; it was given; or it was in the message
    store when the relayer started. *)
Inductive origin (w0 w : Net) (m : MessageOf Z) : Prop :=
| from_listener i b : b ∈ feeds (f i) (n_sides w i) → m ∈ bi_Messages b → origin w0 w m
| from_action a s0 : (a, s0) ∈ n_hist w → given a m → origin w0 w m
| from_store k v (r : RouteMessageOf Z) :
    contents (rl_db (n_relayer w0)) !! k = Some v → HasPrefix k (GetKey [prefixMessageStore; ""]) = true →
    Unmarshal v = Ok r → rm_Message r = m → origin w0 w m.

Lemma net_step_feeds w w' i b : net_step w w' → b ∈ feeds (f i) (n_sides w i) → b ∈ feeds (f i) (n_sides w' i).
Proof.
  intros [j sides s' Hst Hsame _| | | |]; cbn [n_sides]; try done.
  destruct (decide (j = i)) as [->|Hne]; [|by rewrite (Hsame i)].
  destruct (steps_grow (f i) _ _ _ Hst) as [new ->]. set_solver.
Qed.

Lemma net_step_hist w w' x : net_step w w' → x ∈ n_hist w → x ∈ n_hist w'.
Proof. intros [] ?; cbn [n_hist]; set_solver. Qed.

Lemma origin_mono w0 w w' m : net_step w w' → origin w0 w m → origin w0 w' m.
Proof.
  intros Hs [i b Hb Hm|a s0 Ha Hg|k v r ? ? ? ?]; [|eapply from_action; [by eapply net_step_hist|done]|by eapply from_store].
  eapply from_listener; [by eapply net_step_feeds|done].
Qed.

Lemma authentic_mono (P Q : MessageOf Z → Prop) s : (∀ m, P m → Q m) → authentic P s → authentic Q s.
Proof.
  intros HPQ [Hh Hq Ht Hdb]. split; [|by eauto|done|]; [intros p r [? ?]%Hh; auto|].
  eapply rows_ok_mono; [|exact Hdb]. intros m. apply HPQ.
Qed.

(** * What is reported was executed *)

(** A success reported for a message: the chain it names has executed one with
    its row. *)
Definition sound_call (w : Net) (c : CallbackCall) : Prop :=
  tr_Code (cb_response c) = Success →
  ∃ j m, m_Dst m = nid j ∧ executed (d j) (n_nodes w j) m ∧ row_of (cb_key c) = wire_row m.

Record net_ok (w0 w : Net) : Prop := {
  no_authentic : authentic (origin w0 w) (n_relayer w);
  no_routing p out c : n_routing w !! p = Some out → c ∈ out.1 → sound_call w c;
  no_reported prov src dst key response err s0 :
    (TaskCallback prov src dst key response err, s0) ∈ n_hist w → sound_call w (mkCallbackCall key response err);
  no_executed j m : executed (d j) (n_nodes w j) m →
    executed (d j) (n_nodes w0 j) m ∨ (origin w0 w m ∧ m_Dst m = nid j) }.

Lemma net_ok_initial w0 : net_initial w0 → net_ok w0 w0.
Proof.
  intros Hi. split.
  - apply initial_authentic; [apply Hi|]. apply rows_ok_opened; [apply Hi..|]. intros k v r ? ? ?. by eapply from_store.
  - intros p out c. by rewrite (ni_routing _ Hi), lookup_empty.
  - intros prov src dst key response err s0. rewrite (ni_hist _ Hi). by intros ?%elem_of_nil.
  - auto.
Qed.

(** The relayer's state changes, and the histories of the chains' nodes stay. *)
Lemma net_ok_relayer w0 w w' acts :
  net_ok w0 w → net_step w w' → exec true acts (n_relayer w) = Some (n_relayer w') →
  Forall (brings (origin w0 w')) acts → n_nodes w' = n_nodes w →
  (∀ p out c, n_routing w' !! p = Some out → c ∈ out.1 →
     ∃ out', n_routing w !! p = Some out' ∧ c ∈ out'.1) →
  (∀ a s0, (a, s0) ∈ n_hist w' → (a, s0) ∈ n_hist w ∨
     match a with
     | TaskCallback _ _ _ key response err => sound_call w (mkCallbackCall key response err)
     | _ => True
     end) →
  net_ok w0 w'.
Proof.
  intros [Ha Hr Hh He] Hs Hex Hb Hn Hrt Hhist. unfold sound_call in *. split; rewrite ?Hn.
  - eapply exec_authentic; [exact Hb| |exact Hex]. eapply authentic_mono; [|exact Ha]. intros m. by apply origin_mono.
  - intros p out c Hp Hc. unfold sound_call. rewrite Hn. destruct (Hrt p out c Hp Hc) as (out' & ? & ?). by eapply Hr.
  - intros prov src dst key response err s0 Hin. unfold sound_call. rewrite Hn. destruct (Hhist _ _ Hin) as [?|?]; [by eapply Hh|done].
  - intros j m Hm. destruct (He j m Hm) as [?|[? ?]]; [by left|right]. split; [by eapply origin_mono|done].
Qed.

Lemma net_ok_step w0 w w' : net_ok w0 w → net_step w w' → net_ok w0 w'.
Proof.
  intros Hok Hs. pose proof Hs as Hs'.
  destruct Hs as [j sides s' Hst Hsame Hex|a s' Hsp Hex|j k p src r out nodes Htk Hp Hr Hro Hsame
    |k p dst src c calls res prov s' a Htk Hp Hex|k p dst src res s' a Htk Hp Hres Hex].
  - eapply net_ok_relayer; [done..| |done|cbn; eauto|cbn; auto]. apply Forall_forall.
    intros a (b & -> & Hb)%list_elem_of_fmap. cbn. intros m Hm. eapply (from_listener _ _ _ j b); [|done].
    cbn. eapply elem_of_submseteq; [exact Hb|]. apply sublist_submseteq, sublist_drop.
  - eapply (net_ok_relayer _ _ _ [a]); [done..| |done|cbn; eauto|].
    + apply Forall_singleton. assert (∀ m, given a m → origin w0 (mkNet (n_sides w) s' (n_nodes w) (n_routing w)
        (n_hist w ++ [(a, n_relayer w)])) m) as Hg.
      { intros m Hm. eapply (from_action _ _ _ a (n_relayer w)); [|done]. cbn [n_hist]. set_solver. }
      destruct a; try done; cbn; intros; apply Hg; cbn; eauto.
    + cbn. intros b s0 [?|[= -> ->]%list_elem_of_singleton]%elem_of_app; [by left|right]. by destruct a.
  - destruct Hok as [Ha Hrt Hh He].
    assert (∀ i m, executed (d i) (n_nodes w i) m → executed (d i) (nodes i) m) as Hstays.
    { intros i m. destruct (decide (j = i)) as [->|]; [by eapply routes_stays|by rewrite Hsame]. }
    assert (∀ c, sound_call w c → sound_call (mkNet (n_sides w) (n_relayer w) nodes (<[p := out]> (n_routing w)) (n_hist w)) c) as Hsound.
    { intros c Hc Hsu. destruct (Hc Hsu) as (i & m & ? & ? & ?). exists i, m. split_and!; [done|by apply Hstays|done]. }
    assert (m_Dst (rm_Message r) = nid j) as Hdst.
    { destruct (au_task _ _ Ha (mkTask p (nid j) src true)) as (r' & Hr' & Hd); [by eapply list_elem_of_lookup_2|].
      cbn in Hr', Hd. rewrite Hr in Hr'. by injection Hr' as <-. }
    split.
    + eapply authentic_mono; [|exact Ha]. intros m. by apply origin_mono.
    + cbn. intros q out' c [[<- <-]|[_ Hq]]%lookup_insert_Some Hc; [|by eapply Hsound, Hrt].
      intros Hsu. exists j, (message_wire (rm_Message r)). cbn [n_nodes]. split_and!; [done|by eapply routes_success|].
      pose proof (routes_keys _ _ _ _ _ Hro) as Hk. rewrite Forall_forall in Hk. by rewrite (Hk c Hc).
    + intros prov src' dst key response err s0 Hin. by eapply Hsound, Hh.
    + cbn [n_nodes]. intros i m. destruct (decide (j = i)) as [->|].
      * intros [Hm| ->]%(routes_only _ _ _ _ _ _ Hro); [destruct (He i m Hm) as [?|[? ?]]; [by left|right]|right].
        -- split; [by eapply origin_mono|done].
        -- split; [|done]. eapply origin_mono; [done|]. by eapply au_heap.
      * rewrite Hsame by done. intros Hm. destruct (He i m Hm) as [?|[? ?]]; [by left|right].
        split; [by eapply origin_mono|done].
  - eapply (net_ok_relayer _ _ _ [a]); [done..|by apply Forall_singleton|done| |]; cbn.
    + intros q out c' [[<- <-]|[_ Hq]]%lookup_insert_Some Hc; [|by eauto]. exists (c :: calls, res). split; [done|by right].
    + intros b s0 [?|[= -> ->]%list_elem_of_singleton]%elem_of_app; [by left|right]. cbn.
      assert (sound_call w c) as Hc by (eapply (no_routing _ _ Hok); [done|by left]). by destruct c.
  - eapply (net_ok_relayer _ _ _ [a]); [done..|by apply Forall_singleton|done| |]; cbn.
    + intros q out c [_ Hq]%lookup_delete_Some Hc. eauto.
    + intros b s0 [?|[= -> ->]%list_elem_of_singleton]%elem_of_app; [by left|by right].
Qed.

Lemma net_run_ok w0 w : net_run w0 w → net_ok w0 w.
Proof.
  intros [Hi Hr]. revert Hr. apply (rtc_ind_r (net_ok w0)); [by apply net_ok_initial|].
  intros w1 w2 _ Hs Hok. by eapply net_ok_step.
Qed.

(** * From end to end *)

(** What becomes of a message that was sent: its row waits in the message
    store; or the chain that it names has executed it, or one with its row; or
    something other than a reported success released it. *)
Definition accounted (w : Net) (m : MessageOf Z) : Prop :=
  is_Some (contents (rl_db (n_relayer w)) !! wire_row m) ∨
  (∃ j m', m_Dst m' = nid j ∧ executed (d j) (n_nodes w j) m' ∧ wire_row m' = wire_row m) ∨
  (∃ a s0, (a, s0) ∈ n_hist w ∧ spontaneous a = true ∧ releases a s0 (wire_row m)).

Lemma net_accounted w0 w i c b m :
  net_run w0 w → rl_chains (n_relayer w) !! nid i = Some c → listenerChan c = [] →
  b ∈ feeds (f i) (n_sides w i) → m ∈ bi_Messages b → accounted w m.
Proof.
  intros Hrun Hc Hempty Hb Hm. destruct (net_fed w0 w i Hrun) as (hist & Hf & Hh).
  destruct (fed_secured (nid i) (f i) _ _ _ c b m Hf Hc Hempty Hb Hm) as [?|(a & s0 & Hin & Hrel)]; [by left|right].
  destruct (Hh a s0 Hin) as [Hin'|(n & h & l & ->)]; [|done].
  destruct (spontaneous a) eqn:Hsp; [right; by eexists _, _|left]. destruct a; try done.
  destruct Hrel as [Hsu Hrow]. pose proof (no_reported _ _ (net_run_ok w0 w Hrun) _ _ _ _ _ _ _ Hin') as Hs.
  destruct (Hs Hsu) as (j & m' & ? & ? & Heq). exists j, m'. split_and!; [done..|]. by rewrite <-Heq.
Qed.
End Network.
