(* ===== verification/Marks.v ===== *)
(** A message is marked as being routed exactly while a goroutine routes it.

    [marked] says that no message in a cache carries the mark without a
    goroutine, and that the rows of the message store carry no mark.  Every
    action of the relayer keeps it but one: a goroutine whose [Route] returned
    no error ends and leaves the mark, so its message must have left the caches
    by then ([marked_returns]). *)
From stdpp Require Import gmap strings list relations.
From Stdlib Require Import ZArith Lia.
From S2P Require Import Prelude GoStd Types Store Provider Relay RelaySystem RelayCorrect RelayFrame Provenance Custody Feed Network.
Import BlockStore MessageStore FinalityStore.
Open Scope Z_scope.

Section Marks.
Context {St : Type} `{StoreSpec St} `{CodecSpec Z}.
Context `{CodecSpec (RouteMessageOf Z)} `{CodecSpec (TransactionObjectOf Z)}.
Abbreviation Rly := (proc (Relayer St)).
Implicit Types (s : Relayer St) (prov : string → ChainProvider) (X : option positive).

(** * The invariant *)

(** The rows of the message store carry no mark, and never did. *)
Definition rows_idle : St → Prop := rows_ok (λ m, rm_Processing m = false).

(** The keys of some messages, messages that have left the caches, and some
    that have a goroutine. *)
Context (K : gmap positive MessageKey) (E T : gset positive).

(** [X] is a message that may carry the mark without a goroutine. *)
Record marked X s : Prop := mkMarked {
  mk_inv : Inv False s;
  mk_mark n k p r : X ≠ Some p → cached s n k p → rl_heap s !! p = Some r → rm_Processing r = true →
    p ∈ tk_msg <$> rl_tasks s;
  mk_rows : rows_idle (rl_db s);
  mk_keys p k : K !! p = Some k → ∃ r, rl_heap s !! p = Some r ∧ rm_key r = k;
  mk_gone p : p ∈ E → (p < rl_next s)%positive ∧ ∀ n k, ¬ cached s n k p;
  mk_routed p : p ∈ T → p ∈ tk_msg <$> rl_tasks s }.

Lemma marked_shrink X s s' :
  marked X s → Inv False s' → rl_heap s' = rl_heap s → (rl_next s ≤ rl_next s')%positive → rl_tasks s' = rl_tasks s →
  (∀ n k p, cached s' n k p → cached s n k p) → rows_idle (rl_db s') → marked X s'.
Proof.
  intros [HI Hm Hr Hk Hg HT] HI' Hh Hn Ht Hc Hr'. split; [done| |done|by rewrite Hh| |by rewrite Ht].
  - intros n k p r HX ?%Hc. rewrite Hh, Ht. by eapply Hm.
  - intros p Hp. destruct (Hg p Hp) as [? Hno]. split; [lia|]. intros n k ?%Hc. by eapply Hno.
Qed.

Lemma marked_weaken X s : marked None s → marked X s.
Proof. intros [HI Hm Hr Hk Hg HT]. split; [done| |done..]. intros n k p r _. by apply Hm. Qed.

Lemma marked_left p s : marked (Some p) s → (∀ n k, ¬ cached s n k p) → marked None s.
Proof.
  intros [HI Hm Hr Hk Hg HT] Hno. split; [done| |done..]. intros n k q r _ Hc. apply (Hm n k q r); [|done].
  intros [= ->]. by eapply Hno.
Qed.

(** * Elementary steps *)

Lemma marked_chain X nid f : (∀ c, MessageCache (f c) ⊆ MessageCache c) → keeps (marked X) (on_chain nid f).
Proof.
  intros Hf s Hs. pose proof (keeps_on_chain False nid f Hf s (mk_inv _ _ Hs)) as HI.
  unfold wpx, on_chain, modify in *. eapply marked_shrink; [done|exact HI|done|done|done| |apply Hs].
  intros n k p. unfold cached. rewrite chain_cache_alter. case_decide; [|done]. subst. unfold chain_cache.
  destruct (rl_chains s !! n) as [c|]; [|done]. cbn. intros Hk. eapply lookup_weaken; [done|apply Hf].
Qed.

Lemma marked_db X (f : St → St * error) :
  (∀ db, rows_idle db → rows_idle (f db).1) → keeps (marked X) (with_db f).
Proof.
  intros Hf s Hs. assert (Inv False (mkRelayer (f (rl_db s)).1 (rl_chains s) (rl_heap s) (rl_next s) (rl_tasks s))) as HI.
  { eapply Inv_shrink; [apply Hs|done..|by intros []]. }
  unfold wpx, with_db. specialize (Hf (rl_db s) (mk_rows _ _ Hs)). destruct (f (rl_db s)) as [db e].
  by eapply marked_shrink.
Qed.

Lemma marked_delete X k : keeps (marked X) (with_db (λ db, DeleteByKey db k)).
Proof. apply marked_db. intros db. apply rows_ok_delete. Qed.

Lemma marked_StoreTxObject X t : keeps (marked X) (with_db (λ db, StoreTxObject prefixFinalityStore db (Some t))).
Proof.
  destruct (marshal_total (tx_wire t)) as [v Hv]. cbn [StoreTxObject]. rewrite Hv. apply marked_db. intros db.
  by apply rows_ok_set_other.
Qed.
Lemma marked_StoreBlock X h nid : keeps (marked X) (with_db (λ db, StoreBlock prefixBlockStore db h nid)).
Proof.
  destruct (marshal_total h) as [v Hv]. unfold StoreBlock. rewrite Hv. apply marked_db. intros db.
  by apply rows_ok_set_other.
Qed.

Lemma marked_StoreMessage X (r : Types.RouteMessage) :
  rm_Processing r = false → keeps (marked X) (with_db (λ db, StoreMessage prefixMessageStore db (Some r))).
Proof. intros HP. apply marked_db. intros db. by apply rows_ok_StoreMessage. Qed.

Lemma marked_new_addr X : keeps (marked X) new_addr.
Proof.
  intros s Hs. pose proof (keeps_new_addr False s (mk_inv _ _ Hs)) as HI. unfold wpx in *; cbn in *.
  eapply marked_shrink; [done..| |done|done|apply Hs]. cbn. lia.
Qed.
Lemma marked_log_sn X sn : keeps (marked X) (log_sn sn).
Proof. destruct sn; [apply keeps_ret|apply keeps_panic]. Qed.
Lemma marked_load X p : keeps (marked X) (load p).
Proof. intros s Hs. unfold wpx, load. by destruct (rl_heap s !! p). Qed.

(** A step with one outcome. *)
Lemma wp_ends {A} (m : Rly A) (Q : Relayer St → Prop) s s' : wp m (λ _ s0, s0 = s') s → wlp m (λ _, Q) s → Q s'.
Proof. unfold wpx. destruct (m s) as [[s0 a]|]; [by intros ->|done]. Qed.
Lemma routed_state p f r (Q : Relayer St → Prop) s :
  rl_heap s !! p = Some r → wlp (on_route p f) (λ _, Q) s → Q (with_route p (f r) s).
Proof. intros Hr. apply wp_ends. by apply (wpx_on_route _ _ _ r). Qed.

(** A new message in a cache. *)
Lemma marked_add {A} X nid r (f : positive → Rly A) :
  rm_Processing r = false → (∀ p, keeps (marked X) (f p)) →
  keeps (marked X) (p ← new_route r; _ ← cache_Add nid p; f p).
Proof.
  intros Hp Hf s Hs. assert (False → 0 ≤ rm_Retry r < StaleMarkCount) as Hr by done.
  pose proof (keeps_add_cached False nid r Hr s (mk_inv _ _ Hs)) as HI. destruct Hs as [HI0 Hm Hrow Hk Hg HT].
  apply wpx_bind, wpx_new_route, wpx_bind. eapply wpx_cache_Add; [apply lookup_insert_eq|]. apply Hf.
  set (s' := mkRelayer _ _ _ _ _).
  assert (Inv False s') as HI'.
  { revert HI. apply wp_ends, wpx_bind, wpx_new_route. eapply wpx_cache_Add; [apply lookup_insert_eq|done]. }
  assert (∀ n k q, cached s' n k q → q = rl_next s ∨ cached s n k q) as Hc.
  { intros n k q. unfold cached, s'. rewrite chain_cache_alter. case_decide; [|by right]. subst n. unfold chain_cache.
    cbn [rl_chains]. destruct (rl_chains s !! nid) as [c|]; cbn; [|done]. intros [[_ <-]|[_ ?]]%lookup_insert_Some; [by left|by right]. }
  split; cbn; [done| |done| | |done].
  - intros n k q r' HX [->|Hc']%Hc.
    + rewrite lookup_insert_eq. intros [= <-]. by rewrite Hp.
    + destruct (inv_cached _ _ HI0 _ _ _ Hc') as (r0 & Hr0 & _). pose proof (inv_next _ _ HI0 _ _ Hr0).
      rewrite lookup_insert_ne by lia. by eapply Hm.
  - intros q k (r0 & Hr0 & ?)%Hk. exists r0. pose proof (inv_next _ _ HI0 _ _ Hr0). by rewrite lookup_insert_ne by lia.
  - intros q [Hlt Hno]%Hg. split; [lia|]. intros n k [->|?]%Hc; [lia|by eapply Hno].
Qed.

Lemma marked_add_cached X nid r :
  rm_Processing r = false → keeps (marked X) (p ← new_route r; cache_Add nid p).
Proof.
  intros Hp s Hs. assert (keeps (marked X) (p ← new_route r; _ ← cache_Add nid p; mret tt)) as Hk
    by (apply marked_add; [done|intros; apply keeps_ret]).
  specialize (Hk s Hs). unfold wpx, mbind, proc_bind in *.
  destruct (new_route r s) as [[s' p]|]; [|done]. by destruct (cache_Add nid p s') as [[? []]|].
Qed.

(** A message that is changed but for its key. *)
Lemma marked_route X Y p r' s r :
  marked X s → Inv False (with_route p r' s) → rl_heap s !! p = Some r → rm_key r' = rm_key r →
  (∀ q, q ≠ p → X = Some q → Y = Some q) →
  (Y ≠ Some p → rm_Processing r' = true → p ∈ tk_msg <$> rl_tasks s) →
  marked Y (with_route p r' s).
Proof.
  intros [HI Hm Hr Hk Hg HT] HI' Hp Hkey HX HY. split; [done| |done| |done|done]; cbn.
  - intros n k q r0 Hq Hc. destruct (decide (p = q)) as [<-|Hne].
    + rewrite lookup_insert_eq. intros [= <-]. by apply HY.
    + rewrite lookup_insert_ne by done. apply (Hm n k q r0); [|done]. intros HXq. apply Hq. by apply HX.
  - intros q k (r0 & Hr0 & Hk0)%Hk. destruct (decide (p = q)) as [<-|Hne].
    + exists r'. rewrite lookup_insert_eq. split; [done|]. congruence.
    + exists r0. by rewrite lookup_insert_ne.
Qed.

(** Goroutines that end or are put in other places. *)
Lemma marked_tasks X Y l s :
  marked X s → Inv False (mkRelayer (rl_db s) (rl_chains s) (rl_heap s) (rl_next s) l) →
  (∀ n k p r, Y ≠ Some p → cached s n k p → rl_heap s !! p = Some r → rm_Processing r = true →
     X = Some p ∨ p ∈ tk_msg <$> rl_tasks s → p ∈ tk_msg <$> l) →
  (∀ p, p ∈ T → p ∈ tk_msg <$> rl_tasks s → p ∈ tk_msg <$> l) →
  marked Y (mkRelayer (rl_db s) (rl_chains s) (rl_heap s) (rl_next s) l).
Proof.
  intros [HI Hm Hr Hk Hg HT] HI' Hl HlT. split; [done| |done..|]; cbn; [|by auto]. intros n k p r HY Hc Hp Hpr. eapply Hl; [done..|].
  destruct (decide (X = Some p)); [by left|right]. by eapply Hm.
Qed.

#[local] Hint Resolve marked_new_addr marked_log_sn marked_load marked_delete marked_StoreTxObject marked_StoreBlock : keeps.
#[local] Hint Extern 1 (keeps _ (on_chain _ _)) => by apply marked_chain : keeps.

(** * Operations *)

Lemma marked_cache_Remove X nid key : keeps (marked X) (cache_Remove nid key).
Proof. apply marked_chain. intros c. cbn. apply delete_subseteq. Qed.
#[local] Hint Resolve marked_cache_Remove : keeps.

Lemma marked_ClearMessages_delete X keys : keeps (marked X) (ClearMessages_delete keys).
Proof.
  induction keys as [|k keys IH]; [apply keeps_ret|]. cbn. apply keeps_bind; [apply marked_delete|].
  intros [e|]; [apply keeps_ret|exact IH].
Qed.
#[local] Hint Resolve marked_ClearMessages_delete : keeps.

Lemma marked_ClearMessages X keys src : keeps (marked X) (_ ← ClearMessages keys src; mret tt).
Proof.
  apply keeps_bind; [|auto with keeps]. apply keeps_bind; [|auto with keeps].
  apply keeps_for_each. auto with keeps.
Qed.
#[local] Hint Resolve marked_ClearMessages : keeps.

(** The message at [p] leaves the caches. *)
Lemma cleared_left src p r s :
  marked (Some p) s → rl_heap s !! p = Some r → (∀ n k, cached s n k p → n = src) →
  wlp (_ ← ClearMessages [rm_key r] src; mret tt) (λ _, marked None) s.
Proof.
  intros Hs Hr Ho. unfold ClearMessages. apply wpx_bind, wpx_bind, wpx_bind.
  pose proof (marked_cache_Remove (Some p) src (rm_key r) s Hs) as Hk. unfold wpx, cache_Remove, on_chain, modify in Hk.
  apply wpx_modify, wpx_ret.
  pose proof (marked_left p _ Hk (cache_Remove_gone False src p r s (mk_inv _ _ Hs) Hr Ho)) as Hl.
  eapply wpx_mono; [by apply marked_ClearMessages_delete|]. by intros e s' Hs'.
Qed.

Lemma marked_mergeMessages X nid l : keeps (marked X) (mergeMessages nid l).
Proof.
  apply keeps_for_each. intros m _. unfold new_message. apply keeps_bind; [auto with keeps|]. intros m'.
  by apply marked_add_cached.
Qed.

Lemma marked_add_stored X nid m : rm_Processing m = false → keeps (marked X) (p ← new_stored m; cache_Add nid p).
Proof.
  intros Hp s Hs. unfold new_stored. apply wpx_bind, wpx_bind. eapply wpx_mono; [by apply marked_new_addr|].
  intros a s1 Hs1. by apply (marked_add_cached X nid (route_alloc a m)).
Qed.

Lemma marked_flushMessages X order : keeps (marked X) (flushMessages order).
Proof.
  apply keeps_for_each. intros nid _. apply keeps_bind_gets. intros s Hs.
  destruct (getActiveMessagesFromStore _ _ _) as [l| |] eqn:Hl; [|done..].
  apply keeps_for_each; [|done]. intros m Hm. apply marked_add_stored. by eapply (rows_ok_listed _ _ _ _ _ _ (mk_rows _ _ Hs)).
Qed.

Lemma marked_processBlockInfo X nid b : keeps (marked X) (processBlockInfo nid b).
Proof.
  apply keeps_bind; [auto with keeps|]. intros _. apply keeps_for_each. intros m _.
  apply marked_add; [done|]. intros p. apply keeps_bind; [by apply marked_StoreMessage|auto with keeps].
Qed.

Lemma marked_StartBlockProcessors X nid : keeps (marked X) (StartBlockProcessors_step nid).
Proof.
  apply keeps_bind; [apply keeps_gets|]. intros c. destruct (listenerChan <$> c) as [[|b l]|]; [auto with keeps| |auto with keeps].
  apply keeps_bind; [auto with keeps|]. intros _. apply marked_processBlockInfo.
Qed.

Lemma marked_callback X prov src dst key response err : keeps (marked X) (callback prov src dst key response err).
Proof.
  apply keeps_bind; [auto with keeps|]. intros [p|]; [|auto with keeps].
  apply keeps_bind; [auto with keeps|]. intros r. destruct (_ =? _); [|auto with keeps].
  apply keeps_bind; [auto with keeps|]. intros _. destruct (0 <? _); [|auto with keeps].
  apply keeps_bind; [auto with keeps|]. intros [e|]; auto with keeps.
Qed.

Lemma marked_CheckFinality X prov order : keeps (marked X) (CheckFinality prov order).
Proof.
  apply keeps_for_each. intros nid _. apply keeps_bind; [auto with keeps|].
  intros [c|]; [|auto with keeps]. cbn. case_match; [|auto with keeps].
  apply keeps_bind; [auto with keeps|]. intros [l|e|]; [|auto with keeps..].
  apply keeps_bind. { induction l as [|t l IH]; cbn [new_txs]; unfold new_tx in *; auto 10 with keeps. }
  intros l'. apply keeps_for_each. intros t _. unfold CheckFinality_tx.
  assert (∀ k, keeps (marked X) (with_db (λ db, DeleteTxObject prefixFinalityStore db k))) as Hdel
    by (intros k; apply marked_delete).
  destruct (_ =? 0); [apply keeps_ret|]. destruct (_ <? u64 _); [apply keeps_ret|].
  apply keeps_bind; [apply keeps_liftRes|]. intros [[r|]|e]; [|auto with keeps..].
  pose proof (marked_mergeMessages X). destruct (rc_Status r); auto 12 with keeps.
Qed.

Lemma marked_SaveChainsBlockHeight X prov order : keeps (marked X) (SaveChainsBlockHeight prov order).
Proof. apply keeps_for_each. intros nid _. unfold SaveBlockHeight. auto 12 with keeps. Qed.

Lemma marked_cleanExpiredMessages X now order : keeps (marked X) (cleanExpiredMessages now order).
Proof.
  apply keeps_for_each. intros nid _. apply keeps_bind; [auto with keeps|].
  intros [l|e|]; [|auto with keeps..]. apply keeps_for_each. intros m _. destruct (IsElasped _ _ _); auto with keeps.
Qed.

Lemma marked_listen X nid h msgs : keeps (marked X) (listen nid h msgs).
Proof.
  apply keeps_bind; [|intros l; by apply marked_chain].
  induction msgs as [|m msgs IH]; cbn [new_messages]; [apply keeps_ret|]. unfold new_message. auto 12 with keeps.
Qed.

(** ** Routing *)

Lemma marked_processMessage prov now src key : keeps (marked None) (processMessage prov now src key).
Proof.
  apply keeps_bind_gets. intros s Hs. destruct (chain_cache s src !! key) as [p|] eqn:Hc; [|done].
  apply wpx_bind, wlp_load. intros r Hr. apply wpx_bind, wpx_gets.
  destruct (FindChainRuntime _ _); [|by apply marked_ClearMessages|done].
  apply wpx_bind, shouldSendMessage_idle; [done|]. intros Hidle. cbn [negb].
  assert (routable False src p r s) as Hrt by (by eapply routable_cached; [apply Hs|..]).
  destruct (inv_cached _ _ (mk_inv _ _ Hs) _ _ _ Hc) as (r0 & Hr0 & <-). assert (r0 = r) as -> by congruence.
  apply wpx_bind, (wpx_on_route _ _ _ r); [done|].
  pose proof (routed_state p ToggleProcessing r _ s Hr (routable_toggle False src p r s Hrt)) as Hrt1.
  set (r1 := ToggleProcessing r) in *. set (s1 := with_route p r1 s) in *.
  assert (rl_heap s1 !! p = Some r1) as Hr1 by apply lookup_insert_eq.
  assert (marked (Some p) s1) as Hs1.
  { eapply marked_route; [exact Hs|apply Hrt1|done..]. }
  apply wpx_bind, wpx_liftRes; [done| |].
  - intros [|] _.
    + apply wpx_bind. destruct (m_Sn _); [|done]. apply wpx_ret.
      apply (cleared_left src p r1); [done..|]. apply Hrt1.
    + pose proof (keeps_spawn False (m_Dst (rm_Message r)) src p r1 s1 Hrt1 (f_equal negb Hidle)) as HI2.
      apply wpx_modify. unfold wpx, spawn, modify in HI2. eapply marked_tasks; [exact Hs1|exact HI2| |].
      * intros n k q r2 _ Hc2 Hq2 Hp2 [[= ->]|Hin]; rewrite fmap_app; apply elem_of_app; [right; by left|by left].
      * intros q _ Hin. rewrite fmap_app. apply elem_of_app. by left.
  - intros e _. apply wpx_bind. destruct (m_Sn _); [|done]. apply wpx_ret.
    apply (wpx_on_route _ _ _ r1); [done|].
    pose proof (routed_state p ToggleProcessing r1 _ s1 Hr1 (routable_toggle False src p r1 s1 Hrt1)) as Hrt2.
    eapply marked_route; [exact Hs1|apply Hrt2|done|done| |].
    + by intros q Hq [= ->].
    + cbn. by rewrite Hidle.
Qed.

Lemma marked_task_start now i : keeps (marked None) (task_start now i).
Proof.
  intros s Hs. pose proof (keeps_task_start False now i s (mk_inv _ _ Hs)) as HI. revert HI. unfold task_start.
  intros HI. apply wpx_bind, wpx_gets. 
  destruct (rl_tasks s !! i) as [[p dst src []]|] eqn:Hi; [done| |done].
  assert (mkTask p dst src false ∈ rl_tasks s) as Hin by by eapply list_elem_of_lookup_2.
  destruct (inv_task _ _ (mk_inv _ _ Hs) _ Hin) as (r & Hr & Hp & Ho). cbn in Hr.
  apply wpx_bind, wpx_modify. set (l := <[i := _]> (rl_tasks s)). set (s1 := mkRelayer _ _ _ _ l).
  assert (tk_msg <$> l = tk_msg <$> rl_tasks s) as Hl by by apply fmap_insert_task.
  assert (marked None s1) as Hs1.
  { eapply marked_tasks; [exact Hs| | |].
    - apply Inv_tasks; [apply Hs|rewrite Hl; by eapply inv_nodup, Hs|].
      intros t [->|?]%elem_of_insert_task; [by eexists|by eauto|done].
    - rewrite Hl. by intros n k q r' _ _ _ _ [|].
    - by rewrite Hl. }
  apply (wpx_on_route _ _ _ r); [done|]. eapply marked_route; [exact Hs1| |done|done|done|].
  - revert HI. apply wp_ends, wpx_bind, wpx_gets. rewrite Hi. apply wpx_bind, wpx_modify.
    by apply (wpx_on_route _ _ _ r).
  - intros _ _. cbn [rl_tasks s1]. rewrite Hl. by apply (list_elem_of_fmap_2 tk_msg _ (mkTask p dst src false)).
Qed.

(** [Route] returned an error. *)
Lemma marked_HandleMessageFailed p dst src r s :
  marked (Some p) s → rl_heap s !! p = Some r → rm_Processing r = true → p ∉ tk_msg <$> rl_tasks s →
  wlp (HandleMessageFailed (St := St) p dst src) (λ _, marked None) s.
Proof.
  intros Hs Hr Hp Hf. set (r' := ToggleProcessing r). assert (rm_Processing r' = false) as Hp' by (cbn; by rewrite Hp).
  apply wpx_bind, (wpx_on_route _ _ _ r); [done|]. set (s1 := with_route _ _ _).
  assert (marked None s1) as Hs1.
  { eapply marked_route; [exact Hs| |done|done| |].
    - apply (routed_state p ToggleProcessing r (Inv False)); [done|]. apply wpx_modify.
      eapply Inv_on_route; [apply Hs|done..].
    - by intros q Hq [= ->].
    - cbn. by rewrite Hp. }
  apply wpx_bind, (wpx_load _ _ r'); [apply lookup_insert_eq|]. destruct (_ <=? _); [|done].
  apply wpx_bind. eapply wpx_mono; [by apply marked_StoreMessage|]. intros [e|] s2 Hs2; [done|].
  apply wpx_bind. eapply wpx_mono; [by apply marked_cache_Remove|]. intros [] s3 Hs3. by apply marked_log_sn.
Qed.

(** A goroutine whose [Route] returned no error leaves the mark: nothing is
    wrong when its message has left the caches. *)
Definition may_return i (err : error) s : Prop :=
  ∀ p dst src, rl_tasks s !! i = Some (mkTask p dst src true) → p ∉ T ∧ (err = None → ∀ n k, ¬ cached s n k p).

Lemma marked_task_return i err s :
  marked None s → may_return i err s → wlp (task_return i err) (λ _, marked None) s.
Proof.
  intros Hs Hret. pose proof (keeps_task_return False i None s (mk_inv _ _ Hs)) as HI.
  apply wpx_bind, wpx_gets. destruct (rl_tasks s !! i) as [[p dst src []]|] eqn:Hi; [|done|done].
  assert (mkTask p dst src true ∈ rl_tasks s) as Hin by by eapply list_elem_of_lookup_2.
  destruct (inv_task _ _ (mk_inv _ _ Hs) _ Hin) as (r & Hr & Hp & Ho). cbn in Hr, Ho.
  destruct (Hret p dst src Hi) as [HpT Hleft]. apply wpx_bind, wpx_modify. set (s1 := mkRelayer _ _ _ _ _).
  assert (rl_tasks s ≡ₚ mkTask p dst src true :: delete i (rl_tasks s)) as Hperm by by apply delete_Permutation.
  assert (marked (Some p) s1) as Hs1.
  { eapply marked_tasks; [exact Hs| | |].
    - revert HI. apply wp_ends, wpx_bind, wpx_gets. rewrite Hi. by apply wpx_bind, wpx_modify, wpx_ret.
    - intros n k q r' Hq _ _ _ [?|Hin']; [done|]. rewrite Hperm in Hin'. cbn in Hin'.
      by apply elem_of_cons in Hin' as [->|?].
    - intros q HqT Hin'. rewrite Hperm in Hin'. cbn in Hin'. by apply elem_of_cons in Hin' as [->|?]. }
  destruct err as [e|].
  - eapply marked_HandleMessageFailed; [exact Hs1|done..|]. pose proof (inv_nodup _ _ (mk_inv _ _ Hs)) as Hnd.
    rewrite Hperm in Hnd. by apply NoDup_cons in Hnd as [? _].
  - apply marked_left with p; [done|]. by apply Hleft.
Qed.

(** * Every action *)

(** A row that an operator has put back is one of the message store. *)
Definition from_store (a : action) s : Prop :=
  match a with
  | RelayRow _ m => ∃ k v, contents (rl_db s) !! k = Some v ∧ HasPrefix k (GetKey [prefixMessageStore; ""]) = true ∧
      Unmarshal v = Ok m
  | _ => True
  end.
Definition returns_well (a : action) s : Prop :=
  match a with TaskReturn i err => may_return i err s | _ => True end.

Lemma marked_action a s :
  from_store a s → returns_well a s → marked None s → wlp (run a) (λ _, marked None) s.
Proof.
  intros Ha Hb Hs. destruct a; cbn [run from_store returns_well] in *.
  - by apply marked_listen.
  - by apply marked_StartBlockProcessors.
  - by apply marked_flushMessages.
  - destruct t; cbn [StartRouter_step].
    + by apply marked_flushMessages.
    + apply keeps_for_each; [|done]. intros [src ks] _. apply keeps_for_each. intros k _. apply marked_processMessage.
    + by apply marked_SaveChainsBlockHeight.
    + by apply marked_cleanExpiredMessages.
    + done.
  - by apply marked_CheckFinality.
  - by apply marked_task_start.
  - by apply marked_callback.
  - by apply marked_task_return.
  - assert (keeps (marked None) (run Prune)) as Hk; [|by apply Hk]. apply keeps_bind; [|auto with keeps].
    apply marked_db. intros db. apply rows_ok_clear.
  - assert (keeps (marked None) (run (RemoveRow key))) as Hk; [|by apply Hk].
    apply keeps_bind; [apply marked_delete|auto with keeps].
  - by apply marked_mergeMessages.
  - destruct Ha as (k & v & Hk & Hp & Hu). apply marked_add_stored; [|done]. by eapply (rows_ok_row _ _ _ _ _ (mk_rows _ _ Hs)).
Qed.
End Marks.

(** A success that is reported takes the message from the caches. *)
Section Gone.
Context {St : Type} `{StoreSpec St} `{CodecSpec Z}.
Context `{CodecSpec (RouteMessageOf Z)} `{CodecSpec (TransactionObjectOf Z)}.
Implicit Types (s : Relayer St) (prov : string → ChainProvider).

Lemma marked_more K E T K' E' T' X s :
  marked K E T X s → (∀ p k, K' !! p = Some k → K !! p = Some k ∨ ∃ r, rl_heap s !! p = Some r ∧ rm_key r = k) →
  (∀ p, p ∈ E' → p ∈ E ∨ ((p < rl_next s)%positive ∧ ∀ n k, ¬ cached s n k p)) →
  (∀ p, p ∈ T' → p ∈ T ∨ p ∈ tk_msg <$> rl_tasks s) → marked K' E' T' X s.
Proof.
  intros [HI Hm Hr Hk Hg HT] HK HE HT'. split; [done..| | |by intros p [?%HT|?]%HT'].
  - intros p k [?|?]%HK; [by apply Hk|done].
  - intros p [?|?]%HE; [by apply Hg|done].
Qed.

Lemma StoreTxObject_ok db (t : TransactionObjectOf BigInt) :
  healthy db → (StoreTxObject prefixFinalityStore db (Some t)).2 = None.
Proof.
  intros Hh. destruct (marshal_total (tx_wire t)) as [v Hv]. cbn [StoreTxObject]. rewrite Hv.
  match goal with |- context [SetByKey db ?k v] => by destruct (set_spec db k v Hh) as (db' & -> & _) end.
Qed.

Definition uncached p s : Prop := ∀ n k, ¬ cached s n k p.

Lemma uncached_ClearMessages src p r s :
  Inv False s → rl_heap s !! p = Some r → (∀ n k, cached s n k p → n = src) →
  wlp (_ ← ClearMessages [rm_key r] src; mret tt) (λ _, uncached p) s.
Proof.
  intros HI Hr Ho. unfold ClearMessages. apply wpx_bind, wpx_bind, wpx_bind, wpx_modify, wpx_ret.
  pose proof (cache_Remove_gone False src p r s HI Hr Ho) as Hno.
  assert (keeps (uncached p) (ClearMessages_delete [rm_key r])) as Hk.
  { cbn. apply keeps_bind; [|intros [e|]; apply keeps_ret].
    intros s0 Hs0. unfold wpx, with_db. by destruct (DeleteMessage _ _ _). }
  eapply wpx_mono; [by apply Hk|]. by intros e s' Hs'.
Qed.

Lemma uncached_callback K E T prov src dst response err p r s :
  marked K E T None s → rl_heap s !! p = Some r → (∀ n k, cached s n k p → n = src) →
  tr_Code response = Success → wlp (callback prov src dst (rm_key r) response err) (λ _, uncached p) s.
Proof.
  intros Hs Hr Ho Hcode. pose proof (mk_inv _ _ _ _ _ Hs) as HI. apply wpx_bind, wpx_gets. unfold MessageCache_Get.
  destruct (chain_cache s src !! rm_key r) as [q|] eqn:Hq.
  - apply wpx_bind, wlp_load. intros r0 _. destruct (Z.eqb_spec (tr_Code response) Success) as [_|?]; [|done].
    apply wpx_bind. destruct (k_Sn _); [|done]. apply wpx_ret.
    destruct (0 <? _); [|by apply uncached_ClearMessages].
    apply wpx_bind. destruct (mk_rows _ _ _ _ _ Hs) as [Hh _].
    match goal with |- context [StoreTxObject _ _ (Some ?t)] => pose proof (StoreTxObject_ok (rl_db s) t Hh) as Hok end.
    unfold wpx at 1, with_db. destruct (StoreTxObject _ _ _) as [db e]. cbn in Hok. subst e.
    apply uncached_ClearMessages; [|done..]. eapply Inv_shrink; [exact HI|done..|by intros []].
  - apply wpx_ret. intros n k Hc. pose proof (Ho n k Hc) as ->.
    destruct (inv_cached _ _ HI _ _ _ Hc) as (r0 & Hr0 & <-). unfold cached in Hc. congruence.
Qed.
End Gone.

(** * The network *)

Section Net.
Context {St : Type} `{StoreSpec St} `{CodecSpec Z}.
Context `{CodecSpec (RouteMessageOf Z)} `{CodecSpec (TransactionObjectOf Z)}.
Context {I : Type} `{!EqDecision I} (nid : I → string) `{!Inj (=) (=) nid}.
Context {L N : I → Type} (f : ∀ i, Feeder (St := St) (L i)) (d : ∀ i, Destination (N i)).
Abbreviation Net := (Net (St := St) (I := I) (L := L) (N := N)).
Implicit Types (s : Relayer St) (prov : string → ChainProvider).
(** Every provider keeps the laws of [Route]. *)
Context (lawful : ∀ i n m out n', routes (d i) n m out n' → route_law m out).

Definition success (c : CallbackCall) : Prop := tr_Code (cb_response c) = Success.

(** A [Route] that is to return no error is to report a success before, or has
    done so. *)
Definition net_marked (w : Net) : Prop := ∃ K E T, marked K E T None (n_relayer w) ∧
  ∀ p calls r, n_routing w !! p = Some (calls, r) →
    p ∈ T ∧ (∃ k, K !! p = Some k ∧ Forall (λ c, cb_key c = k) calls) ∧ (r = Ok tt → p ∈ E ∨ Exists success calls).

(** Whatever an operator put back was in the message store. *)
Definition puts_back_stored (w : Net) : Prop := ∀ a s0, (a, s0) ∈ n_hist w → from_store a s0.

Lemma marked_exec K E T acts (s s' : Relayer St) :
  Forall (λ a, ∀ s, from_store a s ∧ returns_well T a s) acts → marked K E T None s → exec true acts s = Some s' →
  marked K E T None s'.
Proof.
  intros Ha. revert s. induction Ha as [|a acts Ha _ IH]; intros s Hs; cbn [exec]; [by intros [= <-]|].
  case_decide; [|done]. destruct (run a s) as [[s1 []]|] eqn:Hrun; [|done]. apply IH.
  destruct (Ha s) as [H1' H2']. pose proof (marked_action K E T a s H1' H2' Hs) as Hk. unfold wpx in Hk. by rewrite Hrun in Hk.
Qed.

Lemma exec_one a s s' : exec true [a] s = Some s' → run a s = Some (s', tt).
Proof. cbn [exec]. case_decide; [|done]. destruct (run a s) as [[s1 []]|]; [|done]. by intros [= ->]. Qed.

Lemma exec_wlp a (s s' : Relayer St) (Q : Relayer St → Prop) :
  exec true [a] s = Some s' → wlp (run a) (λ _, Q) s → Q s'.
Proof. intros Hrun%exec_one Hw. unfold wpx in Hw. by rewrite Hrun in Hw. Qed.

Lemma run_exec a (s s' : Relayer St) :
  enabled a s → is_RelayRow a = false → run a s = Some (s', tt) → exec true [a] s = Some s'.
Proof. intros He Ha Hrun. cbn [exec]. rewrite decide_True by (split; [done|by rewrite Ha]). by rewrite Hrun. Qed.

Lemma net_marked_initial w : net_initial f w → rows_idle (rl_db (n_relayer w)) → net_marked w.
Proof.
  intros Hi Hrows. pose proof (ni_relayer _ _ Hi) as Hin. exists ∅, ∅, ∅. split.
  - assert (∀ n k p, ¬ cached (n_relayer w) n k p) as Hno.
    { destruct Hin as (_ & _ & Hc). intros n k p. unfold cached, chain_cache.
      destruct (rl_chains _ !! n) as [c|] eqn:E; [|done]. by destruct (Hc _ _ E) as [_ ->]. }
    split; [by apply initial_Inv|by intros n k p r _ ?%Hno|done|by intros p k|by intros p ?%elem_of_empty..].
  - intros p calls r. by rewrite (ni_routing _ _ Hi), lookup_empty.
Qed.

Lemma net_marked_step w w' :
  net_marked w → puts_back_stored w' → net_step nid f d w w' → net_marked w'.
Proof.
  intros (K & E & T & Hm & Hr) Hput Hs. destruct Hs as [j sides s' Hst Hsame Hex|a s' Hsp Hex|j k p src r out nodes Htk Hp Hrp Hro Hsame
    |k p dst src c calls res prov s' a Htk Hp Hex|k p dst src res s' a Htk Hp Hres Hex]; unfold net_marked; cbn [n_relayer n_routing].
  - exists K, E, T. split; [|done]. eapply marked_exec; [|exact Hm|exact Hex]. apply Forall_forall.
    by intros a (b & ->)%sends_listens.
  - exists K, E, T. split; [|done]. eapply exec_wlp; [exact Hex|]. apply marked_action; [|by destruct a|done].
    apply Hput. cbn. set_solver.
  - exists (<[p := rm_key r]> K), E, ({[p]} ∪ T). split.
    + eapply marked_more; [exact Hm| |by left|].
      2:{ intros q [->%elem_of_singleton|?]%elem_of_union; [right|by left].
          by apply (list_elem_of_fmap_2 tk_msg _ (mkTask p (nid j) src true)), list_elem_of_lookup_2 with k. }
      intros q k'. intros [[<- <-]|[_ ?]]%lookup_insert_Some; [right; by exists r|by left].
    + pose proof (lawful _ _ _ _ _ Hro) as [Hk Hl]. intros q calls r'. intros [[<- ->]|[Hne Hq]]%lookup_insert_Some.
      * split_and!; [set_solver|exists (rm_key r); by rewrite lookup_insert_eq|]. intros ->. right. cbn in Hl.
        destruct Hl as (l & c & -> & _ & Hc). apply Exists_app. right. by left.
      * rewrite lookup_insert_ne by done. destruct (Hr q _ _ Hq) as (? & ? & ?). split_and!; [set_solver|done..].
  - destruct (Hr p _ _ Hp) as (HpT & (key & Hkey & Hkeys) & Hok). apply Forall_cons in Hkeys as [Hck Hkeys].
    destruct (mk_keys _ _ _ _ _ Hm p key Hkey) as (r & Hrp & Hrk).
    assert (marked K E T None s') as Hm' by (eapply exec_wlp; [exact Hex|by apply marked_action]).
    assert (success c → uncached p s') as Hgone.
    { intros Hsu. eapply exec_wlp; [exact Hex|]. unfold a. cbn [run]. rewrite Hck, <-Hrk.
      eapply uncached_callback; [exact Hm|done| |done]. intros n k'.
      destruct (inv_task _ _ (mk_inv _ _ _ _ _ Hm) (mkTask p dst src true)) as (r0 & _ & _ & Ho);
        [by eapply list_elem_of_lookup_2|]. apply Ho. }
    destruct (decide (tr_Code (cb_response c) = Success)) as [Hsu|Hsu].
    + exists K, ({[p]} ∪ E), T. split.
      * eapply marked_more; [exact Hm'|by left| |by left]. intros q [->%elem_of_singleton|?]%elem_of_union; [right|by left].
        split; [|by apply Hgone]. destruct (mk_keys _ _ _ _ _ Hm' p key Hkey) as (r' & Hr' & _).
        by apply (inv_next _ _ (mk_inv _ _ _ _ _ Hm') p r').
      * intros q calls' r'. intros [[<- [= -> ->]]|[Hne Hq]]%lookup_insert_Some.
        -- split_and!; [done|by exists key|]. intros _. left. set_solver.
        -- destruct (Hr q _ _ Hq) as (? & ? & Hq'). split_and!; [done..|]. intros [?|?]%Hq'; [left; set_solver|by right].
    + exists K, E, T. split; [done|]. intros q calls' r'. intros [[<- [= -> ->]]|[Hne Hq]]%lookup_insert_Some; [|by apply Hr].
      split_and!; [done|by exists key|]. intros [?|He]%Hok; [by left|right]. by apply Exists_cons in He as [?|?].
  - destruct (Hr p _ _ Hp) as (_ & _ & Hok). exists K, E, (T ∖ {[p]}). split.
    + eapply exec_wlp; [exact Hex|]. apply marked_action; [done| |].
      * cbn. intros p' dst' src' Hp'. rewrite Htk in Hp'. injection Hp' as <- <- <-. split; [set_solver|]. intros Herr.
        destruct res as [[]|e|]; [|done..]. destruct Hok as [Hin|He]; [done| |by apply Exists_nil in He].
        apply (mk_gone _ _ _ _ _ Hm p Hin).
      * eapply marked_more; [exact Hm|by left|by left|]. intros q ?. left. set_solver.
    + intros q calls r'. intros [Hne Hq]%lookup_delete_Some. destruct (Hr q _ _ Hq) as (? & ? & ?). split_and!; [set_solver|done..].
Qed.

Lemma net_run_marked w0 w :
  net_run nid f d w0 w → rows_idle (rl_db (n_relayer w0)) → puts_back_stored w → net_marked w.
Proof.
  intros [Hi Hrun] Hrows. revert Hrun. apply (rtc_ind_r (λ w, puts_back_stored w → net_marked w)).
  - intros _. by apply net_marked_initial.
  - intros w1 w2 _ Hs IH Hput. eapply net_marked_step; [apply IH|done|done].
    intros a s0 Hin. apply Hput. by eapply net_step_hist.
Qed.

(** In every state of the network: the mark on a cached message, and the
    goroutine that routes it. *)
Lemma net_mark w0 w n k p r :
  net_run nid f d w0 w → rows_idle (rl_db (n_relayer w0)) → puts_back_stored w →
  cached (n_relayer w) n k p → rl_heap (n_relayer w) !! p = Some r →
  rm_Processing r = true ↔ ∃ i dst started, rl_tasks (n_relayer w) !! i = Some (mkTask p dst n started).
Proof.
  intros Hrun Hrows Hput Hc Hp. destruct (net_run_marked w0 w Hrun Hrows Hput) as (K & E & T & Hm & _).
  pose proof (mk_inv _ _ _ _ _ Hm) as HI. split.
  - intros Hpr. pose proof (mk_mark _ _ _ _ _ Hm n k p r ltac:(done) Hc Hp Hpr) as Hin.
    apply list_elem_of_fmap in Hin as ([p' dst src started] & -> & [i Hi]%list_elem_of_lookup).
    destruct (inv_task _ _ HI _ (list_elem_of_lookup_2 _ _ _ Hi)) as (_ & _ & _ & Ho).
    pose proof (Ho n k Hc) as ->. by exists i, dst, started.
  - intros (i & dst & started & Hi). destruct (inv_task _ _ HI _ (list_elem_of_lookup_2 _ _ _ Hi)) as (r' & Hr' & Hpr & _).
    cbn in Hr'. congruence.
Qed.

(** * An idle message can be delivered *)

Lemma for_each_skip {A} (l : list A) (body : A → proc (Relayer St) unit) s :
  (∀ x, x ∈ l → body x s = Some (s, tt)) → for_each l body s = Some (s, tt).
Proof.
  intros Hb. induction l as [|x l IH]; cbn; [done|]. unfold mbind, proc_bind. rewrite Hb by by left.
  apply IH. intros y Hy. apply Hb. by right.
Qed.

(** The router looks at one message. *)
Definition look_at prov now n k (s : Relayer St) : action :=
  let order := (map_to_list (rl_chains s)).*1 in
  Router prov now order ((λ x, (x, if decide (x = n) then [k] else [])) <$> order) routeTimer.

Lemma look_at_exec prov now n k (s s' : Relayer St) :
  is_Some (rl_chains s !! n) → processMessage prov now n k s = Some (s', tt) → exec true [look_at prov now n k s] s = Some s'.
Proof.
  intros [c Hc] Hrun. unfold look_at. set (order := (map_to_list (rl_chains s)).*1).
  assert (n ∈ order) as Hin by (apply list_elem_of_fmap; exists (n, c); split; [done|by apply elem_of_map_to_list]).
  assert (NoDup order) as Hnd by apply NoDup_fst_map_to_list.
  apply run_exec; [|done|].
  - cbn [enabled]. split_and!; [done| |].
    + by rewrite <-list_fmap_compose, list_fmap_id.
    + apply Forall_fmap, Forall_true. intros x. cbn. case_decide; [apply NoDup_singleton|constructor].
  - cbn [run StartRouter_step]. unfold processMessages. apply list_elem_of_split in Hin as (l1 & l2 & E).
    rewrite E in *. apply NoDup_app in Hnd as (_ & Hd & [Hn2 _]%NoDup_cons).
    assert (∀ l s0, n ∉ l → for_each ((λ x, (x, if decide (x = n) then [k] else [])) <$> l)
      (λ '(src, keys), for_each keys (processMessage prov now src)) s0 = Some (s0, tt)) as Hskip.
    { intros l s0 Hl. apply for_each_skip. intros [x keys] (y & [= -> ->] & Hy)%list_elem_of_fmap.
      by rewrite decide_False by (by intros ->). }
    rewrite fmap_app, fmap_cons. erewrite for_each_app by (apply Hskip; intros ?; eapply Hd; [done|by left]).
    rewrite decide_True by done. cbn [for_each]. unfold mbind at 1, proc_bind at 1. unfold mbind at 1, proc_bind at 1.
    rewrite Hrun. cbn. by apply Hskip.
Qed.

(** A pass of the router over many messages is as good as passes over one
    message each, between which other goroutines may run. *)
Lemma processMessage_chains prov now n k s s' :
  is_Some (rl_chains s !! n) → processMessage prov now n k s = Some (s', tt) →
  ∀ x, is_Some (rl_chains s !! x) → is_Some (rl_chains s' !! x).
Proof.
  intros Hn Hrun x Hx. pose proof (exec_one _ _ _ (look_at_exec _ _ _ _ _ _ Hn Hrun)) as Hq%queues_same; [|done].
  assert (is_Some (queues s' !! x)) as Hs' by (rewrite Hq; unfold queues; rewrite lookup_fmap; by apply fmap_is_Some).
  unfold queues in Hs'. rewrite lookup_fmap in Hs'. by apply fmap_is_Some in Hs'.
Qed.

Definition looks prov now (a : action) : Prop := ∃ n k s0, a = look_at prov now n k s0.

Lemma exec_app l1 l2 (s s1 s2 : Relayer St) : exec true l1 s = Some s1 → exec true l2 s1 = Some s2 → exec true (l1 ++ l2) s = Some s2.
Proof.
  revert s. induction l1 as [|a l1 IH]; intros s; cbn; [by intros [= ->]|].
  case_decide; [|done]. destruct (run a s) as [[s' []]|]; [|done]. apply IH.
Qed.

Lemma chain_pass_looks prov now n ks (s s' : Relayer St) :
  is_Some (rl_chains s !! n) → for_each ks (processMessage prov now n) s = Some (s', tt) →
  (∀ x, is_Some (rl_chains s !! x) → is_Some (rl_chains s' !! x)) ∧
  ∃ l, Forall (looks prov now) l ∧ exec true l s = Some s'.
Proof.
  revert s. induction ks as [|k ks IH]; intros s Hn; cbn [for_each].
  { intros [= <-]. split; [done|]. by exists []. }
  unfold mbind, proc_bind. destruct (processMessage prov now n k s) as [[s1 []]|] eqn:Hk; [|done]. intros Hrest.
  pose proof (processMessage_chains _ _ _ _ _ _ Hn Hk) as Hc.
  destruct (IH s1 (Hc _ Hn) Hrest) as (Hc' & l & Hl & He). split; [auto|].
  exists ([look_at prov now n k s] ++ l). split; [constructor; [by eexists _, _, _|done]|].
  eapply exec_app; [by apply look_at_exec|done].
Qed.

Lemma router_pass_looks prov now chains keys (s s' : Relayer St) :
  exec true [Router prov now chains keys routeTimer] s = Some s' →
  ∃ l, Forall (looks prov now) l ∧ exec true l s = Some s'.
Proof.
  intros Hex. assert (∀ n, n ∈ keys.*1 → is_Some (rl_chains s !! n)) as Hin.
  { cbn [exec] in Hex. case_decide as Hen; [|done]. destruct Hen as [(_ & Hk & _) _]. intros n Hn. rewrite Hk in Hn.
    apply list_elem_of_fmap in Hn as ([n' c] & -> & Hn%elem_of_map_to_list). by exists c. }
  apply exec_one in Hex. cbn [run StartRouter_step] in Hex. unfold processMessages in Hex.
  revert s Hin Hex. induction keys as [|[n ks] keys IH]; intros s Hin; cbn [for_each].
  { intros [= <-]. by exists []. }
  unfold mbind at 1, proc_bind at 1. destruct (for_each ks (processMessage prov now n) s) as [[s1 []]|] eqn:Hn; [|done]. intros Hrest.
  destruct (chain_pass_looks prov now n ks s s1) as (Hc & l1 & Hl1 & He1); [apply Hin; by left|done|].
  destruct (IH s1) as (l2 & Hl2 & He2); [|done|].
  { intros x Hx. apply Hc, Hin. by right. }
  exists (l1 ++ l2). split; [by apply Forall_app|by eapply exec_app].
Qed.

Definition set_node (nodes : ∀ i, N i) (i : I) (n : N i) : ∀ j, N j :=
  λ j, match decide (i = j) with left E => eq_rect i N n j E | right _ => nodes j end.
Lemma set_node_eq nodes i n : set_node nodes i n i = n.
Proof. unfold set_node. destruct (decide (i = i)) as [E|?]; [|done]. by rewrite (proof_irrel E eq_refl). Qed.
Lemma set_node_ne nodes i n j : j ≠ i → set_node nodes i n j = nodes j.
Proof. intros Hne. unfold set_node. destruct (decide (i = j)) as [->|]; [done|done]. Qed.

Abbreviation net_step := (net_step nid f d).
Abbreviation net_run := (net_run nid f d).

(** The failures that a [Route] reports change nothing. *)
Lemma failures_pass w i p dst n k calls rest res prov :
  rl_tasks (n_relayer w) !! i = Some (mkTask p dst n true) → n_routing w !! p = Some (calls ++ rest, res) →
  Forall reports_failure calls → Forall (λ c, cb_key c = k) calls →
  chain_cache (n_relayer w) n !! k = Some p → is_Some (rl_heap (n_relayer w) !! p) →
  ∃ hist, rtc net_step w (mkNet (n_sides w) (n_relayer w) (n_nodes w) (<[p := (rest, res)]> (n_routing w)) (n_hist w ++ hist)) ∧
    ∀ a s0, (a, s0) ∈ hist → is_RelayRow a = false.
Proof.
  intros Ht. revert w Ht. induction calls as [|c calls IH]; intros w Ht Hp Hf Hk Hc Hl.
  - exists []. rewrite app_nil_r, insert_id by done. destruct w. split; [apply rtc_refl|]. by intros a s0 ?%elem_of_nil.
  - apply Forall_cons in Hf as [Hfc Hf], Hk as [Hkc Hk]. set (a := TaskCallback prov n dst (cb_key c) (cb_response c) (cb_err c)).
    assert (exec true [a] (n_relayer w) = Some (n_relayer w)) as Hex.
    { apply run_exec; [done..|]. cbn [run a]. apply callback_ignored; [done|]. rewrite Hkc, Hc. by intros q [= <-]. }
    pose proof (net_callback nid f d w i p dst n c (calls ++ rest) res prov _ Ht Hp Hex) as Hs. fold a in Hs.
    set (w1 := mkNet _ _ _ _ _) in Hs.
    destruct (IH w1 Ht) as (hist & Hrtc & Hh); [by apply lookup_insert_eq|done..|].
    exists ((a, n_relayer w) :: hist). unfold w1 in Hrtc. cbn in Hrtc. rewrite insert_insert_eq, <-app_assoc in Hrtc. split.
    + eapply rtc_l; [exact Hs|exact Hrtc].
    + intros a' s0 [[= -> ->]|?]%elem_of_cons; [done|by eapply Hh].
Qed.

(** The steps of a delivery: the router looks, the goroutine starts. *)
Lemma net_starts w n k p r prov now (b : BigInt) :
  healthy (rl_db (n_relayer w)) → cached (n_relayer w) n k p → rl_heap (n_relayer w) !! p = Some r →
  m_Sn (rm_Message r) = Some b → ready prov now n r (n_relayer w) = true →
  MessageReceived (prov (m_Dst (rm_Message r))) k = Ok false →
  ∃ s i hist, rtc net_step w (mkNet (n_sides w) s (n_nodes w) (n_routing w) (n_hist w ++ hist)) ∧
    (∀ a s0, (a, s0) ∈ hist → is_RelayRow a = false) ∧
    rl_tasks s !! i = Some (mkTask p (m_Dst (rm_Message r)) n true) ∧ cached s n k p ∧
    ∃ r', rl_heap s !! p = Some r' ∧ rm_Message r' = rm_Message r.
Proof.
  intros Hdb Hc Hp Hsn Hready Hrec. set (s := n_relayer w) in *. set (dst := m_Dst (rm_Message r)) in *.
  assert (is_Some (rl_chains s !! n)) as Hn.
  { unfold cached, chain_cache in Hc. destruct (rl_chains s !! n); [by eexists|done]. }
  pose proof Hready as Hready'. unfold ready in Hready'. fold dst in Hready'.
  apply andb_prop in Hready' as [[[Hknown _]%andb_prop Hrcv]%andb_prop Hsnd].
  assert (wp (processMessage prov now n k) (λ _ s', rl_tasks s' = rl_tasks s ++ [mkTask p dst n false] ∧
    cached s' n k p ∧ rl_heap s' !! p = Some (ToggleProcessing r)) s) as Hlook.
  { eapply wpx_mono; [eapply (wp_processMessage prov now n k p b r s); [done..| | |]|].
    - intros E. fold dst in E. by rewrite E in Hrcv.
    - intros E. by rewrite E in Hsnd.
    - fold dst. by rewrite Hrec.
    - cbn beta zeta. intros [] s' (Ht & Hcc & Hh). fold dst in Ht, Hcc, Hh. rewrite Hready, Hrec, ?Hknown in *. cbn in *.
      split_and!; [done| |done]. unfold cached. by rewrite Hcc. }
  unfold wpx in Hlook. destruct (processMessage prov now n k s) as [[s1 []]|] eqn:Hrun; [|done]. destruct Hlook as (Ht1 & Hc1 & Hh1).
  set (i := length (rl_tasks s)). assert (rl_tasks s1 !! i = Some (mkTask p dst n false)) as Hi.
  { rewrite Ht1. by apply list_lookup_middle. }
  pose proof (net_acts nid f d w (look_at prov now n k s) s1 eq_refl (look_at_exec prov now n k s s1 Hn Hrun)) as Hs1. set (w1 := mkNet _ _ _ _ _) in Hs1.
  set (s2 := mkRelayer (rl_db s1) (rl_chains s1) (alter (IncrementRetry now) p (rl_heap s1)) (rl_next s1)
    (<[i := mkTask p dst n true]> (rl_tasks s1))).
  assert (exec true [TaskStart now i] s1 = Some s2) as Hex.
  { apply run_exec; [done..|]. cbn [run]. unfold task_start, mbind, proc_bind, gets. by rewrite Hi. }
  pose proof (net_acts nid f d w1 (TaskStart now i) s2 eq_refl Hex) as Hs2.
  exists s2, i, [(look_at prov now n k s, s); (TaskStart now i, s1)]. split_and!.
  - eapply rtc_l; [exact Hs1|]. eapply rtc_l; [exact Hs2|]. unfold w1. cbn. rewrite <-app_assoc. apply rtc_refl.
  - intros a s0 [[= -> ->]|[[= -> ->]|?%elem_of_nil]%elem_of_cons]%elem_of_cons; done.
  - cbn. apply list_lookup_insert_eq. by eapply lookup_lt_Some.
  - exact Hc1.
  - exists (IncrementRetry now (ToggleProcessing r)). cbn. by rewrite lookup_alter_eq, Hh1.
Qed.

(** The goroutine's [Route] succeeds, and it ends. *)
Lemma net_ends w n k p r i j (b : BigInt) prov out n' :
  Inv False (n_relayer w) → healthy (rl_db (n_relayer w)) → n_routing w !! p = None →
  rl_tasks (n_relayer w) !! j = Some (mkTask p (nid i) n true) → cached (n_relayer w) n k p →
  rl_heap (n_relayer w) !! p = Some r → m_Sn (rm_Message r) = Some b →
  routes (d i) (n_nodes w i) (rm_Message r) out n' → out.2 = Ok tt →
  ∃ w', rtc net_step w w' ∧ executed (d i) (n_nodes w' i) (message_wire (rm_Message r)) ∧
    uncached p (n_relayer w') ∧ contents (rl_db (n_relayer w')) !! row_of k = None.
Proof.
  intros HI Hdb Hnr Hj Hc Hp Hsn Hro Hok. destruct (inv_cached _ _ HI _ _ _ Hc) as (r0 & Hr0 & Hkey).
  assert (r0 = r) as -> by congruence. set (nodes := set_node (n_nodes w) i n').
  assert (routes (d i) (n_nodes w i) (rm_Message r) out (nodes i)) as Hro' by (unfold nodes; by rewrite set_node_eq).
  pose proof (net_route nid f d w i j p n r out nodes Hj Hnr Hp Hro' (λ x Hx, set_node_ne _ _ _ _ Hx)) as Hs1.
  pose proof (lawful _ _ _ _ _ Hro) as [Hkeys Hl]. rewrite Hok in Hl. destruct Hl as (calls & c & Hcalls & Hf & Hsu).
  rewrite Hcalls in Hkeys. apply Forall_app in Hkeys as [Hk1 [Hkc _]%Forall_cons].
  change (Message_MessageKey (rm_Message r)) with (rm_key r) in Hk1, Hkc. rewrite Hkey in Hk1, Hkc.
  destruct out as [l res]. cbn in Hcalls, Hok. subst l res. set (w1 := mkNet _ _ _ _ _) in Hs1.
  destruct (failures_pass w1 j p (nid i) n k calls [c] (Ok tt) prov) as (hist & Hs2 & _);
    [done|apply lookup_insert_eq|done..|by exists r|]. set (w2 := mkNet _ _ _ _ _) in Hs2.
  pose proof (wp_callback_success prov n (nid i) (cb_key c) b (cb_response c) (cb_err c) p r (n_relayer w)) as Hcb.
  rewrite Hkc in Hcb. specialize (Hcb Hdb Hc Hp). rewrite <-Hkey in Hcb at 1. specialize (Hcb Hsn Hsu).
  unfold wpx in Hcb. destruct (callback _ _ _ _ _ _ _) as [[s3 []]|] eqn:Hrun; [|done]. destruct Hcb as (rows & Hcl & _).
  set (a := TaskCallback prov n (nid i) (cb_key c) (cb_response c) (cb_err c)).
  assert (exec true [a] (n_relayer w) = Some s3) as Hex by (apply run_exec; [done..|]; cbn [run a]; by rewrite Hkc).
  assert (n_routing w2 !! p = Some ([c], Ok tt)) as Hp2 by apply lookup_insert_eq.
  pose proof (net_callback nid f d w2 j p (nid i) n c [] (Ok tt) prov s3 Hj Hp2 Hex) as Hs3. set (w3 := mkNet _ _ _ _ _) in Hs3.
  set (s4 := mkRelayer (rl_db s3) (rl_chains s3) (rl_heap s3) (rl_next s3) (delete j (rl_tasks s3))).
  assert (rl_tasks s3 !! j = Some (mkTask p (nid i) n true)) as Hj3 by by rewrite (oc_tasks _ _ _ _ _ Hcl).
  assert (exec true [TaskReturn j None] s3 = Some s4) as Hex4.
  { apply run_exec; [done..|]. cbn [run]. unfold task_return, mbind, proc_bind, gets. by rewrite Hj3. }
  assert (n_routing w3 !! p = Some ([], Ok tt)) as Hp3 by apply lookup_insert_eq.
  pose proof (net_return nid f d w3 j p (nid i) n (Ok tt) s4 Hj3 Hp3 ltac:(done) Hex4) as Hs4.
  eexists. split; [|split_and!].
  - eapply rtc_l; [exact Hs1|]. etrans; [exact Hs2|]. eapply rtc_l; [exact Hs3|]. eapply rtc_l; [exact Hs4|]. apply rtc_refl.
  - cbn. eapply routes_success; [exact Hro'| |exact Hsu]. cbn. apply elem_of_app. right. by left.
  - cbn. intros n1 k1 Hc1. unfold cached in Hc1. change (chain_cache s4) with (chain_cache s3) in Hc1.
    destruct (decide (n1 = n)) as [->|Hne].
    + rewrite (oc_cache _ _ _ _ _ Hcl) in Hc1. apply lookup_delete_Some in Hc1 as [Hk3 Hc1].
      destruct (inv_cached _ _ HI n k1 p Hc1) as (r1 & Hr1 & ?). congruence.
    + apply Hne. unfold chain_cache in Hc1. rewrite (oc_other _ _ _ _ _ Hcl) in Hc1 by done.
      by apply (inv_owner _ _ HI n1 k1 n k p).
  - cbn. rewrite (oc_rows _ _ _ _ _ Hcl). apply lookup_delete_eq.
Qed.

(** A message in a cache that no goroutine routes can be delivered, whatever
    has happened before: when its chains agree and the destination's [Route]
    succeeds, the router, the goroutine and its callbacks bring it there. *)
Lemma net_deliver w0 w n k p r prov now i (b : BigInt) out n' :
  net_run w0 w → rows_idle (rl_db (n_relayer w0)) → puts_back_stored w →
  cached (n_relayer w) n k p → rl_heap (n_relayer w) !! p = Some r → rm_Processing r = false →
  m_Sn (rm_Message r) = Some b → m_Dst (rm_Message r) = nid i → ready prov now n r (n_relayer w) = true →
  MessageReceived (prov (nid i)) k = Ok false →
  routes (d i) (n_nodes w i) (rm_Message r) out n' → out.2 = Ok tt →
  ∃ w', rtc net_step w w' ∧ executed (d i) (n_nodes w' i) (message_wire (rm_Message r)) ∧
    uncached p (n_relayer w') ∧ contents (rl_db (n_relayer w')) !! row_of k = None.
Proof.
  intros Hrun Hrows Hput Hc Hp Hidle Hsn Hdst Hready Hrec Hro Hok.
  destruct (net_run_marked w0 w Hrun Hrows Hput) as (K & E & T & Hm & Hrt). destruct Hrun as [Hini Hrun].
  destruct (inv_cached _ _ (mk_inv _ _ _ _ _ Hm) _ _ _ Hc) as (r0 & Hr0 & Hkey). assert (r0 = r) as -> by congruence.
  assert (n_routing w !! p = None) as Hnr.
  { destruct (n_routing w !! p) as [[calls r1]|] eqn:E0; [|done]. exfalso. destruct (Hrt p _ _ E0) as (HpT & _).
    apply (mk_routed _ _ _ _ _ Hm) in HpT. apply list_elem_of_fmap in HpT as (t & -> & Ht).
    destruct (inv_task _ _ (mk_inv _ _ _ _ _ Hm) t Ht) as (r2 & Hr2 & Hp2 & _). congruence. }
  destruct (mk_rows _ _ _ _ _ Hm) as [Hdb _]. rewrite <-Hdst in Hrec.
  destruct (net_starts w n k p r prov now b) as (s2 & j & hist & Hrtc & Hh & Hj & Hc2 & r2 & Hr2 & Hm2); [done..|].
  set (w2 := mkNet _ _ _ _ _) in Hrtc. rewrite Hdst in Hj.
  assert (puts_back_stored w2) as Hput2.
  { intros a s0 [?|Hin]%elem_of_app; [by apply Hput|]. apply Hh in Hin. by destruct a. }
  destruct (net_run_marked w0 w2) as (K2 & E2 & T2 & Hmk2 & _); [by split; [|etrans]|done..|].
  destruct (mk_rows _ _ _ _ _ Hmk2) as [Hdb2 _]. pose proof (mk_inv _ _ _ _ _ Hmk2) as HI2. cbn in Hdb2, HI2.
  destruct (net_ends w2 n k p r2 i j b prov out n') as (w' & Hrtc' & He & Hu & Hrow); try done.
  - by rewrite Hm2.
  - by rewrite Hm2.
  - exists w'. rewrite Hm2 in He. split_and!; [by etrans|done..].
Qed.
End Net.
