(* ===== verification/Lives.v ===== *)
(** The network across restarts of the relayer.

    A run of Network.v is one life of the relayer's process.  The process may end
    between two actions, or die inside one, after any of its writes: what it held
    in memory is gone, and the next life starts from what the disk holds, on
    chains that remember what they have executed, with new listeners, which may
    start from other heights.  What Network.v and Marks.v say of one life is
    lifted to any number of them, and a message that is in the message store when
    a life begins can be delivered by it. *)
From stdpp Require Import gmap strings list relations.
From Stdlib Require Import ZArith Lia.
From S2P Require Import Prelude GoStd Types Store Provider Relay RelaySystem RelayCorrect RelayFrame Provenance Custody Feed Network Marks.
Import BlockStore MessageStore FinalityStore.
Open Scope Z_scope.

Section Lives.
Context {St : Type} `{StoreSpec St} `{CodecSpec Z}.
Context `{CodecSpec (RouteMessageOf Z)} `{CodecSpec (TransactionObjectOf Z)}.
Context {I : Type} `{!EqDecision I} (nid : I → string) `{!Inj (=) (=) nid}.
(** How the listeners of one life start. *)
Context {C : Type}.
Context {L N : I → Type} (f : C → ∀ i, Feeder (St := St) (L i)) (d : ∀ i, Destination (N i)).
Abbreviation Net := (Net (St := St) (I := I) (L := L) (N := N)).
Abbreviation net_step c := (net_step nid (f c) d).
Abbreviation net_run c := (net_run nid (f c) d).
Abbreviation Life := (C * Net)%type.
Implicit Types (s : Relayer St) (prov : string → ChainProvider) (w : Net) (c : C) (past : list Life) (x : list Life * Life).

(** [NewRelayer], without the flag for a fresh start, on what the disk holds. *)
Definition starts (disk : gmap string string) (nodes : ∀ i, N i) c0 w0 : Prop :=
  net_initial (f c0) w0 ∧ (∃ db nids, contents db = disk ∧ NewRelayer db (Some <$> nids) false = Ok (n_relayer w0)) ∧
  n_nodes w0 = nodes.

(** The relayer is ended, and starts again. *)
Definition restarts w c0 w0 : Prop := starts (contents (rl_db (n_relayer w))) (n_nodes w) c0 w0.

(** What the disk held during the last action: its contents after each write. *)
Definition written w w' : list (gmap string string) :=
  drop (length (versions (rl_db (n_relayer w)))) (versions (rl_db (n_relayer w'))).

(** The lives that have ended, each with the state it ended in, and the present
    one.  A life that dies in an action is recorded with the state that the
    action would have come to. *)
Inductive life_step : list Life * Life → list Life * Life → Prop :=
| life_goes_on past c w w' : net_step c w w' → life_step (past, (c, w)) (past, (c, w'))
| life_restarts past c w c0 w0 : restarts w c0 w0 → life_step (past, (c, w)) (past ++ [(c, w)], (c0, w0))
| life_dies past c w w' disk c0 w0 :
    net_step c w w' → disk ∈ written w w' → starts disk (n_nodes w') c0 w0 →
    life_step (past, (c, w)) (past ++ [(c, w')], (c0, w0)).

Abbreviation now_ x := (x.2.2).
Definition lives c0 w0 x : Prop := net_initial (f c0) w0 ∧ rtc life_step ([], (c0, w0)) x.

(** Every life so far. *)
Definition epochs x : list Life := x.1 ++ [x.2].
Definition happened x (a : action) s : Prop := ∃ e, e ∈ epochs x ∧ (a, s) ∈ n_hist e.2.

Lemma epochs_present x : x.2 ∈ epochs x.
Proof. apply elem_of_app. right. by left. Qed.

Lemma lives_ind c0 w0 (P : list Life * Life → Prop) x :
  lives c0 w0 x → P ([], (c0, w0)) → (∀ x x', lives c0 w0 x → life_step x x' → P x → P x') → P x.
Proof.
  intros [Hi Hr] H0' Hs. revert Hr. apply (rtc_ind_r P); [done|]. intros y z Hy. apply Hs. by split.
Qed.

(** Each life is a run of the network. *)
Lemma lives_runs c0 w0 x : lives c0 w0 x → ∀ e, e ∈ epochs x → ∃ w1, net_run e.1 w1 e.2.
Proof.
  intros Hl. apply (lives_ind c0 w0 (λ x, ∀ e, e ∈ epochs x → ∃ w1, net_run e.1 w1 e.2) x Hl).
  { intros e ->%list_elem_of_singleton. exists w0. split; [apply Hl|apply rtc_refl]. }
  intros y z _ Hs IH.
  assert (∀ c w w', y.2 = (c, w) → net_step c w w' → ∃ w1, net_run c w1 w') as Hgo.
  { intros c w w' Hy Hs'. destruct (IH y.2 (epochs_present y)) as (w1 & Hi & Hr). rewrite Hy in *. exists w1. split; [done|by eapply rtc_r]. }
  destruct Hs as [past c w w' Hs|past c w c1 w1 (Hi & _)|past c w w' disk c1 w1 Hs _ (Hi & _)]; intros e; unfold epochs; cbn.
  - intros [He| ->%list_elem_of_singleton]%elem_of_app; [|by eapply Hgo]. apply IH. unfold epochs. cbn. set_solver.
  - intros [He| ->%list_elem_of_singleton]%elem_of_app; [by apply IH|]. exists w1. split; [done|apply rtc_refl].
  - intros [[He| ->%list_elem_of_singleton]%elem_of_app| ->%list_elem_of_singleton]%elem_of_app.
    + apply IH. unfold epochs. cbn. set_solver.
    + by eapply Hgo.
    + exists w1. split; [done|apply rtc_refl].
Qed.

Lemma lives_run c0 w0 x : lives c0 w0 x → ∃ w1, net_run x.2.1 w1 x.2.2.
Proof. intros Hl. by apply (lives_runs c0 w0 x Hl x.2), epochs_present. Qed.

Lemma starts_db disk nodes c0 w0 : starts disk nodes c0 w0 → contents (rl_db (n_relayer w0)) = disk.
Proof.
  intros (_ & (db & nids & <- & Hn) & _). unfold NewRelayer in Hn. by apply res_bind_Ok in Hn as (chains & _ & [= <-]).
Qed.

(** What a life leaves behind only grows. *)
Lemma epochs_mono (P : Life → Prop) x x' :
  (∀ c w w', net_step c w w' → P (c, w) → P (c, w')) → life_step x x' → (∃ e, e ∈ epochs x ∧ P e) → ∃ e, e ∈ epochs x' ∧ P e.
Proof.
  intros HP [past c w w' Hs|past c w c1 w1 _|past c w w' disk c1 w1 Hs _ _] (e & Hin & He); unfold epochs in *; cbn in *.
  - apply elem_of_app in Hin as [?| ->%list_elem_of_singleton]; [exists e; set_solver|].
    exists (c, w'). split; [set_solver|by eapply HP].
  - exists e. set_solver.
  - apply elem_of_app in Hin as [?| ->%list_elem_of_singleton]; [exists e; set_solver|].
    exists (c, w'). split; [set_solver|by eapply HP].
Qed.

Lemma happened_mono x x' a s : life_step x x' → happened x a s → happened x' a s.
Proof. apply (epochs_mono (λ e, (a, s) ∈ n_hist e.2)). intros c w w' Hs. by eapply net_step_hist. Qed.

(** * What was sent is accounted for *)

(** As [accounted], whichever life it was that released the row. *)
Definition life_accounted x (m : MessageOf Z) : Prop :=
  is_Some (contents (rl_db (n_relayer (now_ x))) !! wire_row m) ∨
  (∃ j m', m_Dst m' = nid j ∧ executed (d j) (n_nodes (now_ x) j) m' ∧ wire_row m' = wire_row m) ∨
  (∃ a s0, happened x a s0 ∧ spontaneous a = true ∧ releases a s0 (wire_row m)).

Lemma accounted_life x m : accounted nid d (now_ x) m → life_accounted x m.
Proof.
  intros [?|[?|(a & s0 & Hin & Hsp & Hrel)]]; [by left|by right; left|right; right].
  exists a, s0. split; [|done]. exists x.2. split; [apply epochs_present|done].
Qed.

Lemma wire_row_prefix (m : MessageOf Z) : HasPrefix (wire_row m) (GetKey [prefixMessageStore; ""]) = true.
Proof. exact (message_key_prefix prefixMessageStore "" (m_Src m) (m_Sn m)). Qed.

Lemma exec_row a s s' m :
  Inv False s → healthy (rl_db s) → exec true [a] s = Some s' → is_Some (contents (rl_db s) !! wire_row m) →
  held (length (versions (rl_db s))) (wire_row m) (releases a s (wire_row m)) (rl_db s').
Proof.
  intros HI Hh Hex%exec_one Hrow. set (R := releases a s (wire_row m)).
  assert (kept (wire_row m) R s) as Hk by (split; [done|by left]).
  pose proof (held_action _ a s _ R (wire_row_prefix m) HI (kept_held _ _ _ Hk) id) as Hka. unfold wpx in Hka. by rewrite Hex in Hka.
Qed.

Lemma net_step_executed c w w' j m : net_step c w w' → executed (d j) (n_nodes w j) m → executed (d j) (n_nodes w' j) m.
Proof.
  intros [| |i k p src r out nodes _ _ _ Hro Hsame| |]; cbn [n_nodes]; try done.
  destruct (decide (i = j)) as [->|]; [by eapply routes_stays|by rewrite Hsame].
Qed.

Lemma net_reachable c w1 w : net_run c w1 w → reachable true (n_relayer w1) (n_relayer w).
Proof.
  intros [_ Hr]. revert Hr. apply (rtc_ind_r (λ w, reachable true (n_relayer w1) (n_relayer w))); [constructor|].
  intros y z _ [j sides s' _ _ Hex|a s' _ Hex| |k p dst src cb calls res prov s' a _ _ Hex|k p dst src res s' a _ _ _ Hex] IH; try done;
    by eapply exec_reachable.
Qed.

Lemma net_run_Inv c w1 w : net_run c w1 w → Inv False (n_relayer w) ∧ healthy (rl_db (n_relayer w)).
Proof.
  intros Hrun. pose proof (net_reachable c w1 w Hrun) as Hr. destruct Hrun as [Hi _]. split.
  - apply (reachable_Inv False true (n_relayer w1)); [apply Hi|done|done|exact Hr].
  - eapply reachable_healthy; [apply Hi|apply Hi|exact Hr].
Qed.

(** A row that is in the store is there after a step, and all through it, or is
    accounted for. *)
Lemma net_step_row c w1 w w' m :
  net_run c w1 w → net_step c w w' → is_Some (contents (rl_db (n_relayer w)) !! wire_row m) →
  (is_Some (contents (rl_db (n_relayer w')) !! wire_row m) ∧ ∀ disk, disk ∈ written w w' → is_Some (disk !! wire_row m)) ∨
  ((∃ j m', m_Dst m' = nid j ∧ executed (d j) (n_nodes w' j) m' ∧ wire_row m' = wire_row m) ∨
   (∃ a s0, (a, s0) ∈ n_hist w' ∧ spontaneous a = true ∧ releases a s0 (wire_row m))).
Proof.
  intros Hrun Hs Hrow. destruct (net_run_Inv c w1 w Hrun) as [HI Hh].
  assert (net_run c w1 w') as Hrun' by (split; [apply Hrun|eapply rtc_r; [apply Hrun|done]]).
  assert (∀ prov src dst key response err s0, (TaskCallback prov src dst key response err, s0) ∈ n_hist w' →
    releases (TaskCallback prov src dst key response err) s0 (wire_row m) →
    ∃ j m', m_Dst m' = nid j ∧ executed (d j) (n_nodes w' j) m' ∧ wire_row m' = wire_row m) as Hreported.
  { intros prov src dst key response err s0 Hin [Hsu Hkey].
    destruct (no_reported _ _ _ _ _ (net_run_ok nid (f c) d w1 w' Hrun') _ _ _ _ _ _ _ Hin Hsu) as (j & m' & ? & ? & Heq).
    exists j, m'. split_and!; [done..|]. by rewrite <-Heq. }
  assert (∀ db, rl_db (n_relayer w') = db → db = rl_db (n_relayer w) → is_Some (contents (rl_db (n_relayer w')) !! wire_row m) ∧
    ∀ disk, disk ∈ written w w' → is_Some (disk !! wire_row m)) as Hsame.
  { intros db Hdb ->. unfold written. rewrite Hdb, drop_all. split; [done|]. by intros disk ?%elem_of_nil. }
  destruct Hs as [j sides s' _ _ Hex|a s' Hsp Hex| |k p dst src cb calls res prov s' a _ _ Hex|k p dst src res s' a _ _ _ Hex].
  - left. apply (listens_queue (nid j)) in Hex as [Hdb _]. by eapply Hsame.
  - destruct (exec_row a _ _ m HI Hh Hex Hrow) as [_ [?|Hrel]]; [by left|right; right].
    exists a, (n_relayer w). cbn. split_and!; [set_solver|done..].
  - left. by eapply Hsame.
  - destruct (exec_row a _ _ m HI Hh Hex Hrow) as [_ [?|Hrel]]; [by left|right; left]. eapply Hreported; [|exact Hrel]. cbn. set_solver.
  - destruct (exec_row a _ _ m HI Hh Hex Hrow) as [_ [?|[]]]; by left.
Qed.

Lemma life_accounted_step c0 w0 x x' m : lives c0 w0 x → life_step x x' → life_accounted x m → life_accounted x' m.
Proof.
  intros Hl Hs [Hrow|[(j & m' & Hd & He & Hrm)|(a & s0 & Hin & Hrel)]].
  - destruct (lives_run c0 w0 x Hl) as [w1 Hrun].
    destruct Hs as [past c w w' Hs|past c w c2 w2 Hre|past c w w' disk c2 w2 Hs Hdisk Hst].
    + apply accounted_life. destruct (net_step_row c w1 w w' m Hrun Hs Hrow) as [[? _]|?]; [by left|by right].
    + left. cbn. by rewrite (starts_db _ _ _ _ Hre).
    + destruct (net_step_row c w1 w w' m Hrun Hs Hrow) as [[_ Hall]|[(j & m' & ? & ? & ?)|(a & s0 & ? & ?)]].
      * left. cbn. rewrite (starts_db _ _ _ _ Hst). by apply Hall.
      * right; left. exists j, m'. cbn. by rewrite (proj2 (proj2 Hst)).
      * right; right. exists a, s0. split; [|done]. exists (c, w'). unfold epochs. cbn. set_solver.
  - right; left. exists j, m'. split_and!; [done| |done].
    destruct Hs as [past c w w' Hs|past c w c2 w2 (_ & _ & Hn)|past c w w' disk c2 w2 Hs _ (_ & _ & Hn)]; cbn in *.
    + by eapply net_step_executed.
    + by rewrite Hn.
    + rewrite Hn. by eapply net_step_executed.
  - right; right. exists a, s0. split; [by eapply happened_mono|done].
Qed.

(** A message that one life has accounted for, all later ones do. *)
Lemma life_accounted_ever c0 w0 x x' m : lives c0 w0 x → rtc life_step x x' → life_accounted x m → life_accounted x' m.
Proof.
  intros Hl Hr. induction Hr as [x|x y z Hs _ IH]; [done|]. intros Ha. apply IH.
  - destruct Hl as [Hi Hr]. split; [done|by eapply rtc_r].
  - by eapply life_accounted_step.
Qed.

(** A message that a listener sent, whose queue was empty, in whatever life. *)
Lemma lives_accounted c0 w0 x x' i ch b m :
  lives c0 w0 x → rl_chains (n_relayer (now_ x)) !! nid i = Some ch → listenerChan ch = [] →
  b ∈ feeds (f x.2.1 i) (n_sides (now_ x) i) → m ∈ bi_Messages b → rtc life_step x x' → life_accounted x' m.
Proof.
  intros Hl Hc Hempty Hb Hm Hr. destruct (lives_run c0 w0 x Hl) as [w1 Hrun]. eapply life_accounted_ever; [done..|].
  apply accounted_life. by eapply (net_accounted nid (f x.2.1) d).
Qed.

(** * Where messages come from *)

(** A listener sent it, it was given, in whatever life; or it was in the message
    store when the first life began. *)
Inductive life_origin w0 x (m : MessageOf Z) : Prop :=
| life_from_listener e i b : e ∈ epochs x → b ∈ feeds (f e.1 i) (n_sides e.2 i) → m ∈ bi_Messages b → life_origin w0 x m
| life_from_action a s0 : happened x a s0 → given a m → life_origin w0 x m
| life_from_store k v (r : RouteMessageOf Z) :
    contents (rl_db (n_relayer w0)) !! k = Some v → HasPrefix k (GetKey [prefixMessageStore; ""]) = true →
    Unmarshal v = Ok r → rm_Message r = m → life_origin w0 x m.

Lemma life_origin_mono w0 x x' m : life_step x x' → life_origin w0 x m → life_origin w0 x' m.
Proof.
  intros Hs [e i b Hw Hb Hm|a s0 Ha Hg|k v r ? ? ? ?].
  - destruct (epochs_mono (λ e, b ∈ feeds (f e.1 i) (n_sides e.2 i)) x x') as (e' & ? & ?); [|done|by exists e|].
    + intros c y z Hyz. by apply (net_step_feeds nid (f c) d).
    + by eapply life_from_listener.
  - eapply life_from_action; [by eapply happened_mono|done].
  - by eapply life_from_store.
Qed.

(** The present life began in [w1], with nothing that has no origin. *)
Record genuine w0 x w1 : Prop := {
  ge_run : net_run x.2.1 w1 x.2.2;
  ge_store k v (r : RouteMessageOf Z) :
    contents (rl_db (n_relayer w1)) !! k = Some v → HasPrefix k (GetKey [prefixMessageStore; ""]) = true →
    Unmarshal v = Ok r → life_origin w0 x (rm_Message r);
  ge_executed j m : executed (d j) (n_nodes w1 j) m →
    executed (d j) (n_nodes w0 j) m ∨ (life_origin w0 x m ∧ m_Dst m = nid j) }.

Lemma genuine_origin w0 x w1 m : genuine w0 x w1 → origin (f x.2.1) w1 x.2.2 m → life_origin w0 x m.
Proof.
  intros Hg [i b Hb Hm|a s0 Ha Hgv|k v r Hk Hp Hu <-].
  - by eapply (life_from_listener _ _ _ x.2); [apply epochs_present|..].
  - eapply life_from_action; [|done]. exists x.2. split; [apply epochs_present|done].
  - by eapply ge_store.
Qed.

Lemma genuine_executed w0 x w1 j m : genuine w0 x w1 → executed (d j) (n_nodes (now_ x) j) m →
  executed (d j) (n_nodes w0 j) m ∨ (life_origin w0 x m ∧ m_Dst m = nid j).
Proof.
  intros Hg He. destruct (no_executed _ _ _ _ _ (net_run_ok nid (f x.2.1) d w1 x.2.2 (ge_run _ _ _ Hg)) j m He) as [He1|[Ho Hd]].
  - by apply (ge_executed _ _ _ Hg).
  - right. split; [by eapply genuine_origin|done].
Qed.

Lemma genuine_step w0 past c w w' w1 : net_step c w w' → genuine w0 (past, (c, w)) w1 → genuine w0 (past, (c, w')) w1.
Proof.
  intros Hs [[Hi Hr] Hst Hex]. pose proof (λ m, life_origin_mono w0 _ _ m (life_goes_on past c w w' Hs)) as Hmono. split.
  - split; [done|by eapply rtc_r].
  - intros k v r ? ? ?. by eapply Hmono, Hst.
  - intros j m [?|[? ?]]%Hex; [by left|right]. split; [by apply Hmono|done].
Qed.

(** The next life begins on contents that the database had in the last one. *)
Lemma genuine_starts w0 past c w disk c2 w2 w1 :
  genuine w0 (past, (c, w)) w1 → disk = contents (rl_db (n_relayer w)) ∨ disk ∈ versions (rl_db (n_relayer w)) →
  starts disk (n_nodes w) c2 w2 → genuine w0 (past ++ [(c, w)], (c2, w2)) w2.
Proof.
  intros Hg Hdisk Hst. pose proof (starts_db _ _ _ _ Hst) as Hdb. pose proof (ge_run _ _ _ Hg) as Hrun. destruct Hst as (Hi2 & _ & Hn).
  assert (∀ m, life_origin w0 (past, (c, w)) m → life_origin w0 (past ++ [(c, w)], (c2, w2)) m) as Hmono.
  { intros m [e i b He ? ?|a s0 (e & He & ?) ?|k v r ? ? ? ?].
    - eapply (life_from_listener _ _ _ e); [|done..]. unfold epochs in *. cbn in *. set_solver.
    - eapply life_from_action; [|done]. exists e. split; [|done]. unfold epochs in *. cbn in *. set_solver.
    - by eapply life_from_store. }
  split.
  - split; [done|apply rtc_refl].
  - intros k v r. rewrite Hdb. intros Hk Hp Hu. apply Hmono. eapply genuine_origin; [exact Hg|].
    destruct (au_db _ _ (no_authentic _ _ _ _ _ (net_run_ok nid (f c) d w1 w Hrun))) as (_ & Hnow & Hver).
    destruct Hdisk as [->|Hin]; [by eapply Hnow|by eapply (Hver disk Hin)].
  - intros j m. rewrite Hn. intros [?|[? ?]]%(genuine_executed w0 (past, (c, w)) w1 j m Hg); [by left|right]. split; [by apply Hmono|done].
Qed.

Lemma elem_of_written w w' disk : disk ∈ written w w' → disk ∈ versions (rl_db (n_relayer w')).
Proof. intros Hin. eapply elem_of_submseteq; [exact Hin|]. apply sublist_submseteq, sublist_drop. Qed.

Lemma lives_genuine c0 w0 x : lives c0 w0 x → ∃ w1, genuine w0 x w1.
Proof.
  intros Hl. apply (lives_ind c0 w0 (λ x, ∃ w1, genuine w0 x w1) x Hl).
  - exists w0. split; [split; [apply Hl|apply rtc_refl]| |by left]. intros k v r ? ? ?. by eapply life_from_store.
  - intros y z Hy [past c w w' Hs|past c w c2 w2 Hst|past c w w' disk c2 w2 Hs Hdisk Hst] [w1 Hg].
    + exists w1. by eapply genuine_step.
    + exists w2. eapply genuine_starts; [exact Hg|by left|exact Hst].
    + exists w2. eapply genuine_starts; [by eapply genuine_step|right; by eapply elem_of_written|exact Hst].
Qed.

(** * Marks and deliveries, in every life *)

(** Every provider keeps the laws of [Route]. *)
Context (lawful : ∀ i n m out n', routes (d i) n m out n' → route_law m out).

(** In all lives an operator put back nothing but what was stored. *)
Definition always_stored x : Prop := ∀ e, e ∈ epochs x → puts_back_stored e.2.

Lemma always_stored_before x x' : life_step x x' → always_stored x' → always_stored x.
Proof.
  intros Hs Hall e He a s0 Hin. assert (happened x a s0) as Hhap by by exists e.
  apply (happened_mono x x' a s0 Hs) in Hhap as (e' & He' & Hin'). by apply (Hall e' He' a s0).
Qed.

(** No life begins with a mark in the message store. *)
Lemma lives_rows c0 w0 x :
  lives c0 w0 x → rows_idle (rl_db (n_relayer w0)) → always_stored x →
  ∃ w1, net_run x.2.1 w1 x.2.2 ∧ rows_idle (rl_db (n_relayer w1)) ∧ puts_back_stored (now_ x).
Proof.
  intros Hl Hrows Hall. cut (∃ w1, net_run x.2.1 w1 x.2.2 ∧ rows_idle (rl_db (n_relayer w1))).
  { intros (w1 & ? & ?). exists w1. split_and!; [done..|]. apply Hall, epochs_present. }
  revert Hall. apply (lives_ind c0 w0 (λ x, always_stored x → ∃ w1, net_run x.2.1 w1 x.2.2 ∧ rows_idle (rl_db (n_relayer w1))) x Hl).
  - intros _. exists w0. split; [|done]. split; [apply Hl|apply rtc_refl].
  - intros y z _ Hs IH Hz. pose proof (always_stored_before y z Hs Hz) as Hy. destruct (IH Hy) as (w1 & Hrun & Hr1). clear IH.
    assert (∀ c w disk c2 w2, net_run c w1 w → puts_back_stored w →
      disk = contents (rl_db (n_relayer w)) ∨ disk ∈ versions (rl_db (n_relayer w)) → starts disk (n_nodes w) c2 w2 →
      ∃ w3, net_run c2 w3 w2 ∧ rows_idle (rl_db (n_relayer w3))) as Hnext.
    { intros c w disk c2 w2 Hrun' Hput Hdisk Hst. exists w2. pose proof Hst as (Hi2 & _ & _). split; [split; [done|apply rtc_refl]|].
      destruct (net_run_marked nid (f c) d lawful w1 w Hrun' Hr1 Hput) as (K & E & T & Hm & _).
      destruct (mk_rows _ _ _ _ _ Hm) as (_ & Hnow & Hver). apply rows_ok_opened; [apply Hi2..|]. rewrite (starts_db _ _ _ _ Hst).
      destruct Hdisk as [->|Hin]; [done|by apply Hver]. }
    destruct Hs as [past c w w' Hs|past c w c2 w2 Hst|past c w w' disk c2 w2 Hs Hdisk Hst]; cbn [fst snd] in *.
    + exists w1. split; [|done]. split; [apply Hrun|]. eapply rtc_r; [apply Hrun|done].
    + eapply Hnext; [exact Hrun|apply (Hy (c, w)), (epochs_present (past, (c, w)))|by left|exact Hst].
    + eapply (Hnext c w' disk c2 w2); [split; [apply Hrun|eapply rtc_r; [apply Hrun|done]]| |right; by eapply elem_of_written|exact Hst].
      apply (Hz (c, w')). unfold epochs. cbn. set_solver.
Qed.

Lemma lives_mark c0 w0 x n k p r :
  lives c0 w0 x → rows_idle (rl_db (n_relayer w0)) → always_stored x →
  cached (n_relayer (now_ x)) n k p → rl_heap (n_relayer (now_ x)) !! p = Some r →
  rm_Processing r = true ↔ ∃ i dst started, rl_tasks (n_relayer (now_ x)) !! i = Some (mkTask p dst n started).
Proof.
  intros Hl Hrows Hall. destruct (lives_rows c0 w0 x Hl Hrows Hall) as (w1 & ? & ? & ?). by eapply (net_mark nid (f x.2.1) d lawful).
Qed.

Lemma lives_deliver c0 w0 x n k p r prov now i (b : BigInt) out n' :
  lives c0 w0 x → rows_idle (rl_db (n_relayer w0)) → always_stored x →
  cached (n_relayer (now_ x)) n k p → rl_heap (n_relayer (now_ x)) !! p = Some r → rm_Processing r = false →
  m_Sn (rm_Message r) = Some b → m_Dst (rm_Message r) = nid i → ready prov now n r (n_relayer (now_ x)) = true →
  MessageReceived (prov (nid i)) k = Ok false →
  routes (d i) (n_nodes (now_ x) i) (rm_Message r) out n' → out.2 = Ok tt →
  ∃ w', rtc (net_step x.2.1) x.2.2 w' ∧ executed (d i) (n_nodes w' i) (message_wire (rm_Message r)) ∧
    uncached p (n_relayer w') ∧ contents (rl_db (n_relayer w')) !! row_of k = None.
Proof.
  intros Hl Hrows Hall. destruct (lives_rows c0 w0 x Hl Hrows Hall) as (w1 & ? & ? & ?). by eapply (net_deliver nid (f x.2.1) d lawful).
Qed.

(** ** After a restart *)

(** What a flush reads of a chain can be read, and has serial numbers. *)
Definition loads (db : St) (n : string) : Prop :=
  ∃ l, getActiveMessagesFromStore db n maxFlushMessage = Ok l ∧ Forall (λ m, m_Sn (rm_Message m) ≠ None) l.

Lemma flush_other n order s :
  fresh_ok s → n ∉ order → (∀ x : string, x ∈ order → is_Some (rl_chains s !! x) ∧ loads (rl_db s) x) →
  wp (flushMessages order) (λ _ s', fresh_ok s' ∧ rl_db s' = rl_db s ∧ rl_chains s' !! n = rl_chains s !! n ∧
    rl_heap s ⊆ rl_heap s' ∧ ∀ x : string, is_Some (rl_chains s' !! x) ↔ is_Some (rl_chains s !! x)) s.
Proof.
  intros Hf Hn Hload. apply (wpx_for_each_prefix _ order _ (λ _ s', fresh_ok s' ∧ rl_db s' = rl_db s ∧
    rl_chains s' !! n = rl_chains s !! n ∧ rl_heap s ⊆ rl_heap s' ∧ ∀ x : string, is_Some (rl_chains s' !! x) ↔ is_Some (rl_chains s !! x))).
  { by split_and!. }
  intros dn x rest s1 E (Hf1 & Hdb & Hc & Hh & Hk). destruct (Hload x) as (Hx & l & Hl & Hsn); [rewrite E; set_solver|].
  apply wpx_bind, wpx_gets. rewrite Hdb, Hl. eapply wpx_mono.
  - apply add_all_added; [|done|by apply Hk|done]. intros m s2 Q HQ. by apply wpx_assoc.
  - intros [] s2 Had. split_and!; [apply Had|rewrite (ad_db _ _ _ _ Had); done| |etrans; [done|apply Had]|].
    + rewrite (ad_other _ _ _ _ Had); [done|]. intros ->. apply Hn. rewrite E. set_solver.
    + intros y. by rewrite (ad_known _ _ _ _ Had).
Qed.

Lemma wp_for_each_app {A} (l k : list A) (body : A → proc (Relayer St) unit) (Q : unit → Relayer St → Prop) s :
  wp (for_each l body) (λ _ s', wp (for_each k body) Q s') s → wp (for_each (l ++ k) body) Q s.
Proof.
  unfold wpx at 1. destruct (for_each l body s) as [[s1 []]|] eqn:E; [|done].
  unfold wpx. by rewrite (for_each_app l k body s s1 E).
Qed.

(** A flush of all chains: every message read for [n] is in its cache. *)
Lemma flush_reads n order s l :
  fresh_ok s → NoDup order → n ∈ order → (∀ x : string, x ∈ order → is_Some (rl_chains s !! x) ∧ loads (rl_db s) x) →
  getActiveMessagesFromStore (rl_db s) n maxFlushMessage = Ok l →
  wp (flushMessages order) (λ _ s', rl_db s' = rl_db s ∧ (∀ x : string, is_Some (rl_chains s' !! x) ↔ is_Some (rl_chains s !! x)) ∧
    ∀ m, m ∈ l → ∃ k p r, cached s' n k p ∧ rl_heap s' !! p = Some r ∧ route_wire r = m) s.
Proof.
  intros Hf Hnd Hn Hload Hl. apply list_elem_of_split in Hn as (o1 & o2 & ->).
  apply NoDup_app in Hnd as (_ & Hd & [Hn2 _]%NoDup_cons).
  unfold flushMessages. apply wp_for_each_app. eapply wpx_mono.
  { apply (flush_other n o1); [done| |intros x Hx; apply Hload; set_solver]. intros Hin. eapply Hd; [done|by left]. }
  intros [] s1 (Hf1 & Hdb1 & Hc1 & Hh1 & Hk1). cbn [for_each]. apply wpx_bind, wpx_bind, wpx_gets. rewrite Hdb1, Hl.
  destruct (Hload n) as (Hn0 & l' & Hl' & Hsn); [set_solver|]. rewrite Hl in Hl'. injection Hl' as <-. eapply wpx_mono.
  { apply add_all_added; [|done|by apply Hk1|done]. intros m s2 Q HQ. by apply wpx_assoc. }
  intros [] s2 Had. eapply wpx_mono.
  { apply (flush_other n o2); [apply Had|done|]. intros x Hx. rewrite (ad_known _ _ _ _ Had), Hk1. destruct (Hload x) as [? Hlx]; [set_solver|].
    split; [done|]. by rewrite (ad_db _ _ _ _ Had), Hdb1. }
  intros [] s3 (_ & Hdb3 & Hc3 & Hh3 & Hk3). split_and!; [rewrite Hdb3, (ad_db _ _ _ _ Had); done| |].
  - intros x. by rewrite Hk3, (ad_known _ _ _ _ Had), Hk1.
  - intros m Hm. destruct (ad_new _ _ _ _ Had m Hm) as (k & p & r & _ & Hk & Hp & Hw). exists k, p, r. split_and!; [|by eapply lookup_weaken|done].
    unfold cached, chain_cache in *. by rewrite Hc3.
Qed.

Lemma initial_fresh s : initial s → fresh_ok s.
Proof.
  intros (Hh & _ & Hc). split.
  - intros p r. by rewrite Hh, lookup_empty.
  - intros n k p b. unfold chain_cache. destruct (rl_chains s !! n) as [c|] eqn:E; [|done]. by destruct (Hc n c E) as [_ ->].
Qed.

(** The flush timer of the router, first thing in a life. *)
Lemma net_flushes c w n l prov :
  net_initial (f c) w → (∀ x : string, is_Some (rl_chains (n_relayer w) !! x) → loads (rl_db (n_relayer w)) x) →
  is_Some (rl_chains (n_relayer w) !! n) → getActiveMessagesFromStore (rl_db (n_relayer w)) n maxFlushMessage = Ok l →
  ∃ w', net_step c w w' ∧ n_nodes w' = n_nodes w ∧ puts_back_stored w' ∧
    (∀ x : string, is_Some (rl_chains (n_relayer w') !! x) ↔ is_Some (rl_chains (n_relayer w) !! x)) ∧
    ∀ m, m ∈ l → ∃ k p r, cached (n_relayer w') n k p ∧ rl_heap (n_relayer w') !! p = Some r ∧ route_wire r = m.
Proof.
  intros Hi Hload [ch Hc] Hl. set (s := n_relayer w) in *. set (order := (map_to_list (rl_chains s)).*1).
  assert (∀ x : string, x ∈ order → is_Some (rl_chains s !! x)) as Hknown.
  { intros x ([x' c'] & -> & Hin%elem_of_map_to_list)%list_elem_of_fmap. by exists c'. }
  assert (n ∈ order) as Hn by (apply list_elem_of_fmap; exists (n, ch); split; [done|by apply elem_of_map_to_list]).
  pose proof (flush_reads n order s l (initial_fresh s (ni_relayer _ _ Hi)) (NoDup_fst_map_to_list _) Hn
    (λ (x : string) Hx, conj (Hknown x Hx) (Hload x (Hknown x Hx))) Hl) as Hw.
  unfold wpx in Hw. destruct (flushMessages order s) as [[s' []]|] eqn:Hrun; [|done]. destruct Hw as (_ & Hk & Hm).
  set (a := Router prov 0 order ((λ x : string, (x, [])) <$> order) flushTimer).
  assert (exec true [a] s = Some s') as Hex.
  { apply run_exec; [|done|exact Hrun]. cbn [enabled a]. split_and!; [done| |].
    - by rewrite <-list_fmap_compose, list_fmap_id.
    - apply Forall_fmap, Forall_true. intros x. constructor. }
  eexists. split; [by apply (net_acts nid (f c) d w a s' eq_refl)|]. cbn. split_and!; [done| |done|done].
  intros a' s0 [Hin|[= -> ->]%list_elem_of_singleton]%elem_of_app; [|done]. rewrite (ni_hist _ _ Hi) in Hin. by apply elem_of_nil in Hin.
Qed.

(** A message that is in the message store when a life begins can be delivered:
    the flush reads it, and the way goes on from there. *)
Lemma restart_delivers c0 w0 past c1 w1 n l m i prov now (b : Z) :
  lives c0 w0 (past, (c1, w1)) → rows_idle (rl_db (n_relayer w0)) → always_stored (past, (c1, w1)) → net_initial (f c1) w1 →
  (∀ x : string, is_Some (rl_chains (n_relayer w1) !! x) → loads (rl_db (n_relayer w1)) x) →
  is_Some (rl_chains (n_relayer w1) !! n) → getActiveMessagesFromStore (rl_db (n_relayer w1)) n maxFlushMessage = Ok l → m ∈ l →
  m_Sn (rm_Message m) = Some b → m_Dst (rm_Message m) = nid i →
  (∀ r, route_wire r = m → ready prov now n r (n_relayer w1) = true ∧ MessageReceived (prov (nid i)) (rm_key r) = Ok false ∧
     ∃ out n', routes (d i) (n_nodes w1 i) (rm_Message r) out n' ∧ out.2 = Ok tt) →
  ∃ w', rtc (net_step c1) w1 w' ∧ executed (d i) (n_nodes w' i) (rm_Message m) ∧
    contents (rl_db (n_relayer w')) !! wire_row (rm_Message m) = None.
Proof.
  intros Hl Hrows Hall Hi1 Hload Hn Hget Hm Hsn Hdst Hgo.
  destruct (lives_rows c0 w0 (past, (c1, w1)) Hl Hrows Hall) as (wb & Hrun & Hrb & Hput). cbn in Hrun, Hput.
  destruct (net_run_marked nid (f c1) d lawful wb w1 Hrun Hrb Hput) as (K & E & T & Hmk & _).
  pose proof (mk_rows _ _ _ _ _ Hmk) as Hidle.
  destruct (net_flushes c1 w1 n l prov Hi1 Hload Hn Hget) as (w2 & Hs & Hn2 & Hput2 & Hk2 & Hnew).
  destruct (Hnew m Hm) as (k & p & r & Hc & Hp & Hr). destruct (Hgo r Hr) as (Hready & Hrec & out & n' & Hro & Hok).
  assert (message_wire (rm_Message r) = rm_Message m) as Hrm by by rewrite <-Hr.
  assert (net_run c1 w1 w2) as Hrun2 by (split; [done|by apply rtc_once]).
  destruct (net_run_Inv c1 w1 w2 Hrun2) as [HI2 _]. destruct (inv_cached _ _ HI2 _ _ _ Hc) as (r' & Hr' & Hkey).
  assert (r' = r) as -> by congruence.
  assert (∃ b', m_Sn (rm_Message r) = Some b') as [b' Hsn'].
  { rewrite <-Hrm in Hsn. cbn in Hsn. unfold sn_val in Hsn. destruct (m_Sn (rm_Message r)); [by eexists|done]. }
  destruct (net_deliver nid (f c1) d lawful w1 w2 n k p r prov now i b' out n') as (w' & Hrtc & He & _ & Hrow); try done.
  - change (rm_Processing (route_wire r) = false). rewrite Hr. exact (rows_ok_listed _ _ n maxFlushMessage l m Hidle Hget Hm).
  - change (m_Dst (message_wire (rm_Message r)) = nid i). by rewrite Hrm.
  - unfold ready, known in *. by erewrite bool_decide_ext by apply Hk2.
  - by rewrite <-Hkey.
  - by rewrite Hn2.
  - exists w'. split; [by eapply rtc_l|]. rewrite <-Hrm at 1. split; [done|]. by rewrite <-Hrm, <-row_of_wire, <-Hkey in *.
Qed.
End Lives.
