(* ===== verification/Supervisor.v ===== *)
(** Package relayer: the goroutines of [Start] and the wait of the [start] command
    (relay.go, cmd/start.go).

    One goroutine per chain listens and one takes its blocks; each kind runs in an
    [errgroup], whose [Wait] answers once all of them have returned, with the
    first error.  The answers go into a channel that holds one error, and the
    command ends with what it reads there. *)
From stdpp Require Import gmap strings list.
From Stdlib Require Import ZArith Lia.
From S2P Require Import Prelude GoStd Types Relay.
Open Scope Z_scope.

Module Supervisor.

(** * errgroup *)

(** The goroutines that run, and the first error returned. *)
Record Group := mkGroup { gr_running : gset string; gr_err : error }.

Definition go_returns (nid : string) (err : error) (g : Group) : Group :=
  mkGroup (gr_running g ∖ {[nid]}) (match gr_err g with Some e => Some e | None => err end).
(** [None]: it blocks. *)
Definition Wait (g : Group) : option error := if decide (gr_running g = ∅) then Some (gr_err g) else None.

(** * The relayer's goroutines *)

Definition Canceled : string := "context canceled".

(** [su_reported]: whether [StartChainListeners] and [StartBlockProcessors] have
    returned; [su_command]: what [start] returned with. *)
Record Super := mkSuper {
  su_cancelled : bool;
  su_listeners : Group;
  su_listeners_reported : bool;
  su_processors : Group;
  su_processors_reported : bool;
  su_errorChan : list string;
  su_command : option error }.

(** [Start], over the chains. *)
Definition Start_goroutines (chains : gset string) : Super :=
  mkSuper false (mkGroup chains None) false (mkGroup chains None) false [] None.

Inductive event : Type :=
(* the listener of a chain returns; a block processor sees the cancellation *)
| ListenerReturns (nid : string) (err : error)
| ProcessorReturns (nid : string)
(* the goroutine behind a group goes on *)
| StartChainListeners
| StartBlockProcessors
| Cancel
(* the command takes an error from the channel *)
| CommandReads.

(** [if err := eg.Wait(); err != nil { errCh <- err }], on a channel of one. *)
Definition report (g : Group) (errCh : list string) : option (list string) :=
  err ← Wait g;
  match err with
  | None => Some errCh
  | Some e => match errCh with [] => Some [e] | _ => None end
  end.

(** What [start] makes of it. *)
Definition command_error (e : string) : error := if decide (e = Canceled) then None else Some e.

Definition step (ev : event) (s : Super) : option Super :=
  let '(mkSuper c ls lr ps pr ch cmd) := s in
  match ev with
  | ListenerReturns nid err =>
      if decide (nid ∈ gr_running ls) then Some (mkSuper c (go_returns nid err ls) lr ps pr ch cmd) else None
  | ProcessorReturns nid =>
      if decide (nid ∈ gr_running ps ∧ c = true) then Some (mkSuper c ls lr (go_returns nid (Some Canceled) ps) pr ch cmd) else None
  | StartChainListeners =>
      if lr then None else ch ← report ls ch; Some (mkSuper c ls true ps pr ch cmd)
  | StartBlockProcessors =>
      if pr then None else ch ← report ps ch; Some (mkSuper c ls lr ps true ch cmd)
  | Cancel => Some (mkSuper true ls lr ps pr ch cmd)
  | CommandReads =>
      match cmd, ch with
      | None, e :: ch => Some (mkSuper c ls lr ps pr ch (Some (command_error e)))
      | _, _ => None
      end
  end.

Fixpoint run (l : list event) (s : Super) : option Super :=
  match l with [] => Some s | ev :: l => s ← step ev s; run l s end.

(** * When the command hears of it *)

(** Nothing is heard before a group is through, and the processors only stop when
    the context is cancelled. *)
Record sound (chains : gset string) (s : Super) : Prop := {
  so_heard : su_errorChan s ≠ [] ∨ su_command s ≠ None →
    su_listeners_reported s = true ∨ su_processors_reported s = true;
  so_listeners : su_listeners_reported s = true → gr_running (su_listeners s) = ∅;
  so_processors : su_processors_reported s = true → gr_running (su_processors s) = ∅;
  so_cancelled : su_cancelled s = false → gr_running (su_processors s) = chains;
  so_subset : gr_running (su_listeners s) ⊆ chains;
  so_error : gr_err (su_processors s) = None → gr_running (su_processors s) = chains;
  so_told : su_processors_reported s = true → gr_err (su_processors s) ≠ None →
    su_errorChan s ≠ [] ∨ su_command s ≠ None }.

Lemma sound_start chains : sound chains (Start_goroutines chains).
Proof. split; cbn; try done. by intros []. Qed.

Lemma report_running g ch ch' : report g ch = Some ch' → gr_running g = ∅.
Proof. unfold report, Wait. by destruct (decide (gr_running g = ∅)). Qed.

Lemma report_tells g ch ch' : report g ch = Some ch' → ch ≠ [] ∨ gr_err g ≠ None → ch' ≠ [].
Proof. unfold report, Wait. destruct (decide _), (gr_err g), ch; cbn; intros [= <-]; naive_solver. Qed.

Lemma sound_step chains ev s s' : sound chains s → step ev s = Some s' → sound chains s'.
Proof.
  intros [Hh Hl Hp Hc Hs He Ht]. destruct s as [c ls lr ps pr ch cmd]. cbn in *. destruct ev as [nid err|nid| | | |]; cbn.
  - case_decide; [|done]. intros [= <-]. split; cbn; try done; [|set_solver]. intros Hr. rewrite (Hl Hr). set_solver.
  - case_decide as Hd; [|done]. destruct Hd as [Hin ->]. intros [= <-].
    split; cbn; try done; [|by destruct (gr_err ps)|]; intros Hr; rewrite (Hp Hr) in Hin; set_solver.
  - destruct lr; [done|]. destruct (report ls ch) as [ch'|] eqn:Hrep; [|done]. cbn. intros [= <-].
    split; cbn; try done; [by left|intros _; by eapply report_running|].
    intros Hr He'. destruct (Ht Hr He') as [Hn|?]; [|by right]. left. eapply report_tells; [exact Hrep|by left].
  - destruct pr; [done|]. destruct (report ps ch) as [ch'|] eqn:Hrep; [|done]. cbn. intros [= <-].
    split; cbn; try done; [by right|intros _; by eapply report_running|].
    intros _ He'. left. eapply report_tells; [exact Hrep|by right].
  - intros [= <-]. by split; cbn.
  - destruct cmd; [done|]. destruct ch as [|e ch]; [done|]. intros [= <-].
    split; cbn; try done; [intros _; apply Hh; by left|]. intros _ _. by right.
Qed.

Lemma sound_run chains l s s' : sound chains s → run l s = Some s' → sound chains s'.
Proof.
  revert s. induction l as [|ev l IH]; intros s Hs; cbn; [by intros [= <-]|].
  destruct (step ev s) as [s1|] eqn:Hst; [|done]. cbn. apply IH. by eapply sound_step.
Qed.

(** C16: a chain whose listener has failed is given up without a word: while the
    listener of another chain runs and nobody interrupts, the [start] command
    goes on waiting, whatever the other listeners returned with and however long
    ago. *)
Theorem dead_listener_unnoticed chains l s nid
  (Hrun : run l (Start_goroutines chains) = Some s)
  (Hother : nid ∈ gr_running (su_listeners s))
  (Hlive : su_cancelled s = false) :
  su_command s = None ∧ su_errorChan s = [] ∧
  ∀ nid' err, nid' ∈ gr_running (su_listeners s) → nid' ≠ nid →
    ∃ s', step (ListenerReturns nid' (Some err)) s = Some s' ∧ su_command s' = None ∧ su_errorChan s' = [] ∧
      step StartChainListeners s' = None ∧ step CommandReads s' = None.
Proof.
  pose proof (sound_run chains l _ s (sound_start chains) Hrun) as [Hh Hl Hp Hc Hs _ _].
  pose proof (Hs nid Hother) as Hch.
  assert (su_command s = None ∧ su_errorChan s = []) as [Hcmd Hchan].
  { destruct (su_command s) eqn:Hcmd, (su_errorChan s) eqn:Hchan; try done; exfalso;
      (destruct Hh as [Hr|Hr]; [first [by left|by right]|apply Hl in Hr; set_solver|apply Hp in Hr; rewrite (Hc Hlive) in Hr; set_solver]). }
  split; [done|]. split; [done|]. intros nid' err Hin Hne. destruct s as [c ls lr ps pr ch cmd]. cbn in *. subst cmd ch.
  rewrite decide_True by done. eexists. split; [reflexivity|]. cbn. split_and!; try done.
  destruct lr; [done|]. unfold report, Wait, go_returns. cbn. rewrite decide_False; [done|]. set_solver.
Qed.

(** ** Interrupted *)

(** The block processors of a cancelled relayer see it one after the other. *)
Lemma processors_return chains s :
  sound chains s → su_cancelled s = true →
  ∃ l s', run l s = Some s' ∧ Forall (λ ev, ∃ nid, ev = ProcessorReturns nid) l ∧ (length l ≤ size (gr_running (su_processors s)))%nat ∧
    sound chains s' ∧ gr_running (su_processors s') = ∅ ∧
    su_errorChan s' = su_errorChan s ∧ su_command s' = su_command s ∧ su_processors_reported s' = su_processors_reported s.
Proof.
  remember (gr_running (su_processors s)) as X eqn:HX. revert s HX. induction X as [|nid X Hni IH] using set_ind_L; intros s HX Hs Hc.
  - exists [], s. by split_and!.
  - destruct (step (ProcessorReturns nid) s) as [s1|] eqn:Hst.
    2:{ exfalso. destruct s as [c ls lr ps pr ch cmd]. cbn in *. subst c. rewrite decide_True in Hst; [done|]. split; [set_solver|done]. }
    pose proof (sound_step chains _ _ _ Hs Hst) as Hs1.
    assert (gr_running (su_processors s1) = X ∧ su_cancelled s1 = true ∧ su_errorChan s1 = su_errorChan s ∧
      su_command s1 = su_command s ∧ su_processors_reported s1 = su_processors_reported s) as (HX1 & Hc1 & Hch1 & Hcm1 & Hr1).
    { destruct s as [c ls lr ps pr ch cmd]. cbn in *. case_decide; [|done]. injection Hst as <-. cbn.
      split_and!; try done. rewrite <-HX. set_solver. }
    destruct (IH s1 (eq_sym HX1) Hs1 Hc1) as (l & s' & Hl & Hf & Hlen & Hs' & He & Hch & Hcm & Hr).
    exists (ProcessorReturns nid :: l), s'. cbn. rewrite Hst. cbn. rewrite size_union, size_singleton by set_solver.
    split_and!; [done|constructor; [by eexists|done]|lia|done|done|by rewrite Hch|by rewrite Hcm|by rewrite Hr].
Qed.

Lemma run_app l1 l2 s : run (l1 ++ l2) s = (s ← run l1 s; run l2 s).
Proof. revert s. induction l1 as [|ev l1 IH]; intros s; cbn; [done|]. destruct (step ev s); cbn; [apply IH|done]. Qed.

(** A relayer of at least one chain that is interrupted ends: from every state of
    it a few steps of its own goroutines end the command. *)
Lemma interrupted_ends chains l s :
  chains ≠ ∅ → run l (Start_goroutines chains) = Some s → su_cancelled s = true → su_command s = None →
  ∃ l' s', run l' s = Some s' ∧ is_Some (su_command s') ∧ (length l' ≤ size chains + 2)%nat.
Proof.
  intros Hne Hrun Hc Hcmd. pose proof (sound_run chains l _ s (sound_start chains) Hrun) as Hs.
  destruct (processors_return chains s Hs Hc) as (l1 & s1 & Hl1 & _ & Hlen & Hs1 & He & Hch & Hcm & Hr).
  assert (size (gr_running (su_processors s)) ≤ size chains)%nat as Hsz.
  { apply subseteq_size. assert (gr_running (su_processors s) ⊆ chains) as Hsub; [|exact Hsub].
    clear -Hrun. assert (∀ l s0, gr_running (su_processors s0) ⊆ chains → run l s0 = Some s → gr_running (su_processors s) ⊆ chains) as Hg.
    { clear. intros l. induction l as [|ev l IH]; intros s0 Hs0; cbn; [by intros [= <-]|].
      destruct (step ev s0) as [s1|] eqn:Hst; [|done]. cbn. apply IH. destruct s0 as [c ls lr ps pr ch cmd]. destruct ev; cbn in *.
      - case_decide; [|done]. by injection Hst as <-.
      - case_decide; [|done]. injection Hst as <-. cbn. set_solver.
      - destruct lr; [done|]. destruct (report ls ch); [|done]. by injection Hst as <-.
      - destruct pr; [done|]. destruct (report ps ch); [|done]. by injection Hst as <-.
      - by injection Hst as <-.
      - destruct cmd; [done|]. destruct ch; [done|]. by injection Hst as <-. }
    by apply (Hg l (Start_goroutines chains)). }
  destruct s1 as [c ls lr ps pr ch cmd]. cbn in *. subst cmd. rewrite Hcmd in *.
  destruct ch as [|e ch].
  - assert (gr_err ps ≠ None) as Herr.
    { intros Hn. destruct Hs1 as [_ _ _ _ _ Herr _]. cbn in Herr. rewrite (Herr Hn) in He. done. }
    destruct pr.
    { destruct Hs1 as [_ _ _ _ _ _ Ht]. cbn in Ht. by destruct (Ht eq_refl Herr). }
    destruct (gr_err ps) as [e|] eqn:Hpe; [|done].
    exists (l1 ++ [StartBlockProcessors; CommandReads]). eexists. rewrite run_app, Hl1. cbn. unfold report, Wait.
    rewrite decide_True, Hpe by done. cbn. split_and!; [reflexivity|by eexists|rewrite length_app; cbn; lia].
  - exists (l1 ++ [CommandReads]). eexists. rewrite run_app, Hl1. cbn.
    split_and!; [reflexivity|by eexists|rewrite length_app; cbn; lia].
Qed.

(** Without an enabled chain there is nothing to return an error: the command
    waits, interrupted or not. *)
Lemma no_chains_wait l s : run l (Start_goroutines ∅) = Some s → su_command s = None.
Proof.
  assert (∀ s0, gr_running (su_listeners s0) = ∅ → gr_err (su_listeners s0) = None → gr_running (su_processors s0) = ∅ →
    gr_err (su_processors s0) = None → su_errorChan s0 = [] → su_command s0 = None → run l s0 = Some s → su_command s = None) as Hg.
  { induction l as [|ev l IH]; intros s0 H1 H2 H3 H4 H5 H6; cbn; [by intros [= <-]|].
    destruct (step ev s0) as [s1|] eqn:Hst; [|done]. cbn. intros Hr. apply (IH s1); [..|exact Hr];
      destruct s0 as [c [rl el] lr [rp ep] pr ch cmd]; cbn in *; subst; clear -Hst; destruct ev; cbn in *;
      repeat match goal with
      | Hx : context [decide ?P] |- _ => destruct (decide P); [set_solver|]
      | Hx : (if ?b then _ else _) = Some _ |- _ => destruct b; [done|]
      end; try done; injection Hst as <-; done. }
  by apply Hg.
Qed.
(** Two chains: the listener of one returns at once. *)
Definition failed_b : Super :=
  mkSuper false (mkGroup {["a"]} (Some "no block number")) false (mkGroup {["a"; "b"]} None) false [] None.
Lemma runs_b : run [ListenerReturns "b" (Some "no block number")] (Start_goroutines {["a"; "b"]}) = Some failed_b.
Proof. vm_compute. reflexivity. Qed.
Lemma listens_a : "a" ∈ gr_running (su_listeners failed_b).
Proof. apply (bool_decide_unpack _). vm_compute. exact I. Qed.

Lemma dead_listener_unnoticed_witness :
  gr_err (su_listeners failed_b) = Some "no block number" ∧ su_command failed_b = None ∧ su_errorChan failed_b = [].
Proof.
  split; [reflexivity|].
  destruct (dead_listener_unnoticed {["a"; "b"]} [ListenerReturns "b" (Some "no block number")] failed_b "a" runs_b listens_a eq_refl)
    as (Hc & He & _).
  split; [exact Hc|exact He].
Defined.
End Supervisor.
