(* ===== verification/RelayWitness.v ===== *)
(** Concrete runs: the theorems on the stores, the relayer's operations and the
    transition system, applied to a relayer between two chains over the
    in-memory database. *)
From stdpp Require Import gmap strings list.
From Stdlib Require Import ZArith Lia.
From S2P Require Import Prelude GoStd Types Store LvlDB Concrete Provider Relay RelaySystem RelayCorrect RelayTermination.
Import BlockStore MessageStore FinalityStore.
Open Scope Z_scope.

(** * The stores *)

Definition sn7 : BigInt := mkBigInt 1 7.
Definition msg7 : Message := mkMessage "b" "a" (Some sn7) "d" 5 EmitMessage None.
Definition db0 : MemDB := ∅.
Definition db7 : MemDB := (StoreMessage prefixMessageStore db0 (Some (NewRouteMessage msg7))).1.

Lemma StoreMessage_GetMessage_witness : ∃ db' : MemDB,
  StoreMessage prefixMessageStore db0 (Some (NewRouteMessage msg7)) = (db', None) ∧
  GetMessage prefixMessageStore db' (mkMessageKey (Some (mkBigInt 9 7)) "a" "x" "y") =
    Ok (route_wire (NewRouteMessage msg7)).
Proof.
  destruct (StoreMessage_GetMessage prefixMessageStore db0 (NewRouteMessage msg7) sn7 (mem_healthy _) eq_refl
    ltac:(cbn; lia)) as (db' & Hs & _ & Hg).
  exists db'. split; [done|].
  rewrite (Hg _ (mkBigInt 9 7)); [done|done|cbn; lia].
Defined.

Lemma DeleteMessage_GetMessage_witness : ∃ db' : MemDB,
  DeleteMessage prefixMessageStore db7 (Message_MessageKey msg7) = (db', None) ∧
  GetMessage prefixMessageStore db' (Message_MessageKey msg7) = Err errNotFound.
Proof.
  destruct (DeleteMessage_GetMessage prefixMessageStore db7 (Message_MessageKey msg7) sn7 (mem_healthy _) eq_refl
    ltac:(cbn; lia)) as (db' & Hs & _ & Hg).
  exists db'. split; [done|]. rewrite (Hg _ sn7); [done|done|cbn; lia].
Defined.

Lemma db7_length : (length (prefix_rows db7 (GetKey [prefixMessageStore; "a"])) = 1)%nat.
Proof. vm_compute. reflexivity. Qed.

Lemma GetMessages_reference_witness :
  GetMessages prefixMessageStore db7 "a" NewPagination =
  res_mapM (Unmarshal ∘ snd) (prefix_rows db7 (GetKey [prefixMessageStore; "a"])).
Proof.
  refine (GetMessages_reference prefixMessageStore db7 "a" NewPagination (mem_healthy _) _ _); [cbn; lia|].
  change (contents db7) with db7. rewrite db7_length. lia.
Defined.

Lemma GetMessages_prefix_leak_witness : ∃ (db' : MemDB) l,
  GetMessages prefixMessageStore db' "0x1" (GetAll NewPagination) = Ok l ∧
  route_wire (NewRouteMessage (mkMessage "b" "0x13.icon" (Some sn7) "d" 5 EmitMessage None)) ∈ l.
Proof.
  destruct (GetMessages_prefix_leak prefixMessageStore db0 "0x1" "3.icon"
    (NewRouteMessage (mkMessage "b" "0x13.icon" (Some sn7) "d" 5 EmitMessage None)) (mem_healthy _))
    as (db' & l & _ & Hg & Hin).
  - intros k v Hk. change (contents db0) with (∅ : MemDB) in Hk. by rewrite lookup_empty in Hk.
  - reflexivity.
  - change (size (contents db0)) with 0%nat. lia.
  - by exists db', l.
Defined.

Lemma StoreBlock_GetLastStoredBlock_witness : ∃ db' : MemDB,
  StoreBlock prefixBlockStore db0 100 "a" = (db', None) ∧
  GetLastStoredBlock prefixBlockStore db' "a" = Ok 100.
Proof.
  destruct (StoreBlock_GetLastStoredBlock prefixBlockStore db0 100 "a" (mem_healthy _)) as (db' & Hs & _ & Hg).
  exists db'. split; [done|]. by rewrite Hg.
Defined.

Lemma LVLDB_ClearStore_empties_witness : ∃ d' : MemDB,
  LVLDB_ClearStore db7 = (d', None) ∧
  LVLDB_GetByKey d' (message_key prefixMessageStore "a" (Some 7)) = Err ldb_ErrNotFound.
Proof.
  destruct (LVLDB_ClearStore_empties db7 (mem_ok _)) as (d' & Hc & Hg & _). exists d'. split; [done|apply Hg].
Defined.

(** * A relayer between "a" and "b" *)

Definition key7 : MessageKey := Message_MessageKey msg7.
Definition prov0 (nid : string) : ChainProvider := {|
  QueryLatestHeight := Ok 200;
  QueryTransactionReceipt _ := Ok (Some (mkReceipt "0xdd" 150 false));
  Route _ := ([], Ok tt);
  ShouldReceiveMessage _ := Ok true;
  ShouldSendMessage _ := Ok true;
  MessageReceived _ := Ok false;
  FinalityBlock := 10;
  GenerateMessages _ := Ok [mkMessage "b" "a" (Some 7) "d" 5 EmitMessage None];
  p_RevertMessage _ := Ok tt;
  p_GetFee _ _ := Ok 0;
  p_SetFee _ _ _ := Ok tt;
  p_ClaimFee := Ok tt |}.

Definition rly0 : Relayer MemDB :=
  mkRelayer ∅ {[ "a" := mkChainRuntime [] 0 0 ∅; "b" := mkChainRuntime [] 0 0 ∅ ]} ∅ 1 [].

Definition listened : list action :=
  [Listen "a" 5 [mkMessage "b" "a" (Some 7) "d" 5 EmitMessage None]; ProcessBlock "a"].

(** The block is listened to, and its message routed and started. *)
Definition routed : list action := listened ++
  [Router prov0 9 ["a"; "b"] [("a", [key7]); ("b", [])] routeTimer; TaskStart 10 0].

Definition state (l : list action) : Relayer MemDB := default rly0 (exec false l rly0).

Lemma state_reachable l : is_Some (exec false l rly0) → reachable false rly0 (state l).
Proof.
  intros [s Hs]. unfold state. rewrite Hs. eapply exec_reachable; [apply reachable_refl|done].
Qed.

Lemma routed_runs : is_Some (exec false routed rly0).
Proof. vm_compute. eexists. reflexivity. Qed.

Lemma rly0_initial : initial rly0.
Proof.
  split_and!; [done..|]. intros nid c. unfold rly0. cbn [rl_chains].
  intros [[_ <-]|[_ [_ <-]%lookup_singleton_Some]]%lookup_insert_Some; done.
Qed.

Lemma rly0_db_wf : db_wf (rl_db rly0).
Proof.
  split; [apply mem_healthy|]. intros k v Hk.
  change (contents (rl_db rly0)) with (∅ : MemDB) in Hk. by rewrite lookup_empty in Hk.
Qed.

Lemma one_route_in_flight_witness :
  length (rl_tasks (state routed)) = 1%nat ∧ NoDup (tk_msg <$> rl_tasks (state routed)).
Proof.
  split; [vm_compute; reflexivity|].
  apply (one_route_in_flight false rly0 (state routed) rly0_initial (state_reachable _ routed_runs)).
Defined.

(** Two attempts that fail: the message has 15 tries, and 13 afterwards. *)
Definition attempted : list action :=
  [Router prov0 9 ["a"; "b"] [("a", [key7]); ("b", [])] routeTimer; TaskStart 10 0; TaskReturn 0 (Some "no");
   Router prov0 (10 ^ 12) ["a"; "b"] [("a", [key7]); ("b", [])] routeTimer; TaskStart (10 ^ 12) 0;
   TaskReturn 0 (Some "no")].
Definition after_attempts : Relayer MemDB := default rly0 (exec false attempted (state listened)).

Lemma listened_runs : is_Some (exec false listened rly0).
Proof. vm_compute. eexists. reflexivity. Qed.

Lemma routing_ends_witness :
  attempts attempted (state listened) = 2%nat ∧ tries_left (tries after_attempts) = 13%nat ∧
  (attempts attempted (state listened) + tries_left (tries after_attempts) =
   tries_left (tries (state listened)))%nat.
Proof.
  split; [vm_compute; reflexivity|]. split; [vm_compute; reflexivity|].
  apply (routing_ends rly0 (state listened) attempted after_attempts rly0_initial rly0_db_wf).
  - apply state_reachable, listened_runs.
  - repeat constructor.
  - vm_compute. reflexivity.
Defined.

Lemma cache_coherent_witness :
  chain_cache (state routed) "a" !! key7 = Some 2%positive ∧
  ∃ r, rl_heap (state routed) !! 2%positive = Some r ∧ rm_key r = key7.
Proof.
  assert (chain_cache (state routed) "a" !! key7 = Some 2%positive) as Hc by (vm_compute; reflexivity).
  split; [done|].
  apply (cache_coherent false rly0 (state routed) rly0_initial (state_reachable _ routed_runs) "a" key7 _ Hc).
Defined.

Lemma retry_bounded_witness : ∃ r, rl_heap (state routed) !! 2%positive = Some r ∧
  rm_Retry r = 1 ∧ backoff (rm_Retry r) = RetryInterval * 2 ^ rm_Retry r.
Proof.
  destruct (rl_heap (state routed) !! 2%positive) as [r|] eqn:Hr; [|vm_compute in Hr; discriminate].
  exists r. split; [done|]. split.
  - assert (rm_Retry <$> rl_heap (state routed) !! 2%positive = Some 1) as Hv by (vm_compute; reflexivity).
    rewrite Hr in Hv. by injection Hv.
  - by apply (proj1 (retry_bounded rly0 (state routed) rly0_initial rly0_db_wf
      (state_reachable _ routed_runs)) 2%positive r).
Defined.


(** * The operations *)

(** The message is cached under [key7], being routed. *)
Definition route7 (processing : bool) (retry : Z) : Types.RouteMessage :=
  mkRouteMessage msg7 retry processing 0.
Definition rly7 (processing : bool) (retry : Z) : Relayer MemDB :=
  mkRelayer db7 {[ "a" := mkChainRuntime [] 5 0 {[ key7 := 2%positive ]}; "b" := mkChainRuntime [] 200 0 ∅ ]}
    {[ 2%positive := route7 processing retry ]} 3 [].
Definition response7 (code : Z) : TxResponse := mkTxResponse 150 "0xdd" "" code "".

Lemma callback_success_witness :
  wp (callback prov0 "a" "b" key7 (response7 Success) None) (λ _ s',
    chain_cache s' "a" = delete key7 (chain_cache (rly7 true 1) "a")) (rly7 true 1).
Proof.
  eapply wpx_mono.
  - apply (callback_success prov0 "a" "b" key7 sn7 (response7 Success) None 2 (route7 true 1) (rly7 true 1));
      first [apply mem_healthy|vm_compute; reflexivity].
  - intros [] s' (rows & [] & _). done.
Defined.

Lemma callback_otherwise_witness :
  processMessage prov0 9 "a" key7 (rly7 true 1) = Some (rly7 true 1, tt).
Proof.
  apply (callback_otherwise prov0 prov0 "a" "b" "b" key7 (response7 Failed) None 9 2 (route7 true 1)
    (rly7 true 1)); first [vm_compute; reflexivity|by eexists|done].
Defined.

Lemma HandleMessageFailed_outcome_witness :
  wp (HandleMessageFailed 2 "b" "a") (λ _ s', s' = with_route 2 (route7 false 1) (rly7 true 1))
    (rly7 true 1) ∧
  wp (HandleMessageFailed 2 "b" "a") (λ _ s',
    chain_cache s' "a" = delete key7 (chain_cache (rly7 true 5) "a")) (rly7 true 5).
Proof.
  split; eapply wpx_mono.
  - apply (HandleMessageFailed_outcome 2 "b" "a" sn7 (route7 true 1) (rly7 true 1));
      first [apply mem_healthy|vm_compute; reflexivity].
  - by intros [] s' Hs.
  - apply (HandleMessageFailed_outcome 2 "b" "a" sn7 (route7 true 5) (rly7 true 5));
      first [apply mem_healthy|vm_compute; reflexivity].
  - by intros [] s' (v & [] & _).
Defined.

Lemma processMessage_routes_witness :
  wp (processMessage prov0 9 "a" key7) (λ _ s', rl_tasks s' = [mkTask 2 "b" "a" false]) (rly7 false 0).
Proof.
  eapply wpx_mono.
  - apply (processMessage_routes prov0 9 "a" key7 2 sn7 (route7 false 0) (rly7 false 0));
      first [apply mem_healthy|vm_compute; reflexivity|done].
  - intros [] s' (Ht & _). rewrite Ht. vm_compute. reflexivity.
Defined.

Lemma NewRelayer_resumes_witness : ∃ s, NewRelayer
    (StoreBlock prefixBlockStore db0 100 "a").1 [Some "a"; Some "b"] false = Ok s ∧
  saved_height s "a" = Some 100 ∧ saved_height s "b" = Some 0.
Proof.
  destruct (NewRelayer_resumes (StoreBlock prefixBlockStore db0 100 "a").1 ["a"; "b"] false
    (mem_healthy _)) as (s & Hs & _ & Hh & _).
  { intros nid [->|[->|[]%elem_of_nil]%elem_of_cons]%elem_of_cons; vm_compute; discriminate. }
  exists s. split; [exact Hs|]. rewrite !Hh. split; vm_compute; reflexivity.
Defined.

Lemma rly7_fresh b n : fresh_ok (rly7 b n).
Proof.
  split.
  - intros p r. unfold rly7. cbn [rl_heap rl_next]. intros [<- _]%lookup_singleton_Some. reflexivity.
  - intros nid k p c. unfold chain_cache, rly7. cbn [rl_chains rl_next].
    destruct (_ !! nid) as [ch|] eqn:E; [|done].
    apply lookup_insert_Some in E as [[_ <-]|[_ [_ <-]%lookup_singleton_Some]]; cbn [MessageCache]; [|done].
    intros [<- _]%lookup_singleton_Some [= <-]. vm_compute. reflexivity.
Qed.

Lemma flushMessages_adds_witness :
  wp (flushMessages ["a"]) (λ _ s', size (chain_cache s' "a") = 2%nat) (rly7 true 1).
Proof.
  eapply wpx_mono.
  - apply (flushMessages_adds "a" [route_wire (NewRouteMessage msg7)] (rly7 true 1) (rly7_fresh _ _));
      [by eexists|vm_compute; reflexivity|by repeat constructor].
  - intros [] s' (Hsz & _). rewrite Hsz. vm_compute. reflexivity.
Defined.

Definition tx7 : TransactionObjectOf BigInt := delivered_tx key7 (route7 true 1) (response7 Success).

Lemma CheckFinality_settles_witness :
  CheckFinality_tx prov0 "b" 10 155 tx7 (rly7 true 1) = Some (rly7 true 1, tt) ∧
  wp (CheckFinality_tx prov0 "b" 10 200 tx7) (λ _ s', size (chain_cache s' "a") = 2%nat) (rly7 true 1).
Proof.
  split.
  - apply (CheckFinality_settles prov0 "b" 10 155 tx7 (rly7 true 1) (mem_healthy _)). left. intros [_ Hf]. by vm_compute in Hf.
  - destruct (CheckFinality_settles prov0 "b" 10 200 tx7 (rly7 true 1) (mem_healthy _)) as (_ & _ & Hsettled).
    assert (is_final 10 200 tx7) as Hfin by (split; by vm_compute).
    destruct (Hsettled (mkReceipt "0xdd" 150 false) Hfin eq_refl) as [_ Hfailed].
    destruct (Hfailed eq_refl) as [_ Hknown]. destruct (Hknown ltac:(by eexists)) as (_ & _ & Hmsgs).
    eapply wpx_mono; [apply (Hmsgs [mkMessage "b" "a" (Some 7) "d" 5 EmitMessage None]);
      [reflexivity|apply rly7_fresh|by repeat constructor]|].
    intros [] s' (_ & Hsz & _). unfold tx7, key7 in Hsz. cbn in Hsz. rewrite Hsz. vm_compute. reflexivity.
Defined.

Lemma cleanExpired_deletes_witness :
  wp (cleanExpiredMessages (MessageExpiration + 1) ["a"]) (λ _ s',
    contents (rl_db s') !! row_of key7 = None) (rly7 true 1).
Proof.
  eapply wpx_mono.
  - apply (cleanExpired_deletes (MessageExpiration + 1) "a" [route_wire (NewRouteMessage msg7)]
      (rly7 true 1) (mem_healthy _) (rly7_fresh _ _));
      [unfold MessageExpiration, Second; lia|vm_compute; reflexivity|by repeat constructor].
  - intros [] s' [_ Hk]. rewrite Hk. vm_compute. reflexivity.
Defined.

Lemma processBlockInfo_takes_witness :
  wp (processBlockInfo "a" (mkBlockInfo 5 [msg7])) (λ _ s', taken "a" msg7 s') rly0.
Proof.
  eapply wpx_mono.
  - apply (processBlockInfo_takes "a" (mkBlockInfo 5 [msg7]) rly0 (mem_healthy _));
      [by eexists|unfold rly0; cbn [rl_heap]; by intros p r ?%lookup_empty_Some|apply NoDup_singleton|apply NoDup_singleton].
  - intros [] s' [_ Ht]. apply Ht. by left.
Defined.

(** * Double routing *)

(** What a flush and one more look of the router do while the first attempt is
    under way. *)
Definition double : list action := routed ++
  [Flush ["a"; "b"];
   Router prov0 11 ["a"; "b"] [("a", [mkMessageKey (Some (mkBigInt 3 7)) "a" "b" EmitMessage; key7]);
     ("b", [])] routeTimer].

Lemma double_runs : is_Some (exec false double rly0).
Proof. vm_compute. eexists. reflexivity. Qed.

(** C15: a message can be routed twice at the same time.  The flush reads the
    row of a message in flight back as a new entry, which the router routes
    while the first goroutine is still at work. *)
Theorem flush_routes_twice : ∃ s (t1 t2 : Task) r1 r2,
  reachable false rly0 s ∧ rl_tasks s = [t1; t2] ∧
  rl_heap s !! tk_msg t1 = Some r1 ∧ rl_heap s !! tk_msg t2 = Some r2 ∧
  tk_msg t1 ≠ tk_msg t2 ∧ message_wire (rm_Message r1) = message_wire (rm_Message r2) ∧
  rm_Processing r1 = true ∧ rm_Processing r2 = true.
Proof.
  pose proof (state_reachable _ double_runs) as Hr.
  exists (state double), (mkTask 2 "b" "a" true), (mkTask 4 "b" "a" false).
  destruct (rl_heap (state double) !! 2%positive) as [r1|] eqn:H1; [|by vm_compute in H1].
  destruct (rl_heap (state double) !! 4%positive) as [r2|] eqn:H2; [|by vm_compute in H2].
  exists r1, r2. split; [done|]. vm_compute in H1, H2. injection H1 as <-. injection H2 as <-.
  split_and!; vm_compute; done.
Qed.

(** * Between the halves of a failed attempt *)

Definition pass_at (now : Z) : fine_action :=
  FineRun (Router prov0 now ["a"; "b"] [("a", [key7]); ("b", [])] routeTimer).
Definition try_at (now : Z) : list fine_action := [pass_at now; FineRun (TaskStart now 0)].
Definition fails : list fine_action := [FineUnmark 0; FineStore 0].

(** The first four attempts fail; when the fifth has, after 193 seconds, the
    router looks at the message after it has lost its mark and before it is
    stored. *)
Definition raced : list fine_action :=
  (FineRun <$> listened) ++
  try_at (1000 * Second) ++ fails ++ try_at (2000 * Second) ++ fails ++ try_at (3000 * Second) ++ fails ++
  try_at (4000 * Second) ++ fails ++ try_at (5000 * Second) ++
  [FineUnmark 0; pass_at (5193 * Second); FineStore 0].
Definition raced_end : FineState := default (mkFine rly0 []) (fine_exec raced (mkFine rly0 [])).
Definition raced_db : MemDB := rl_db (fs_relayer raced_end).

(** The relayer that is started on the database, and what its flush makes of
    it. *)
Definition raced_new : Relayer MemDB :=
  match NewRelayer raced_db [Some "a"; Some "b"] false with Ok s => s | _ => rly0 end.
Definition raced_flushed : Relayer MemDB := default rly0 (fst <$> run (Flush ["a"; "b"]) raced_new).
Definition flushed_key : MessageKey := default key7 (fst <$> head (map_to_list (chain_cache raced_flushed "a"))).
Definition flushed_route : Types.RouteMessage := default (NewRouteMessage msg7) (rl_heap raced_flushed !! 2%positive).

Lemma raced_runs : rtc fine_step (mkFine rly0 []) raced_end.
Proof.
  assert (is_Some (fine_exec raced (mkFine rly0 []))) as [x Hx] by (vm_compute; eexists; reflexivity).
  apply (fine_exec_steps raced). unfold raced_end. by rewrite Hx.
Qed.

(** Every message in a cache carries the mark, and its destination is there. *)
Definition all_marked (s : Relayer MemDB) : bool :=
  forallb (λ c, forallb (λ k, match rl_heap s !! k.2 with
    | Some r => rm_Processing r && bool_decide (is_Some (rl_chains s !! m_Dst (rm_Message r)))
    | None => false
    end) (map_to_list (MessageCache c.2))) (map_to_list (rl_chains s)).
Lemma all_marked_spec s : all_marked s = true →
  ∀ n k p, chain_cache s n !! k = Some p → ∃ r, rl_heap s !! p = Some r ∧ rm_Processing r = true ∧
    is_Some (rl_chains s !! m_Dst (rm_Message r)).
Proof.
  intros Hall n k p Hk. unfold chain_cache in Hk. destruct (rl_chains s !! n) as [c|] eqn:Hc; [|by rewrite lookup_empty in Hk].
  unfold all_marked in Hall. rewrite forallb_forall in Hall.
  specialize (Hall (n, c) (proj1 (list_elem_of_In _ _) (proj2 (elem_of_map_to_list _ _ _) Hc))). rewrite forallb_forall in Hall.
  specialize (Hall (k, p) (proj1 (list_elem_of_In _ _) (proj2 (elem_of_map_to_list _ _ _) Hk))). cbn in Hall.
  destruct (rl_heap s !! p) as [r|]; [|done]. apply andb_true_iff in Hall as [? ?%bool_decide_eq_true]. by exists r.
Qed.

Lemma raced_flushed_marked : all_marked raced_flushed = true.
Proof. vm_compute. reflexivity. Qed.

(** C40: a failed message can keep its mark across a restart.
    [HandleMessageFailed] takes the mark off and then stores the message; when
    the router looks at the message in between, it marks it again, and the row
    is stored with the mark, while the cache loses the message.  This is reached
    from a relayer with an empty database, a message that is listened to and five
    attempts that fail, the last one after longer than its backoff of 192
    seconds, as an EVM delivery does whose receipt never comes.  When the process
    ends before the goroutine that the router started, the next one flushes the
    row into its cache as a message that is being routed: no goroutine routes
    it, and a router pass, whenever it comes and whatever the chains answer,
    leaves everything as it is. *)
Theorem failed_row_marked : ∃ x row s1 s2 k p r,
  rtc fine_step (mkFine rly0 []) x ∧ fs_failed x = [] ∧
  GetMessages prefixMessageStore (rl_db (fs_relayer x)) "a" NewPagination = Ok [row] ∧
  rm_Processing row = true ∧ rm_Retry row = MaxTxRetry ∧
  NewRelayer (rl_db (fs_relayer x)) [Some "a"; Some "b"] false = Ok s1 ∧
  run (Flush ["a"; "b"]) s1 = Some (s2, tt) ∧
  chain_cache s2 "a" !! k = Some p ∧ rl_heap s2 !! p = Some r ∧ route_wire r = row ∧
  rl_tasks s2 = [] ∧
  ∀ prov now chains keys, run (Router prov now chains keys routeTimer) s2 = Some (s2, tt).
Proof.
  destruct (GetMessages prefixMessageStore raced_db "a" NewPagination) as [[|row [|]]| |] eqn:Hrow;
    [exfalso; revert Hrow; vm_compute; discriminate| |exfalso; revert Hrow; vm_compute; discriminate..].
  exists raced_end, row, raced_new, raced_flushed, flushed_key, 2%positive, flushed_route.
  split; [exact raced_runs|]. split; [vm_compute; reflexivity|]. split; [exact Hrow|].
  vm_compute in Hrow. injection Hrow as <-.
  do 8 (split; [vm_compute; reflexivity|]).
  intros prov now chains keys. apply marked_left_alone, all_marked_spec, raced_flushed_marked.
Qed.
