(* ===== verification/Socket.v ===== *)
(** Package relayer/socket: the requests an operator sends over the local
    socket, the server that runs them on the relayer, and the client.

    A connection carries JSON; each side reads at most 100 KiB at a time and
    takes what it read for one message.  [parseEvent] of the server is one
    handler per event over the relayer's state; [client_*] is a method of the
    client together with the server's answer to it. *)
From stdpp Require Import gmap strings list.
From Stdlib Require Import ZArith Lia.
From S2P Require Import Prelude GoStd Types Store Provider Relay.
Import BlockStore MessageStore FinalityStore.
Open Scope Z_scope.

(** * Data (types.go) *)

Definition EventGetBlock : string := "GetBlock".
Definition EventGetMessageList : string := "GetMessageList".
Definition EventRelayMessage : string := "RelayMessage".
Definition EventMessageRemove : string := "MessageRemove".
Definition EventPruneDB : string := "PruneDB".
Definition EventRevertMessage : string := "RevertMessage".
Definition EventError : string := "Error".
Definition EventGetFee : string := "GetFee".
Definition EventSetFee : string := "SetFee".
Definition EventClaimFee : string := "ClaimFee".

Record SMessage := mkSMessage { sm_Event : string; sm_Data : string }.

Record ReqGetBlock := mkReqGetBlock { rgb_Chain : string; rgb_All : bool }.
Record ReqMessageList := mkReqMessageList { rml_Chain : string; rml_Pagination : option Pagination }.
Record ReqRelayMessage := mkReqRelayMessage {
  rrm_Chain : string; rrm_Sn : option Z; rrm_Height : Z }.
Record ReqMessageRemove := mkReqMessageRemove { rmr_Chain : string; rmr_Sn : option Z }.
Record ReqPruneDB := mkReqPruneDB { rpd_Chain : string }.
Record ReqRevertMessage := mkReqRevertMessage { rrv_Chain : string; rrv_Sn : Z }.
Record ReqGetFee := mkReqGetFee { rgf_Chain : string; rgf_Network : string; rgf_Response : bool }.
Record ReqSetFee := mkReqSetFee {
  rsf_Chain : string; rsf_Network : string; rsf_MsgFee : option Z; rsf_ResFee : option Z }.
Record ReqClaimFee := mkReqClaimFee { rcf_Chain : string }.

Record ResGetBlock := mkResGetBlock { sgb_Chain : string; sgb_Height : Z }.
Record ResMessageList := mkResMessageList {
  sml_Messages : list (RouteMessageOf Z); sml_Total : Z }.
Record ResRelayMessage := mkResRelayMessage { srm_Message : RouteMessageOf Z }.
Record ResMessageRemove := mkResMessageRemove {
  smr_Sn : option Z; smr_Chain : string; smr_Dst : string; smr_Height : Z; smr_Event : string }.
Record ResPruneDB := mkResPruneDB { spd_Status : string }.
Record ResRevertMessage := mkResRevertMessage { srv_Sn : Z }.
Record ResGetFee := mkResGetFee { sgf_Chain : string; sgf_Fee : Z; sgf_Response : bool }.
Record ResSetFee := mkResSetFee { ssf_Status : string }.
Record ResClaimFee := mkResClaimFee { scf_Status : string }.

(** The JSON library at these types. *)
Class SocketJson := {
  j_Message :: Codec SMessage;
  j_ReqGetBlock :: Codec ReqGetBlock;
  j_ReqMessageList :: Codec ReqMessageList;
  j_ReqRelayMessage :: Codec ReqRelayMessage;
  j_ReqMessageRemove :: Codec ReqMessageRemove;
  j_ReqPruneDB :: Codec ReqPruneDB;
  j_ReqRevertMessage :: Codec ReqRevertMessage;
  j_ReqGetFee :: Codec ReqGetFee;
  j_ReqSetFee :: Codec ReqSetFee;
  j_ReqClaimFee :: Codec ReqClaimFee;
  j_ResGetBlock :: Codec (list ResGetBlock);
  j_ResMessageList :: Codec ResMessageList;
  j_ResRelayMessage :: Codec ResRelayMessage;
  j_ResMessageRemove :: Codec ResMessageRemove;
  j_ResPruneDB :: Codec ResPruneDB;
  j_ResRevertMessage :: Codec ResRevertMessage;
  j_ResGetFee :: Codec ResGetFee;
  j_ResSetFee :: Codec ResSetFee;
  j_ResClaimFee :: Codec ResClaimFee }.

Class SocketJsonSpec `{SocketJson} := {
  js_Message :: CodecSpec SMessage;
  js_ReqGetBlock :: CodecSpec ReqGetBlock;
  js_ReqMessageList :: CodecSpec ReqMessageList;
  js_ReqRelayMessage :: CodecSpec ReqRelayMessage;
  js_ReqMessageRemove :: CodecSpec ReqMessageRemove;
  js_ReqPruneDB :: CodecSpec ReqPruneDB;
  js_ReqRevertMessage :: CodecSpec ReqRevertMessage;
  js_ReqGetFee :: CodecSpec ReqGetFee;
  js_ReqSetFee :: CodecSpec ReqSetFee;
  js_ReqClaimFee :: CodecSpec ReqClaimFee;
  js_ResGetBlock :: CodecSpec (list ResGetBlock);
  js_ResMessageList :: CodecSpec ResMessageList;
  js_ResRelayMessage :: CodecSpec ResRelayMessage;
  js_ResMessageRemove :: CodecSpec ResMessageRemove;
  js_ResPruneDB :: CodecSpec ResPruneDB;
  js_ResRevertMessage :: CodecSpec ResRevertMessage;
  js_ResGetFee :: CodecSpec ResGetFee;
  js_ResSetFee :: CodecSpec ResSetFee;
  js_ResClaimFee :: CodecSpec ResClaimFee }.

(** * The server (server.go) *)

Section Socket.
Context {St : Type} `{Store St} `{Codec Z}.
Context `{Codec (RouteMessageOf Z)} `{Codec (TransactionObjectOf Z)} `{SocketJson}.
Context (prov : string → ChainProvider).
Abbreviation Rly := (proc (Relayer St)).
Implicit Types (s : Relayer St).

(** [data, err := jsoniter.Marshal(v); if err != nil { return nil, err }
    return &Message{event, data}, nil] *)
Definition reply {A} `{Codec A} (event : string) (v : A) : Rly (SMessage + string) :=
  match Marshal v with
  | inl data => okE (mkSMessage event data)
  | inr err => mret (inr err)
  end.

(** [req := new(A); if err := jsoniter.Unmarshal(msg.Data, req); ...] *)
Definition decode {A} `{Codec A} (data : string) : Rly (A + string) := liftRes (Unmarshal data).

Definition find (nId : string) : Rly (ChainRuntime + string) :=
  r ← gets (λ s, FindChainRuntime s nId); liftRes r.

(** [GetMessages] of a pagination pointer that may be nil: the limit is read
    after each decoded row. *)
Definition GetMessages_ptr (db : St) (nId : string) (p : option Pagination) :
    res (list (RouteMessageOf Z)) :=
  match p with
  | Some p => GetMessages prefixMessageStore db nId p
  | None =>
      match NewIterator db (GetKey [prefixMessageStore; nId]) with
      | ((_, v) :: _, _) => msg ← (Unmarshal v : res (RouteMessageOf Z)); Panic
      | ([], Some e) => Err e
      | ([], None) => Ok []
      end
  end.

Definition serve_GetBlock (order : list string) (data : string) : Rly (SMessage + string) :=
  req ←? decode (A := ReqGetBlock) data;
  if rgb_All req then
    chains ← gets (λ s, GetAllChainsRuntime s order);
    reply EventGetBlock ((λ '(nid, c), mkResGetBlock nid (LastSavedHeight c)) <$> chains)
  else
    r ← gets (λ s, GetLastStoredBlock prefixBlockStore (rl_db s) (rgb_Chain req));
    height ←? liftRes r;
    reply EventGetBlock [mkResGetBlock (rgb_Chain req) height].

Definition serve_GetMessageList (data : string) : Rly (SMessage + string) :=
  req ←? decode (A := ReqMessageList) data;
  r ← gets (λ s, GetMessages_ptr (rl_db s) (rml_Chain req) (rml_Pagination req));
  messages ←? liftRes r;
  r ← gets (λ s, TotalCountByChain prefixMessageStore (rl_db s) (rml_Chain req));
  total ←? liftRes r;
  reply EventGetMessageList (mkResMessageList messages (i64 total)).

(** The key built from a request holds a new cell. *)
Definition req_key (chain : string) (sn : option Z) : Rly MessageKey :=
  a ← new_addr; mret (mkMessageKey (sn_alloc a sn) chain "" "").

Definition serve_MessageRemove (data : string) : Rly (SMessage + string) :=
  req ←? decode (A := ReqMessageRemove) data;
  key ← req_key (rmr_Chain req) (rmr_Sn req);
  r ← gets (λ s, GetMessage prefixMessageStore (rl_db s) key);
  message ←? liftRes r;
  checkE (with_db (λ db, DeleteMessage prefixMessageStore db key))
    (reply EventMessageRemove (mkResMessageRemove (rmr_Sn req) (rmr_Chain req)
      (m_Dst (rm_Message message)) (m_MessageHeight (rm_Message message))
      (m_EventType (rm_Message message)))).

(** With a height: every message of that height enters the cache, and the
    first one is returned. *)
Definition serve_RelayMessage (data : string) : Rly (SMessage + string) :=
  req ←? decode (A := ReqRelayMessage) data;
  _ ←? find (rrm_Chain req);
  key ← req_key (rrm_Chain req) (rrm_Sn req);
  if negb (rrm_Height req =? 0) then
    msgs ←? liftRes (GenerateMessages (prov (rrm_Chain req))
      (NewMessagekeyWithMessageHeight key (rrm_Height req)));
    _ ← mergeMessages (rrm_Chain req) msgs;
    first ←? liftRes (index msgs 0);
    reply EventRelayMessage (mkResRelayMessage (NewRouteMessage first))
  else
    r ← gets (λ s, GetMessage prefixMessageStore (rl_db s) key);
    message ←? liftRes r;
    p ← new_stored message;
    _ ← cache_Add (rrm_Chain req) p;
    reply EventRelayMessage (mkResRelayMessage message).

Definition serve_PruneDB : Rly (SMessage + string) :=
  checkE PruneDB (reply EventPruneDB (mkResPruneDB "Success")).

Definition serve_RevertMessage (data : string) : Rly (SMessage + string) :=
  req ←? decode (A := ReqRevertMessage) data;
  _ ←? find (rrv_Chain req);
  _ ←? liftRes (p_RevertMessage (prov (rrv_Chain req)) (Some (rrv_Sn req)));
  reply EventRevertMessage (mkResRevertMessage (rrv_Sn req)).

Definition serve_GetFee (data : string) : Rly (SMessage + string) :=
  req ←? decode (A := ReqGetFee) data;
  _ ←? find (rgf_Chain req);
  fee ←? liftRes (p_GetFee (prov (rgf_Chain req)) (rgf_Network req) (rgf_Response req));
  reply EventGetFee (mkResGetFee (rgf_Chain req) fee false).

Definition serve_SetFee (data : string) : Rly (SMessage + string) :=
  req ←? decode (A := ReqSetFee) data;
  _ ←? find (rsf_Chain req);
  _ ←? liftRes (p_SetFee (prov (rsf_Chain req)) (rsf_Network req) (rsf_MsgFee req) (rsf_ResFee req));
  reply EventSetFee (mkResSetFee "Success").

Definition serve_ClaimFee (data : string) : Rly (SMessage + string) :=
  req ←? decode (A := ReqClaimFee) data;
  _ ←? find (rcf_Chain req);
  _ ←? liftRes (p_ClaimFee (prov (rcf_Chain req)));
  reply EventClaimFee (mkResClaimFee "Success").

(** [order]: the order in which the map of chains is visited. *)
Definition parseEvent (order : list string) (msg : SMessage) : Rly (SMessage + string) :=
  let ev := sm_Event msg in let data := sm_Data msg in
  if decide (ev = EventGetBlock) then serve_GetBlock order data
  else if decide (ev = EventGetMessageList) then serve_GetMessageList data
  else if decide (ev = EventMessageRemove) then serve_MessageRemove data
  else if decide (ev = EventRelayMessage) then serve_RelayMessage data
  else if decide (ev = EventPruneDB) then serve_PruneDB
  else if decide (ev = EventRevertMessage) then serve_RevertMessage data
  else if decide (ev = EventGetFee) then serve_GetFee data
  else if decide (ev = EventSetFee) then serve_SetFee data
  else if decide (ev = EventClaimFee) then serve_ClaimFee data
  else mret (inr "invalid request").

Definition parse (order : list string) (data : string) : Rly (string + string) :=
  msg ←? decode (A := SMessage) data;
  payload ←? parseEvent order msg;
  match Marshal payload with inl d => okE d | inr e => mret (inr e) end.

(** A double quote, written into the error texts. *)
Definition dq : string := String (Ascii.ascii_of_nat 34) "".

Definition makeError (err : string) : string :=
  match Marshal (mkSMessage EventError ("{" +:+ dq +:+ "message" +:+ dq +:+ ": " +:+ dq +:+ err +:+ dq +:+ "}")) with
  | inl data => data
  | inr err => "{" +:+ dq +:+ "error" +:+ dq +:+ ": " +:+ dq +:+ err +:+ dq +:+ "}"
  end.

(** One [Read] into a buffer of 100 KiB. *)
Definition bufSize : nat := Z.to_nat (1024 * 100).
Definition conn_read (data : string) : string := String.substring 0 bufSize data.

(** One turn of the server's loop: a request read, its answer written. *)
Definition server (order : list string) (data : string) : Rly string :=
  r ← parse order (conn_read data);
  mret (match r with inl message => message | inr err => makeError err end).

(** * The client (client.go) *)

Definition ErrUnknownEvent : string := "unknown event".
Definition ErrUnknown : string := "unknown error".
Definition ErrInvalidResponse : string := "invalid response: <nil>".

(** What [parseEvent] of the client returns: an interface value. *)
Inductive Response : Type :=
| IGetBlock (l : list ResGetBlock)
| IMessageList (r : ResMessageList)
| IRelayMessage (r : ResRelayMessage)
| IMessageRemove (r : ResMessageRemove)
| IPruneDB (r : ResPruneDB)
| IRevertMessage (r : ResRevertMessage)
| IGetFee (r : ResGetFee)
| ISetFee (r : ResSetFee)
| IClaimFee (r : ResClaimFee).

Definition client_parseEvent (msg : SMessage) : res Response :=
  let ev := sm_Event msg in let data := sm_Data msg in
  if decide (ev = EventGetBlock) then IGetBlock <$> Unmarshal data
  else if decide (ev = EventGetMessageList) then IMessageList <$> Unmarshal data
  else if decide (ev = EventRelayMessage) then IRelayMessage <$> Unmarshal data
  else if decide (ev = EventMessageRemove) then IMessageRemove <$> Unmarshal data
  else if decide (ev = EventPruneDB) then IPruneDB <$> Unmarshal data
  else if decide (ev = EventError) then Err ErrUnknown
  else if decide (ev = EventRevertMessage) then IRevertMessage <$> Unmarshal data
  else if decide (ev = EventGetFee) then IGetFee <$> Unmarshal data
  else if decide (ev = EventSetFee) then ISetFee <$> Unmarshal data
  else if decide (ev = EventClaimFee) then IClaimFee <$> Unmarshal data
  else Err ErrUnknownEvent.

Definition client_read (data : string) : res Response :=
  msg ← Unmarshal (conn_read data); client_parseEvent msg.

(** [send]: what is written to the connection. *)
Definition client_send {A} `{Codec A} (event : string) (req : A) : res string :=
  match Marshal req with
  | inr err => Err err
  | inl data =>
      match Marshal (mkSMessage event data) with inl payload => Ok payload | inr err => Err err end
  end.

(** Send a request, let the server answer, read the answer, and assert its
    type. *)
Definition roundtrip {A B} `{Codec A} (order : list string) (event : string) (req : A)
    (assert : Response → option B) : Rly (B + string) :=
  payload ←? liftRes (client_send event req);
  answer ← server order payload;
  data ←? liftRes (client_read answer);
  match assert data with
  | Some b => okE b
  | None => mret (inr ErrInvalidResponse)
  end.

Definition client_GetBlock order (chain : string) : Rly (list ResGetBlock + string) :=
  roundtrip order EventGetBlock (mkReqGetBlock chain (bool_decide (chain = "")))
    (λ i, match i with IGetBlock r => Some r | _ => None end).
Definition client_GetMessageList order chain (p : option Pagination) : Rly (ResMessageList + string) :=
  roundtrip order EventGetMessageList (mkReqMessageList chain p)
    (λ i, match i with IMessageList r => Some r | _ => None end).
Definition client_RelayMessage order chain height sn : Rly (ResRelayMessage + string) :=
  roundtrip order EventRelayMessage (mkReqRelayMessage chain sn height)
    (λ i, match i with IRelayMessage r => Some r | _ => None end).
Definition client_MessageRemove order chain sn : Rly (ResMessageRemove + string) :=
  roundtrip order EventMessageRemove (mkReqMessageRemove chain sn)
    (λ i, match i with IMessageRemove r => Some r | _ => None end).
Definition client_PruneDB order : Rly (ResPruneDB + string) :=
  roundtrip order EventPruneDB (mkReqPruneDB "")
    (λ i, match i with IPruneDB r => Some r | _ => None end).
Definition client_RevertMessage order chain sn : Rly (ResRevertMessage + string) :=
  roundtrip order EventRevertMessage (mkReqRevertMessage chain sn)
    (λ i, match i with IRevertMessage r => Some r | _ => None end).
Definition client_GetFee order chain network isResponse : Rly (ResGetFee + string) :=
  roundtrip order EventGetFee (mkReqGetFee chain network isResponse)
    (λ i, match i with IGetFee r => Some r | _ => None end).
Definition client_SetFee order chain network msgFee resFee : Rly (ResSetFee + string) :=
  roundtrip order EventSetFee (mkReqSetFee chain network msgFee resFee)
    (λ i, match i with ISetFee r => Some r | _ => None end).
Definition client_ClaimFee order chain : Rly (ResClaimFee + string) :=
  roundtrip order EventClaimFee (mkReqClaimFee chain)
    (λ i, match i with IClaimFee r => Some r | _ => None end).
End Socket.
