(* ===== verification/SocketCorrect.v ===== *)
(** The socket's requests, end to end: what the client gets back and what the
    server did to the relayer, for requests and answers that fit the buffer. *)
From stdpp Require Import gmap strings list.
From Stdlib Require Import ZArith Lia.
From S2P Require Import Prelude GoStd Types Store Provider Relay RelaySystem RelayCorrect Socket.
Import BlockStore MessageStore FinalityStore.
Open Scope Z_scope.

Lemma substring_full n s : (String.length s ≤ n)%nat → String.substring 0 n s = s.
Proof.
  revert n. induction s as [|c s IH]; intros [|n] Hn; cbn in *; try lia; [done..|].
  by rewrite IH by lia.
Qed.

Section SocketCorrect.
Context {St : Type} `{StoreSpec St} `{CodecSpec Z}.
Context `{CodecSpec (RouteMessageOf Z)} `{CodecSpec (TransactionObjectOf Z)} `{SocketJsonSpec}.
Context (prov : string → ChainProvider).
Implicit Types (s : Relayer St).

(** The data fits one read. *)
Definition fits (data : string) : Prop := (String.length data ≤ bufSize)%nat.

(** The encoding of a request or of an answer. *)
Definition encoded {A} `{Codec A} (event : string) (v : A) : string :=
  match Marshal v with
  | inl d => match Marshal (mkSMessage event d) with inl p => p | inr _ => "" end
  | inr _ => ""
  end.

Lemma conn_read_fits data : fits data → conn_read data = data.
Proof. apply substring_full. Qed.

Lemma client_send_encoded {A} `{CodecSpec A} event (req : A) d :
  Marshal req = inl d →
  client_send event req = Ok (encoded event req) ∧
  Unmarshal (encoded event req) = Ok (mkSMessage event d).
Proof.
  intros Hd. unfold client_send, encoded. rewrite Hd.
  destruct (marshal_total (mkSMessage event d)) as [p Hp]. rewrite Hp. split; [done|].
  by apply unmarshal_marshal.
Qed.

(** The server's answer to a request. *)
Lemma server_answer {A} `{CodecSpec A} order event (req : A) d s s' r :
  Marshal req = inl d → fits (encoded event req) →
  parseEvent prov order (mkSMessage event d) s = Some (s', r) →
  server prov order (encoded event req) s = Some (s', match r with
    | inl m => match Marshal m with inl a => a | inr e => makeError e end
    | inr e => makeError e
    end).
Proof.
  intros Hd Hf Hp. destruct (client_send_encoded event req d Hd) as [_ Hu].
  unfold server, parse, decode, tryE, mbind, proc_bind, liftRes.
  rewrite conn_read_fits, Hu by done. rewrite Hp.
  destruct r as [m|e]; [|done]. by destruct (Marshal m).
Qed.

Lemma roundtrip_reply {A B C} `{CodecSpec A} `{CodecSpec C} order event (req : A) d
    (v : C) (f : C → Response) (assert : Response → option B) b s s' :
  Marshal req = inl d → fits (encoded event req) → fits (encoded event v) →
  parseEvent prov order (mkSMessage event d) s = reply event v s' →
  (∀ dv, Unmarshal dv = Ok v → client_parseEvent (mkSMessage event dv) = Ok (f v)) →
  assert (f v) = Some b →
  roundtrip prov order event req assert s = Some (s', inl b).
Proof.
  intros Hd Hf Hfv Hp Hc Ha. destruct (client_send_encoded event req d Hd) as [Hs _].
  destruct (marshal_total v) as [dv Hdv].
  destruct (client_send_encoded event v dv Hdv) as [_ Hu].
  unfold reply in Hp. rewrite Hdv in Hp.
  unfold roundtrip, tryE, liftRes, mbind, proc_bind. rewrite Hs.
  rewrite (server_answer _ _ _ d _ _ _ Hd Hf Hp).
  unfold encoded in Hfv, Hu. rewrite Hdv in Hfv, Hu.
  destruct (Marshal (mkSMessage event dv)) as [a|e] eqn:Ea.
  2:{ destruct (marshal_total (mkSMessage event dv)) as [? E]. by rewrite E in Ea. }
  unfold client_read. rewrite conn_read_fits, Hu by done. cbn [mbind res_bind].
  rewrite Hc by by apply unmarshal_marshal. by rewrite Ha.
Qed.

(** Whatever goes wrong on the server, the client is told "unknown error":
    the text of the server's error does not reach the operator. *)
Theorem client_error_unknown {A B} `{CodecSpec A} order event (req : A) d
    (assert : Response → option B) e s s'
  (Hd : Marshal req = inl d) (Hf : fits (encoded event req)) (Hfe : fits (makeError e))
  (Hp : parseEvent prov order (mkSMessage event d) s = Some (s', inr e)) :
  roundtrip prov order event req assert s = Some (s', inr ErrUnknown).
Proof.
  destruct (client_send_encoded event req d Hd) as [Hs _].
  unfold roundtrip, tryE, liftRes, mbind, proc_bind. rewrite Hs.
  rewrite (server_answer _ _ _ d _ _ _ Hd Hf Hp).
  unfold client_read. rewrite conn_read_fits by done. unfold makeError.
  destruct (marshal_total (mkSMessage EventError ("{" +:+ dq +:+ "message" +:+ dq +:+ ": " +:+ dq
    +:+ e +:+ dq +:+ "}"))) as [a Ha].
  by rewrite Ha, (unmarshal_marshal _ _ Ha).
Qed.

(** ** Relaying, removing and listing messages *)

(** Relaying by height a height at which the chain reports no message, the
    server indexes the empty list and the whole process panics. *)
Theorem relay_empty_height_panics order chain sn height d s
  (Hd : Marshal (mkReqRelayMessage chain sn height) = inl d) (Hh : height ≠ 0)
  (Hc : is_Some (rl_chains s !! chain))
  (Hg : ∀ k, GenerateMessages (prov chain) k = Ok []) :
  parseEvent prov order (mkSMessage EventRelayMessage d) s = None.
Proof.
  destruct Hc as [c Hc]. change (serve_RelayMessage prov d s = None).
  unfold serve_RelayMessage, decode, find.
  unfold tryE, liftRes, mbind, proc_bind, gets. rewrite (unmarshal_marshal _ _ Hd). cbn [rrm_Chain rrm_Height].
  unfold FindChainRuntime. rewrite Hc. destruct (Z.eqb_spec height 0); [done|].
  cbn [negb]. unfold req_key, new_addr, mbind, proc_bind. cbn [mret proc_ret rrm_Chain rrm_Sn]. rewrite Hg. done.
Qed.

(** Relaying a stored message returns it and puts it in the chain's cache
    as a new entry, whatever its retry count (a stale message too). *)
Theorem client_RelayMessage_row order chain (z : Z) (m : RouteMessageOf Z) s
  (Hc : is_Some (rl_chains s !! chain)) (Hf : fresh_ok s)
  (Hrow : ∀ k, k_Src k = chain → sn_val (k_Sn k) = Some z →
     GetMessage prefixMessageStore (rl_db s) k = Ok m)
  (Hsn : m_Sn (rm_Message m) ≠ None)
  (Hreq : fits (encoded EventRelayMessage (mkReqRelayMessage chain (Some z) 0)))
  (Hres : fits (encoded EventRelayMessage (mkResRelayMessage m))) :
  ∃ s', client_RelayMessage prov order chain 0 (Some z) s = Some (s', inl (mkResRelayMessage m)) ∧
    rl_db s' = rl_db s ∧
    ∃ k p r, chain_cache s chain !! k = None ∧ chain_cache s' chain !! k = Some p ∧
      rl_heap s' !! p = Some r ∧ route_wire r = m.
Proof.
  destruct Hc as [c Hc].
  set (s1 := mkRelayer (rl_db s) (rl_chains s) (rl_heap s) (Pos.succ (rl_next s)) (rl_tasks s)).
  assert (fresh_ok s1) as Hf1.
  { destruct Hf as [Hh Hk]. split; cbn.
    - intros p r ?%Hh. lia.
    - intros n k p b Hp Hb. pose proof (Hk n k p b Hp Hb). lia. }
  pose proof (add_fresh_added chain m s1 Hf1 (ex_intro _ c Hc) Hsn) as Hadd.
  unfold wpx in Hadd. destruct (add_fresh chain m s1) as [[s' []]|] eqn:Hrun; [|done].
  exists s'. split; [|split; [by rewrite (ad_db _ _ _ _ Hadd)|]].
  2:{ destruct (ad_new _ _ _ _ Hadd m) as (k & p & r & ?); [by left|]. by exists k, p, r. }
  destruct (marshal_total (mkReqRelayMessage chain (Some z) 0)) as [d Hd].
  eapply (roundtrip_reply order EventRelayMessage _ d (mkResRelayMessage m) IRelayMessage);
    [done|done|done| | |done].
  2:{ intros dv Hdv. change (IRelayMessage <$> Unmarshal dv = Ok (IRelayMessage (mkResRelayMessage m))).
      by rewrite Hdv. }
  change (serve_RelayMessage prov d s = reply EventRelayMessage (mkResRelayMessage m) s').
  unfold serve_RelayMessage, decode, find.
  unfold tryE, liftRes, mbind, proc_bind, gets. rewrite (unmarshal_marshal _ _ Hd).
  cbn [rrm_Chain rrm_Height rrm_Sn]. unfold FindChainRuntime. rewrite Hc. cbn [Z.eqb negb].
  unfold req_key, new_addr, mbind, proc_bind. cbn [mret proc_ret].
  rewrite Hrow by done. fold s1. unfold add_fresh, new_addr, mbind, proc_bind in Hrun.
  unfold new_stored, new_addr, mbind, proc_bind.
  destruct (new_route _ _) as [[s2 p]|]; [|done].
  by rewrite Hrun.
Qed.

(** Removing a message answers with its details and deletes its row, but no
    cache changes: an entry of the message that a cache holds is still routed. *)
Theorem client_MessageRemove_row order chain (z : Z) (m : RouteMessageOf Z) s
  (Hdb : healthy (rl_db s))
  (Hrow : ∀ k, k_Src k = chain → sn_val (k_Sn k) = Some z →
     GetMessage prefixMessageStore (rl_db s) k = Ok m)
  (Hreq : fits (encoded EventMessageRemove (mkReqMessageRemove chain (Some z))))
  (Hres : fits (encoded EventMessageRemove (mkResMessageRemove (Some z) chain (m_Dst (rm_Message m))
     (m_MessageHeight (rm_Message m)) (m_EventType (rm_Message m))))) :
  ∃ s', client_MessageRemove prov order chain (Some z) s =
      Some (s', inl (mkResMessageRemove (Some z) chain (m_Dst (rm_Message m))
        (m_MessageHeight (rm_Message m)) (m_EventType (rm_Message m)))) ∧
    contents (rl_db s') = delete (message_key prefixMessageStore chain (Some z)) (contents (rl_db s)) ∧
    rl_chains s' = rl_chains s ∧ rl_heap s' = rl_heap s.
Proof.
  set (key := mkMessageKey (Some (mkBigInt (rl_next s) z)) chain "" "").
  destruct (DeleteMessage_spec prefixMessageStore (rl_db s) key Hdb) as (db' & Hd' & _ & Hc).
  destruct (marshal_total (mkReqMessageRemove chain (Some z))) as [d Hd].
  exists (mkRelayer db' (rl_chains s) (rl_heap s) (Pos.succ (rl_next s)) (rl_tasks s)).
  split; [|done].
  eapply (roundtrip_reply order EventMessageRemove _ d _ IMessageRemove);
    [done|done|exact Hres| | |done].
  2:{ intros dv Hdv. set (v := mkResMessageRemove _ _ _ _ _) in *.
      change (IMessageRemove <$> Unmarshal dv = Ok (IMessageRemove v)). by rewrite Hdv. }
  set (v := mkResMessageRemove _ _ _ _ _).
  change (serve_MessageRemove d s = reply EventMessageRemove v
    (mkRelayer db' (rl_chains s) (rl_heap s) (Pos.succ (rl_next s)) (rl_tasks s))).
  unfold serve_MessageRemove, decode, tryE, checkE, liftRes, gets, with_db, mbind, proc_bind.
  rewrite (unmarshal_marshal _ _ Hd). unfold req_key, new_addr, mbind, proc_bind.
  cbn [mret proc_ret rmr_Sn rmr_Chain sn_alloc fmap option_fmap option_map]. fold key.
  cbn [rl_db]. rewrite Hrow by done. cbn [rl_db rl_chains rl_heap rl_next rl_tasks]. rewrite Hd'. done.
Qed.
End SocketCorrect.
