(* ===== verification/SocketWitness.v ===== *)
(** Concrete runs of the socket's requests, on an encoding of their types as
    strings of binary digits. *)
From stdpp Require Import gmap strings list.
From Stdlib Require Import ZArith Lia.
From S2P Require Import Prelude GoStd Types Store LvlDB Concrete Provider Relay RelaySystem RelayCorrect.
From S2P Require Import RelayWitness Socket SocketCorrect.
Import BlockStore MessageStore FinalityStore.
Open Scope Z_scope.

(** * The types of requests and answers are countable *)

#[export] Instance SMessage_eq_dec : EqDecision SMessage.
Proof. solve_decision. Defined.
#[export] Instance SMessage_countable : Countable SMessage.
Proof.
  refine (inj_countable' (λ x, (sm_Event x, sm_Data x)) (λ '(a, b), mkSMessage a b) _). by intros [].
Defined.

#[export] Instance Pagination_eq_dec : EqDecision Pagination.
Proof. solve_decision. Defined.
#[export] Instance Pagination_countable : Countable Pagination.
Proof.
  refine (inj_countable' (λ x, (pg_Limit x, pg_Offset x, pg_All x)) (λ '(a, b, c), mkPagination a b c) _). by intros [].
Defined.

#[export] Instance ReqGetBlock_eq_dec : EqDecision ReqGetBlock.
Proof. solve_decision. Defined.
#[export] Instance ReqGetBlock_countable : Countable ReqGetBlock.
Proof.
  refine (inj_countable' (λ x, (rgb_Chain x, rgb_All x)) (λ '(a, b), mkReqGetBlock a b) _). by intros [].
Defined.

#[export] Instance ReqMessageList_eq_dec : EqDecision ReqMessageList.
Proof. solve_decision. Defined.
#[export] Instance ReqMessageList_countable : Countable ReqMessageList.
Proof.
  refine (inj_countable' (λ x, (rml_Chain x, rml_Pagination x)) (λ '(a, b), mkReqMessageList a b) _). by intros [].
Defined.

#[export] Instance ReqRelayMessage_eq_dec : EqDecision ReqRelayMessage.
Proof. solve_decision. Defined.
#[export] Instance ReqRelayMessage_countable : Countable ReqRelayMessage.
Proof.
  refine (inj_countable' (λ x, (rrm_Chain x, rrm_Sn x, rrm_Height x)) (λ '(a, b, c), mkReqRelayMessage a b c) _). by intros [].
Defined.

#[export] Instance ReqMessageRemove_eq_dec : EqDecision ReqMessageRemove.
Proof. solve_decision. Defined.
#[export] Instance ReqMessageRemove_countable : Countable ReqMessageRemove.
Proof.
  refine (inj_countable' (λ x, (rmr_Chain x, rmr_Sn x)) (λ '(a, b), mkReqMessageRemove a b) _). by intros [].
Defined.

#[export] Instance ReqPruneDB_eq_dec : EqDecision ReqPruneDB.
Proof. solve_decision. Defined.
#[export] Instance ReqPruneDB_countable : Countable ReqPruneDB.
Proof.
  refine (inj_countable' (λ x, rpd_Chain x) (λ a, mkReqPruneDB a) _). by intros [].
Defined.

#[export] Instance ReqRevertMessage_eq_dec : EqDecision ReqRevertMessage.
Proof. solve_decision. Defined.
#[export] Instance ReqRevertMessage_countable : Countable ReqRevertMessage.
Proof.
  refine (inj_countable' (λ x, (rrv_Chain x, rrv_Sn x)) (λ '(a, b), mkReqRevertMessage a b) _). by intros [].
Defined.

#[export] Instance ReqGetFee_eq_dec : EqDecision ReqGetFee.
Proof. solve_decision. Defined.
#[export] Instance ReqGetFee_countable : Countable ReqGetFee.
Proof.
  refine (inj_countable' (λ x, (rgf_Chain x, rgf_Network x, rgf_Response x)) (λ '(a, b, c), mkReqGetFee a b c) _). by intros [].
Defined.

#[export] Instance ReqSetFee_eq_dec : EqDecision ReqSetFee.
Proof. solve_decision. Defined.
#[export] Instance ReqSetFee_countable : Countable ReqSetFee.
Proof.
  refine (inj_countable' (λ x, (rsf_Chain x, rsf_Network x, rsf_MsgFee x, rsf_ResFee x)) (λ '(a, b, c, d), mkReqSetFee a b c d) _). by intros [].
Defined.

#[export] Instance ReqClaimFee_eq_dec : EqDecision ReqClaimFee.
Proof. solve_decision. Defined.
#[export] Instance ReqClaimFee_countable : Countable ReqClaimFee.
Proof.
  refine (inj_countable' (λ x, rcf_Chain x) (λ a, mkReqClaimFee a) _). by intros [].
Defined.

#[export] Instance ResGetBlock_eq_dec : EqDecision ResGetBlock.
Proof. solve_decision. Defined.
#[export] Instance ResGetBlock_countable : Countable ResGetBlock.
Proof.
  refine (inj_countable' (λ x, (sgb_Chain x, sgb_Height x)) (λ '(a, b), mkResGetBlock a b) _). by intros [].
Defined.

#[export] Instance ResMessageList_eq_dec : EqDecision ResMessageList.
Proof. solve_decision. Defined.
#[export] Instance ResMessageList_countable : Countable ResMessageList.
Proof.
  refine (inj_countable' (λ x, (sml_Messages x, sml_Total x)) (λ '(a, b), mkResMessageList a b) _). by intros [].
Defined.

#[export] Instance ResRelayMessage_eq_dec : EqDecision ResRelayMessage.
Proof. solve_decision. Defined.
#[export] Instance ResRelayMessage_countable : Countable ResRelayMessage.
Proof.
  refine (inj_countable' (λ x, srm_Message x) (λ a, mkResRelayMessage a) _). by intros [].
Defined.

#[export] Instance ResMessageRemove_eq_dec : EqDecision ResMessageRemove.
Proof. solve_decision. Defined.
#[export] Instance ResMessageRemove_countable : Countable ResMessageRemove.
Proof.
  refine (inj_countable' (λ x, (smr_Sn x, smr_Chain x, smr_Dst x, smr_Height x, smr_Event x)) (λ '(a, b, c, d, e), mkResMessageRemove a b c d e) _). by intros [].
Defined.

#[export] Instance ResPruneDB_eq_dec : EqDecision ResPruneDB.
Proof. solve_decision. Defined.
#[export] Instance ResPruneDB_countable : Countable ResPruneDB.
Proof.
  refine (inj_countable' (λ x, spd_Status x) (λ a, mkResPruneDB a) _). by intros [].
Defined.

#[export] Instance ResRevertMessage_eq_dec : EqDecision ResRevertMessage.
Proof. solve_decision. Defined.
#[export] Instance ResRevertMessage_countable : Countable ResRevertMessage.
Proof.
  refine (inj_countable' (λ x, srv_Sn x) (λ a, mkResRevertMessage a) _). by intros [].
Defined.

#[export] Instance ResGetFee_eq_dec : EqDecision ResGetFee.
Proof. solve_decision. Defined.
#[export] Instance ResGetFee_countable : Countable ResGetFee.
Proof.
  refine (inj_countable' (λ x, (sgf_Chain x, sgf_Fee x, sgf_Response x)) (λ '(a, b, c), mkResGetFee a b c) _). by intros [].
Defined.

#[export] Instance ResSetFee_eq_dec : EqDecision ResSetFee.
Proof. solve_decision. Defined.
#[export] Instance ResSetFee_countable : Countable ResSetFee.
Proof.
  refine (inj_countable' (λ x, ssf_Status x) (λ a, mkResSetFee a) _). by intros [].
Defined.

#[export] Instance ResClaimFee_eq_dec : EqDecision ResClaimFee.
Proof. solve_decision. Defined.
#[export] Instance ResClaimFee_countable : Countable ResClaimFee.
Proof.
  refine (inj_countable' (λ x, scf_Status x) (λ a, mkResClaimFee a) _). by intros [].
Defined.

#[export] Instance socket_json : SocketJson := {
  j_Message := countable_codec;
  j_ReqGetBlock := countable_codec;
  j_ReqMessageList := countable_codec;
  j_ReqRelayMessage := countable_codec;
  j_ReqMessageRemove := countable_codec;
  j_ReqPruneDB := countable_codec;
  j_ReqRevertMessage := countable_codec;
  j_ReqGetFee := countable_codec;
  j_ReqSetFee := countable_codec;
  j_ReqClaimFee := countable_codec;
  j_ResGetBlock := countable_codec;
  j_ResMessageList := countable_codec;
  j_ResRelayMessage := countable_codec;
  j_ResMessageRemove := countable_codec;
  j_ResPruneDB := countable_codec;
  j_ResRevertMessage := countable_codec;
  j_ResGetFee := countable_codec;
  j_ResSetFee := countable_codec;
  j_ResClaimFee := countable_codec }.

#[export] Instance socket_json_spec : SocketJsonSpec := {
  js_Message := countable_codec_spec;
  js_ReqGetBlock := countable_codec_spec;
  js_ReqMessageList := countable_codec_spec;
  js_ReqRelayMessage := countable_codec_spec;
  js_ReqMessageRemove := countable_codec_spec;
  js_ReqPruneDB := countable_codec_spec;
  js_ReqRevertMessage := countable_codec_spec;
  js_ReqGetFee := countable_codec_spec;
  js_ReqSetFee := countable_codec_spec;
  js_ReqClaimFee := countable_codec_spec;
  js_ResGetBlock := countable_codec_spec;
  js_ResMessageList := countable_codec_spec;
  js_ResRelayMessage := countable_codec_spec;
  js_ResMessageRemove := countable_codec_spec;
  js_ResPruneDB := countable_codec_spec;
  js_ResRevertMessage := countable_codec_spec;
  js_ResGetFee := countable_codec_spec;
  js_ResSetFee := countable_codec_spec;
  js_ResClaimFee := countable_codec_spec }.

(** * Runs *)

Lemma fits_small data : (Z.of_nat (String.length data) <=? 1024 * 100) = true → fits data.
Proof. unfold fits, bufSize. intros H%Z.leb_le. lia. Qed.

(** A fee asked of a chain that is not configured. *)
Definition fee_req : ReqGetFee := mkReqGetFee "z" "b" true.

Lemma client_error_unknown_witness :
  client_GetFee prov0 ["a"; "b"] "z" "b" true rly0 = Some (rly0, inr ErrUnknown).
Proof.
  eapply (client_error_unknown prov0 ["a"; "b"] EventGetFee fee_req);
    [reflexivity|apply fits_small; vm_compute; reflexivity| |vm_compute; reflexivity].
  apply fits_small; vm_compute; reflexivity.
Defined.

(** Providers that find no message. *)
Definition prov_none (nid : string) : ChainProvider := {|
  QueryLatestHeight := Ok 200;
  QueryTransactionReceipt _ := Ok None;
  Route _ := ([], Ok tt);
  ShouldReceiveMessage _ := Ok true;
  ShouldSendMessage _ := Ok true;
  MessageReceived _ := Ok false;
  FinalityBlock := 10;
  GenerateMessages _ := Ok [];
  p_RevertMessage _ := Ok tt;
  p_GetFee _ _ := Ok 0;
  p_SetFee _ _ _ := Ok tt;
  p_ClaimFee := Ok tt |}.

Lemma relay_empty_height_panics_witness : ∃ d,
  Marshal (mkReqRelayMessage "a" (Some 7) 5) = inl d ∧
  parseEvent prov_none ["a"; "b"] (mkSMessage EventRelayMessage d) rly0 = None.
Proof.
  eexists. split; [reflexivity|].
  eapply (relay_empty_height_panics prov_none ["a"; "b"] "a" (Some 7) 5);
    [reflexivity|lia|by eexists|done].
Defined.

Lemma client_RelayMessage_row_witness : ∃ s',
  client_RelayMessage prov0 ["a"; "b"] "a" 0 (Some 7) (rly7 true 15) =
    Some (s', inl (mkResRelayMessage (route_wire (NewRouteMessage msg7)))) ∧
  rl_db s' = db7 ∧ size (chain_cache (rly7 true 15) "a") = 1%nat.
Proof.
  destruct (client_RelayMessage_row prov0 ["a"; "b"] "a" 7 (route_wire (NewRouteMessage msg7)) (rly7 true 15))
    as (s' & Hs & Hdb & _).
  - by eexists.
  - apply rly7_fresh.
  - intros [[[a v]|] src dst ev]; cbn [k_Src k_Sn sn_val fmap option_fmap option_map bi_val]; intros -> [= ->].
    vm_compute. reflexivity.
  - done.
  - apply fits_small; vm_compute; reflexivity.
  - apply fits_small; vm_compute; reflexivity.
  - exists s'. split; [exact Hs|]. split; [exact Hdb|]. vm_compute. reflexivity.
Defined.

Lemma client_MessageRemove_row_witness : ∃ s',
  client_MessageRemove prov0 ["a"; "b"] "a" (Some 7) (rly7 true 1) =
    Some (s', inl (mkResMessageRemove (Some 7) "a" "b" 5 EmitMessage)) ∧
  chain_cache s' "a" !! key7 = Some 2%positive.
Proof.
  destruct (client_MessageRemove_row prov0 ["a"; "b"] "a" 7 (route_wire (NewRouteMessage msg7)) (rly7 true 1)
    (mem_healthy _)) as (s' & Hs & _ & Hc & _).
  - intros [[[a v]|] src dst ev]; cbn [k_Src k_Sn sn_val fmap option_fmap option_map bi_val]; intros -> [= ->].
    vm_compute. reflexivity.
  - apply fits_small; vm_compute; reflexivity.
  - apply fits_small; vm_compute; reflexivity.
  - exists s'. split; [exact Hs|]. unfold chain_cache. rewrite Hc. vm_compute. reflexivity.
Defined.
