(* ===== verification/Mock.v ===== *)
(** Package relayer/chains/mockchain: the in-memory chain provider that the
    relayer is tried out with.

    A mock chain emits its [SendMessages] at their heights and forgets a
    received message when it is routed to it. *)
From stdpp Require Import gmap strings list.
From Stdlib Require Import ZArith Lia.
From S2P Require Import Prelude GoStd Types Provider.
Open Scope Z_scope.

Module Mock.

(** * State *)

Record MockProviderConfig := mkMockConfig {
  NId : string;
  SendMessages : gmap MessageKey Message;
  ReceiveMessages : gmap MessageKey Message;
  StartHeight : Z;
  chainName : string }.

Record MockProvider := mkMockProvider { PCfg : MockProviderConfig; Height : Z }.

(** * Operations *)

Definition Validate (pp : MockProviderConfig) : error := None.

Definition NewProvider (pp : MockProviderConfig) (name : string) : res MockProvider :=
  match Validate pp with
  | Some e => Err e
  | None => Ok (mkMockProvider (mkMockConfig (NId pp) (SendMessages pp) (ReceiveMessages pp)
                  (StartHeight pp) name) (StartHeight pp))
  end.

Definition NID (p : MockProvider) : string := NId (PCfg p).
Definition QueryLatestHeight (p : MockProvider) : res Z := Ok (Height p).
Definition QueryTransactionReceipt (p : MockProvider) (txHash : string) : res (option Receipt) := Ok None.
Definition GenerateMessages (p : MockProvider) (k : KeyWithHeightOf BigInt) : res (list (MessageOf Z)) :=
  Ok [].

(** [order]: the order in which the map is visited. *)
Definition FindMessages (order : list MessageKey) (p : MockProvider) : list Message :=
  filter (λ m, m_MessageHeight m = Height p) (omap (λ k, SendMessages (PCfg p) !! k) order).

(** [Listener] starts from the saved height when it has none of its own. *)
Definition Listener_start (lastSavedHeight : Z) (p : MockProvider) : MockProvider :=
  if Height p =? 0 then
    if negb (lastSavedHeight =? 0) then mkMockProvider (PCfg p) lastSavedHeight else p
  else p.

(** One tick of the listener: the block it sends, and the next height. *)
Definition Listener_tick (order : list MessageKey) (p : MockProvider) : BlockInfo * MockProvider :=
  (mkBlockInfo (Height p) (FindMessages order p), mkMockProvider (PCfg p) (u64 (Height p + 1))).

Fixpoint Listener (orders : list (list MessageKey)) (p : MockProvider) : list BlockInfo :=
  match orders with
  | [] => []
  | order :: orders => let '(b, p') := Listener_tick order p in b :: Listener orders p'
  end.

(** The zero value of [MessageKey]. *)
Definition zeroKey : MessageKey := mkMessageKey None "" "" "".

(** The loop of [DeleteMessage]: [Cmp] finds two nil serial numbers equal, and
    panics when only one of them is nil. *)
Fixpoint DeleteMessage_key (sn : option BigInt) (order : list MessageKey) : res MessageKey :=
  match order with
  | [] => Ok zeroKey
  | key :: order =>
      match sn, k_Sn key with
      | Some a, Some b => if bi_val a =? bi_val b then Ok key else DeleteMessage_key sn order
      | None, None => Ok key
      | _, _ => Panic
      end
  end.

Definition DeleteMessage (order : list MessageKey) (msg : Message) (p : MockProvider) :
    res MockProvider :=
  deleteKey ← DeleteMessage_key (m_Sn msg) order;
  Ok (mkMockProvider (mkMockConfig (NId (PCfg p)) (SendMessages (PCfg p))
        (delete deleteKey (ReceiveMessages (PCfg p))) (StartHeight (PCfg p)) (chainName (PCfg p)))
      (Height p)).

(** [Route]: the provider after the call, the calls of the callback, and the
    error. *)
Definition Route (order : list MessageKey) (message : Message) (p : MockProvider) :
    res (MockProvider * (list CallbackCall * res unit)) :=
  p ← DeleteMessage order message p;
  Ok (p, ([mkCallbackCall (Message_MessageKey message) (mkTxResponse 0 "" "" Success "") None], Ok tt)).

(** The provider as the relayer sees it. *)
Definition mock_provider (order : list MessageKey) (p : MockProvider) : ChainProvider := {|
  Provider.QueryLatestHeight := QueryLatestHeight p;
  Provider.QueryTransactionReceipt := QueryTransactionReceipt p;
  Provider.Route m := match Route order m p with Ok (_, r) => r | _ => ([], Panic) end;
  ShouldReceiveMessage _ := Ok true;
  ShouldSendMessage _ := Ok true;
  MessageReceived _ := Ok false;
  FinalityBlock := 0;
  Provider.GenerateMessages := GenerateMessages p;
  p_RevertMessage _ := Ok tt;
  p_GetFee _ _ := Ok 0;
  p_SetFee _ _ _ := Ok tt;
  p_ClaimFee := Ok tt |}.

(** * Facts *)

Lemma Listener_lookup orders p i :
  0 ≤ Height p → Height p + Z.of_nat (length orders) < 2 ^ 64 →
  Listener orders p !! i =
  (λ o, mkBlockInfo (Height p + Z.of_nat i)
     (FindMessages o (mkMockProvider (PCfg p) (Height p + Z.of_nat i)))) <$> orders !! i.
Proof.
  revert p i. induction orders as [|o orders IH]; intros p i H0 Hlt; [done|]. cbn [length] in Hlt.
  cbn [Listener Listener_tick]. destruct i as [|i].
  - cbn. rewrite !Z.add_0_r. by destruct p.
  - cbn [lookup list_lookup]. rewrite IH; cbn [Height PCfg]; rewrite u64_small by lia; [|lia..].
    by replace (Height p + 1 + Z.of_nat i) with (Height p + Z.of_nat (S i)) by lia.
Qed.

(** The mock listener sends each message once: the blocks of a run carry
    consecutive heights, and a message to send is in the block of its own
    height and in no other. *)
Theorem Listener_emits_once orders (p : MockProvider) (k : MessageKey) (m : Message) i b
  (H0 : 0 ≤ Height p) (Hlt : Height p + Z.of_nat (length orders) < 2 ^ 64)
  (Hall : Forall (λ o, k ∈ o) orders) (Hk : SendMessages (PCfg p) !! k = Some m)
  (Hb : Listener orders p !! i = Some b) :
  bi_Height b = Height p + Z.of_nat i ∧ (m ∈ bi_Messages b ↔ m_MessageHeight m = bi_Height b).
Proof.
  rewrite Listener_lookup in Hb by done. apply fmap_Some in Hb as (o & Ho & ->). cbn.
  split; [done|]. unfold FindMessages. rewrite list_elem_of_filter. cbn. split; [by intros [? _]|].
  intros Hm. split; [done|]. apply list_elem_of_omap. exists k. split; [|done].
  rewrite Forall_forall in Hall. apply Hall. by eapply list_elem_of_lookup_2.
Qed.

End Mock.
