(* ===== verification/EvmNonce.v ===== *)
(** Package relayer/chains/evm/types: the nonce tracker.

    [NonceValue] holds two pointers to big integers, and [Get] returns one of
    them, so the tracker, its caller and the transactions in preparation share
    cells.  The heap of integers is part of the state. *)
From stdpp Require Import gmap strings list.
From Stdlib Require Import ZArith Lia.
From S2P Require Import Prelude GoStd Types.
Open Scope Z_scope.

Definition NonceUpdateInterval : Z := 3 * 60 * Second.

Record NonceValue := mkNonceValue { nv_LastUpdated : Z; nv_Previous : positive; nv_Current : positive }.

Record NonceTracker := mkNonceTracker {
  nt_address : gmap string NonceValue;
  nt_heap : gmap positive Z;
  nt_next : positive }.

Definition NewNonceTracker : NonceTracker := mkNonceTracker ∅ ∅ 1.

Abbreviation NT := (proc NonceTracker).

(** * Big integers *)

Definition big_new (z : Z) : NT positive := λ n,
  Some (mkNonceTracker (nt_address n) (<[nt_next n := z]> (nt_heap n)) (Pos.succ (nt_next n)), nt_next n).
Definition big_get (p : positive) : NT Z := λ n,
  match nt_heap n !! p with Some z => Some (n, z) | None => None end.
(** [x.Add(x, c)], in place; returns [x]. *)
Definition big_add (p : positive) (c : Z) : NT positive := λ n,
  match nt_heap n !! p with
  | Some z => Some (mkNonceTracker (nt_address n) (<[p := z + c]> (nt_heap n)) (nt_next n), p)
  | None => None
  end.
Definition set_value (addr : string) (v : NonceValue) : NT unit :=
  modify (λ n, mkNonceTracker (<[addr := v]> (nt_address n)) (nt_heap n) (nt_next n)).

(** * Operations *)

(** [Set]: both fields end up as the same cell. *)
Definition Set_ (now : Z) (addr : string) (nonce : positive) : NT unit :=
  previous ← big_add nonce (-1);
  set_value addr (mkNonceValue now previous nonce).

(** [Get]: [getter] is the node's answer, a new cell. An address never [Set]
    is a nil dereference. *)
Definition Get (now : Z) (getter : res Z) (addr : string) : NT positive :=
  v ← gets (λ n, nt_address n !! addr);
  match v with
  | None => panic
  | Some nonce =>
      if NonceUpdateInterval <? now - nv_LastUpdated nonce then
        match getter with
        | Panic => panic
        | Err _ => mret (nv_Current nonce)
        | Ok z =>
            n ← big_new z;
            previous ← big_add n (-1);
            _ ← set_value addr (mkNonceValue now previous n);
            mret n
        end
      else
        c ← big_get (nv_Current nonce);
        p ← big_get (nv_Previous nonce);
        if negb (p <? c) then
          current ← big_add (nv_Current nonce) 1;
          _ ← set_value addr (mkNonceValue (nv_LastUpdated nonce) current current);
          mret current
        else mret (nv_Current nonce)
  end.

(** Successive calls at the times [nows]. *)
Fixpoint Gets (nows : list Z) (getter : res Z) (addr : string) : NT (list (positive * Z)) :=
  match nows with
  | [] => mret []
  | now :: nows =>
      p ← Get now getter addr;
      z ← big_get p;
      l ← Gets nows getter addr;
      mret ((p, z) :: l)
  end.

(** * Correctness *)

(** Previous and Current are one cell, holding [z - 1]: [z] is next. *)
Definition ready_at (n : NonceTracker) (addr : string) (p : positive) (z : Z) (t : Z) : Prop :=
  nt_address n !! addr = Some (mkNonceValue t p p) ∧ nt_heap n !! p = Some (z - 1).

Lemma Set_ready now addr p z n :
  nt_heap n !! p = Some z → ∃ n', Set_ now addr p n = Some (n', tt) ∧ ready_at n' addr p z now.
Proof.
  intros Hp. unfold Set_, big_add, set_value, modify, mbind, proc_bind. rewrite Hp.
  eexists. split; [done|]. split; cbn; by rewrite lookup_insert_eq.
Qed.

Lemma Get_ready now getter addr p z t n :
  ready_at n addr p z t → now - t ≤ NonceUpdateInterval →
  ∃ n', Get now getter addr n = Some (n', p) ∧ ready_at n' addr p (z + 1) t.
Proof.
  intros [Ha Hp] Ht. unfold Get, gets, mbind, proc_bind. rewrite Ha. cbn [nv_LastUpdated nv_Current nv_Previous].
  destruct (Z.ltb_spec NonceUpdateInterval (now - t)); [lia|].
  unfold big_get. rewrite Hp. cbn. rewrite Hp. rewrite Z.ltb_irrefl. cbn.
  unfold big_add. rewrite Hp. cbn.
  eexists. split; [done|]. split; cbn; rewrite lookup_insert_eq; [done|]. f_equal. lia.
Qed.

(** Within three minutes of a [Set], successive calls of [Get] hand out
    the consecutive nonces [z], [z+1], ..., none twice and none left out. *)
Theorem Gets_consecutive now0 nows getter addr p z n
  (Hp : nt_heap n !! p = Some z) (Hn : Forall (λ now, now - now0 ≤ NonceUpdateInterval) nows) :
  ∃ n1 n2 l, Set_ now0 addr p n = Some (n1, tt) ∧ Gets nows getter addr n1 = Some (n2, l) ∧
    l.*2 = seqZ z (Z.of_nat (length nows)).
Proof.
  destruct (Set_ready now0 addr p z n Hp) as (n1 & Hs & Hr). exists n1.
  cut (∃ n2 l, Gets nows getter addr n1 = Some (n2, l) ∧ l.*2 = seqZ z (Z.of_nat (length nows)));
    [naive_solver|].
  clear Hs Hp n. revert n1 z Hr. induction Hn as [|now nows Hnow _ IH]; intros n1 z Hr; [by exists n1, []|].
  destruct (Get_ready now getter addr p z now0 n1 Hr Hnow) as (n2 & Hg & Hr2).
  destruct (IH n2 (z + 1) Hr2) as (n3 & l & Hgs & Hl).
  destruct Hr2 as [_ Hp2]. exists n3, ((p, z) :: l). split.
  - cbn. unfold mbind, proc_bind in *. rewrite Hg. unfold big_get. rewrite Hp2.
    rewrite Hgs. cbn. by replace (z + 1 - 1) with z by lia.
  - cbn [fmap list_fmap snd length]. rewrite seqZ_cons by lia. rewrite Hl.
    f_equal. f_equal; lia.
Qed.

(** The pointers handed out are one cell: a later call changes the nonce of
    a transaction that still holds an earlier result. *)
Theorem Get_aliases now1 now2 getter addr p z t n
  (Hr : ready_at n addr p z t) (H1 : now1 - t ≤ NonceUpdateInterval)
  (H2 : now2 - t ≤ NonceUpdateInterval) :
  ∃ n1 n2, Get now1 getter addr n = Some (n1, p) ∧ Get now2 getter addr n1 = Some (n2, p) ∧
    nt_heap n1 !! p = Some z ∧ nt_heap n2 !! p = Some (z + 1).
Proof.
  destruct (Get_ready now1 getter addr p z t n Hr H1) as (n1 & Hg1 & Hr1).
  destruct (Get_ready now2 getter addr p (z + 1) t n1 Hr1 H2) as (n2 & Hg2 & Hr2).
  exists n1, n2. split_and!; [done|done| |].
  - destruct Hr1 as [_ ->]. f_equal. lia.
  - destruct Hr2 as [_ ->]. f_equal. lia.
Qed.

(** The first call after the interval asks the node and returns one less
    than the nonce the node answers, a nonce already used. *)
Theorem Get_refresh_too_low now addr v pending n
  (Ha : nt_address n !! addr = Some v) (Hold : NonceUpdateInterval < now - nv_LastUpdated v) :
  ∃ n' p, Get now (Ok pending) addr n = Some (n', p) ∧ nt_heap n' !! p = Some (pending - 1) ∧
    ready_at n' addr p pending now.
Proof.
  unfold Get, gets, mbind, proc_bind. rewrite Ha.
  destruct (Z.ltb_spec NonceUpdateInterval (now - nv_LastUpdated v)); [|lia].
  unfold big_new, big_add. cbn. rewrite lookup_insert_eq. cbn.
  eexists _, _. split; [done|]. cbn. rewrite lookup_insert_eq. split; [done|].
  split; cbn; by rewrite lookup_insert_eq.
Qed.

(** * Concrete runs *)

Definition nt0 : NonceTracker := mkNonceTracker ∅ {[ 1%positive := 7 ]} 2.

Lemma Gets_consecutive_witness : ∃ n1 n2 l,
  Set_ 0 "w" 1 nt0 = Some (n1, tt) ∧ Gets [1; 2; 3] (Err "") "w" n1 = Some (n2, l) ∧ l.*2 = [7; 8; 9].
Proof.
  apply (Gets_consecutive 0 [1; 2; 3] (Err "") "w" 1 7 nt0); [reflexivity|].
  repeat constructor; vm_compute; discriminate.
Defined.

Definition nt1 : NonceTracker := mkNonceTracker {[ "w" := mkNonceValue 0 1 1 ]} {[ 1%positive := 6 ]} 2.

Lemma Get_aliases_witness : ∃ n1 n2, Get 1 (Err "") "w" nt1 = Some (n1, 1%positive) ∧
  Get 2 (Err "") "w" n1 = Some (n2, 1%positive) ∧
  nt_heap n1 !! 1%positive = Some 7 ∧ nt_heap n2 !! 1%positive = Some 8.
Proof. apply (Get_aliases 1 2 (Err "") "w" 1 7 0 nt1); [by split|vm_compute; discriminate..]. Defined.

Lemma Get_refresh_too_low_witness : ∃ n' p,
  Get 200000000000 (Ok 9) "w" nt1 = Some (n', p) ∧ nt_heap n' !! p = Some 8 ∧
  ready_at n' "w" p 9 200000000000.
Proof.
  apply (Get_refresh_too_low 200000000000 "w" (mkNonceValue 0 1 1) 9 nt1); [reflexivity|].
  vm_compute. reflexivity.
Defined.
