(* ===== verification/Evm.v ===== *)
(** Package relayer/chains/evm: the provider for EVM chains.

    The go-ethereum client and the generated contract bindings are third-party
    code: [IClient] holds the answers they give during one operation.  The
    provider's own state is its nonce tracker, its wallet, and the transactions
    it has handed to the node. *)
From stdpp Require Import gmap strings list.
From Stdlib Require Import ZArith Lia.
From S2P Require Import Prelude GoStd Types Provider EvmNonce.
Open Scope Z_scope.

Module Evm.

(** * Configuration *)

Definition DefaultFinalityBlock : Z := 10.
Definition maxBlockRange : Z := 50.
Definition MaxRetryCount : Z := 5.
Definition BaseRetryInterval : Z := 3 * Second.
Definition MaxRetryInterval : Z := 5 * 60 * Second.
Definition MaximumPollTry : Z := 15.

Record Config := mkConfig {
  c_Common : CommonConfig;
  c_WebsocketUrl : string;
  c_GasMin : Z;
  c_GasLimit : Z;
  c_GasAdjustment : Z;
  c_BlockBatchSize : Z }.

Definition Validate (p : Config) : error :=
  match ContractConfigMap_Validate (cc_Contracts (c_Common p)) with
  | Some e => Some ("contracts are not valid: " +:+ e)
  | None => None
  end.

Definition sanitize (p : Config) : Config :=
  mkConfig (c_Common p) (c_WebsocketUrl p) (c_GasMin p) (c_GasLimit p)
    (if c_GasAdjustment p =? 0 then 50 else c_GasAdjustment p)
    (if c_BlockBatchSize p =? 0 then maxBlockRange else c_BlockBatchSize p).

Definition set_FinalityBlock (f : Z) (c : CommonConfig) : CommonConfig :=
  mkCommonConfig (cc_ChainName c) (cc_RPCUrl c) (cc_StartHeight c) (cc_Address c) (cc_Contracts c)
    f (cc_NID c) (cc_HomeDir c) (cc_Disabled c).
Definition set_names (homepath chainName : string) (c : CommonConfig) : CommonConfig :=
  mkCommonConfig chainName (cc_RPCUrl c) (cc_StartHeight c) (cc_Address c) (cc_Contracts c)
    (cc_FinalityBlock c) (cc_NID c) homepath (cc_Disabled c).

(** [NewProvider], given whether the client could be built: the configuration
    the provider works with. *)
Definition NewProvider (p : Config) (client : res unit) (homepath chainName : string) : res Config :=
  match Validate p with
  | Some e => Err e
  | None =>
      let p := sanitize p in
      _ ← wrapErr "error occured when creating client: " client;
      let c := set_names homepath chainName (c_Common p) in
      let c := if cc_FinalityBlock c =? 0 then set_FinalityBlock DefaultFinalityBlock c else c in
      Ok (mkConfig c (c_WebsocketUrl p) (c_GasMin p) (c_GasLimit p) (c_GasAdjustment p)
            (c_BlockBatchSize p))
  end.

(** * Events *)

Definition EmitMessageSig : string := "Message(string,uint256,bytes)".
Definition CallMessageSig : string := "CallMessage(string,string,uint256,uint256,bytes)".
Definition RollbackMessageSig : string := "RollbackMessage(uint256)".

(** The event signatures of a contract. *)
Definition sig_types (contractName : string) : gmap string string :=
  if decide (contractName = XcallContract) then
    {[ CallMessageSig := CallMessage; RollbackMessageSig := RollbackMessage ]}
  else if decide (contractName = ConnectionContract) then {[ EmitMessageSig := EmitMessage ]}
  else ∅.

(** [eventMap]: by contract address, the contracts visited in [order]. *)
Fixpoint eventMap (contracts : gmap string string) (order : list string)
    (out : gmap string EventMap) : gmap string EventMap :=
  match order with
  | [] => out
  | contractName :: order =>
      match contracts !! contractName with
      | None => eventMap contracts order out
      | Some addr =>
          eventMap contracts order
            (<[addr := mkEventMap addr contractName (sig_types contractName)]> out)
      end
  end.

Fixpoint GetEventName (contracts : list EventMap) (sig : string) : string :=
  match contracts with
  | [] => ""
  | c :: contracts =>
      match em_SigType c !! sig with Some n => n | None => GetEventName contracts sig end
  end.

(** [hexToAddress] is the go-ethereum function. *)
Fixpoint GetAddressByEventType (hexToAddress : string → string) (contracts : list EventMap)
    (eventType : string) : option string :=
  match contracts with
  | [] => None
  | c :: contracts =>
      if existsb (λ kv, bool_decide (kv.2 = eventType)) (map_to_list (em_SigType c))
      then Some (hexToAddress (em_Address c))
      else GetAddressByEventType hexToAddress contracts eventType
  end.

(** * The client *)

(** A log: its topics are hashes; [parsed] data comes from the bindings. *)
Record Log := mkLog { l_Address : string; l_Topics : list string; l_Data : string; l_BlockNumber : Z }.

Record FilterQuery := mkFilterQuery { fq_From : Z; fq_To : Z; fq_Addresses : list string;
  fq_Topics : list string }.

(** [GetMonitorEventFilters]: the addresses of the contracts and the hashes of
    their signatures, the contracts and signatures visited in [order]. *)
Definition GetMonitorEventFilters (hexToAddress keccak256 : string → string)
    (order : list (string * list string)) : FilterQuery :=
  mkFilterQuery 0 0 ((λ x, hexToAddress x.1) <$> order) (x ← order; keccak256 <$> x.2).

Record ConnectionMessage := mkConnectionMessage { cm_TargetNetwork : string; cm_Sn : Z; cm_Msg : string }.
Record XcallCallMessage := mkXcallCallMessage { xc_Sn : Z; xc_ReqId : Z; xc_Data : string }.

(** Arguments of a packed call. *)
Inductive AbiArg : Type :=
| AString (s : string)
| AInt (z : option Z)
| ABytes (b : string).

Record CallMsg := mkCallMsg { cm_From : string; cm_To : string; cm_Data : string }.

(** A transaction sent through the bindings. *)
Inductive ContractCall : Type :=
| CReceiveMessage (src : string) (sn : option Z) (data : string)
| CExecuteCall (reqID : option Z) (data : string)
| CSetAdmin (addr : string)
| CRevertMessage (sn : option Z)
| CClaimFee
| CSetFee (src : string) (msg res : option Z)
| CExecuteRollback (sn : option Z).

Record EthReceipt := mkEthReceipt { er_BlockNumber : Z; er_Status : Z }.

(** One poll for a receipt. *)
Inductive Poll : Type :=
| PReceipt (r : EthReceipt)
| PNotFound
| PError (e : string)
| PCancelled (e : string).

(** The ABI a method is packed with: [bridgeContract.ConnectionMetaData.GetAbi()]
    or [bridgeContract.XcallMetaData.GetAbi()]. *)
Inductive ContractAbi : Type := ConnectionAbi | XcallAbi.

Record IClient := mkIClient {
  GetBlockNumber : res Z;
  SuggestGasPrice : res Z;
  SuggestGasTip : res Z;
  PendingNonceAt : string → res Z;
  EstimateGas : CallMsg → res Z;
  (* [GetAbi] and [abi.Pack] *)
  Pack : ContractAbi → string → list AbiArg → res string;
  HexToAddress : string → string;
  transact : ContractCall → Z → res string;
  polls : string → list Poll;
  ParseConnectionMessage : Log → res ConnectionMessage;
  ParseCallMessage : Log → res XcallCallMessage;
  ParseRollbackMessage : Log → res Z;
  EmitMessageHash : string;
  CallMessageHash : string;
  RollbackMessageHash : string;
  FilterLogs : FilterQuery → nat → res (list Log);
  GetHeaderByHeight : Z → res unit;
  client_MessageReceived : string → option Z → res bool;
  client_GetFee : string → res Z;
  client_GetBalance : string → res Z;
  receipt_by_hash : string → res EthReceipt;
  RestoreKeystore : res string }.

(** * State *)

(** [e_sent]: what was handed to the node, with the nonce each carried. *)
Record EvmState := mkEvmState {
  e_wallet : option string;
  e_nonces : NonceTracker;
  e_sent : list (ContractCall * Z) }.

Record TransactOpts := mkTransactOpts {
  o_Nonce : positive;
  o_GasFeeCap : Z;
  o_GasTipCap : option Z;
  o_GasLimit : Z }.

Section Provider.
Context (cl : IClient) (cfg : Config) (contracts : list EventMap).
Abbreviation NID := (cc_NID (c_Common cfg)).
Abbreviation Evm := (proc EvmState).

Definition on_nonces {A} (m : proc NonceTracker A) : Evm A := λ s,
  match m (e_nonces s) with
  | Some (n, a) => Some (mkEvmState (e_wallet s) n (e_sent s), a)
  | None => None
  end.

(** ** Wallet and transaction options *)

(** The first use restores the key and takes the pending nonce. *)
Definition Wallet (now : Z) : Evm (string + string) :=
  w ← gets e_wallet;
  match w with
  | Some w => okE w
  | None =>
      addr ←? liftRes (RestoreKeystore cl);
      _ ← modify (λ s, mkEvmState (Some addr) (e_nonces s) (e_sent s));
      nonce ←? liftRes (PendingNonceAt cl addr);
      p ← on_nonces (big_new nonce);
      _ ← on_nonces (Set_ now addr p);
      okE addr
  end.

(** A tip that cannot be had is only logged, and stays nil. *)
Definition GetTransationOpts (now : Z) : Evm (TransactOpts + string) :=
  wallet ←? Wallet now;
  nonce ← on_nonces (Get now (PendingNonceAt cl wallet) wallet);
  gasPrice ←? liftRes (wrapErr "failed to get gas price: " (SuggestGasPrice cl));
  gasTip ← liftRes (SuggestGasTip cl);
  okE (mkTransactOpts nonce (gasPrice * 2)
    (match gasTip with inl t => Some t | inr _ => None end) 0).

(** The call whose gas is estimated; [contract] is a pointer into it, so an
    assignment to [contract] changes the destination. *)
Definition EstimateGas_msg (from : string) (message : MessageOf Z) : res CallMsg :=
  let connection := HexToAddress cl (default "" (cc_Contracts (c_Common cfg) !! ConnectionContract)) in
  let xcall := HexToAddress cl (default "" (cc_Contracts (c_Common cfg) !! XcallContract)) in
  let ev := m_EventType message in
  if decide (ev = EmitMessage) then
    data ← Pack cl ConnectionAbi "recvMessage" [AString (m_Src message); AInt (m_Sn message); ABytes (m_Data message)];
    Ok (mkCallMsg from connection data)
  else if decide (ev = SetAdmin) then
    data ← Pack cl ConnectionAbi "setAdmin" [AString (m_Src message)]; Ok (mkCallMsg from connection data)
  else if decide (ev = RevertMessage) then
    data ← Pack cl ConnectionAbi "revertMessage" [AInt (m_Sn message)]; Ok (mkCallMsg from connection data)
  else if decide (ev = ClaimFee) then
    data ← Pack cl ConnectionAbi "claimFees" []; Ok (mkCallMsg from connection data)
  else if decide (ev = SetFee) then
    data ← Pack cl ConnectionAbi "setFee" [AString (m_Src message); AInt (m_Sn message); AInt (m_ReqID message)];
    Ok (mkCallMsg from connection data)
  else if decide (ev = CallMessage) then
    data ← Pack cl XcallAbi "executeCall" [AInt (m_ReqID message); ABytes (m_Data message)];
    Ok (mkCallMsg from xcall data)
  else if decide (ev = RollbackMessage) then
    data ← Pack cl XcallAbi "executeRollback" [AInt (m_Sn message)]; Ok (mkCallMsg from xcall data)
  else Ok (mkCallMsg from connection "").

Definition EstimateGas_ (message : MessageOf Z) : Evm (Z + string) :=
  w ← gets e_wallet;
  match w with
  | None => panic
  | Some from =>
      msg ←? liftRes (EstimateGas_msg from message);
      liftRes (EstimateGas cl msg)
  end.

(** [parseErr] *)
Definition ErrorLessGas : string := "transaction underpriced".
Definition ErrorLimitLessThanGas : string := "max fee per gas less than block base fee".
Definition ErrUnKnown : string := "unknown".
Definition ErrNonceTooLow : string := "nonce too low".
Definition ErrNonceTooHigh : string := "nonce too high".

Definition parseErr (msg : string) : string :=
  if Contains msg ErrorLimitLessThanGas then ErrorLimitLessThanGas
  else if Contains msg ErrorLessGas then ErrorLessGas
  else if Contains msg ErrNonceTooLow then ErrNonceTooLow
  else if Contains msg ErrNonceTooHigh then ErrNonceTooHigh
  else ErrUnKnown.

Definition resync_errors : list string := [ErrNonceTooLow; ErrNonceTooHigh; ErrorLessGas].

(** The call a message stands for; [None]: unknown event type. *)
Definition call_of (message : MessageOf Z) : option ContractCall :=
  let ev := m_EventType message in
  if decide (ev = EmitMessage) then
    Some (CReceiveMessage (m_Src message) (m_Sn message) (m_Data message))
  else if decide (ev = CallMessage) then Some (CExecuteCall (m_ReqID message) (m_Data message))
  else if decide (ev = SetAdmin) then Some (CSetAdmin (HexToAddress cl (m_Src message)))
  else if decide (ev = RevertMessage) then Some (CRevertMessage (m_Sn message))
  else if decide (ev = ClaimFee) then Some CClaimFee
  else if decide (ev = SetFee) then Some (CSetFee (m_Src message) (m_Sn message) (m_ReqID message))
  else if decide (ev = RollbackMessage) then Some (CExecuteRollback (m_Sn message))
  else None.

(** The binding signs and sends; an answer with a hash means that it was sent. *)
Definition send (call : ContractCall) (nonce : positive) : Evm (string + string) :=
  z ← on_nonces (big_get nonce);
  r ← liftRes (transact cl call z);
  match r with
  | inl h => _ ← modify (λ s, mkEvmState (e_wallet s) (e_nonces s) (e_sent s ++ [(call, z)])); okE h
  | inr e => mret (inr e)
  end.

(** The log line reads the nonce, the tip and the serial number: a nil tip or
    serial number panics there. *)
Definition log_tx (opts : TransactOpts) (message : MessageOf Z) : Evm unit :=
  match o_GasTipCap opts, m_Sn message with
  | Some _, Some _ => _ ← on_nonces (big_get (o_Nonce opts)); mret tt
  | _, _ => panic
  end.

Definition SendTransaction (now : Z) (opts : TransactOpts) (message : MessageOf Z) :
    Evm (string + string) :=
  r ← EstimateGas_ message;
  match r with
  | inr e => mret (inr ("failed to estimate gas: " +:+ e))
  | inl gasLimit =>
      if c_GasLimit cfg <? gasLimit then
        mret (inr ("gas limit exceeded: " +:+ FormatInt gasLimit 10))
      else if gasLimit <? c_GasMin cfg then
        mret (inr ("gas price less than minimum: " +:+ FormatInt gasLimit 10))
      else
        let opts := mkTransactOpts (o_Nonce opts) (o_GasFeeCap opts) (o_GasTipCap opts)
          (u64 (gasLimit + u64 (gasLimit * c_GasAdjustment cfg) / 100)) in
        _ ← log_tx opts message;
        match call_of message with
        | None => mret (inr ("unknown event type: " +:+ m_EventType message))
        | Some call =>
            r ← send call (o_Nonce opts);
            match r with
            | inl tx => okE tx
            | inr err =>
                if decide (parseErr err ∈ resync_errors) then
                  w ← gets e_wallet;
                  match w with
                  | None => panic
                  | Some w =>
                      nonce ←? liftRes (PendingNonceAt cl w);
                      p ← on_nonces (big_new nonce);
                      _ ← on_nonces (Set_ now w p);
                      mret (inr err)
                  end
                else mret (inr err)
            end
        end
  end.

(** ** Results *)

(** [WaitForResults] after [counter] polls: [ctx] errors come as polls too. *)
Fixpoint WaitForResults_loop (counter : Z) (l : list Poll) : res EthReceipt :=
  match l with
  | [] => Err "context canceled"
  | PCancelled e :: _ => Err e
  | p :: l =>
      if MaximumPollTry <=? counter then
        Err ("failed to get receipt after " +:+ FormatInt counter 10 +:+ " tries")
      else
        match p with
        | PReceipt r => Ok r
        | PNotFound => WaitForResults_loop (counter + 1) l
        | PError e => Err e
        | PCancelled e => Err e
        end
  end.

(** A nil transaction panics when its hash is asked for, at the first poll. *)
Definition WaitForResults (tx : option string) : res EthReceipt :=
  match tx with
  | Some h => WaitForResults_loop 0 (polls cl h)
  | None => Panic
  end.

(** The calls of the callback, and the error returned; no callback, no wait.
    The line that logs a failed transaction reads the serial number, and panics
    without one. *)
Definition WaitForTxResult (tx : string) (m : MessageKey) (has_callback : bool) :
    list CallbackCall * res unit :=
  if has_callback then
    match WaitForResults (Some tx) with
    | Panic => ([], Panic)
    | Err e => ([mkCallbackCall m (mkTxResponse 0 tx "" Failed "") (Some e)], Err e)
    | Ok r =>
        let height := big_Int64 (er_BlockNumber r) in
        if er_Status r =? 1 then
          ([mkCallbackCall m (mkTxResponse height tx "" Success "") None], Ok tt)
        else
          let e := "transaction failed to execute" in
          ([mkCallbackCall m (mkTxResponse height tx "" Failed "") (Some e)],
           match k_Sn m with Some _ => Err e | None => Panic end)
    end
  else ([], Ok tt).

Definition Route (now : Z) (message : Message) : Evm (list CallbackCall * res unit) :=
  opts ← GetTransationOpts now;
  match opts with
  | inr e => mret ([], Err ("routing failed: " +:+ e))
  | inl opts =>
      tx ← SendTransaction now opts (message_wire message);
      match tx with
      | inr e => mret ([], Err ("routing failed: " +:+ e))
      | inl tx => mret (WaitForTxResult tx (Message_MessageKey message) true)
      end
  end.

(** ** Administration *)

(** Sending a message of the operator's and waiting for its receipt. *)
Definition send_and_wait (now : Z) (what : string) (msg : MessageOf Z) : Evm (unit + string) :=
  opts ←? GetTransationOpts now;
  tx ←? SendTransaction now opts msg;
  receipt ←? liftRes (WaitForResults (Some tx));
  if er_Status receipt =? 1 then okE tt
  else mret (inr ("failed to " +:+ what +:+ ": %!s(<nil>)")).

Definition admin_message (ev src dst : string) (sn reqID : option Z) : MessageOf Z :=
  mkMessage dst src sn "" 0 ev reqID.

(** [SetAdmin] drops the error of [SendTransaction], and waits for a nil
    transaction. *)
Definition SetAdmin_ (now : Z) (admin : string) : Evm (unit + string) :=
  opts ←? GetTransationOpts now;
  tx ← SendTransaction now opts (admin_message SetAdmin "" admin None None);
  receipt ←? liftRes (WaitForResults (match tx with inl h => Some h | inr _ => None end));
  if er_Status receipt =? 1 then okE tt
  else mret (inr "failed to set admin: %!s(<nil>)").

Definition RevertMessage_ (now : Z) (sn : option Z) : Evm (unit + string) :=
  send_and_wait now "revert message" (admin_message RevertMessage "" "" sn None).
Definition ClaimFee_ (now : Z) : Evm (unit + string) :=
  send_and_wait now "revert message" (admin_message ClaimFee "" "" None None).
Definition SetFee_ (now : Z) (networkID : string) (msgFee resFee : option Z) : Evm (unit + string) :=
  send_and_wait now "set fee" (admin_message SetFee networkID "" msgFee resFee).
Definition ExecuteRollback_ (now : Z) (sn : option Z) : Evm (unit + string) :=
  send_and_wait now "execute rollback" (admin_message RollbackMessage "" "" sn None).

(** The response-fee flag is not used. *)
Definition GetFee_ (networkID : string) (responseFee : bool) : res Z :=
  fee ← client_GetFee cl networkID; Ok (big_Uint64 fee).

(** ** Queries *)

Definition QueryLatestHeight_ : res Z := GetBlockNumber cl.
Definition ShouldReceiveMessage_ (m : Message) : res bool := Ok true.
Definition ShouldSendMessage_ (m : Message) : res bool := Ok true.

Definition MessageReceived_ (k : MessageKey) : res bool :=
  if decide (k_EventType k = EmitMessage) then client_MessageReceived cl (k_Src k) (sn_val (k_Sn k))
  else if decide (k_EventType k = CallMessage) then Ok false
  else if decide (k_EventType k = RollbackMessage) then Ok false
  else Err "unknown event type".

Definition QueryBalance_ (addr : string) : res Coin :=
  balance ← client_GetBalance cl addr; Ok (mkCoin "eth" (big_Uint64 balance)).

Definition QueryTransactionReceipt_ (txHash : string) : res (option Receipt) :=
  receipt ← wrapErr "queryTransactionReceipt: " (receipt_by_hash cl txHash);
  Ok (Some (mkReceipt txHash (big_Uint64 (er_BlockNumber receipt)) (er_Status receipt =? 1))).

(** ** Logs *)

Definition getRelayMessageFromLog (log : Log) : res (MessageOf Z) :=
  match l_Topics log with
  | [] => Err "topic length mismatch"
  | topic :: _ =>
      if decide (topic = EmitMessageHash cl) then
        msg ← wrapErr2 "error parsing message:" " " (ParseConnectionMessage cl log);
        Ok (mkMessage (cm_TargetNetwork msg) NID (Some (cm_Sn msg)) (cm_Msg msg) (l_BlockNumber log)
              (GetEventName contracts EmitMessageSig) None)
      else if decide (topic = CallMessageHash cl) then
        msg ← wrapErr2 "error parsing message:" " " (ParseCallMessage cl log);
        Ok (mkMessage NID NID (Some (xc_Sn msg)) (xc_Data msg) (l_BlockNumber log)
              (GetEventName contracts CallMessageSig) (Some (xc_ReqId msg)))
      else if decide (topic = RollbackMessageHash cl) then
        sn ← wrapErr2 "error parsing message:" " " (ParseRollbackMessage cl log);
        Ok (mkMessage NID NID (Some sn) "" (l_BlockNumber log)
              (GetEventName contracts RollbackMessageSig) None)
      else Err "unknown topic"
  end.

(** [FindMessages]: the first log that does not parse fails the whole block;
    a nil notification panics. *)
Definition FindMessages (lbn : option (list Log)) : res (list (MessageOf Z)) :=
  logs ← deref lbn; res_mapM getRelayMessageFromLog logs.

(** The bounds the query is given here stay in the provider's [blockReq], whose
    addresses and topics alone are read elsewhere. *)
Definition GenerateMessages_ (q : FilterQuery) (k : KeyWithHeightOf BigInt) : res (list (MessageOf Z)) :=
  _ ← GetHeaderByHeight cl (kh_Height k);
  logs ← FilterLogs cl (mkFilterQuery (kh_Height k) (kh_Height k) (fq_Addresses q) (fq_Topics q)) 0;
  FindMessages (Some logs).

(** ** Listener *)

(** [getLogsRetry]: the delays slept and the result.  The fuel is the number
    of attempts left. *)
Fixpoint getLogsRetry_loop (n : nat) (attempts : nat) (filter : FilterQuery) (err : error)
    (delays : list Z) : list Z * res (list Log) :=
  match n with
  | O => (delays, match err with Some e => Err e | None => Ok [] end)
  | S n =>
      match FilterLogs cl filter attempts with
      | Ok logs => (delays, Ok logs)
      | Panic => (delays, Panic)
      | Err e =>
          let attempts := S attempts in
          let delay := 2 ^ Z.of_nat attempts * BaseRetryInterval in
          getLogsRetry_loop n attempts filter (Some e) (delays ++ [Z.min delay MaxRetryInterval])
      end
  end.
Definition getLogsRetry (filter : FilterQuery) : list Z * res (list Log) :=
  getLogsRetry_loop (Z.to_nat MaxRetryCount) 0 filter None [].

Definition isConnectionError (msg : string) (isDeadline : bool) : bool :=
  Contains msg "tcp" || isDeadline.

(** The height to start listening from. *)
Definition startFromHeight (lastSavedHeight : Z) : res Z :=
  latestHeight ← QueryLatestHeight_;
  let latestQueryHeight := u64 (latestHeight - cc_FinalityBlock (c_Common cfg)) in
  let start := cc_StartHeight (c_Common cfg) in
  if negb (start =? 0) && (start <? latestQueryHeight) then Ok start
  else if negb (lastSavedHeight =? 0) && (lastSavedHeight <? latestQueryHeight) then Ok lastSavedHeight
  else Ok latestQueryHeight.

Definition latestHeight : Z := match GetBlockNumber cl with Ok h => h | _ => 0 end.

(** [for start := startHeight; start <= latestHeight; start += BlockBatchSize],
    in [uint64]; [fuel] bounds the number of batches. *)
Fixpoint blockReqs (fuel : nat) (start latest : Z) : list (Z * Z) :=
  match fuel with
  | O => []
  | S fuel =>
      if start <=? latest then
        (start, Z.min (u64 (u64 (start + c_BlockBatchSize cfg) - 1)) latest) ::
        blockReqs fuel (u64 (start + c_BlockBatchSize cfg)) latest
      else []
  end.

(** The messages of a log, as a block of their own; a log that does not parse
    is dropped. *)
Definition log_block (log : Log) : option (BlockInfoOf Z) :=
  match getRelayMessageFromLog log with
  | Ok m => Some (mkBlockInfo (l_BlockNumber log) [m])
  | _ => None
  end.

(** Synchronising up to [latest]: the blocks sent, batch after batch; a batch
    that cannot be fetched is skipped. *)
Definition sync (q : FilterQuery) (fuel : nat) (startHeight latest : Z) : list (BlockInfoOf Z) :=
  let start := if startHeight =? 0 then latest else startHeight in
  flat_map (λ '(from, to),
    match (getLogsRetry (mkFilterQuery from to (fq_Addresses q) (fq_Topics q))).2 with
    | Ok logs => omap log_block logs
    | _ => []
    end) (blockReqs fuel start latest).

(** What the subscription does with a log it receives. *)
Definition Subscribe_log (log : Log) : option (BlockInfoOf Z) := log_block log.

Definition GetConcurrency (cpu startHeight currentHeight : Z) : res Z :=
  if c_BlockBatchSize cfg =? 0 then Panic
  else
    let diff := i64 (i64 (u64 (currentHeight - startHeight) / c_BlockBatchSize cfg) + 1) in
    Ok (if diff <=? cpu then diff else cpu).
End Provider.

(** * Keystores (keys.go) *)

(** Files by path; [kms] and the key library are third-party. *)
Record KeyEnv := mkKeyEnv {
  Encrypt : string → res string;
  Decrypt : string → res string;
  DecryptKey : string → string → res string;
  StoreKey : string → res (string * string) }.

Definition keystorePath (cfg : Config) (addr : string) : string :=
  pathJoin [cc_HomeDir (c_Common cfg); "keystore"; cc_NID (c_Common cfg); addr].

Definition ReadFile (fs : gmap string string) (path : string) : res string :=
  match fs !! path with
  | Some d => Ok d
  | None => Err ("open " +:+ path +:+ ": no such file or directory")
  end.

Definition RestoreKeystore_ (env : KeyEnv) (cfg : Config) (fs : gmap string string) : res string :=
  let path := keystorePath cfg (cc_Address (c_Common cfg)) in
  keystoreCipher ← ReadFile fs path;
  keystoreJson ← Decrypt env keystoreCipher;
  authCipher ← ReadFile fs (path +:+ ".pass");
  secret ← Decrypt env authCipher;
  DecryptKey env keystoreJson secret.

(** [StoreKey] gives the new key's file content and address; the temporary
    file it leaves is removed. *)
Definition NewKeystore (env : KeyEnv) (cfg : Config) (password : string) (fs : gmap string string) :
    gmap string string * res string :=
  match StoreKey env password with
  | Ok (data, addr) =>
      match Encrypt env data, Encrypt env password with
      | Ok keystoreEncrypted, Ok passwordEncrypted =>
          let path := keystorePath cfg addr in
          (<[path +:+ ".pass" := passwordEncrypted]> (<[path := keystoreEncrypted]> fs), Ok addr)
      | Ok _, r => (fs, r)
      | r, _ => (fs, r)
      end
  | Err e => (fs, Err e)
  | Panic => (fs, Panic)
  end.

(** The files go under the configured address, not the imported key's. *)
Definition ImportKeystore (env : KeyEnv) (cfg : Config) (keystoreContent passphrase : string)
    (fs : gmap string string) : gmap string string * res string :=
  match DecryptKey env keystoreContent passphrase with
  | Ok addr =>
      match Encrypt env keystoreContent, Encrypt env passphrase with
      | Ok keystoreEncrypted, Ok passwordEncrypted =>
          let path := keystorePath cfg (cc_Address (c_Common cfg)) in
          (<[path +:+ ".pass" := passwordEncrypted]> (<[path := keystoreEncrypted]> fs), Ok addr)
      | Ok _, r => (fs, r)
      | r, _ => (fs, r)
      end
  | Err e => (fs, Err e)
  | Panic => (fs, Panic)
  end.
End Evm.
