(* ===== verification/EvmCorrect.v ===== *)
(** The EVM provider: what is scanned, what is sent, and what the relayer is
    told about it. *)
From stdpp Require Import gmap strings list.
From Stdlib Require Import ZArith Lia.
From S2P Require Import Prelude GoStd Types Provider EvmNonce Evm.
Import Evm.
Open Scope Z_scope.

(** * Scanning *)

(** The heights of a range. *)
Definition heights (r : Z * Z) : list Z := seqZ r.1 (r.2 - r.1 + 1).

Lemma blockReqs_heights cfg fuel start latest :
  0 < c_BlockBatchSize cfg → 0 ≤ start → latest + c_BlockBatchSize cfg < 2 ^ 64 → start ≤ latest + c_BlockBatchSize cfg →
  latest - start < Z.of_nat fuel →
  flat_map heights (blockReqs cfg fuel start latest) = seqZ start (latest - start + 1).
Proof.
  intros Hb. revert start. induction fuel as [|fuel IH]; intros start H0 Hlt Hs Hf; cbn [blockReqs].
  - by rewrite seqZ_nil by lia.
  - destruct (Z.leb_spec start latest); [|by rewrite seqZ_nil by lia].
    rewrite (u64_small (start + c_BlockBatchSize cfg)), u64_small by lia.
    cbn [flat_map]. rewrite IH by lia. unfold heights; cbn [fst snd].
    set (e := Z.min (start + c_BlockBatchSize cfg - 1) latest).
    destruct (Z.leb_spec (start + c_BlockBatchSize cfg) latest).
    + assert (e = start + c_BlockBatchSize cfg - 1) as He by (unfold e; lia).
      replace (latest - start + 1) with ((e - start + 1) + (latest - e)) by lia.
      rewrite (seqZ_app _ (e - start + 1) (latest - e)) by lia. f_equal. f_equal; lia.
    + rewrite (seqZ_nil (start + _)) by lia. rewrite app_nil_r. f_equal. unfold e. lia.
Qed.

(** The batches of one synchronisation cover every height from the start to
    the latest one exactly once, in order, and none holds more than
    [BlockBatchSize] heights; [latest - start + 1] steps are enough. *)
Theorem blockReqs_cover cfg fuel start latest
  (Hb : 0 < c_BlockBatchSize cfg) (H0 : 0 ≤ start ≤ latest)
  (Hlt : latest + c_BlockBatchSize cfg < 2 ^ 64) (Hf : latest - start < Z.of_nat fuel) :
  flat_map heights (blockReqs cfg fuel start latest) = seqZ start (latest - start + 1) ∧
  Forall (λ r, 0 < Z.of_nat (length (heights r)) ≤ c_BlockBatchSize cfg) (blockReqs cfg fuel start latest).
Proof.
  split; [apply blockReqs_heights; lia|]. clear Hf.
  assert (start ≤ latest + c_BlockBatchSize cfg) as Hs by lia. destruct H0 as [H0 _]. revert start H0 Hs.
  induction fuel as [|fuel IH]; intros start H0 Hs; cbn [blockReqs]; [constructor|].
  destruct (Z.leb_spec start latest); [|constructor].
  rewrite (u64_small (start + c_BlockBatchSize cfg)), u64_small by lia.
  constructor; [unfold heights; cbn [fst snd]; rewrite length_seqZ; lia|apply IH; lia].
Qed.

(** The listener starts from the configured height, from the saved one, or
    from the last final one, in that order, and never beyond the last final
    height; but on a chain shorter than the finality period the subtraction
    wraps around, and the scan up to the latest height is empty. *)
Theorem startFromHeight_final cl cfg saved latest
  (Hl : GetBlockNumber cl = Ok latest) (H0 : 0 ≤ latest < 2 ^ 64) (Hf : 0 ≤ cc_FinalityBlock (c_Common cfg) < 2 ^ 64)
  (Hs : 0 ≤ saved) (Hc : 0 ≤ cc_StartHeight (c_Common cfg)) :
  let final := latest - cc_FinalityBlock (c_Common cfg) in
  let start := cc_StartHeight (c_Common cfg) in
  (0 ≤ final → startFromHeight cl cfg saved = Ok (
     if (0 <? start) && (start <? final) then start
     else if (0 <? saved) && (saved <? final) then saved else final)) ∧
  (final < 0 → saved = 0 → start = 0 → ∃ h, startFromHeight cl cfg saved = Ok h ∧ latest < h ∧
     ∀ fuel, blockReqs cfg fuel h latest = []).
Proof.
  cbn zeta. unfold startFromHeight, QueryLatestHeight_. rewrite Hl. cbn [mbind res_bind].
  set (start := cc_StartHeight (c_Common cfg)) in *. set (f := cc_FinalityBlock (c_Common cfg)) in *.
  split.
  - intros Hfin. rewrite u64_small by lia.
    replace (negb (start =? 0)) with (0 <? start) by lia.
    replace (negb (saved =? 0)) with (0 <? saved) by lia. by repeat case_match.
  - intros Hneg -> ->. cbn [Z.eqb negb andb]. eexists. split; [done|].
    assert (latest < u64 (latest - f)) as Hh.
    { unfold u64. replace (latest - f) with (latest - f + 2 ^ 64 + (-1) * 2 ^ 64) by lia.
      rewrite Z.mod_add, Z.mod_small by lia. lia. }
    split; [done|]. intros [|fuel]; [done|]. cbn. destruct (Z.leb_spec (u64 (latest - f)) latest); [lia|done].
Qed.

(** Fetching the logs of a batch is tried at most five times, with delays
    of 6, 12, 24, 48 and 96 seconds; it fails only when all five attempts
    failed. *)
Theorem getLogsRetry_bounded cl filter
  (Hp : ∀ i, FilterLogs cl filter i ≠ Panic) :
  let '(delays, r) := getLogsRetry cl filter in
  delays `prefix_of` [6 * Second; 12 * Second; 24 * Second; 48 * Second; 96 * Second] ∧
  match r with
  | Ok logs => ∃ i, (i < 5)%nat ∧ FilterLogs cl filter i = Ok logs ∧ length delays = i
  | Err _ => ∀ i, (i < 5)%nat → ¬ is_ok (FilterLogs cl filter i)
  | Panic => False
  end.
Proof.
  unfold getLogsRetry. change (Z.to_nat MaxRetryCount) with 5%nat. cbn [getLogsRetry_loop].
  destruct (FilterLogs cl filter 0) as [l0|e0|] eqn:E0; [|
  destruct (FilterLogs cl filter 1) as [l1|e1|] eqn:E1; [|
  destruct (FilterLogs cl filter 2) as [l2|e2|] eqn:E2; [|
  destruct (FilterLogs cl filter 3) as [l3|e3|] eqn:E3; [|
  destruct (FilterLogs cl filter 4) as [l4|e4|] eqn:E4; [| |by destruct (Hp 4%nat)]|by destruct (Hp 3%nat)]
  |by destruct (Hp 2%nat)]|by destruct (Hp 1%nat)]|by destruct (Hp 0%nat)].
  1-5: split; [by eexists; vm_compute|].
  - exists 0%nat. split_and!; [lia|done|done].
  - exists 1%nat. split_and!; [lia|done|done].
  - exists 2%nat. split_and!; [lia|done|done].
  - exists 3%nat. split_and!; [lia|done|done].
  - exists 4%nat. split_and!; [lia|done|done].
  - split; [by eexists; vm_compute|]. intros i Hi.
    assert (i = 0 ∨ i = 1 ∨ i = 2 ∨ i = 3 ∨ i = 4)%nat as Hc by lia.
    by destruct Hc as [->|[->|[->|[->| ->]]]]; rewrite ?E0, ?E1, ?E2, ?E3, ?E4; cbn; intros [].
Qed.

(** * Results *)

Lemma WaitForResults_loop_bounded counter l r :
  0 ≤ counter → WaitForResults_loop counter l = Ok r →
  ∃ n, counter + Z.of_nat n < MaximumPollTry ∧ l !! n = Some (PReceipt r) ∧
    Forall (λ p, p = PNotFound) (take n l).
Proof.
  revert counter. induction l as [|p l IH]; intros counter H0 H1; cbn in H1; [done|].
  destruct (Z.leb_spec MaximumPollTry counter); [by destruct p|].
  destruct p as [r'| | |]; try done.
  - injection H1 as ->. exists 0%nat. split; [lia|]. split; [done|constructor].
  - apply IH in H1 as (n & ? & ? & ?); [|lia]. exists (S n). split; [lia|]. split; [done|].
    cbn. by constructor.
Qed.

(** The wait for a transaction calls the callback exactly once, with the
    message's own key and the transaction's hash, and reports success exactly
    when the receipt found within fifteen polls carries status 1; the error
    returned to the relayer agrees with what the callback was told, unless the
    log line of a failed transaction panics on a missing serial number. *)
Theorem WaitForTxResult_once cl tx m :
  let '(calls, r) := WaitForTxResult cl tx m true in
  ∃ c, calls = [c] ∧ cb_key c = m ∧ tr_TxHash (cb_response c) = tx ∧
    (is_Some (k_Sn m) → cb_err c = err_of r) ∧ (r = Panic → k_Sn m = None) ∧
    (tr_Code (cb_response c) = Success ↔ r = Ok tt) ∧
    (r = Ok tt ↔ ∃ rc, WaitForResults cl (Some tx) = Ok rc ∧ er_Status rc = 1) ∧
    (r = Ok tt → ∃ n rc, Z.of_nat n < MaximumPollTry ∧ polls cl tx !! n = Some (PReceipt rc)).
Proof.
  unfold WaitForTxResult, WaitForResults.
  destruct (WaitForResults_loop 0 (polls cl tx)) as [rc|e|] eqn:E.
  - destruct (Z.eqb_spec (er_Status rc) 1) as [Hst|Hst].
    + eexists. split_and!; [done..| |].
      * split; [|done]. intros _. by exists rc.
      * intros _. apply WaitForResults_loop_bounded in E as (n & ? & ? & _); [|lia]. by exists n, rc.
    + eexists. destruct (k_Sn m) as [sn|]; split_and!;
        try done; try (by intros [? ?]); try (by split); (split; [done|]; by intros (rc' & [= <-] & ?)).
  - eexists. split_and!; try done; try (by split). split; [done|]. by intros (? & ? & _).
  - exfalso. clear -E. assert (∀ l c, WaitForResults_loop c l ≠ Panic) as Hn; [|by eapply Hn].
    induction l as [|p l IH]; intros c; cbn; [done|]. destruct p; try done; by case_match.
Qed.

(** * Sending *)

Section Sending.
Context (cl : IClient) (cfg : Config).
Implicit Types (s : EvmState).

Lemma wlp_on_nonces {A} (m : proc NonceTracker A) (Q : A → EvmState → Prop) s :
  (∀ n a, m (e_nonces s) = Some (n, a) → Q a (mkEvmState (e_wallet s) n (e_sent s))) →
  wlp (on_nonces m) Q s.
Proof. intros HQ. unfold wpx, on_nonces. destruct (m (e_nonces s)) as [[n a]|]; auto. Qed.

(** Operations that hand nothing to the node. *)
Definition quiet {A} (m : proc EvmState A) : Prop := ∀ s, wlp m (λ _ s', e_sent s' = e_sent s) s.

Lemma quiet_on_nonces {A} (m : proc NonceTracker A) : quiet (on_nonces m).
Proof. intros s. by apply wlp_on_nonces. Qed.

Lemma quiet_Wallet now : quiet (Wallet cl now).
Proof.
  intros s. apply wpx_bind, wpx_gets. destruct (e_wallet s); [done|].
  apply wpx_tryE, wlp_liftRes; [|done]. intros addr _. apply wpx_bind, wpx_modify.
  apply wpx_tryE, wlp_liftRes; [|done]. intros nonce _.
  apply wpx_bind, wlp_on_nonces. intros n p _. by apply wpx_bind, wlp_on_nonces.
Qed.

Lemma GetTransationOpts_spec now s :
  wlp (GetTransationOpts cl now) (λ r s', e_sent s' = e_sent s ∧
    match r with inl opts => SuggestGasTip cl = match o_GasTipCap opts with
        Some t => Ok t | None => SuggestGasTip cl end ∧ (o_GasTipCap opts = None → ∃ e, SuggestGasTip cl = Err e)
    | inr _ => True end) s.
Proof.
  apply wpx_tryE. eapply wpx_mono; [apply quiet_Wallet|]. intros [w|e] s1 <-; [|done].
  apply wpx_bind, wlp_on_nonces. intros n p _.
  apply wpx_tryE, wlp_liftRes; [|done]. intros g _.
  apply wpx_bind, wlp_liftRes; intros t Ht; (split; [done|]); cbn [o_GasTipCap]; [by rewrite Ht|].
  split; [done|]. eauto.
Qed.

(** What one [SendTransaction] does to the transactions handed to the node. *)
Definition sends (opts : TransactOpts) (message : MessageOf Z) s (r : string + string) s' : Prop :=
  match r with
  | inr _ => e_sent s' = e_sent s
  | inl tx => ∃ call z g w msg,
      call_of cl message = Some call ∧ e_sent s' = e_sent s ++ [(call, z)] ∧
      nt_heap (e_nonces s) !! o_Nonce opts = Some z ∧ transact cl call z = Ok tx ∧
      e_wallet s = Some w ∧ EstimateGas_msg cl cfg w message = Ok msg ∧ EstimateGas cl msg = Ok g ∧
      c_GasMin cfg ≤ g ≤ c_GasLimit cfg ∧
      m_Sn message ≠ None ∧ o_GasTipCap opts ≠ None
  end.

Lemma SendTransaction_sends_spec now opts message s :
  wlp (SendTransaction cl cfg now opts message) (sends opts message s) s.
Proof.
  apply wpx_bind. apply wpx_bind, wpx_gets. destruct (e_wallet s) as [w|] eqn:Hw; [|done].
  apply wpx_tryE, wlp_liftRes; [|done]. intros msg Hmsg. apply wlp_liftRes; [|done]. intros g Hg.
  destruct (Z.ltb_spec (c_GasLimit cfg) g); [done|]. destruct (Z.ltb_spec g (c_GasMin cfg)); [done|].
  apply wpx_bind. unfold log_tx; cbn [o_GasTipCap o_Nonce].
  destruct (o_GasTipCap opts) as [tip|] eqn:Htip; [|done].
  destruct (m_Sn message) as [sn|] eqn:Hsn; [|done].
  apply wpx_bind, wlp_on_nonces. intros n0 z0 Hz0.
  unfold big_get in Hz0. destruct (nt_heap (e_nonces s) !! o_Nonce opts) as [z|] eqn:Hz; [|done].
  injection Hz0 as <- <-. apply wpx_ret.
  destruct (call_of cl message) as [call|] eqn:Hcall; [|done].
  apply wpx_bind, wpx_bind, wlp_on_nonces. intros n1 z1 Hz1. cbn in Hz1. unfold big_get in Hz1.
  rewrite Hz in Hz1. injection Hz1 as <- <-.
  apply wpx_bind, wlp_liftRes.
  - intros tx Htx. apply wpx_bind, wpx_modify, wpx_ret.
    exists call, z, g, w, msg. rewrite Hsn, Htip. split_and!; done.
  - intros e _. apply wpx_ret. case_decide; [|done].
    apply wpx_bind, wpx_gets. cbn [e_wallet]. rewrite Hw.
    apply wpx_tryE, wlp_liftRes; [|done]. intros nonce _.
    apply wpx_bind, wlp_on_nonces. intros n2 p _. by apply wpx_bind, wlp_on_nonces.
Qed.

(** The node and the libraries answer, with a value or an error. *)
Record answers : Prop := {
  an_keystore : RestoreKeystore cl ≠ Panic;
  an_nonce w : PendingNonceAt cl w ≠ Panic;
  an_price : SuggestGasPrice cl ≠ Panic;
  an_gas m : EstimateGas cl m ≠ Panic;
  an_pack abi m args : Pack cl abi m args ≠ Panic;
  an_transact c z : transact cl c z ≠ Panic }.

(** The wallet, once loaded, has its nonce. *)
Definition nonce_ok s : Prop := ∀ w, e_wallet s = Some w → ∃ v,
  nt_address (e_nonces s) !! w = Some v ∧
  is_Some (nt_heap (e_nonces s) !! nv_Current v) ∧ is_Some (nt_heap (e_nonces s) !! nv_Previous v).

Lemma wp_on_nonces {A} (m : proc NonceTracker A) (Q : A → EvmState → Prop) s :
  wp m (λ a n, Q a (mkEvmState (e_wallet s) n (e_sent s))) (e_nonces s) → wp (on_nonces m) Q s.
Proof. unfold wpx, on_nonces. by destruct (m (e_nonces s)) as [[n a]|]. Qed.

Lemma wp_Set_new now w z n :
  wp (p ← big_new z; Set_ now w p) (λ _ n', ∃ v, nt_address n' !! w = Some v ∧
    is_Some (nt_heap n' !! nv_Current v) ∧ is_Some (nt_heap n' !! nv_Previous v)) n.
Proof.
  unfold wpx, mbind, proc_bind, big_new, Set_, big_add, mbind, proc_bind. cbn.
  rewrite lookup_insert_eq. cbn. eexists. rewrite lookup_insert_eq. split; [done|]. cbn.
  rewrite lookup_insert_eq. split; by eexists.
Qed.

Lemma wp_Get now getter w n v :
  getter ≠ Panic → nt_address n !! w = Some v →
  is_Some (nt_heap n !! nv_Current v) → is_Some (nt_heap n !! nv_Previous v) →
  wp (Get now getter w) (λ p n', is_Some (nt_heap n' !! p)) n.
Proof.
  intros Hg Ha [c Hc] [p Hp]. apply wpx_bind, wpx_gets. rewrite Ha.
  destruct (NonceUpdateInterval <? _).
  - destruct getter as [z|e|]; [|by apply wpx_ret; eexists|done].
    unfold wpx, mbind, proc_bind, big_new, big_add. cbn. rewrite lookup_insert_eq. cbn.
    rewrite lookup_insert_eq. by eexists.
  - unfold wpx, mbind, proc_bind, big_get, big_add. rewrite Hc, Hp. destruct (negb (p <? c)); cbn.
    + rewrite Hc. cbn. rewrite lookup_insert_eq. by eexists.
    + rewrite Hc. by eexists.
Qed.

Lemma wp_Wallet now s : answers → nonce_ok s →
  wp (Wallet cl now) (λ r s', match r with
    | inl w => e_wallet s' = Some w ∧ nonce_ok s' | inr _ => True end) s.
Proof.
  intros Han Hok. apply wpx_bind, wpx_gets. destruct (e_wallet s) as [w|] eqn:Hw; [by apply wpx_ret|].
  apply wpx_tryE, wp_liftRes; [apply Han| |done]. intros addr _. apply wpx_bind, wpx_modify.
  apply wpx_tryE, wp_liftRes; [apply Han| |done]. intros z _.
  pose proof (wp_Set_new now addr z (e_nonces s)) as Hset.
  unfold wpx in Hset |- *. unfold mbind, proc_bind, on_nonces in *. cbn [e_nonces e_wallet e_sent].
  destruct (big_new z (e_nonces s)) as [[n1 p]|]; [|done]. cbn [e_nonces e_wallet e_sent].
  destruct (Set_ now addr p n1) as [[n2 []]|]; [|done]. cbn. split; [done|].
  intros w' [= <-]. exact Hset.
Qed.

Lemma wp_GetTransationOpts now s : answers → nonce_ok s → is_ok (SuggestGasTip cl) = true →
  wp (GetTransationOpts cl now) (λ r s', match r with
    | inl opts => is_Some (o_GasTipCap opts) ∧ is_Some (nt_heap (e_nonces s') !! o_Nonce opts) ∧
        is_Some (e_wallet s')
    | inr _ => True end) s.
Proof.
  intros Han Hok Htip. apply wpx_tryE. eapply wpx_mono; [by apply wp_Wallet|].
  intros [w|e] s1; [|done]. intros [Hw Hok1]. destruct (Hok1 w Hw) as (v & Ha & Hc & Hp).
  apply wpx_bind, wp_on_nonces. eapply wpx_mono; [eapply wp_Get; [apply Han|done..]|]. intros p n Hpn.
  apply wpx_tryE, wp_liftRes.
  { destruct (SuggestGasPrice cl) eqn:E; cbn; try done. by destruct (an_price Han). }
  2: done.
  intros g _. apply wpx_bind. destruct (SuggestGasTip cl) as [t| |]; [|done|done].
  apply wpx_liftRes; [done| |done]. intros t' [= ->]. apply wpx_ret. cbn.
  split_and!; [by eexists|done|]. rewrite Hw. by eexists.
Qed.

Lemma wp_SendTransaction now opts message s : answers → is_Some (e_wallet s) →
  is_Some (o_GasTipCap opts) → is_Some (nt_heap (e_nonces s) !! o_Nonce opts) → is_Some (m_Sn message) →
  wp (SendTransaction cl cfg now opts message) (λ _ _, True) s.
Proof.
  intros Han [w Hw] [t Ht] [z Hz] [sn Hsn].
  apply wpx_bind. apply wpx_bind, wpx_gets. rewrite Hw. apply wpx_tryE, wp_liftRes; [| |done].
  { unfold EstimateGas_msg. repeat case_decide; try done;
      match goal with |- context [Pack cl ?abi ?m ?a] => pose proof (an_pack Han abi m a); by destruct (Pack cl abi m a) end. }
  intros msg _. apply wp_liftRes; [apply Han| |done]. intros g _.
  destruct (c_GasLimit cfg <? g); [done|]. destruct (g <? c_GasMin cfg); [done|].
  apply wpx_bind. unfold log_tx; cbn [o_GasTipCap o_Nonce]. rewrite Ht, Hsn.
  assert (wp (big_get (o_Nonce opts)) (λ z' n, z' = z ∧ n = e_nonces s) (e_nonces s)) as Hget
    by (unfold wpx, big_get; by rewrite Hz).
  apply wpx_bind, wp_on_nonces. eapply wpx_mono; [exact Hget|]. intros z1 n1 [-> ->]. apply wpx_ret.
  destruct (call_of cl message) as [call|]; [|done].
  apply wpx_bind, wpx_bind, wp_on_nonces. cbn [e_nonces e_wallet e_sent].
  eapply wpx_mono; [exact Hget|]. intros z2 n2 [-> ->].
  apply wpx_bind, wp_liftRes; [apply Han|by intros|]. intros e _. apply wpx_ret. case_decide; [|done].
  apply wpx_bind, wpx_gets. cbn [e_wallet]. rewrite Hw. apply wpx_tryE, wp_liftRes; [apply Han| |done].
  intros z3 _. pose proof (wp_Set_new now w z3 (e_nonces s)) as Hset.
  unfold wpx in Hset |- *. unfold mbind, proc_bind, on_nonces in *. cbn [e_nonces e_wallet e_sent].
  destruct (big_new z3 (e_nonces s)) as [[n3 p]|]; [|done]. cbn [e_nonces e_wallet e_sent].
  by destruct (Set_ now w p n3) as [[n4 []]|].
Qed.

(** The outcome of one [Route]: [calls] and [r], and the transactions handed to
    the node. *)
Definition route_outcome (message : Message) s (out : list CallbackCall * res unit) s' : Prop :=
  (e_sent s' = e_sent s ∧ out.1 = [] ∧ ∃ e, out.2 = Err ("routing failed: " +:+ e)) ∨
  (∃ call z g msg w tx, e_sent s' = e_sent s ++ [(call, z)] ∧
     call_of cl (message_wire message) = Some call ∧ transact cl call z = Ok tx ∧
     EstimateGas_msg cl cfg w (message_wire message) = Ok msg ∧ EstimateGas cl msg = Ok g ∧
     c_GasMin cfg ≤ g ≤ c_GasLimit cfg ∧
     out = WaitForTxResult cl tx (Message_MessageKey message) true).

Lemma wlp_Route now message s : wlp (Route cl cfg now message) (route_outcome message s) s.
Proof.
  apply wpx_bind. eapply wpx_mono; [apply GetTransationOpts_spec|].
  intros [opts|e] s1 [Hs1 _]; [|left; eauto].
  apply wpx_bind. eapply wpx_mono; [apply SendTransaction_sends_spec|].
  intros [tx|e] s2 Hs; cbn in Hs; [|left; rewrite Hs; eauto].
  destruct Hs as (call & z & g & w & msg & ? & Hsent & ? & ? & ? & ? & ? & ? & ?).
  apply wpx_ret. right. exists call, z, g, msg, w, tx. by rewrite Hsent, Hs1.
Qed.

Lemma wp_Route now (message : Message) s
  (Han : answers) (Hok : nonce_ok s) (Htip : is_ok (SuggestGasTip cl) = true)
  (Hsn : is_Some (m_Sn message)) :
  wp (Route cl cfg now message) (route_outcome message s) s.
Proof.
  apply (wp_of_wlp _ (λ _ _, True)); [apply wlp_Route|].
  apply wpx_bind. eapply wpx_mono; [by apply wp_GetTransationOpts|]. intros [opts|e] s1; [|done].
    intros (Ht & Hz & Hw). apply wpx_bind. eapply wpx_mono.
    + apply wp_SendTransaction; try done. destruct Hsn as [sn Hsn]. cbn. rewrite Hsn. by eexists.
    + by intros [tx|e] s2 _.
Qed.

(** With a node that answers and gives a gas tip, routing a message with a
    serial number never panics.  It hands the node exactly one transaction, the
    call that the message's event type stands for with the nonce prepared, and
    only when the gas estimate is within the configured bounds; otherwise it
    hands over nothing, never calls the callback, and reports an error. *)
Theorem Route_sends_once now (message : Message) s
  (Han : answers) (Hok : nonce_ok s) (Htip : is_ok (SuggestGasTip cl) = true)
  (Hsn : is_Some (m_Sn message)) :
  wp (Route cl cfg now message) (λ '(calls, r) s',
    (e_sent s' = e_sent s ∧ calls = [] ∧ ∃ e, r = Err ("routing failed: " +:+ e)) ∨
    (∃ call z g msg w tx, e_sent s' = e_sent s ++ [(call, z)] ∧
       call_of cl (message_wire message) = Some call ∧ transact cl call z = Ok tx ∧
       EstimateGas_msg cl cfg w (message_wire message) = Ok msg ∧ EstimateGas cl msg = Ok g ∧
       c_GasMin cfg ≤ g ≤ c_GasLimit cfg ∧
       (calls, r) = WaitForTxResult cl tx (Message_MessageKey message) true)) s.
Proof.
  eapply wpx_mono; [by apply wp_Route|]. intros [calls r] s' [(? & ? & ?)|H]; [by left|by right].
Qed.

(** When the very first query of the nonce fails, routing reports an error,
    and the next message kills the relayer: the wallet is kept without its
    nonce, and the nonce tracker dereferences a missing entry. *)
Theorem first_nonce_error_panics now now' (message message' : Message) s addr e
  (Hw : e_wallet s = None) (Hn : nt_address (e_nonces s) !! addr = None)
  (Hk : RestoreKeystore cl = Ok addr) (He : PendingNonceAt cl addr = Err e) :
  ∃ s', Route cl cfg now message s = Some (s', ([], Err ("routing failed: " +:+ e))) ∧
    Route cl cfg now' message' s' = None.
Proof.
  exists (mkEvmState (Some addr) (e_nonces s) (e_sent s)).
  unfold Route, GetTransationOpts, tryE, mbind, proc_bind, Wallet, tryE, mbind, proc_bind, gets, liftRes.
  rewrite Hw, Hk, He. split; [done|]. unfold on_nonces, Get, mbind, proc_bind, gets. cbn [e_wallet e_nonces].
  cbn. by rewrite Hn.
Qed.

(** No fee claim is ever sent, and no administrator ever set: both messages
    lack the serial number that the log line before the call reads, so past
    the gas checks they panic; and [SetAdmin], which drops the error of the
    checks and waits for a transaction it does not have, panics there too. *)
Theorem claim_fee_set_admin_dead now admin s :
  wlp (ClaimFee_ cl cfg now) (λ r s', (∃ e, r = inr e) ∧ e_sent s' = e_sent s) s ∧
  wlp (SetAdmin_ cl cfg now admin) (λ r s', (∃ e, r = inr e ∧
     GetTransationOpts cl now s = Some (s', inr e)) ∧ e_sent s' = e_sent s) s.
Proof.
  split.
  - apply wpx_tryE. eapply wpx_mono; [apply GetTransationOpts_spec|].
    intros [opts|e] s1 [Hs1 _]; [|eauto].
    apply wpx_tryE. eapply wpx_mono; [apply SendTransaction_sends_spec|].
    intros [tx|e] s2 Hs; cbn in Hs; [|rewrite Hs; eauto].
    by destruct Hs as (? & ? & ? & ? & ? & _ & _ & _ & _ & _ & _ & _ & _ & Hsn & _).
  - unfold SetAdmin_, tryE. apply wpx_bind. pose proof (GetTransationOpts_spec now s) as Ho.
    unfold wpx in Ho |- *. destruct (GetTransationOpts cl now s) as [[s1 r]|] eqn:E; [|done].
    destruct r as [opts|e]; [|destruct Ho; cbn; eauto].
    fold (wlp (tx ← SendTransaction cl cfg now opts (admin_message SetAdmin "" admin None None);
      receipt ←? liftRes (WaitForResults cl (match tx with inl h => Some h | inr _ => None end));
      (if er_Status receipt =? 1 then okE tt else mret (inr "failed to set admin: %!s(<nil>)" : unit + string)))
      (λ (r : unit + string) s', (∃ e, r = inr e ∧ Some (s1, inl opts) = Some (s', inr e)) ∧ e_sent s' = e_sent s) s1).
    apply wpx_bind. eapply wpx_mono; [apply SendTransaction_sends_spec|].
    intros [tx|e] s2 Hs; cbn in Hs; [|done].
    by destruct Hs as (? & ? & ? & ? & ? & _ & _ & _ & _ & _ & _ & _ & _ & Hsn & _).
Qed.

(** A node that gives no gas tip stops the relayer from sending anything:
    the missing tip is only logged, but reading it for the next log line
    panics, so routing ends in an error before that or in a panic. *)
Theorem Route_without_tip now (message : Message) s e
  (Htip : SuggestGasTip cl = Err e) :
  wlp (Route cl cfg now message) (λ '(calls, r) s',
    e_sent s' = e_sent s ∧ calls = [] ∧ ∃ e', r = Err e') s.
Proof.
  apply wpx_bind. eapply wpx_mono; [apply GetTransationOpts_spec|].
  intros [opts|e'] s1 [Hs1 Hopts]; [|by apply wpx_ret; split_and!; [..|eexists]].
  apply wpx_bind. eapply wpx_mono; [apply SendTransaction_sends_spec|].
  intros [tx|e'] s2 Hs; cbn in Hs; [|by apply wpx_ret; rewrite Hs; split_and!; [..|eexists]].
  destruct Hs as (? & ? & ? & ? & ? & _ & _ & _ & _ & _ & _ & _ & _ & _ & Hno).
  destruct Hopts as [Hopts _]. destruct (o_GasTipCap opts); [|done]. by rewrite Htip in Hopts.
Qed.
End Sending.

(** * Logs *)

(** A log that parses becomes a message of this chain, at the height of its
    block and with a serial number; call and rollback messages are addressed
    to the chain itself. *)
Theorem getRelayMessageFromLog_message cl cfg contracts log m
  (Hm : getRelayMessageFromLog cl cfg contracts log = Ok m) :
  m_Src m = cc_NID (c_Common cfg) ∧ m_MessageHeight m = l_BlockNumber log ∧ m_Sn m ≠ None ∧
  (m_Dst m ≠ cc_NID (c_Common cfg) → ∃ t, head (l_Topics log) = Some t ∧ t = EmitMessageHash cl).
Proof.
  unfold getRelayMessageFromLog in Hm. destruct (l_Topics log) as [|topic topics]; [done|].
  repeat case_decide; try done; apply res_bind_Ok in Hm as (msg & _ & [= <-]); cbn;
    split_and!; try done; intros _; by exists topic.
Qed.

(** * Keystores *)

Lemma string_app_neq s t : t ≠ "" → s +:+ t ≠ s.
Proof.
  intros Ht Heq. apply Ht. apply (string_app_inj_l s). by rewrite Heq, string_app_nil_r.
Qed.

(** What [ImportKeystore] stores, [RestoreKeystore] reads back, for the same
    configuration: the key of the address the configuration names, which is
    not looked at during the import. *)
Theorem Import_Restore env cfg content pass addr fs enc encp
  (He : Encrypt env content = Ok enc) (Hep : Encrypt env pass = Ok encp)
  (Hd : Decrypt env enc = Ok content) (Hdp : Decrypt env encp = Ok pass)
  (Hk : DecryptKey env content pass = Ok addr) :
  (ImportKeystore env cfg content pass fs).2 = Ok addr ∧
  RestoreKeystore_ env cfg (ImportKeystore env cfg content pass fs).1 = Ok addr.
Proof.
  unfold ImportKeystore. rewrite Hk, He, Hep. split; [done|]. unfold RestoreKeystore_, ReadFile.
  cbn [fst]. set (path := keystorePath cfg (cc_Address (c_Common cfg))).
  rewrite (lookup_insert_ne _ (path +:+ ".pass") path); [|by apply string_app_neq].
  rewrite !lookup_insert_eq. cbn [mbind res_bind]. rewrite Hd. cbn [mbind res_bind].
  rewrite Hdp. done.
Qed.
