(* ===== verification/EvmWitness.v ===== *)
(** Concrete runs of the EVM provider. *)
From stdpp Require Import gmap strings list.
From Stdlib Require Import ZArith Lia.
From S2P Require Import Prelude GoStd Types Provider EvmNonce Evm EvmCorrect.
Import Evm.
Open Scope Z_scope.

Definition common : CommonConfig :=
  mkCommonConfig "eth" "http://node" 0 "0xw" {[ ConnectionContract := "0xc" ]} 10 "0x1.eth" "/home" false.
Definition cfg : Config := mkConfig common "" 100 1000 10 50.

(** A node at height [latest] that accepts every transaction. *)
Definition node (latest : Z) : IClient := {|
  GetBlockNumber := Ok latest;
  SuggestGasPrice := Ok 2;
  SuggestGasTip := Ok 1;
  PendingNonceAt _ := Ok 7;
  EstimateGas _ := Ok 500;
  Pack _ m _ := Ok m;
  HexToAddress s := s;
  transact _ _ := Ok "0xdd";
  polls _ := [PNotFound; PReceipt (mkEthReceipt 120 1)];
  ParseConnectionMessage _ := Ok (mkConnectionMessage "0x2.icon" 1 "d");
  ParseCallMessage _ := Err "no";
  ParseRollbackMessage _ := Err "no";
  EmitMessageHash := "h1";
  CallMessageHash := "h2";
  RollbackMessageHash := "h3";
  FilterLogs _ i := if decide (i = 2%nat) then Ok [] else Err "busy";
  GetHeaderByHeight _ := Ok tt;
  client_MessageReceived _ _ := Ok false;
  client_GetFee _ := Ok 0;
  client_GetBalance _ := Ok 0;
  receipt_by_hash _ := Err "no";
  RestoreKeystore := Ok "0xw" |}.

Definition state0 : EvmState := mkEvmState None (mkNonceTracker ∅ ∅ 1) [].
Definition msg : Message := mkMessage "0x1.eth" "0x2.icon" (Some (mkBigInt 1 3)) "d" 5 EmitMessage None.

Lemma blockReqs_cover_witness :
  blockReqs cfg 150 100 220 = [(100, 149); (150, 199); (200, 220)] ∧
  flat_map heights (blockReqs cfg 150 100 220) = seqZ 100 121.
Proof.
  split; [vm_compute; reflexivity|].
  apply (blockReqs_cover cfg 150 100 220); cbn; lia.
Defined.

Lemma startFromHeight_final_witness :
  startFromHeight (node 100) cfg 60 = Ok 60 ∧ startFromHeight (node 100) cfg 0 = Ok 90 ∧
  ∃ h, startFromHeight (node 5) cfg 0 = Ok h ∧ 5 < h ∧ ∀ fuel, blockReqs cfg fuel h 5 = [].
Proof.
  split_and!.
  - rewrite (proj1 (startFromHeight_final (node 100) cfg 60 100 eq_refl ltac:(lia) ltac:(cbn; lia)
      ltac:(lia) ltac:(cbn; lia))); [reflexivity|cbn; lia].
  - rewrite (proj1 (startFromHeight_final (node 100) cfg 0 100 eq_refl ltac:(lia) ltac:(cbn; lia)
      ltac:(lia) ltac:(cbn; lia))); [reflexivity|cbn; lia].
  - apply (proj2 (startFromHeight_final (node 5) cfg 0 5 eq_refl ltac:(lia) ltac:(cbn; lia)
      ltac:(lia) ltac:(cbn; lia))); [cbn; lia|done|done].
Defined.

Lemma getLogsRetry_bounded_witness :
  getLogsRetry (node 100) (mkFilterQuery 1 2 [] []) = ([6 * Second; 12 * Second], Ok []) ∧
  [6 * Second; 12 * Second] `prefix_of` [6 * Second; 12 * Second; 24 * Second; 48 * Second; 96 * Second].
Proof.
  pose proof (getLogsRetry_bounded (node 100) (mkFilterQuery 1 2 [] [])) as H.
  assert (getLogsRetry (node 100) (mkFilterQuery 1 2 [] []) = ([6 * Second; 12 * Second], Ok [])) as E
    by (vm_compute; reflexivity).
  split; [exact E|]. rewrite E in H. apply H. intros i. cbn. by case_decide.
Defined.

(** The message is sent with the nonce 7 and delivered. *)
Lemma Route_sends_once_witness : ∃ s' calls,
  Route (node 100) cfg 0 msg state0 = Some (s', (calls, Ok tt)) ∧
  e_sent s' = [(CReceiveMessage "0x2.icon" (Some 3) "d", 7)] ∧ length calls = 1%nat.
Proof.
  assert (answers (node 100)) as Han by by split.
  pose proof (Route_sends_once (node 100) cfg 0 msg state0 Han) as H. unfold wpx in H.
  destruct (Route (node 100) cfg 0 msg state0) as [[s' [calls r]]|] eqn:E; [|vm_compute in E; discriminate].
  assert (r = Ok tt) as -> by (vm_compute in E; by injection E).
  destruct H as [(_ & _ & e & [=])|(call & z & g & m & w & tx & Hs & Hcall & Htx & _ & _ & _ & Hw)];
    [by intros w|done|by eexists|].
  exists s', calls. split; [done|]. split; [vm_compute in E; by injection E as <- _|].
  vm_compute in E. by injection E as _ <-.
Defined.

(** A node whose first answer about the nonce is an error. *)
Definition no_nonce : IClient := {|
  GetBlockNumber := Ok 100; SuggestGasPrice := Ok 2; SuggestGasTip := Ok 1; PendingNonceAt _ := Err "timeout";
  EstimateGas _ := Ok 500; Pack _ m _ := Ok m; HexToAddress s := s; transact _ _ := Ok "0xdd";
  polls _ := []; ParseConnectionMessage _ := Err "no"; ParseCallMessage _ := Err "no";
  ParseRollbackMessage _ := Err "no"; EmitMessageHash := "h1"; CallMessageHash := "h2";
  RollbackMessageHash := "h3"; FilterLogs _ _ := Ok []; GetHeaderByHeight _ := Ok tt;
  client_MessageReceived _ _ := Ok false; client_GetFee _ := Ok 0; client_GetBalance _ := Ok 0;
  receipt_by_hash _ := Err "no"; RestoreKeystore := Ok "0xw" |}.

Lemma first_nonce_error_panics_witness : ∃ s',
  Route no_nonce cfg 0 msg state0 = Some (s', ([], Err "routing failed: timeout")) ∧
  Route no_nonce cfg 1 msg s' = None.
Proof. by apply (first_nonce_error_panics no_nonce cfg 0 1 msg msg state0 "0xw" "timeout"). Defined.

(** A node that gives no tip: the first log line panics. *)
Definition no_tip : IClient := {|
  GetBlockNumber := Ok 100; SuggestGasPrice := Ok 2; SuggestGasTip := Err "no"; PendingNonceAt _ := Ok 7;
  EstimateGas _ := Ok 50; Pack _ m _ := Ok m; HexToAddress s := s; transact _ _ := Ok "0xdd";
  polls _ := []; ParseConnectionMessage _ := Err "no"; ParseCallMessage _ := Err "no";
  ParseRollbackMessage _ := Err "no"; EmitMessageHash := "h1"; CallMessageHash := "h2";
  RollbackMessageHash := "h3"; FilterLogs _ _ := Ok []; GetHeaderByHeight _ := Ok tt;
  client_MessageReceived _ _ := Ok false; client_GetFee _ := Ok 0; client_GetBalance _ := Ok 0;
  receipt_by_hash _ := Err "no"; RestoreKeystore := Ok "0xw" |}.

Lemma Route_without_tip_witness : ∃ s' e,
  Route no_tip cfg 0 msg state0 = Some (s', ([], Err e)) ∧ e_sent s' = [].
Proof.
  pose proof (Route_without_tip no_tip cfg 0 msg state0 "no" eq_refl) as H. unfold wpx in H.
  destruct (Route no_tip cfg 0 msg state0) as [[s' [calls r]]|] eqn:E; [|vm_compute in E; discriminate].
  destruct H as (Hs & -> & e & ->). by exists s', e.
Defined.

Definition log1 : Log := mkLog "0xc" ["h1"] "d" 120.

Lemma getRelayMessageFromLog_message_witness : ∃ m,
  getRelayMessageFromLog (node 100) cfg [] log1 = Ok m ∧ m_Src m = "0x1.eth" ∧ m_MessageHeight m = 120.
Proof.
  destruct (getRelayMessageFromLog (node 100) cfg [] log1) as [m|e|] eqn:E;
    [|vm_compute in E; discriminate..].
  exists m. split; [done|].
  destruct (getRelayMessageFromLog_message (node 100) cfg [] log1 m E) as (? & ? & _). done.
Defined.
