(* ===== verification/EvmListener.v ===== *)
(** The EVM listener as a state machine (relayer/chains/evm/listener.go): the
    loop of [Listener], the goroutines of [Subscribe] it starts, and the channel
    of errors between them; then the chain they watch.

    [lrun] is what one event does to them.  An event carries what the node or
    the rest of the relayer answers.  A receive from the ticker and the [Stop]
    after it are one event, and a send on the block channel is one: it is never
    given up. *)
From stdpp Require Import gmap strings list sorting.
From Stdlib Require Import ZArith Lia.
From S2P Require Import Prelude GoStd Types Provider EvmNonce Evm EvmCorrect.
Open Scope Z_scope.

(** * The listener *)

(** A goroutine in [Subscribe]: asking for the subscription, waiting for events
    with the logs not yet taken, or offering the error it ends with. *)
Inductive Sub : Type :=
| SubStarting
| SubLive (queue : list Evm.Log)
| SubFailing (err : string).

(** The loop of [Listener]: at the [select], about to ask for the latest height,
    scanning up to it with the logs not yet sent and the batches not yet asked
    for, or at its end. *)
Inductive Phase : Type :=
| Selecting
| Asking
| Scanning (latest : Z) (logs : list Evm.Log) (todo : list (Z * Z))
| Returned (err : string).

(** [l_client] counts the reconnections. *)
Record Listening := mkListening {
  l_start : Z;
  l_ticker : bool;
  l_phase : Phase;
  l_subs : list Sub;
  l_client : nat;
  l_out : list (BlockInfoOf Z) }.

Inductive event : Type :=
| Tick
| Height (cl : Evm.IClient)
| Batch (cl : Evm.IClient)
| Send
| ScanDone
| Opened (i : nat) (r : res unit)
| Arrive (i : nat) (logs : list Evm.Log)
| SubLog (i : nat)
| SubErr (i : nat) (err : string)
| SubIdle (i : nat) (r : res Z)
| SubCancelled (i : nat)
| Error (i : nat) (isDeadline : bool) (reconnect : res unit) (saved : Z)
| Cancelled (err : string).

Section Listener.
Context (cfg : Evm.Config) (contracts : list EventMap).
Context (addresses topics : list string).

(** A log parses as it is: the answers of the bindings do not change. *)
Context (bindings : Evm.IClient).
Abbreviation log_block := (Evm.log_block bindings cfg contracts).

Definition Listener_begin (startHeight : Z) : Listening := mkListening startHeight true Selecting [] 0 [].

(** [case <-subscribeStart.C], up to the call for the latest height. *)
Definition on_tick (s : Listening) : option Listening :=
  match l_phase s, l_ticker s with
  | Selecting, true =>
      Some (mkListening (l_start s) false Asking (l_subs s ++ [SubStarting]) (l_client s) (l_out s))
  | _, _ => None
  end.

(** The batches are made once the height is known. *)
Definition on_height (cl : Evm.IClient) (s : Listening) : option Listening :=
  match l_phase s with
  | Asking =>
      let latest := Evm.latestHeight cl in
      let start := if l_start s =? 0 then latest else l_start s in
      let fuel := S (Z.to_nat (latest - start)) in
      Some (mkListening start (l_ticker s) (Scanning latest [] (Evm.blockReqs cfg fuel start latest))
        (l_subs s) (l_client s) (l_out s))
  | _ => None
  end.

Definition in_phase (p : Phase) (s : Listening) : Listening :=
  mkListening (l_start s) (l_ticker s) p (l_subs s) (l_client s) (l_out s).
Definition in_subs (subs : list Sub) (s : Listening) : Listening :=
  mkListening (l_start s) (l_ticker s) (l_phase s) subs (l_client s) (l_out s).
Definition sent (log : Evm.Log) (s : Listening) : Listening :=
  mkListening (l_start s) (l_ticker s) (l_phase s) (l_subs s) (l_client s)
    (l_out s ++ option_list (log_block log)).

(** The logs of the next batch; a batch that fails is skipped. *)
Definition on_batch (cl : Evm.IClient) (s : Listening) : option Listening :=
  match l_phase s with
  | Scanning latest [] ((from, to) :: todo) =>
      let logs := match (Evm.getLogsRetry cl (Evm.mkFilterQuery from to addresses topics)).2 with
                  | Ok logs => logs
                  | _ => []
                  end in
      Some (in_phase (Scanning latest logs todo) s)
  | _ => None
  end.

Definition on_send (s : Listening) : option Listening :=
  match l_phase s with
  | Scanning latest (log :: logs) todo => Some (sent log (in_phase (Scanning latest logs todo) s))
  | _ => None
  end.

Definition on_scan_done (s : Listening) : option Listening :=
  match l_phase s with
  | Scanning _ [] [] => Some (in_phase Selecting s)
  | _ => None
  end.

(** [case err := <-errChan]: the goroutine that sends ends. *)
Definition on_error (i : nat) (isDeadline : bool) (reconnect : res unit) (saved : Z) (s : Listening) :
    option Listening :=
  match l_phase s, l_subs s !! i with
  | Selecting, Some (SubFailing err) =>
      let client := if Evm.isConnectionError err isDeadline && is_ok reconnect then S (l_client s) else l_client s in
      Some (mkListening saved true Selecting (delete i (l_subs s)) client (l_out s))
  | _, _ => None
  end.

Definition on_cancelled (err : string) (s : Listening) : option Listening :=
  match l_phase s with Selecting => Some (in_phase (Returned err) s) | _ => None end.

(** ** [Subscribe] *)

(** The answer to the request. *)
Definition Subscribe_opened (i : nat) (r : res unit) (s : Listening) : option Listening :=
  match l_subs s !! i with
  | Some SubStarting =>
      Some (in_subs (<[i := match r with Err e => SubFailing e | _ => SubLive [] end]> (l_subs s)) s)
  | _ => None
  end.

(** The node delivers logs. *)
Definition Subscribe_arrive (i : nat) (logs : list Evm.Log) (s : Listening) : option Listening :=
  match l_subs s !! i with
  | Some (SubLive queue) => Some (in_subs (<[i := SubLive (queue ++ logs)]> (l_subs s)) s)
  | _ => None
  end.

(** [case log := <-ch] *)
Definition Subscribe_take (i : nat) (s : Listening) : option Listening :=
  match l_subs s !! i with
  | Some (SubLive (log :: queue)) => Some (sent log (in_subs (<[i := SubLive queue]> (l_subs s)) s))
  | _ => None
  end.

(** [case err := <-sub.Err()]: the logs that wait are dropped. *)
Definition Subscribe_err (i : nat) (err : string) (s : Listening) : option Listening :=
  match l_subs s !! i with
  | Some (SubLive _) => Some (in_subs (<[i := SubFailing err]> (l_subs s)) s)
  | _ => None
  end.

(** [case <-time.After(time.Minute * 2)] *)
Definition Subscribe_idle (i : nat) (r : res Z) (s : Listening) : option Listening :=
  match l_subs s !! i with
  | Some (SubLive _) =>
      match r with Err e => Some (in_subs (<[i := SubFailing e]> (l_subs s)) s) | _ => Some s end
  | _ => None
  end.

(** [case <-ctx.Done()] *)
Definition Subscribe_cancelled (i : nat) (s : Listening) : option Listening :=
  match l_subs s !! i with
  | Some (SubLive _) => Some (in_subs (delete i (l_subs s)) s)
  | _ => None
  end.

Definition lrun (e : event) : Listening → option Listening :=
  match e with
  | Tick => on_tick
  | Height cl => on_height cl
  | Batch cl => on_batch cl
  | Send => on_send
  | ScanDone => on_scan_done
  | Opened i r => Subscribe_opened i r
  | Arrive i logs => Subscribe_arrive i logs
  | SubLog i => Subscribe_take i
  | SubErr i err => Subscribe_err i err
  | SubIdle i r => Subscribe_idle i r
  | SubCancelled i => Subscribe_cancelled i
  | Error i isDeadline reconnect saved => on_error i isDeadline reconnect saved
  | Cancelled err => on_cancelled err
  end.

(** Events in order; [None] when one of them cannot happen. *)
Fixpoint lrun_all (l : list event) (s : Listening) : option Listening :=
  match l with
  | [] => Some s
  | e :: l => s ← lrun e s; lrun_all l s
  end.

(** * One subscription *)

(** While the context lives: [SubCancelled] is the context's end. *)
Definition is_cancel (e : event) : bool :=
  match e with SubCancelled _ | Cancelled _ => true | _ => false end.

(** Either the ticker runs, or there is one goroutine; which has its answer
    unless the height is still to be asked for. *)
Definition one_alive (s : Listening) : Prop :=
  (l_ticker s = true ∧ l_subs s = [] ∧ l_phase s = Selecting) ∨
  (l_ticker s = false ∧ ∃ sub, l_subs s = [sub]).

Lemma singleton_lookup {A} (x y : A) i : [x] !! i = Some y → i = 0%nat ∧ y = x.
Proof. destruct i as [|[|i]]; intros [=]; auto. Qed.

Lemma lrun_one e s s' : is_cancel e = false → one_alive s → lrun e s = Some s' → one_alive s'.
Proof.
  intros Hc Hone Hrun. unfold one_alive in *.
  destruct Hone as [(Ht & Hs & Hp)|(Ht & sub & Hs)]; destruct e; try done; cbn [lrun] in Hrun;
    unfold on_tick, on_height, on_batch, on_send, on_scan_done, on_error, on_cancelled, Subscribe_opened,
      Subscribe_arrive, Subscribe_take, Subscribe_err, Subscribe_idle in Hrun;
    rewrite ?Hs, ?Ht in Hrun; try rewrite Hp in Hrun; cbn in Hrun; try discriminate;
    repeat case_match; simplify_eq; cbn; rewrite ?Hs, ?Ht;
    repeat match goal with Hl : [_] !! _ = Some _ |- _ => apply singleton_lookup in Hl as [-> <-] end;
    cbn; eauto 6.
Qed.

(** While the context lives at most one goroutine is subscribed, however
    often the subscription fails and whatever the node answers, and there is one
    exactly when the ticker is stopped. *)
Theorem single_subscription startHeight l s
  (Hlive : Forall (λ e, is_cancel e = false) l) (Hrun : lrun_all l (Listener_begin startHeight) = Some s) :
  (length (l_subs s) ≤ 1)%nat ∧ (l_ticker s = true ↔ l_subs s = []).
Proof.
  assert (one_alive s) as [(-> & -> & _)|(-> & sub & ->)]; [|split; [cbn; lia|done]..].
  assert (one_alive (Listener_begin startHeight)) as Hb by (left; done).
  revert Hrun Hb. generalize (Listener_begin startHeight). induction Hlive as [|e l He _ IH]; intros s0 Hrun Hone.
  { by injection Hrun as <-. }
  cbn in Hrun. destruct (lrun e s0) as [s1|] eqn:E; [|done]. eapply IH; [done|]. by eapply lrun_one.
Qed.
(** * No log is lost *)

(** The chain and the listener: the height of the last block, and the logs of
    all blocks that match the filter. *)
Record World := mkWorld { w_head : Z; w_logs : list Evm.Log; w_l : Listening }.

Definition in_range (from to : Z) (log : Evm.Log) : Prop := from ≤ Evm.l_BlockNumber log ≤ to.
#[export] Instance in_range_dec from to log : Decision (in_range from to log).
Proof. apply and_dec; apply _. Defined.

(** A block is made, and its logs are delivered to the open subscriptions. *)
Definition push (logs : list Evm.Log) (sub : Sub) : Sub :=
  match sub with SubLive queue => SubLive (queue ++ logs) | sub => sub end.
Definition mine (logs : list Evm.Log) (w : World) : World :=
  mkWorld (w_head w + 1) (w_logs w ++ logs) (in_subs (push logs <$> l_subs (w_l w)) (w_l w)).

(** An honest node: what it answers is true, if it answers. *)
Definition honest (e : event) (w : World) : Prop :=
  match e with
  | Height cl => ∀ h, Evm.GetBlockNumber cl = Ok h → h = w_head w
  | Batch cl => ∀ from to logs,
      (Evm.getLogsRetry cl (Evm.mkFilterQuery from to addresses topics)).2 = Ok logs →
      logs = filter (in_range from to) (w_logs w)
  | Arrive _ _ => False
  | _ => True
  end.

(** What can go wrong though the node is honest: the height is asked for before
    the request for a subscription was answered; it is not answered; a batch is
    not fetched within its attempts; a restart finds no saved height, or one
    beyond the blocks the listener has sent: the relayer saves the height the
    chain has reached. *)
Inductive hazard : Type := LateSubscription | UnknownHeight | FailedBatch | NothingSaved | SavedAhead.

(** All goes well, but for one kind of hazard: otherwise a restart finds a height
    up to which the listener has sent blocks.  The context lives. *)
Definition smooth (x : option hazard) (h0 : Z) (e : event) (w : World) : Prop :=
  honest e w ∧
  match e with
  | Height cl =>
      (x = Some UnknownHeight ∨ is_ok (Evm.GetBlockNumber cl) = true) ∧
      (x = Some LateSubscription ∨ l_subs (w_l w) ≠ [SubStarting])
  | Batch cl =>
      x = Some FailedBatch ∨
      ∀ from to, is_ok (Evm.getLogsRetry cl (Evm.mkFilterQuery from to addresses topics)).2 = true
  | Error _ _ _ saved =>
      (x = Some NothingSaved ∧ saved = 0) ∨ (x = Some SavedAhead ∧ 0 < saved ≤ w_head w) ∨
      (0 < saved ∧ (saved ≤ h0 ∨ ∃ b, b ∈ l_out (w_l w) ∧ saved ≤ bi_Height b))
  | _ => is_cancel e = false
  end.

Inductive step (P : event → World → Prop) (w : World) : World → Prop :=
| step_mine logs :
    Forall (λ log, Evm.l_BlockNumber log = w_head w + 1) logs → step P w (mine logs w)
| step_run e s :
    P e w → lrun e (w_l w) = Some s → step P w (mkWorld (w_head w) (w_logs w) s).

Definition starts (h0 : Z) (w : World) : Prop :=
  0 < h0 ≤ w_head w ∧ (∀ log, log ∈ w_logs w → Evm.l_BlockNumber log ≤ w_head w) ∧ w_l w = Listener_begin h0.

(** A world reached from a start at [h0] by steps that satisfy [P]. *)
Inductive reached (P : event → World → Prop) (h0 : Z) : World → Prop :=
| reached_begin w : starts h0 w → reached P h0 w
| reached_step w w' : reached P h0 w → step P w w' → reached P h0 w'.

(** ** What is still to be sent *)

Definition num := Evm.l_BlockNumber.
Definition delivered (s : Listening) (log : Evm.Log) : Prop :=
  ∃ b, log_block log = Some b ∧ b ∈ l_out s.
Definition asked_for (s : Listening) (log : Evm.Log) : Prop :=
  l_start s ≤ num log ∧ (l_ticker s = true ∨ l_phase s = Asking).
Definition in_scan (s : Listening) (log : Evm.Log) : Prop :=
  match l_phase s with
  | Scanning _ logs todo => log ∈ logs ∨ ∃ r, r ∈ todo ∧ in_range r.1 r.2 log
  | _ => False
  end.
(** Beyond everything sent and everything scanned. *)
Definition ahead (s : Listening) (log : Evm.Log) : Prop :=
  l_ticker s = false ∧ Forall (λ b, bi_Height b ≤ num log) (l_out s) ∧
  match l_phase s with Asking => False | Scanning latest _ _ => latest < num log | _ => True end.
Definition subscribed (s : Listening) (log : Evm.Log) : Prop :=
  match l_subs s with [SubLive queue] => log ∈ queue | [SubFailing _] => True | _ => False end.

Definition safe (s : Listening) (log : Evm.Log) : Prop :=
  asked_for s log ∨ delivered s log ∨ in_scan s log ∨ (ahead s log ∧ subscribed s log).

Record tidy (h0 : Z) (w : World) : Prop := {
  t_one : one_alive (w_l w);
  t_head : 0 < h0 ≤ w_head w;
  t_start : 0 < l_start (w_l w) ≤ w_head w;
  t_logs log : log ∈ w_logs w → num log ≤ w_head w;
  t_out : Forall (λ b, bi_Height b ≤ w_head w) (l_out (w_l w));
  t_answered : l_ticker (w_l w) = false → l_phase (w_l w) ≠ Asking → l_subs (w_l w) ≠ [SubStarting];
  t_scan : match l_phase (w_l w) with
           | Scanning latest logs todo => latest ≤ w_head w ∧ Forall (λ log, num log ≤ latest) logs ∧
               Forall (λ r, r.2 ≤ latest) todo
           | _ => True
           end;
  t_queue queue : l_subs (w_l w) = [SubLive queue] →
    Forall (λ log, num log ≤ w_head w) queue ∧ StronglySorted (λ l1 l2, num l1 ≤ num l2) queue;
  t_safe log : log ∈ w_logs w → h0 ≤ num log → is_Some (log_block log) → safe (w_l w) log }.

Lemma log_block_height log b : log_block log = Some b → bi_Height b = num log.
Proof. unfold Evm.log_block. destruct (Evm.getRelayMessageFromLog _ _ _ _); [|done..]. by intros [= <-]. Qed.

Lemma elem_option_list {A} (o : option A) x : x ∈ option_list o ↔ o = Some x.
Proof. destruct o; cbn; [rewrite list_elem_of_singleton; naive_solver|]. by rewrite elem_of_nil. Qed.

(** One way to see a log safe, whatever the phase. *)
Lemma safe_new s log head :
  one_alive s → 0 < l_start s ≤ head → head < num log → Forall (λ b, bi_Height b ≤ head) (l_out s) →
  match l_phase s with Scanning latest _ _ => latest ≤ head | _ => True end →
  (l_ticker s = false → l_phase s ≠ Asking → subscribed s log) → safe s log.
Proof.
  intros Hone Hst Hn Hout Hph Hsub. destruct (l_ticker s) eqn:Ht; [left; split; [lia|by left]|].
  destruct (l_phase s) as [| |latest logs todo|] eqn:Hp; [|by left; split; [lia|by right]|..];
    (do 3 right; split; [|by apply Hsub]; split_and!; [done| |rewrite Hp; try done; lia];
     eapply Forall_impl; [done|]; cbn; lia).
Qed.

Lemma tidy_mine h0 w logs :
  Forall (λ log, num log = w_head w + 1) logs → tidy h0 w → tidy h0 (mine logs w).
Proof.
  intros Hnew [Hone Hhead Hstart Hlogs Hout Hans Hscan Hq Hsafe].
  rewrite Forall_forall in Hnew.
  assert (one_alive (w_l (mine logs w))) as Hone'.
  { destruct Hone as [(? & Hs & ?)|(? & sub & Hs)]; [left|right]; cbn; rewrite Hs; cbn; eauto. }
  assert (∀ log, log ∈ w_logs w → num log ≤ w_head w + 1) as Hle by (intros log Hl; apply Hlogs in Hl; lia).
  split; [done|cbn; lia|cbn; lia|..].
  - intros log [Hl|Hl]%elem_of_app; [by apply Hle|]. apply Hnew in Hl. cbn. lia.
  - eapply Forall_impl; [apply Hout|]. cbn. lia.
  - cbn. intros Ht Hp. specialize (Hans Ht Hp). intros Hs. apply Hans.
    destruct (l_subs (w_l w)) as [|[] []]; by simplify_eq/=.
  - cbn. destruct (l_phase (w_l w)); try done. destruct Hscan as (? & ? & ?). split_and!; [lia|done|done].
  - cbn. intros queue Hs. destruct (l_subs (w_l w)) as [|[|q|] []]; simplify_eq/=.
    destruct (Hq q eq_refl) as [Hle' Hsort]. split.
    + apply Forall_app. split; [|by apply Forall_forall; intros log Hl; apply Hnew in Hl; cbn; lia].
      eapply Forall_impl; [done|]. cbn. lia.
    + apply StronglySorted_app. split_and!; [|done|].
      * intros l1 l2 Hl1 Hl2. rewrite Forall_forall in Hle'. specialize (Hle' _ Hl1). apply Hnew in Hl2. cbn in *. lia.
      * clear -Hnew. induction logs as [|l logs IH]; constructor; [apply IH; set_solver|].
        apply Forall_forall. intros l' Hl'. rewrite (Hnew l), (Hnew l') by set_solver. done.
  - cbn. intros log [Hl|Hl]%elem_of_app Hh Hb.
    + destruct (Hsafe log Hl Hh Hb) as [?|[?|[?|[Ha Hs]]]]; [by left|right; by left|do 2 right; by left|].
      do 3 right. split; [done|]. unfold subscribed in *. cbn.
      destruct (l_subs (w_l w)) as [|[|q|] []]; cbn in *; try done. set_solver.
    + apply (safe_new _ _ (w_head w)); [done|done|rewrite (Hnew _ Hl); lia|done|cbn; destruct (l_phase (w_l w)); naive_solver|].
      cbn. intros Ht Hp. specialize (Hans Ht Hp). unfold subscribed; cbn.
      destruct Hone as [(? & _)|(_ & sub & Hs)]; [congruence|]. rewrite Hs in *. destruct sub; cbn; [done|set_solver|done].
Qed.

Lemma blockReqs_in fuel start latest h :
  0 < Evm.c_BlockBatchSize cfg → 0 ≤ start → latest + Evm.c_BlockBatchSize cfg < 2 ^ 64 →
  latest - start < Z.of_nat fuel → start ≤ h ≤ latest →
  ∃ r, r ∈ Evm.blockReqs cfg fuel start latest ∧ r.1 ≤ h ≤ r.2.
Proof.
  intros. assert (h ∈ flat_map heights (Evm.blockReqs cfg fuel start latest)) as Hin.
  { rewrite blockReqs_heights by lia. apply elem_of_seqZ. lia. }
  apply list_elem_of_In, in_flat_map in Hin as (r & Hr & Hh). exists r. split; [by apply list_elem_of_In|].
  apply list_elem_of_In, elem_of_seqZ in Hh. lia.
Qed.

Lemma blockReqs_le fuel start latest : Forall (λ r, r.2 ≤ latest) (Evm.blockReqs cfg fuel start latest).
Proof.
  revert start. induction fuel as [|fuel IH]; intros start; cbn [Evm.blockReqs]; [constructor|].
  case_match; constructor; [cbn; lia|apply IH].
Qed.

#[local] Arguments Evm.blockReqs : simpl never.

Lemma tidy_tick h0 w s : tidy h0 w → on_tick (w_l w) = Some s → tidy h0 (mkWorld (w_head w) (w_logs w) s).
Proof.
  intros Ht Hrun. pose proof (lrun_one Tick _ _ eq_refl (t_one _ _ Ht) Hrun) as Hone.
  destruct Ht as [Hone0 ? ? ? ? ? ? ? Hsafe]. unfold on_tick in Hrun. destruct (l_phase (w_l w)) eqn:Hp; try done.
  destruct (l_ticker (w_l w)) eqn:Hti; [|done]. injection Hrun as <-.
  split; cbn in *; try done.
  - intros queue Hs. destruct Hone0 as [(_ & Hs0 & _)|[? _]]; [|congruence]. by rewrite Hs0 in Hs.
  - intros log Hl Hh Hb. destruct (Hsafe log Hl Hh Hb) as [[? _]|[Hd|[Hs|[(Ha & _) _]]]].
    + left. split; [done|by right].
    + right. by left.
    + unfold in_scan in Hs. by rewrite Hp in Hs.
    + congruence.
Qed.

Lemma tidy_height h0 cl w s :
  0 < Evm.c_BlockBatchSize cfg → w_head w + Evm.c_BlockBatchSize cfg < 2 ^ 64 →
  tidy h0 w → smooth None h0 (Height cl) w → on_height cl (w_l w) = Some s →
  tidy h0 (mkWorld (w_head w) (w_logs w) s).
Proof.
  intros Hb Hlt Ht (Hcl & [?|Hok] & [?|Hns]) Hrun; try done. pose proof (lrun_one (Height cl) _ _ eq_refl (t_one _ _ Ht) Hrun) as Hone.
  destruct Ht as [Hone0 ? Hst ? ? ? ? ? Hsafe]. unfold on_height in Hrun. destruct (l_phase (w_l w)) eqn:Hp; try done.
  assert (Evm.latestHeight cl = w_head w) as Hla.
  { unfold Evm.latestHeight. destruct (Evm.GetBlockNumber cl) as [h| |] eqn:E; [by apply Hcl|done..]. }
  rewrite Hla in Hrun. assert ((l_start (w_l w) =? 0) = false) as Hz by lia. rewrite Hz in Hrun. injection Hrun as <-.
  assert (l_ticker (w_l w) = false) as Hti.
  { destruct Hone0 as [(_ & _ & ?)|[? _]]; [congruence|done]. }
  split; cbn [w_l w_head w_logs l_start l_ticker l_phase l_subs l_out]; try done.
  - split_and!; [lia|constructor|apply blockReqs_le].
  - intros log Hl Hh Hlb. destruct (Hsafe log Hl Hh Hlb) as [[? _]|[Hd|[Hs|[(_ & _ & Ha) _]]]].
    + do 2 right. left. unfold in_scan; cbn [l_phase]. right.
      apply (blockReqs_in _ _ _ (num log)); try lia. split; [done|eauto].
    + right. by left.
    + unfold in_scan in Hs. by rewrite Hp in Hs.
    + by rewrite Hp in Ha.
Qed.

Lemma tidy_batch h0 cl w s :
  tidy h0 w → smooth None h0 (Batch cl) w → on_batch cl (w_l w) = Some s → tidy h0 (mkWorld (w_head w) (w_logs w) s).
Proof.
  intros Ht [Hcl [?|Hok]] Hrun; [done|]. pose proof (lrun_one (Batch cl) _ _ eq_refl (t_one _ _ Ht) Hrun) as Hone.
  destruct Ht as [Hone0 ? Hst ? ? ? Hscan ? Hsafe]. unfold on_batch in Hrun.
  destruct (l_phase (w_l w)) as [| |latest [|] [|[from to] todo]|] eqn:Hp; try done.
  specialize (Hcl from to). specialize (Hok from to).
  destruct (Evm.getLogsRetry cl _).2 as [ls| |]; [|done..]. specialize (Hcl _ eq_refl) as ->. injection Hrun as <-. destruct Hscan as (? & _ & [Hto Htodo]%Forall_cons).
  split; cbn [w_l w_head w_logs l_start l_ticker l_phase l_subs l_out in_phase]; try done; [naive_solver| |].
  - split_and!; [done| |done]. apply Forall_forall. intros log [[_ ?] _]%list_elem_of_filter. cbn in *. unfold num. lia.
  - intros log Hl Hh Hlb. destruct (Hsafe log Hl Hh Hlb) as [[? [?|?]]|[Hd|[Hs|[(? & ? & Ha) ?]]]].
    + left. split; [done|by left].
    + congruence.
    + right. by left.
    + do 2 right. left. unfold in_scan in *; cbn. rewrite Hp in Hs. destruct Hs as [?%elem_of_nil|(r & Hr & Hin)]; [done|].
      assert (r = (from, to) ∨ r ∈ todo) as [->|?] by set_solver; [left|right; eauto].
      by apply list_elem_of_filter.
    + do 3 right. split; [|done]. split_and!; [done..|]. cbn. by rewrite Hp in Ha.
Qed.

Lemma delivered_sent log s : is_Some (log_block log) → delivered (sent log s) log.
Proof. intros [b Hb]. exists b. split; [done|]. cbn. rewrite Hb. set_solver. Qed.

Lemma delivered_more log s l : delivered s l → delivered (sent log s) l.
Proof. intros (b & Hb & Hin). exists b. split; [done|]. cbn. set_solver. Qed.

(** What is sent bounds the heights as the log does. *)
Lemma out_sent log s h :
  Forall (λ b, bi_Height b ≤ h) (l_out s) → num log ≤ h → Forall (λ b, bi_Height b ≤ h) (l_out (sent log s)).
Proof.
  intros Ho Hn. cbn. apply Forall_app. split; [done|]. destruct (log_block log) as [b|] eqn:E; cbn; [|constructor].
  apply log_block_height in E. constructor; [lia|constructor].
Qed.

Lemma tidy_send h0 w s : tidy h0 w → on_send (w_l w) = Some s → tidy h0 (mkWorld (w_head w) (w_logs w) s).
Proof.
  intros Ht Hrun. pose proof (lrun_one Send _ _ eq_refl (t_one _ _ Ht) Hrun) as Hone.
  destruct Ht as [Hone0 ? ? ? Hout Hans Hscan ? Hsafe]. unfold on_send in Hrun.
  destruct (l_phase (w_l w)) as [| |latest [|x logs] todo|] eqn:Hp; try done. injection Hrun as <-.
  destruct Hscan as (Hla & [Hx Hlogs]%Forall_cons & Htodo). split; try done.
  - apply out_sent; [done|cbn; lia].
  - cbn. intros ? _. by apply Hans.
  - intros log Hl Hh Hb. destruct (Hsafe log Hl Hh Hb) as [[? [?|?]]|[Hd|[Hs|[(? & Ho & Ha) ?]]]].
    + left. split; [done|by left].
    + congruence.
    + right; left. by apply delivered_more.
    + unfold in_scan in Hs. rewrite Hp in Hs. destruct Hs as [[->|?]%elem_of_cons|?].
      { right; left. by apply delivered_sent. }
      all: do 2 right; left; unfold in_scan; cbn; auto.
    + rewrite Hp in Ha. do 3 right. split; [|done]. split_and!; [done| |done].
      apply out_sent; [done|lia].
Qed.

Lemma tidy_take h0 i w s : tidy h0 w → Subscribe_take i (w_l w) = Some s → tidy h0 (mkWorld (w_head w) (w_logs w) s).
Proof.
  intros Ht Hrun. pose proof (lrun_one (SubLog i) _ _ eq_refl (t_one _ _ Ht) Hrun) as Hone.
  destruct Ht as [Hone0 ? ? ? Hout Hans Hscan Hq Hsafe]. unfold Subscribe_take in Hrun.
  destruct Hone0 as [(_ & Hs & _)|(Hti & sub & Hs)]; [by rewrite Hs in Hrun|]. rewrite Hs in Hrun.
  destruct ([sub] !! i) as [[|[|x queue]|]|] eqn:E; try done. apply singleton_lookup in E as [-> <-]. injection Hrun as <-.
  destruct (Hq _ Hs) as [[Hx Hle]%Forall_cons [Hsort Hxq]%StronglySorted_inv]. split; try done.
  - by apply out_sent.
  - cbn. intros queue' [= <-]. done.
  - intros log Hl Hh Hb. destruct (Hsafe log Hl Hh Hb) as [?|[Hd|[?|[(? & Ho & Ha) Hsub]]]].
    + by left.
    + right; left. by apply delivered_more.
    + do 2 right. by left.
    + unfold subscribed in Hsub. rewrite Hs in Hsub. apply elem_of_cons in Hsub as [->|Hin].
      { right; left. by apply delivered_sent. }
      rewrite Forall_forall in Hxq.
      do 3 right. split; [|done]. split_and!; [done| |done]. apply out_sent; [done|by apply Hxq].
Qed.

Lemma tidy_scan_done h0 w s : tidy h0 w → on_scan_done (w_l w) = Some s → tidy h0 (mkWorld (w_head w) (w_logs w) s).
Proof.
  intros Ht Hrun. pose proof (lrun_one ScanDone _ _ eq_refl (t_one _ _ Ht) Hrun) as Hone.
  destruct Ht as [Hone0 ? ? ? Hout Hans Hscan ? Hsafe]. unfold on_scan_done in Hrun.
  destruct (l_phase (w_l w)) as [| |latest [|] [|]|] eqn:Hp; try done. injection Hrun as <-.
  split; try done; [cbn; intros ? _; by apply Hans|].
  intros log Hl Hh Hb. destruct (Hsafe log Hl Hh Hb) as [[? [?|?]]|[Hd|[Hs|[(? & Ho & Ha) Hsub]]]].
  - left. split; [done|by left].
  - congruence.
  - right. by left.
  - unfold in_scan in Hs. rewrite Hp in Hs. destruct Hs as [?%elem_of_nil|(? & ?%elem_of_nil & _)]; done.
  - do 3 right. done.
Qed.

(** The goroutine goes on to another state. *)
Lemma tidy_sub h0 sub sub' w :
  tidy h0 w → l_ticker (w_l w) = false → l_subs (w_l w) = [sub] → sub' ≠ SubStarting →
  match sub' with SubLive queue => queue = [] ∧ sub = SubStarting | _ => True end →
  tidy h0 (mkWorld (w_head w) (w_logs w) (in_subs [sub'] (w_l w))).
Proof.
  intros [Hone0 ? ? ? Hout Hans Hscan Hq Hsafe] Hti Hs Hne Hsub. split; try done.
  - right. split; [done|by eexists].
  - cbn. congruence.
  - cbn. intros queue [= ->]. destruct Hsub as [-> _]. by repeat constructor.
  - intros log Hl Hh Hb. destruct (Hsafe log Hl Hh Hb) as [?|[Hd|[?|[Ha Hsb]]]];
      [by left|right; by left|do 2 right; by left|].
    do 3 right. split; [done|]. unfold subscribed in *. rewrite Hs in Hsb. cbn.
    destruct sub'; [done| |done]. destruct Hsub as [_ ->]. done.
Qed.

Lemma tidy_Error h0 i d r saved w s :
  tidy h0 w → smooth None h0 (Error i d r saved) w → on_error i d r saved (w_l w) = Some s →
  tidy h0 (mkWorld (w_head w) (w_logs w) s).
Proof.
  intros Ht (_ & [[? _]|[[? _]|[Hpos Hsv]]]) Hrun; [done|done|]. pose proof (lrun_one (Error i d r saved) _ _ eq_refl (t_one _ _ Ht) Hrun) as Hone.
  destruct Ht as [Hone0 ? ? ? Hout Hans Hscan Hq Hsafe]. unfold on_error in Hrun.
  destruct (l_phase (w_l w)) eqn:Hp; try done.
  destruct Hone0 as [(_ & Hs & _)|(Hti & sub & Hs)]; [by rewrite Hs in Hrun|]. rewrite Hs in Hrun.
  destruct ([sub] !! i) as [[| |err]|] eqn:E; try done. apply singleton_lookup in E as [-> <-]. injection Hrun as <-.
  split; try done; cbn.
  - split; [done|]. rewrite Forall_forall in Hout.
    destruct Hsv as [?|(b & Hb & ?)]; [lia|]. specialize (Hout _ Hb). cbn in Hout. lia.
  - intros log Hl Hh Hb. destruct (Hsafe log Hl Hh Hb) as [[? [?|?]]|[Hd|[Hin|[(_ & Ho & _) _]]]]; try congruence.
    + right. by left.
    + unfold in_scan in Hin. by rewrite Hp in Hin.
    + left. split; [|by left]. cbn. rewrite Forall_forall in Ho.
      destruct Hsv as [?|(b & Hbo & ?)]; [lia|]. specialize (Ho _ Hbo). cbn in Ho. lia.
Qed.

Lemma tidy_begin h0 w : starts h0 w → tidy h0 w.
Proof.
  intros (Hh & Hlogs & Hl). split; rewrite ?Hl; try done; [by left|].
  intros log Hin Hn _. left. split; [done|by left].
Qed.

Lemma tidy_step h0 w w' :
  0 < Evm.c_BlockBatchSize cfg → w_head w + Evm.c_BlockBatchSize cfg < 2 ^ 64 →
  tidy h0 w → step (smooth None h0) w w' → tidy h0 w'.
Proof.
  intros Hb Hlt Ht [logs Hlogs|e s He Hrun]; [by apply tidy_mine|].
  assert (∀ i sub, l_subs (w_l w) !! i = Some sub →
    l_ticker (w_l w) = false ∧ l_subs (w_l w) = [sub] ∧ i = 0%nat) as Hsub.
  { intros i sub Hi. destruct (t_one _ _ Ht) as [(_ & Hs & _)|(Hti & sub' & Hs)]; rewrite Hs in Hi; [done|].
    apply singleton_lookup in Hi as [-> ->]. done. }
  destruct e; cbn [lrun] in Hrun.
  - by apply tidy_tick.
  - by eapply tidy_height.
  - by eapply tidy_batch.
  - by apply tidy_send.
  - by apply tidy_scan_done.
  - unfold Subscribe_opened in Hrun. destruct (l_subs (w_l w) !! i) as [[]|] eqn:Hi; try done.
    destruct (Hsub _ _ Hi) as (Hti & Hs & ->). injection Hrun as <-. rewrite Hs. cbn.
    apply (tidy_sub h0 SubStarting); try done; by destruct r.
  - by destruct He.
  - by eapply tidy_take.
  - unfold Subscribe_err in Hrun. destruct (l_subs (w_l w) !! i) as [[]|] eqn:Hi; try done.
    destruct (Hsub _ _ Hi) as (Hti & Hs & ->). injection Hrun as <-. rewrite Hs. cbn. by eapply tidy_sub.
  - unfold Subscribe_idle in Hrun. destruct (l_subs (w_l w) !! i) as [[]|] eqn:Hi; try done.
    destruct (Hsub _ _ Hi) as (Hti & Hs & ->). destruct r; injection Hrun as <-; try by destruct w.
    rewrite Hs. cbn. by eapply tidy_sub.
  - by destruct He.
  - by eapply tidy_Error.
  - by destruct He.
Qed.

Lemma step_head P w w' : step P w w' → w_head w ≤ w_head w'.
Proof. intros []; cbn; lia. Qed.

Lemma reached_tidy h0 w :
  0 < Evm.c_BlockBatchSize cfg → w_head w + Evm.c_BlockBatchSize cfg < 2 ^ 64 → reached (smooth None h0) h0 w → tidy h0 w.
Proof.
  intros Hb Hlt Hr. induction Hr as [|w w' Hr IH Hs]; [by apply tidy_begin|].
  pose proof (step_head _ _ _ Hs). eapply tidy_step; [done| |apply IH; lia|done]. lia.
Qed.

(** The listener has nothing left to do until the next log. *)
Definition up_to_date (s : Listening) : Prop := l_phase s = Selecting ∧ l_subs s = [SubLive []].

Lemma up_to_date_out h0 w log b :
  0 < Evm.c_BlockBatchSize cfg → w_head w + Evm.c_BlockBatchSize cfg < 2 ^ 64 →
  reached (smooth None h0) h0 w → up_to_date (w_l w) →
  log ∈ w_logs w → h0 ≤ Evm.l_BlockNumber log → log_block log = Some b → b ∈ l_out (w_l w).
Proof.
  intros Hbatch Hbound Hrun Hdone Hl Hh Hb. destruct (reached_tidy h0 w Hbatch Hbound Hrun) as [Hone _ _ _ _ _ _ _ Hsafe].
  destruct Hdone as [Hp Hs]. destruct (Hsafe log Hl Hh) as [[_ [Hti|Ha]]|[(b' & Hb' & Hin)|[Hin|[_ Hin]]]].
  - by eexists.
  - destruct Hone as [(_ & Hs' & _)|[? _]]; congruence.
  - congruence.
  - congruence.
  - unfold in_scan in Hin. by rewrite Hp in Hin.
  - unfold subscribed in Hin. rewrite Hs in Hin. by apply elem_of_nil in Hin.
Qed.
(** As long as all goes well no log is lost: across any number of
    failures of the subscription, whenever the listener is up to date it has sent
    every log of the chain from its start on that parses. *)
Theorem no_log_lost h0 w
  (Hbatch : 0 < Evm.c_BlockBatchSize cfg) (Hbound : w_head w + Evm.c_BlockBatchSize cfg < 2 ^ 64)
  (Hrun : reached (smooth None h0) h0 w) (Hdone : up_to_date (w_l w)) :
  ∀ log b, log ∈ w_logs w → h0 ≤ Evm.l_BlockNumber log → log_block log = Some b → b ∈ l_out (w_l w).
Proof. intros log b. by apply up_to_date_out. Qed.

(** * A log that is passed over *)

(** Nothing of the heights up to [h] is on its way, or will be asked for. *)
Record passed (h : Z) (w : World) : Prop := {
  p_head : h ≤ w_head w;
  p_start : h < l_start (w_l w) ∨ (l_ticker (w_l w) = false ∧ l_phase (w_l w) ≠ Asking);
  p_phase : match l_phase (w_l w) with
    | Scanning _ logs todo => Forall (λ log, h < num log) logs ∧ Forall (λ r, h < r.1) todo
    | _ => True
    end;
  p_subs : Forall (λ sub, match sub with SubLive queue => Forall (λ log, h < num log) queue | _ => True end) (l_subs (w_l w)) }.

(** The node is honest, and a restart reads a height beyond [h]. *)
Definition onward (h : Z) (e : event) (w : World) : Prop :=
  honest e w ∧ w_head w + Evm.c_BlockBatchSize cfg < 2 ^ 64 ∧
  match e with Error _ _ _ saved => h < saved | _ => True end.

Lemma blockReqs_ge fuel start latest :
  0 < Evm.c_BlockBatchSize cfg → 0 ≤ start → latest + Evm.c_BlockBatchSize cfg < 2 ^ 64 →
  Forall (λ r, start ≤ r.1) (Evm.blockReqs cfg fuel start latest).
Proof.
  intros Hb. revert start. induction fuel as [|fuel IH]; intros start Hs Hl; unfold Evm.blockReqs; fold Evm.blockReqs; [constructor|].
  destruct (Z.leb_spec start latest); [|constructor]. constructor; [cbn; lia|].
  rewrite u64_small by lia. eapply Forall_impl; [apply IH; lia|]. cbn. lia.
Qed.

Lemma sent_beyond h log s :
  h < num log → ∀ b, b ∈ l_out (sent log s) → b ∈ l_out s ∨ h < bi_Height b.
Proof.
  intros Hn b [?|Hb%elem_option_list]%elem_of_app; [by left|right]. by rewrite (log_block_height _ _ Hb).
Qed.

Lemma passed_mine h logs w :
  Forall (λ log, Evm.l_BlockNumber log = w_head w + 1) logs → passed h w → passed h (mine logs w).
Proof.
  intros Hl [Hh Hs Hp Hq]. split; cbn; [lia|done|done|]. apply Forall_fmap. eapply Forall_impl; [exact Hq|].
  intros [|queue|]; cbn; [done| |done]. intros Hqueue. apply Forall_app. split; [done|].
  eapply Forall_impl; [exact Hl|]. cbn. unfold num. lia.
Qed.

Lemma passed_run h w e s :
  0 ≤ h → 0 < Evm.c_BlockBatchSize cfg → passed h w → onward h e w → lrun e (w_l w) = Some s →
  passed h (mkWorld (w_head w) (w_logs w) s) ∧ ∀ b, b ∈ l_out s → b ∈ l_out (w_l w) ∨ h < bi_Height b.
Proof.
  intros H0 Hb [Hh Hs Hp Hq] (Hn & Hbound & He) Hrun. destruct w as [head logs [st ti ph subs cl out]].
  cbn [w_l w_head w_logs l_start l_ticker l_phase l_subs l_out] in *.
  assert (∀ i sub sub', subs !! i = Some sub →
    match sub' with SubLive queue => Forall (λ log, h < num log) queue | _ => True end →
    Forall (λ sub, match sub with SubLive queue => Forall (λ log, h < num log) queue | _ => True end) (<[i := sub']> subs)) as Hins
    by (intros i sub sub' _ ?; by apply Forall_insert).
  destruct e; cbn [lrun] in Hrun;
    unfold on_tick, on_height, on_batch, on_send, on_scan_done, on_error, on_cancelled, Subscribe_opened,
      Subscribe_arrive, Subscribe_take, Subscribe_err, Subscribe_idle, Subscribe_cancelled in Hrun;
    cbn [l_start l_ticker l_phase l_subs l_client l_out] in Hrun.
  - destruct ph, ti; simplify_eq. destruct Hs as [Hs|[? _]]; [|done]. split; [|by left]. split; cbn; [done|by left|done|].
    apply Forall_app. split; [done|by constructor].
  - destruct ph; simplify_eq. destruct Hs as [Hs|[_ []]]; [|done]. replace (st =? 0) with false by lia.
    split; [|by left]. split; cbn; [done|by left| |done]. split; [constructor|].
    eapply Forall_impl; [apply blockReqs_ge; [done|lia|]|cbn; lia]. unfold Evm.latestHeight.
    cbn in Hn. destruct (Evm.GetBlockNumber _) as [x| |]; [rewrite (Hn x) by done; lia|lia..].
  - destruct ph as [| |latest [|] [|[from to] todo]|]; simplify_eq. destruct Hp as [_ [Hf Htodo]%Forall_cons].
    split; [|by left]. split; cbn; [done|by destruct Hs as [?|[? _]]; [left|right]| |done]. split; [|done].
    cbn in Hn. destruct (Evm.getLogsRetry _ _).2 as [found| |] eqn:E; [|constructor..].
    rewrite (Hn _ _ found E). apply Forall_forall. intros log [[? _] _]%list_elem_of_filter. cbn in Hf. unfold num. lia.
  - destruct ph as [| |latest [|log rest] todo|]; simplify_eq. destruct Hp as [[Hl Hrest]%Forall_cons Htodo].
    split; [|by apply sent_beyond]. split; cbn; [done|by destruct Hs as [?|[? _]]; [left|right]|done|done].
  - destruct ph as [| |latest [|] []|]; simplify_eq. split; [|by left].
    split; cbn; [done|by destruct Hs as [?|[? _]]; [left|right]|done|done].
  - destruct (subs !! i) as [[]|] eqn:Hi; simplify_eq. split; [|by left]. split; cbn; [done..|].
    eapply Hins; [done|]. by destruct r; [constructor| |constructor].
  - done.
  - destruct (subs !! i) as [[|[|log queue]|]|] eqn:Hi; simplify_eq.
    pose proof (proj1 (Forall_lookup _ _) Hq _ _ Hi) as [Hl Hqueue]%Forall_cons.
    split; [|by apply sent_beyond]. split; cbn; [done..|]. by eapply Hins.
  - destruct (subs !! i) as [[]|] eqn:Hi; simplify_eq. split; [|by left]. split; cbn; [done..|]. by eapply Hins.
  - destruct (subs !! i) as [[]|] eqn:Hi; simplify_eq.
    destruct r; simplify_eq; (split; [|by left]); split; cbn; try done. by eapply Hins.
  - destruct (subs !! i) as [[]|] eqn:Hi; simplify_eq. split; [|by left]. split; cbn; [done..|]. by apply Forall_delete.
  - destruct ph, (subs !! i) as [[]|] eqn:Hi; simplify_eq. split; [|by left]. split; cbn; [done|by left|done|]. by apply Forall_delete.
  - destruct ph; simplify_eq. split; [|by left].
    split; cbn; [done|by destruct Hs as [?|[? _]]; [left|right]|done|done].
Qed.

(** What was passed over is never sent any more. *)
Lemma passed_over h w w' :
  0 ≤ h → 0 < Evm.c_BlockBatchSize cfg → passed h w → rtc (step (onward h)) w w' →
  ∀ b, b ∈ l_out (w_l w') → b ∈ l_out (w_l w) ∨ h < bi_Height b.
Proof.
  intros H0 Hb Hp Hr. induction Hr as [w|w w1 w' [logs Hl|e s He Hrun] _ IH]; [by left|..]; intros b Hin.
  - by apply IH; [by apply passed_mine|].
  - destruct (passed_run h w e s H0 Hb Hp He Hrun) as [Hp1 Hout].
    destruct (IH Hp1 b Hin) as [?|?]; [by apply Hout|by right].
Qed.
End Listener.
