(* ===== verification/EvmListenerWitness.v ===== *)
(** The EVM listener on concrete chains. *)
From stdpp Require Import gmap strings list.
From Stdlib Require Import ZArith Lia.
From S2P Require Import Prelude GoStd Types Provider EvmNonce Evm EvmCorrect EvmWitness EvmListener.
Open Scope Z_scope.

(** * Runs *)

Abbreviation addresses := ["0xc"].
Abbreviation topics := ["h1"].
Definition map_of : list EventMap := [mkEventMap "0xc" ConnectionContract (Evm.sig_types ConnectionContract)].

(** Bindings that read the block's number as the serial number, and a node at
    height [head] with [logs]. *)
Definition chain_node (head : res Z) (logs : res (list Evm.Log)) : Evm.IClient :=
  let n := node 0 in {|
  Evm.GetBlockNumber := head;
  Evm.SuggestGasPrice := Evm.SuggestGasPrice n; Evm.SuggestGasTip := Evm.SuggestGasTip n;
  Evm.PendingNonceAt := Evm.PendingNonceAt n; Evm.EstimateGas := Evm.EstimateGas n; Evm.Pack := Evm.Pack n;
  Evm.HexToAddress := Evm.HexToAddress n; Evm.transact := Evm.transact n; Evm.polls := Evm.polls n;
  Evm.ParseConnectionMessage l := Ok (Evm.mkConnectionMessage "0x2.icon" (Evm.l_BlockNumber l) "d");
  Evm.ParseCallMessage := Evm.ParseCallMessage n; Evm.ParseRollbackMessage := Evm.ParseRollbackMessage n;
  Evm.EmitMessageHash := "h1"; Evm.CallMessageHash := "h2"; Evm.RollbackMessageHash := "h3";
  Evm.FilterLogs q _ := ls ← logs; Ok (filter (in_range (Evm.fq_From q) (Evm.fq_To q)) ls);
  Evm.GetHeaderByHeight := Evm.GetHeaderByHeight n; Evm.client_MessageReceived := Evm.client_MessageReceived n;
  Evm.client_GetFee := Evm.client_GetFee n; Evm.client_GetBalance := Evm.client_GetBalance n;
  Evm.receipt_by_hash := Evm.receipt_by_hash n; Evm.RestoreKeystore := Evm.RestoreKeystore n |}.

Definition binds : Evm.IClient := chain_node (Err "") (Err "").
Abbreviation run_event := (lrun cfg map_of addresses topics binds).

Definition log_at (h : Z) : Evm.Log := Evm.mkLog "0xc" ["h1"] "" h.

(** A block, a question that the node answers truly or not at all, or another
    event. *)
Inductive act : Type :=
| Mine (logs : list Evm.Log)
| AskHeight (answered : bool)
| AskBatch (answered : bool)
| Do (e : event).

Definition answers (answered : bool) (w : World) : Evm.IClient :=
  if answered then chain_node (Ok (w_head w)) (Ok (w_logs w)) else chain_node (Err "") (Err "").

Definition do_act (a : act) (w : World) : option World :=
  let run e := (λ s, mkWorld (w_head w) (w_logs w) s) <$> run_event e (w_l w) in
  match a with
  | Mine logs => Some (mine logs w)
  | AskHeight b => run (Height (answers b w))
  | AskBatch b => run (Batch (answers b w))
  | Do e => run e
  end.

#[export] Instance hazard_eq : EqDecision hazard.
Proof. solve_decision. Defined.

Definition is_starting (subs : list Sub) : bool := match subs with [SubStarting] => true | _ => false end.

(** Whether it happens when all but [x] goes well. *)
Definition fine (x : option hazard) (h0 : Z) (a : act) (w : World) : bool :=
  match a with
  | Mine logs => forallb (λ log, Evm.l_BlockNumber log =? w_head w + 1) logs
  | AskHeight b =>
      (bool_decide (x = Some UnknownHeight) || b) &&
      (bool_decide (x = Some LateSubscription) || negb (is_starting (l_subs (w_l w))))
  | AskBatch b => bool_decide (x = Some FailedBatch) || b
  | Do (Error _ _ _ saved) =>
      (bool_decide (x = Some NothingSaved) && (saved =? 0)) ||
      (bool_decide (x = Some SavedAhead) && (0 <? saved) && (saved <=? w_head w)) ||
      ((0 <? saved) && existsb (λ b, saved <=? bi_Height b) (l_out (w_l w)))
  | Do (Height _) | Do (Batch _) | Do (Arrive _ _) => false
  | Do e => negb (is_cancel e)
  end.

Fixpoint exec (x : option hazard) (h0 : Z) (l : list act) (w : World) : option World :=
  match l with
  | [] => Some w
  | a :: l => if fine x h0 a w then w ← do_act a w; exec x h0 l w else None
  end.

Lemma answers_logs b w from to :
  (Evm.getLogsRetry (answers b w) (Evm.mkFilterQuery from to addresses topics)).2 =
  if b then Ok (filter (in_range from to) (w_logs w)) else Err "".
Proof. by destruct b. Qed.

Lemma fine_height x h0 b w : fine x h0 (AskHeight b) w = true → smooth addresses topics x h0 (Height (answers b w)) w.
Proof.
  cbn. intros [H1 H2]%andb_true_iff. split; [|split].
  - destruct b; [by intros h [= <-]|done].
  - apply orb_true_iff in H1 as [?%bool_decide_eq_true|]; [by left|right; by subst b].
  - apply orb_true_iff in H2 as [?%bool_decide_eq_true|H2]; [by left|right]. intros He. by rewrite He in H2.
Qed.

Lemma fine_batch x h0 b w : fine x h0 (AskBatch b) w = true → smooth addresses topics x h0 (Batch (answers b w)) w.
Proof.
  cbn. intros H1. split.
  - intros from to logs. rewrite answers_logs. destruct b; [by intros [= <-]|done].
  - apply orb_true_iff in H1 as [?%bool_decide_eq_true|]; [by left|right]. subst b. intros. by rewrite answers_logs.
Qed.

Lemma fine_do x h0 e w : fine x h0 (Do e) w = true → smooth addresses topics x h0 e w.
Proof.
  destruct e; try done. cbn.
  intros [[[H1%bool_decide_eq_true H2]%andb_true_iff|[[H1%bool_decide_eq_true H2]%andb_true_iff ?]%andb_true_iff]%orb_true_iff|[H1 H2]%andb_true_iff]%orb_true_iff.
  - split; [done|]. left. split; [done|lia].
  - split; [done|]. right; left. split; [done|lia].
  - split; [done|]. right; right. split; [lia|]. right. apply existsb_exists in H2 as (b & Hb & Hs).
    exists b. split; [by apply list_elem_of_In|lia].
Qed.

Abbreviation reached_from_5 x := (reached cfg map_of addresses topics binds (smooth addresses topics x 5) 5).

Lemma exec_reached x l w w' : reached_from_5 x w → exec x 5 l w = Some w' → reached_from_5 x w'.
Proof.
  revert w. induction l as [|a l IH]; intros w Hr He; cbn in He; [by injection He as <-|].
  destruct (fine x 5 a w) eqn:Hf; [|done]. destruct (do_act a w) as [w1|] eqn:Ha; [|done]. cbn in He.
  eapply IH; [|done]. eapply reached_step; [done|]. destruct a as [logs|b|b|e]; cbn in Ha.
  - injection Ha as <-. constructor. cbn in Hf. apply Forall_forall. intros log Hl.
    rewrite forallb_forall in Hf. apply Z.eqb_eq, Hf. by apply list_elem_of_In.
  - apply fmap_Some in Ha as (s & Hs & ->). eapply step_run; [by apply fine_height|done].
  - apply fmap_Some in Ha as (s & Hs & ->). eapply step_run; [by apply fine_batch|done].
  - apply fmap_Some in Ha as (s & Hs & ->). eapply step_run; [by apply fine_do|done].
Qed.

(** Seven blocks, with a log in the sixth; the listener starts at the fifth. *)
Definition begun : World := mkWorld 7 [log_at 6] (Listener_begin 5).
Lemma begun_reached x : reached_from_5 x begun.
Proof. constructor. split_and!; [cbn; lia..| |done]. intros log [->|?%elem_of_nil]%elem_of_cons; [cbn; lia|done]. Qed.

Definition ended (x : option hazard) (l : list act) : World := default begun (exec x 5 l begun).

(** * A failure of the subscription *)

(** The subscription brings block 8 and fails; block 9 is made before the
    restart, which scans from the saved height 8. *)
Definition failure : list act :=
  [Do Tick; Do (Opened 0 (Ok tt)); AskHeight true; Mine [log_at 8]; AskBatch true; Do Send; Do ScanDone;
   Do (SubLog 0); Do (SubErr 0 "tcp"); Mine [log_at 9]; Do (Error 0 false (Ok tt) 8); Do Tick; Do (Opened 0 (Ok tt));
   AskHeight true; AskBatch true; Do Send; Do Send; Do ScanDone].

Definition node_7 : Evm.IClient := chain_node (Ok 7) (Ok [log_at 6]).
Definition restarted : list event :=
  [Tick; Opened 0 (Ok tt); Height node_7; SubErr 0 "tcp"; Batch node_7; Send; ScanDone; Error 0 false (Ok tt) 8; Tick].

Lemma single_subscription_witness :
  ∃ s, lrun_all cfg map_of addresses topics binds restarted (Listener_begin 5) = Some s ∧
    (length (l_subs s) ≤ 1)%nat ∧ (l_ticker s = true ↔ l_subs s = []).
Proof.
  eexists. split; [vm_compute; reflexivity|].
  apply (single_subscription cfg map_of addresses topics binds 5 restarted); [by repeat constructor|].
  vm_compute. reflexivity.
Defined.

(** Blocks 6, 8 and 9 were sent, block 8 twice. *)
Lemma no_log_lost_witness :
  bi_Height <$> l_out (w_l (ended None failure)) = [6; 8; 8; 9] ∧
  ∀ log b, log ∈ w_logs (ended None failure) → 5 ≤ Evm.l_BlockNumber log →
    Evm.log_block binds cfg map_of log = Some b → b ∈ l_out (w_l (ended None failure)).
Proof.
  split; [vm_compute; reflexivity|].
  apply (no_log_lost cfg map_of addresses topics binds 5).
  - cbn. lia.
  - vm_compute. reflexivity.
  - apply (exec_reached None failure begun); [apply begun_reached|]. vm_compute. reflexivity.
  - split; vm_compute; reflexivity.
Defined.

(** * The hazards *)

Definition losing (x : hazard) : list act :=
  match x with
  | LateSubscription =>
      [Do Tick; AskHeight true; Mine [log_at 8]; Do (Opened 0 (Ok tt)); AskBatch true; Do Send; Do ScanDone;
       Mine [log_at 9]; Do (SubLog 0)]
  | UnknownHeight =>
      [Do Tick; Do (Opened 0 (Ok tt)); AskHeight false; Do ScanDone; Mine [log_at 8]; Do (SubLog 0)]
  | FailedBatch =>
      [Do Tick; Do (Opened 0 (Ok tt)); AskHeight true; AskBatch false; Do ScanDone; Mine [log_at 8]; Do (SubLog 0)]
  | NothingSaved =>
      [Do Tick; Do (Opened 0 (Ok tt)); AskHeight true; AskBatch true; Do Send; Do ScanDone;
       Do (SubErr 0 "tcp"); Mine [log_at 8]; Mine []; Do (Error 0 true (Ok tt) 0); Do Tick; Do (Opened 0 (Ok tt));
       AskHeight true; AskBatch true; Do ScanDone; Mine [log_at 10]; Do (SubLog 0)]
  | SavedAhead =>
      [Do Tick; Do (Opened 0 (Ok tt)); AskHeight true; AskBatch true; Do Send; Do ScanDone;
       Do (SubErr 0 "tcp"); Mine [log_at 8]; Mine []; Do (Error 0 true (Ok tt) 9); Do Tick; Do (Opened 0 (Ok tt));
       AskHeight true; AskBatch true; Do ScanDone; Mine [log_at 10]; Do (SubLog 0)]
  end.
Definition lost_log (x : hazard) : Evm.Log :=
  log_at (match x with LateSubscription | NothingSaved | SavedAhead => 8 | _ => 6 end).

Lemma lost_passed x : passed (num (lost_log x)) (ended (Some x) (losing x)).
Proof.
  split; [destruct x; vm_compute; discriminate|right; destruct x; split; vm_compute; done|
    destruct x; vm_compute; exact I|destruct x; vm_compute; repeat constructor].
Qed.

(** C26: every one of the five hazards loses a log.  It leaves the listener, on
    an honest node, up to date, with a later block sent, and a log in between
    that was not; and whatever happens from there on, as long as the node is
    honest, heights stay below 2^64 and each new start of the subscription reads
    a height beyond the log, as the relayer's is once it has saved that of the
    later block, the log is never sent. *)
Theorem hazard_loses_log x : ∃ w log b b',
  reached_from_5 (Some x) w ∧ up_to_date (w_l w) ∧ log ∈ w_logs w ∧ 5 ≤ Evm.l_BlockNumber log ∧
  Evm.log_block binds cfg map_of log = Some b ∧ b ∉ l_out (w_l w) ∧
  b' ∈ l_out (w_l w) ∧ Evm.l_BlockNumber log < bi_Height b' ∧
  ∀ w', rtc (step cfg map_of addresses topics binds (onward cfg addresses topics (Evm.l_BlockNumber log))) w w' →
    b ∉ l_out (w_l w').
Proof.
  assert (exec (Some x) 5 (losing x) begun = Some (ended (Some x) (losing x))) as He by (destruct x; vm_compute; reflexivity).
  set (w := ended (Some x) (losing x)) in *.
  assert (forallb (λ b, negb (bi_Height b =? num (lost_log x))) (l_out (w_l w)) = true) as Hout
    by (destruct x; vm_compute; reflexivity).
  assert (∃ b', last (l_out (w_l w)) = Some b' ∧ num (lost_log x) <? bi_Height b' = true) as (b' & Hb' & Hlt).
  { destruct x; (eexists; split; [vm_compute; reflexivity|vm_compute; reflexivity]). }
  exists w, (lost_log x), (mkBlockInfo (num (lost_log x)) [mkMessage "0x2.icon" "0x1.eth" (Some (num (lost_log x))) "d" (num (lost_log x)) EmitMessage None]), b'.
  split_and!.
  - by apply (exec_reached (Some x) (losing x) begun); [apply begun_reached|].
  - destruct x; split; vm_compute; reflexivity.
  - destruct x; vm_compute; repeat (constructor; try reflexivity).
  - destruct x; vm_compute; done.
  - destruct x; vm_compute; reflexivity.
  - intros Hin%list_elem_of_In. rewrite forallb_forall in Hout. apply Hout in Hin. cbn in Hin. by rewrite Z.eqb_refl in Hin.
  - by apply last_Some_elem_of.
  - apply Z.ltb_lt, Hlt.
  - intros w' Hrtc Hin.
    destruct (passed_over cfg map_of addresses topics binds (num (lost_log x)) w w') with (b := mkBlockInfo (num (lost_log x))
      [mkMessage "0x2.icon" "0x1.eth" (Some (num (lost_log x))) "d" (num (lost_log x)) EmitMessage None]) as [Hsent|Hbeyond];
      [destruct x; vm_compute; discriminate|reflexivity|exact (lost_passed x)|exact Hrtc|exact Hin| |].
    + apply list_elem_of_In in Hsent. rewrite forallb_forall in Hout. apply Hout in Hsent. cbn in Hsent. by rewrite Z.eqb_refl in Hsent.
    + cbn in Hbeyond. lia.
Qed.
