(* ===== verification/EvmClient.v ===== *)
(** Package relayer/chains/evm: the client (client.go) that answers the
    provider's questions.

    go-ethereum and the generated bindings are third-party: [EthNode] holds the
    answers of one connection, [Connection] and [Xcall] what the bindings of the
    two contracts do over it.  The client keeps two connections: contracts,
    heights, transactions and subscriptions go over the websocket, logs over
    HTTP. *)
From stdpp Require Import gmap strings list.
From Stdlib Require Import ZArith Lia.
From S2P Require Import Prelude GoStd Types Provider EvmNonce Evm EvmCorrect EvmListener.
Open Scope Z_scope.

Module EvmClient.

(** * Connections *)

(** A transfer of [transferBalance]. *)
Record Transfer := mkTransfer { tf_Nonce : Z; tf_To : string; tf_Amount : Z; tf_Gas : Z; tf_GasPrice : Z }.

Record EthNode := mkEthNode {
  eth_ChainID : res Z;
  eth_BlockNumber : res Z;
  eth_BalanceAt : string → res Z;
  eth_SuggestGasPrice : res Z;
  eth_SuggestGasTipCap : res Z;
  eth_PendingNonceAt : string → res Z;
  eth_EstimateGas : Evm.CallMsg → res Z;
  eth_CallContract : Evm.CallMsg → res string;
  eth_HeaderByNumber : Z → res unit;
  (* by transaction and number of the request; [Ok None] is [ethereum.NotFound] *)
  eth_TransactionReceipt : string → nat → res (option Evm.EthReceipt);
  (* the number of the attempt *)
  eth_FilterLogs : Evm.FilterQuery → nat → res (list Evm.Log);
  eth_SendTransaction : string → res unit;
  eth_SubscribeFilterLogs : Evm.FilterQuery → res unit }.

(** [bridgeContract.Connection]; a call is signed with the nonce given. *)
Record Connection := mkConnection {
  ParseMessage : Evm.Log → res Evm.ConnectionMessage;
  RecvMessage : string → option Z → string → Z → res string;
  con_SetAdmin : string → Z → res string;
  con_RevertMessage : option Z → Z → res string;
  ClaimFees : Z → res string;
  con_SetFee : string → option Z → option Z → Z → res string;
  GetReceipt : string → option Z → res bool;
  (* the flag asks for the response's fee too *)
  con_GetFee : string → bool → res Z }.

(** [bridgeContract.Xcall] *)
Record Xcall := mkXcall {
  xc_ParseCallMessage : Evm.Log → res Evm.XcallCallMessage;
  xc_ParseRollbackMessage : Evm.Log → res Z;
  xc_ExecuteCall : option Z → string → Z → res string;
  xc_ExecuteRollback : option Z → Z → res string }.

(** What go-ethereum and the bindings offer to build a client. *)
Record Libraries := mkLibraries {
  Dial : string → res EthNode;
  NewConnection : string → EthNode → res Connection;
  NewXcall : string → EthNode → res Xcall;
  IsHexAddress : string → bool;
  lib_HexToAddress : string → string;
  lib_Pack : Evm.ContractAbi → string → list Evm.AbiArg → res string;
  Keccak256 : string → string;
  (* the key's address, the signature with a chain id, the hash *)
  HexToECDSA : string → res string;
  SignTx : Transfer → Z → string → res string;
  tx_Hash : string → string }.

(** [eth] is the websocket; the last four fields are captured by the function
    that reconnects. *)
Record Client := mkClient {
  eth : EthNode;
  ethRpc : EthNode;
  EVMChainID : Z;
  connection : Connection;
  xcall : Xcall;
  connectionContract : string;
  xcallContract : string;
  rpcUrl : string;
  websocketUrl : string }.

Section Client.
Context (lib : Libraries).

Definition newClient (connectionContract xcallContract rpcUrl websocketUrl : string) : res Client :=
  rpc ← Dial lib rpcUrl;
  ws ← Dial lib websocketUrl;
  connection ← wrapErr2 "error occured when creating connection cobtract: " " " (NewConnection lib connectionContract ws);
  xcall ← wrapErr2 "error occured when creating eth client: " " " (NewXcall lib xcallContract ws);
  evmChainId ← eth_ChainID ws;
  Ok (mkClient ws rpc evmChainId connection xcall connectionContract xcallContract rpcUrl websocketUrl).

(** A new client with the same arguments; the old connections stay open. *)
Definition Reconnect (c : Client) : res Client :=
  newClient (connectionContract c) (xcallContract c) (rpcUrl c) (websocketUrl c).

(** * Wrappers *)

Definition PendingNonceAt (c : Client) (account : string) : res Z := eth_PendingNonceAt (eth c) account.
Definition TransactionReceipt (c : Client) (txHash : string) (i : nat) : res (option Evm.EthReceipt) :=
  eth_TransactionReceipt (eth c) txHash i.
Definition CallContract (c : Client) (msg : Evm.CallMsg) : res string := eth_CallContract (eth c) msg.
Definition GetBalance (c : Client) (hexAddr : string) : res Z :=
  if IsHexAddress lib hexAddr then eth_BalanceAt (eth c) (lib_HexToAddress lib hexAddr)
  else Err ("invalid hex address: " +:+ hexAddr).
Definition FilterLogs (c : Client) (q : Evm.FilterQuery) (i : nat) : res (list Evm.Log) := eth_FilterLogs (ethRpc c) q i.
Definition GetBlockNumber (c : Client) : res Z := eth_BlockNumber (eth c).
Definition SuggestGasPrice (c : Client) : res Z := eth_SuggestGasPrice (eth c).
Definition SuggestGasTip (c : Client) : res Z := eth_SuggestGasTipCap (eth c).
Definition GetHeaderByHeight (c : Client) (height : Z) : res unit := eth_HeaderByNumber (eth c) height.
Definition GetChainID (c : Client) : Z := EVMChainID c.
Definition EstimateGas (c : Client) (msg : Evm.CallMsg) : res Z := eth_EstimateGas (eth c) msg.
Definition SendTransaction (c : Client) (tx : string) : res unit := eth_SendTransaction (eth c) tx.
Definition Subscribe (c : Client) (q : Evm.FilterQuery) : res unit := eth_SubscribeFilterLogs (eth c) q.

Definition ParseConnectionMessage (c : Client) := ParseMessage (connection c).
Definition ReceiveMessage (c : Client) := RecvMessage (connection c).
Definition MessageReceived (c : Client) := GetReceipt (connection c).
Definition SetAdmin (c : Client) := con_SetAdmin (connection c).
Definition RevertMessage (c : Client) := con_RevertMessage (connection c).
Definition SetFee (c : Client) := con_SetFee (connection c).
Definition ClaimFee (c : Client) := ClaimFees (connection c).
(** The response's fee is always asked for. *)
Definition GetFee (c : Client) (networkID : string) : res Z := con_GetFee (connection c) networkID true.
Definition ParseCallMessage (c : Client) := xc_ParseCallMessage (xcall c).
Definition ParseRollbackMessage (c : Client) := xc_ParseRollbackMessage (xcall c).
Definition ExecuteCall (c : Client) := xc_ExecuteCall (xcall c).
Definition ExecuteRollback (c : Client) := xc_ExecuteRollback (xcall c).

(** * The client as the provider sees it *)

(** A call through the bindings ([Provider.SendTransaction]). *)
Definition transact (c : Client) (call : Evm.ContractCall) (nonce : Z) : res string :=
  match call with
  | Evm.CReceiveMessage src sn data => ReceiveMessage c src sn data nonce
  | Evm.CExecuteCall reqID data => ExecuteCall c reqID data nonce
  | Evm.CSetAdmin addr => SetAdmin c addr nonce
  | Evm.CRevertMessage sn => RevertMessage c sn nonce
  | Evm.CClaimFee => ClaimFee c nonce
  | Evm.CSetFee src msg res => SetFee c src msg res nonce
  | Evm.CExecuteRollback sn => ExecuteRollback c sn nonce
  end.

(** One request for a receipt, as [WaitForResults] tells the answers apart. *)
Definition poll (r : res (option Evm.EthReceipt)) : Evm.Poll :=
  match r with
  | Ok (Some r) => Evm.PReceipt r
  | Ok None => Evm.PNotFound
  | Err e => Evm.PError e
  | Panic => Evm.PCancelled "context canceled"
  end.

(** The answers of Evm.v, given by the client; the context lives for the polls
    of one wait. *)
Definition evm_client (c : Client) (keystore : res string) : Evm.IClient := {|
  Evm.GetBlockNumber := GetBlockNumber c;
  Evm.SuggestGasPrice := SuggestGasPrice c;
  Evm.SuggestGasTip := SuggestGasTip c;
  Evm.PendingNonceAt := PendingNonceAt c;
  Evm.EstimateGas := EstimateGas c;
  Evm.Pack := lib_Pack lib;
  Evm.HexToAddress := lib_HexToAddress lib;
  Evm.transact := transact c;
  Evm.polls h := (λ i, poll (TransactionReceipt c h i)) <$> seq 0 (S (Z.to_nat Evm.MaximumPollTry));
  Evm.ParseConnectionMessage := ParseConnectionMessage c;
  Evm.ParseCallMessage := ParseCallMessage c;
  Evm.ParseRollbackMessage := ParseRollbackMessage c;
  Evm.EmitMessageHash := Keccak256 lib Evm.EmitMessageSig;
  Evm.CallMessageHash := Keccak256 lib Evm.CallMessageSig;
  Evm.RollbackMessageHash := Keccak256 lib Evm.RollbackMessageSig;
  Evm.FilterLogs := FilterLogs c;
  Evm.GetHeaderByHeight := GetHeaderByHeight c;
  Evm.client_MessageReceived := MessageReceived c;
  Evm.client_GetFee := GetFee c;
  Evm.client_GetBalance := GetBalance c;
  Evm.receipt_by_hash h := r ← TransactionReceipt c h 0; match r with Some r => Ok r | None => Err "not found" end;
  Evm.RestoreKeystore := keystore |}.

(** [Provider.transferBalance], which nothing calls: the hash of the transfer
    sent. *)
Definition transferBalance (c : Client) (senderKey recepientAddress : string) (amount : Z) : res string :=
  fromAddress ← HexToECDSA lib senderKey;
  nonce ← wrapErr "PendingNonceAt : " (PendingNonceAt c fromAddress);
  gasPrice ← wrapErr "SuggestGasPrice : " (SuggestGasPrice c);
  let tx := mkTransfer (big_Uint64 nonce) (lib_HexToAddress lib recepientAddress) amount 30000000 gasPrice in
  signedTx ← wrapErr "SignTx : " (SignTx lib tx (GetChainID c) senderKey);
  _ ← wrapErr "SendTransaction : " (SendTransaction c signedTx);
  Ok (tx_Hash lib signedTx).

(** * Reconnection *)

(** A reconnected client talks to the same contracts at the same end points,
    and reconnects in the same way. *)
Lemma Reconnect_same a1 a2 u1 u2 c c' :
  newClient a1 a2 u1 u2 = Ok c → Reconnect c = Ok c' →
  Dial lib u1 = Ok (ethRpc c') ∧ Dial lib u2 = Ok (eth c') ∧
  NewConnection lib a1 (eth c') = Ok (connection c') ∧ NewXcall lib a2 (eth c') = Ok (xcall c') ∧
  eth_ChainID (eth c') = Ok (EVMChainID c') ∧ Reconnect c' = Reconnect c.
Proof.
  assert (∀ c, newClient a1 a2 u1 u2 = Ok c →
    (Dial lib u1 = Ok (ethRpc c) ∧ Dial lib u2 = Ok (eth c) ∧ NewConnection lib a1 (eth c) = Ok (connection c) ∧
     NewXcall lib a2 (eth c) = Ok (xcall c) ∧ eth_ChainID (eth c) = Ok (EVMChainID c)) ∧
    Reconnect c = newClient a1 a2 u1 u2) as Hnew.
  { clear. intros c. unfold newClient.
    intros (rpc & Hrpc & (ws & Hws & (con & Hcon & (x & Hx & (id & Hid & [= <-])%res_bind_Ok)%res_bind_Ok)%res_bind_Ok)%res_bind_Ok)%res_bind_Ok.
    split; [|done]. cbn. destruct (NewConnection lib a1 ws), (NewXcall lib a2 ws); naive_solver. }
  intros [_ Hr]%Hnew Hc'. rewrite Hr in Hc'. apply Hnew in Hc' as [(? & ? & ? & ? & ?) Hr'].
  by rewrite Hr', Hr.
Qed.

(** * Two nodes *)

(** The connection's node has seen the chain with these logs up to [head]. *)
Definition follows (head : Z) (logs : list Evm.Log) (n : EthNode) : Prop :=
  eth_BlockNumber n = Ok head ∧
  ∀ q i ls, eth_FilterLogs n q i = Ok ls →
    ls = filter (λ log, in_range (Evm.fq_From q) (Evm.fq_To q) log ∧ Evm.l_BlockNumber log ≤ head) logs.

Lemma getLogsRetry_loop_answer cl (Q : list Evm.Log → Prop) filter n i e d :
  (∀ i ls, Evm.FilterLogs cl filter i = Ok ls → Q ls) → (e = None → n ≠ 0%nat) →
  ∀ ls, (Evm.getLogsRetry_loop cl n i filter e d).2 = Ok ls → Q ls.
Proof.
  intros Hcl. revert i e d. induction n as [|n IH]; intros i e d He ls; cbn.
  - destruct e; [done|]. by destruct (He eq_refl).
  - destruct (Evm.FilterLogs cl filter i) as [l|e'|] eqn:E; [|by apply IH|done]. intros [= <-]. by eapply Hcl.
Qed.

(** Heights come from the websocket's node and logs from the other one.
    While the latter has seen as much, a scan up to the latest height that gets
    an answer gets all logs of its range; when it lags behind, the logs of the
    blocks it has not seen are missing from the answer, which is no error. *)
Theorem scan_needs_synced_nodes c keystore head rpcHead logs from to addresses topics ls
  (Hws : follows head logs (eth c)) (Hrpc : follows rpcHead logs (ethRpc c))
  (Hto : to ≤ Evm.latestHeight (evm_client c keystore))
  (Hls : (Evm.getLogsRetry (evm_client c keystore) (Evm.mkFilterQuery from to addresses topics)).2 = Ok ls) :
  (head ≤ rpcHead → ls = filter (in_range from to) logs) ∧
  (∀ log, rpcHead < Evm.l_BlockNumber log → log ∉ ls).
Proof.
  assert (ls = filter (λ log, in_range from to log ∧ Evm.l_BlockNumber log ≤ rpcHead) logs) as ->.
  { apply (getLogsRetry_loop_answer (evm_client c keystore) (λ ls, ls = _)
      (Evm.mkFilterQuery from to addresses topics) (Z.to_nat Evm.MaxRetryCount) 0 None []); [|done|exact Hls].
    intros i l Hl. by apply (proj2 Hrpc) in Hl. }
  assert (Evm.latestHeight (evm_client c keystore) = head) as Hla.
  { unfold Evm.latestHeight. cbn. unfold GetBlockNumber. by rewrite (proj1 Hws). }
  split.
  - intros Hle. apply list_filter_iff. intros log. unfold in_range. lia.
  - intros log Hlt [[_ ?] _]%list_elem_of_filter. lia.
Qed.
End Client.
End EvmClient.
