(* ===== verification/EvmClientWitness.v ===== *)
(** The EVM client over two concrete nodes. *)
From stdpp Require Import gmap strings list.
From Stdlib Require Import ZArith Lia.
From S2P Require Import Prelude GoStd Types Provider EvmNonce Evm EvmCorrect EvmWitness EvmListener EvmListenerWitness EvmClient.
Import EvmClient.
Open Scope Z_scope.

(** A node that has seen the blocks up to [head]. *)
Definition eth_node (head : Z) (logs : list Evm.Log) : EthNode := {|
  eth_ChainID := Ok 1; eth_BlockNumber := Ok head; eth_BalanceAt _ := Ok 5; eth_SuggestGasPrice := Ok 2;
  eth_SuggestGasTipCap := Ok 1; eth_PendingNonceAt _ := Ok 7; eth_EstimateGas _ := Ok 500;
  eth_CallContract _ := Ok ""; eth_HeaderByNumber _ := Ok tt;
  eth_TransactionReceipt _ i := if decide (i = 1%nat) then Ok (Some (Evm.mkEthReceipt 120 1)) else Ok None;
  eth_FilterLogs q _ := Ok (filter (λ log, in_range (Evm.fq_From q) (Evm.fq_To q) log ∧ Evm.l_BlockNumber log ≤ head) logs);
  eth_SendTransaction _ := Ok tt; eth_SubscribeFilterLogs _ := Ok tt |}.

Definition libraries (ws rpc : EthNode) : Libraries := {|
  Dial url := if decide (url = "ws://node") then Ok ws else Ok rpc;
  NewConnection _ _ := Ok {|
    ParseMessage l := Ok (Evm.mkConnectionMessage "0x2.icon" (Evm.l_BlockNumber l) "d");
    RecvMessage _ _ _ _ := Ok "0xdd"; con_SetAdmin _ _ := Ok "0xdd"; con_RevertMessage _ _ := Ok "0xdd";
    ClaimFees _ := Ok "0xdd"; con_SetFee _ _ _ _ := Ok "0xdd"; GetReceipt _ _ := Ok false;
    con_GetFee _ response := Ok (if response then 12 else 10) |};
  NewXcall _ _ := Ok {|
    xc_ParseCallMessage _ := Err "no"; xc_ParseRollbackMessage _ := Err "no";
    xc_ExecuteCall _ _ _ := Ok "0xdd"; xc_ExecuteRollback _ _ := Ok "0xdd" |};
  IsHexAddress _ := true; lib_HexToAddress s := s; lib_Pack _ m _ := Ok m; Keccak256 s := s;
  HexToECDSA k := Ok k; SignTx _ _ _ := Ok "signed"; tx_Hash t := t |}.

Definition client_of (ws rpc : EthNode) : res Client :=
  newClient (libraries ws rpc) "0xc" "0xx" "http://node" "ws://node".

Lemma follows_eth_node head logs : follows head logs (eth_node head logs).
Proof. split; [done|]. by intros q i ls [= <-]. Qed.

(** The websocket's node is at block 9; the other one is at 9, or still at 8:
    then the log of block 9 is missing. *)
Definition logs9 : list Evm.Log := [log_at 6; log_at 9].
Definition scan_of (rpcHead : Z) : res (list Evm.Log) :=
  c ← client_of (eth_node 9 logs9) (eth_node rpcHead logs9);
  (Evm.getLogsRetry (evm_client (libraries (eth_node 9 logs9) (eth_node rpcHead logs9)) c (Err "no"))
    (Evm.mkFilterQuery 5 9 addresses topics)).2.

Lemma scan_needs_synced_nodes_witness :
  scan_of 9 = Ok logs9 ∧ scan_of 8 = Ok [log_at 6] ∧ log_at 9 ∉ [log_at 6].
Proof.
  split; [vm_compute; reflexivity|]. split; [vm_compute; reflexivity|].
  pose (lib := libraries (eth_node 9 logs9) (eth_node 8 logs9)).
  destruct (client_of (eth_node 9 logs9) (eth_node 8 logs9)) as [c| |] eqn:Hc; [|discriminate Hc..].
  apply (scan_needs_synced_nodes lib c (Err "no") 9 8 logs9 5 9 addresses topics [log_at 6]).
  - injection Hc as <-. apply follows_eth_node.
  - injection Hc as <-. apply follows_eth_node.
  - injection Hc as <-. reflexivity.
  - injection Hc as <-. vm_compute. reflexivity.
  - cbn. lia.
Defined.
