(* ===== verification/EvmAbi.v ===== *)
(** Package relayer/chains/evm/abi: what the two contract bindings have in common.

    connection.go and xcall.go are made by abigen from the contracts' ABIs: the
    same code for every method and every event.  Here are the ABI types and
    values, the code of a method, and, per event, an iterator over past logs and
    a goroutine that forwards new ones.  go-ethereum's [bind.BoundContract] is a
    parameter: the calls it offers, and the channels that its [FilterLogs] and
    [WatchLogs] fill. *)
From stdpp Require Import gmap strings list.
From Stdlib Require Import ZArith Lia.
From S2P Require Import Prelude GoStd Types Evm.
Open Scope Z_scope.

Module EvmAbi.

(** * ABIs *)

Inductive AbiType : Type :=
| AddressT | UintT (bits : Z) | IntT (bits : Z) | BoolT | StringT | BytesT | ArrayT (t : AbiType).

#[export] Instance AbiType_eq_dec : EqDecision AbiType.
Proof. solve_decision. Defined.

(** [key] is the name under which [GetAbi] files a method: go-ethereum numbers
    the later ones of overloaded methods. *)
Record AbiMethod := mkAbiMethod {
  mt_Key : string;
  mt_RawName : string;
  mt_Inputs : list (string * AbiType);
  mt_Outputs : list AbiType }.
Record AbiEvent := mkAbiEvent {
  ev_Name : string;
  (* name, type, indexed *)
  ev_Inputs : list (string * AbiType * bool) }.
Record MetaData := mkMetaData { md_Methods : list AbiMethod; md_Events : list AbiEvent }.

Definition method_of (md : MetaData) (name : string) : option AbiMethod :=
  head (filter (λ m, mt_Key m = name) (md_Methods md)).
Definition event_of (md : MetaData) (name : string) : option AbiEvent :=
  head (filter (λ e, ev_Name e = name) (md_Events md)).

(** The canonical signature, which is hashed for a selector or a topic. *)
Fixpoint type_name (t : AbiType) : string :=
  match t with
  | AddressT => "address"
  | UintT bits => "uint" +:+ FormatInt bits 10
  | IntT bits => "int" +:+ FormatInt bits 10
  | BoolT => "bool"
  | StringT => "string"
  | BytesT => "bytes"
  | ArrayT t => type_name t +:+ "[]"
  end.
Definition signature (name : string) (types : list AbiType) : string :=
  name +:+ "(" +:+ String.concat "," (type_name <$> types) +:+ ")".
Definition event_signature (e : AbiEvent) : string := signature (ev_Name e) ((λ i, i.1.2) <$> ev_Inputs e).

(** * Values *)

(** What is passed as [interface{}]: [*big.Int] (nil is [None]), [uint8], and so
    on; an indexed argument of dynamic size comes as its hash. *)
Inductive AbiValue : Type :=
| VAddress (a : string)
| VBig (z : option Z)
| VUint8 (z : Z)
| VBool (b : bool)
| VString (s : string)
| VBytes (b : string)
| VStrings (l : list string)
| VHash (h : string).

(** The Go type that [abigen] and [Pack] take for an ABI type. *)
Definition has_type (t : AbiType) (v : AbiValue) : bool :=
  match t, v with
  | AddressT, VAddress _ => true
  | UintT bits, VUint8 _ => bits =? 8
  | UintT bits, VBig _ | IntT bits, VBig _ => 64 <? bits
  | BoolT, VBool _ => true
  | StringT, VString _ => true
  | BytesT, VBytes _ => true
  | ArrayT StringT, VStrings _ => true
  | _, _ => false
  end.
Fixpoint have_types (ts : list AbiType) (vs : list AbiValue) : bool :=
  match ts, vs with
  | [], [] => true
  | t :: ts, v :: vs => has_type t v && have_types ts vs
  | _, _ => false
  end.

(** The arguments fit the method of that name. *)
Definition args_fit (md : MetaData) (name : string) (args : list AbiValue) : bool :=
  match method_of md name with
  | Some m => have_types (snd <$> mt_Inputs m) args
  | None => false
  end.

(** The values of an event's arguments: topics hold the hash of a dynamic one. *)
Definition is_dynamic (t : AbiType) : bool :=
  match t with StringT | BytesT | ArrayT _ => true | _ => false end.
Definition field_type (i : string * AbiType * bool) (v : AbiValue) : bool :=
  if i.2 && is_dynamic i.1.2 then match v with VHash _ => true | _ => false end else has_type i.1.2 v.
Fixpoint fields_fit (inputs : list (string * AbiType * bool)) (vs : list AbiValue) : bool :=
  match inputs, vs with
  | [], [] => true
  | i :: inputs, v :: vs => field_type i v && fields_fit inputs vs
  | _, _ => false
  end.

(** ** Back to Go values: the second half of [ConvertType(...).( *T)] *)

Definition to_Address (v : AbiValue) : option string := match v with VAddress a => Some a | _ => None end.
Definition to_Big (v : AbiValue) : option (option Z) := match v with VBig z => Some z | _ => None end.
Definition to_Bool (v : AbiValue) : option bool := match v with VBool b => Some b | _ => None end.
Definition to_String (v : AbiValue) : option string := match v with VString s => Some s | _ => None end.

(** * Contracts *)

(** A channel of logs with what waits in it, and the subscription's channel of
    errors: [None] while nothing waits there, [Some None] when it was closed. *)
Record Stream := mkStream {
  st_logs : list Evm.Log;
  st_Err : option error;
  st_unsubscribed : bool }.

Section Bindings.
Context {CallOpts TransactOpts FilterOpts WatchOpts : Type}.

(** [bind.BoundContract]; a transaction is known by its hash.  [UnpackLog] gives
    the values of the event's arguments in the order of the ABI. *)
Record BoundContract := mkBoundContract {
  bc_Call : CallOpts → string → list AbiValue → res (list AbiValue);
  bc_Transact : TransactOpts → string → list AbiValue → res string;
  bc_Transfer : TransactOpts → res string;
  bc_FilterLogs : FilterOpts → string → list (list AbiValue) → res Stream;
  bc_WatchLogs : WatchOpts → string → list (list AbiValue) → res Stream;
  bc_UnpackLog : string → Evm.Log → res (list AbiValue) }.

(** Package bind: a backend may be nil. *)
Record Bind (Backend Abi : Type) := mkBind {
  GetAbi : MetaData → res Abi;
  NewBoundContract : string → Abi → option Backend → option Backend → option Backend → BoundContract }.

(** The body of a method that reads: [Call], then the first output. *)
Definition call {A} (convert : AbiValue → option A) (c : BoundContract) (opts : CallOpts) (name : string)
    (args : list AbiValue) : res A :=
  out ← bc_Call c opts name args;
  match out with
  | [] => Panic
  | out0 :: _ => deref (convert out0)
  end.

(** The loop that makes a rule of a topic. *)
Definition rule {A} (value : A → AbiValue) (items : list A) : list AbiValue := value <$> items.

(** * Events *)

Section Event.
Context {E : Type} (of_values : list AbiValue → Evm.Log → option E).

(** [UnpackLog] into a new [E], with the log as its [Raw]. *)
Definition unpack (c : BoundContract) (event : string) (log : Evm.Log) : res E :=
  vs ← bc_UnpackLog c event log;
  match of_values vs log with
  | Some e => Ok e
  | None => Err "abi: cannot unmarshal"
  end.

(** ** Iterators *)

Record Iterator := mkIterator {
  it_Event : option E;
  it_contract : BoundContract;
  it_event : string;
  it_stream : Stream;
  it_done : bool;
  it_fail : error }.

Definition new_Iterator (c : BoundContract) (event : string) (stream : Stream) : Iterator :=
  mkIterator None c event stream false None.

(** [case log := <-it.logs]; [it.Event] is [None] when it was not filled. *)
Definition Next_log (it : Iterator) (log : Evm.Log) (logs : list Evm.Log) : Iterator * bool :=
  let stream := mkStream logs (st_Err (it_stream it)) (st_unsubscribed (it_stream it)) in
  match unpack (it_contract it) (it_event it) log with
  | Ok e => (mkIterator (Some e) (it_contract it) (it_event it) stream (it_done it) (it_fail it), true)
  | r => (mkIterator None (it_contract it) (it_event it) stream (it_done it) (err_of r), false)
  end.

(** [Next] once the subscription has ended. *)
Definition Next_done (it : Iterator) : Iterator * bool :=
  match it_fail it with
  | Some _ => (it, false)
  | None =>
      match st_logs (it_stream it) with
      | log :: logs => Next_log it log logs
      | [] => (it, false)
      end
  end.

(** [case err := <-it.sub.Err()] *)
Definition Next_err (it : Iterator) (err : error) : Iterator * bool :=
  Next_done (mkIterator (it_Event it) (it_contract it) (it_event it) (it_stream it) true err).

(** [pick]: what the [select] takes when a log and an error wait; [None]: it
    blocks. *)
Definition Next (pick : bool) (it : Iterator) : option (Iterator * bool) :=
  match it_fail it with
  | Some _ => Some (it, false)
  | None =>
      if it_done it then Some (Next_done it)
      else
        match st_logs (it_stream it), st_Err (it_stream it) with
        | [], None => None
        | [], Some err => Some (Next_err it err)
        | log :: logs, None => Some (Next_log it log logs)
        | log :: logs, Some err => Some (if pick then Next_log it log logs else Next_err it err)
        end
  end.

Definition Iterator_Error (it : Iterator) : error := it_fail it.
Definition Iterator_Close (it : Iterator) : Iterator * error :=
  (mkIterator (it_Event it) (it_contract it) (it_event it)
     (mkStream (st_logs (it_stream it)) (st_Err (it_stream it)) true) (it_done it) (it_fail it), None).

(** [for it.Next() { ... it.Event ... }]; [None]: it blocks. *)
Fixpoint iterate (fuel : nat) (picks : nat → bool) (it : Iterator) : option (list E * Iterator) :=
  match fuel with
  | O => None
  | S fuel =>
      match Next (picks O) it with
      | Some (it, true) =>
          match iterate fuel (picks ∘ S) it with
          | Some (l, it') => Some (option_list (it_Event it) ++ l, it')
          | None => None
          end
      | Some (it, false) => Some ([], it)
      | None => None
      end
  end.

(** ** Watching *)

Inductive WatchPhase : Type :=
| WSelecting
| WSending (e : E)
| WReturned (err : error).

Record Watching := mkWatching {
  wt_contract : BoundContract;
  wt_event : string;
  wt_stream : Stream;
  wt_phase : WatchPhase;
  wt_sink : list E }.

Definition new_Watching (c : BoundContract) (event : string) (stream : Stream) : Watching :=
  mkWatching c event stream WSelecting [].

Inductive watch_event : Type :=
| WLog
| WAccepted
| WErr
| WQuit
(* the node delivers a log, the subscription ends *)
| WArrive (log : Evm.Log)
| WEnd (err : error).

Definition in_watch (stream : Stream) (p : WatchPhase) (w : Watching) : Watching :=
  mkWatching (wt_contract w) (wt_event w) stream p (wt_sink w).
(** [return err], and the deferred [sub.Unsubscribe()]. *)
Definition watch_return (err : error) (w : Watching) : Watching :=
  in_watch (mkStream (st_logs (wt_stream w)) (st_Err (wt_stream w)) true) (WReturned err) w.

(** What happens next to the goroutine of [Watch]. *)
Definition watch_step (e : watch_event) (w : Watching) : option Watching :=
  let st := wt_stream w in
  match e, wt_phase w with
  | WArrive log, _ => Some (in_watch (mkStream (st_logs st ++ [log]) (st_Err st) (st_unsubscribed st)) (wt_phase w) w)
  | WEnd err, _ => Some (in_watch (mkStream (st_logs st) (Some err) (st_unsubscribed st)) (wt_phase w) w)
  | WLog, WSelecting =>
      match st_logs st with
      | log :: logs =>
          let w := in_watch (mkStream logs (st_Err st) (st_unsubscribed st)) WSelecting w in
          match unpack (wt_contract w) (wt_event w) log with
          | Ok event => Some (in_watch (wt_stream w) (WSending event) w)
          | r => Some (watch_return (err_of r) w)
          end
      | [] => None
      end
  | WAccepted, WSending event =>
      Some (mkWatching (wt_contract w) (wt_event w) st WSelecting (wt_sink w ++ [event]))
  | WErr, (WSelecting | WSending _) =>
      match st_Err st with Some err => Some (watch_return err w) | None => None end
  | WQuit, (WSelecting | WSending _) => Some (watch_return None w)
  | _, _ => None
  end.

Fixpoint watch_run (l : list watch_event) (w : Watching) : option Watching :=
  match l with
  | [] => Some w
  | e :: l => w ← watch_step e w; watch_run l w
  end.
End Event.
End Bindings.
End EvmAbi.
