(* ===== verification/EvmConnection.v ===== *)
(** Package relayer/chains/evm/abi: the binding of the connection contract
    (connection.go), method by method and event by event, on the code they share
    (EvmAbi.v). *)
From stdpp Require Import gmap strings list.
From Stdlib Require Import ZArith.
From S2P Require Import Prelude GoStd Types Evm EvmAbi.
Import EvmAbi.
Open Scope Z_scope.

Module ConnectionBinding.

(** * The ABI, as the metadata gives it *)

Definition ConnectionMetaData : MetaData := mkMetaData
  [mkAbiMethod "admin" "admin" [] [AddressT];
   mkAbiMethod "claimFees" "claimFees" [] [];
   mkAbiMethod "connSn" "connSn" [] [UintT 256];
   mkAbiMethod "getFee" "getFee" [("to", StringT); ("response", BoolT)] [UintT 256];
   mkAbiMethod "getReceipt" "getReceipt" [("srcNetwork", StringT); ("_connSn", UintT 256)] [BoolT];
   mkAbiMethod "initialize" "initialize" [("_relayer", AddressT); ("_xCall", AddressT)] [];
   mkAbiMethod "recvMessage" "recvMessage" [("srcNetwork", StringT); ("_connSn", UintT 256); ("_msg", BytesT)] [];
   mkAbiMethod "revertMessage" "revertMessage" [("sn", UintT 256)] [];
   mkAbiMethod "sendMessage" "sendMessage" [("to", StringT); ("svc", StringT); ("sn", IntT 256); ("_msg", BytesT)] [];
   mkAbiMethod "setAdmin" "setAdmin" [("_address", AddressT)] [];
   mkAbiMethod "setFee" "setFee" [("networkId", StringT); ("messageFee", UintT 256); ("responseFee", UintT 256)] []]
  [mkAbiEvent "Initialized" [("version", UintT 8, false)];
   mkAbiEvent "Message" [("targetNetwork", StringT, false); ("sn", UintT 256, false); ("_msg", BytesT, false)]].

Section Connection.
Context {CallOpts TransactOpts FilterOpts WatchOpts Backend Abi : Type}.
Abbreviation Bound := (BoundContract (CallOpts := CallOpts) (TransactOpts := TransactOpts) (FilterOpts := FilterOpts) (WatchOpts := WatchOpts)).
Context (lib : Bind (CallOpts := CallOpts) (TransactOpts := TransactOpts) (FilterOpts := FilterOpts) (WatchOpts := WatchOpts) Backend Abi).

(** * The binding *)

Record ConnectionCaller := mkConnectionCaller { ConnectionCaller_contract : Bound }.
Record ConnectionTransactor := mkConnectionTransactor { ConnectionTransactor_contract : Bound }.
Record ConnectionFilterer := mkConnectionFilterer { ConnectionFilterer_contract : Bound }.
Record Connection := mkConnection { Connection_Caller : ConnectionCaller; Connection_Transactor : ConnectionTransactor; Connection_Filterer : ConnectionFilterer }.
Record ConnectionSession := mkConnectionSession {
  ConnectionSession_Contract : Connection; ConnectionSession_CallOpts : CallOpts; ConnectionSession_TransactOpts : TransactOpts }.
Record ConnectionCallerSession := mkConnectionCallerSession { ConnectionCallerSession_Contract : ConnectionCaller; ConnectionCallerSession_CallOpts : CallOpts }.
Record ConnectionTransactorSession := mkConnectionTransactorSession {
  ConnectionTransactorSession_Contract : ConnectionTransactor; ConnectionTransactorSession_TransactOpts : TransactOpts }.
Record ConnectionRaw := mkConnectionRaw { ConnectionRaw_Contract : Connection }.
Record ConnectionCallerRaw := mkConnectionCallerRaw { ConnectionCallerRaw_Contract : ConnectionCaller }.
Record ConnectionTransactorRaw := mkConnectionTransactorRaw { ConnectionTransactorRaw_Contract : ConnectionTransactor }.

Definition bindConnection (address : string) (caller transactor filterer : option Backend) : res Bound :=
  parsed ← GetAbi _ _ lib ConnectionMetaData;
  Ok (NewBoundContract _ _ lib address parsed caller transactor filterer).
Definition NewConnection (address : string) (backend : Backend) : res Connection :=
  contract ← bindConnection address (Some backend) (Some backend) (Some backend);
  Ok (mkConnection (mkConnectionCaller contract) (mkConnectionTransactor contract) (mkConnectionFilterer contract)).
Definition NewConnectionCaller (address : string) (caller : Backend) : res ConnectionCaller :=
  contract ← bindConnection address (Some caller) None None; Ok (mkConnectionCaller contract).
Definition NewConnectionTransactor (address : string) (transactor : Backend) : res ConnectionTransactor :=
  contract ← bindConnection address None (Some transactor) None; Ok (mkConnectionTransactor contract).
Definition NewConnectionFilterer (address : string) (filterer : Backend) : res ConnectionFilterer :=
  contract ← bindConnection address None None (Some filterer); Ok (mkConnectionFilterer contract).

(** ** Raw access *)

Definition ConnectionRaw_Call (r : ConnectionRaw) := bc_Call (ConnectionCaller_contract (Connection_Caller (ConnectionRaw_Contract r))).
Definition ConnectionRaw_Transfer (r : ConnectionRaw) := bc_Transfer (ConnectionTransactor_contract (Connection_Transactor (ConnectionRaw_Contract r))).
Definition ConnectionRaw_Transact (r : ConnectionRaw) := bc_Transact (ConnectionTransactor_contract (Connection_Transactor (ConnectionRaw_Contract r))).
Definition ConnectionCallerRaw_Call (r : ConnectionCallerRaw) := bc_Call (ConnectionCaller_contract (ConnectionCallerRaw_Contract r)).
Definition ConnectionTransactorRaw_Transfer (r : ConnectionTransactorRaw) := bc_Transfer (ConnectionTransactor_contract (ConnectionTransactorRaw_Contract r)).
Definition ConnectionTransactorRaw_Transact (r : ConnectionTransactorRaw) := bc_Transact (ConnectionTransactor_contract (ConnectionTransactorRaw_Contract r)).

Definition ConnectionCaller_Admin (c : ConnectionCaller) (opts : CallOpts) : res string :=
  call to_Address (ConnectionCaller_contract c) opts "admin" [].
Definition ConnectionSession_Admin (s : ConnectionSession) := ConnectionCaller_Admin (Connection_Caller (ConnectionSession_Contract s)) (ConnectionSession_CallOpts s).
Definition ConnectionCallerSession_Admin (s : ConnectionCallerSession) := ConnectionCaller_Admin (ConnectionCallerSession_Contract s) (ConnectionCallerSession_CallOpts s).

Definition ConnectionCaller_ConnSn (c : ConnectionCaller) (opts : CallOpts) : res (option Z) :=
  call to_Big (ConnectionCaller_contract c) opts "connSn" [].
Definition ConnectionSession_ConnSn (s : ConnectionSession) := ConnectionCaller_ConnSn (Connection_Caller (ConnectionSession_Contract s)) (ConnectionSession_CallOpts s).
Definition ConnectionCallerSession_ConnSn (s : ConnectionCallerSession) := ConnectionCaller_ConnSn (ConnectionCallerSession_Contract s) (ConnectionCallerSession_CallOpts s).

Definition ConnectionCaller_GetFee (c : ConnectionCaller) (opts : CallOpts) (to : string) (response : bool) : res (option Z) :=
  call to_Big (ConnectionCaller_contract c) opts "getFee" [VString to; VBool response].
Definition ConnectionSession_GetFee (s : ConnectionSession) (to : string) (response : bool) := ConnectionCaller_GetFee (Connection_Caller (ConnectionSession_Contract s)) (ConnectionSession_CallOpts s) to response.
Definition ConnectionCallerSession_GetFee (s : ConnectionCallerSession) (to : string) (response : bool) := ConnectionCaller_GetFee (ConnectionCallerSession_Contract s) (ConnectionCallerSession_CallOpts s) to response.

Definition ConnectionCaller_GetReceipt (c : ConnectionCaller) (opts : CallOpts) (srcNetwork : string) (connSn : option Z) : res bool :=
  call to_Bool (ConnectionCaller_contract c) opts "getReceipt" [VString srcNetwork; VBig connSn].
Definition ConnectionSession_GetReceipt (s : ConnectionSession) (srcNetwork : string) (connSn : option Z) := ConnectionCaller_GetReceipt (Connection_Caller (ConnectionSession_Contract s)) (ConnectionSession_CallOpts s) srcNetwork connSn.
Definition ConnectionCallerSession_GetReceipt (s : ConnectionCallerSession) (srcNetwork : string) (connSn : option Z) := ConnectionCaller_GetReceipt (ConnectionCallerSession_Contract s) (ConnectionCallerSession_CallOpts s) srcNetwork connSn.

Definition ConnectionTransactor_ClaimFees (c : ConnectionTransactor) (opts : TransactOpts) : res string :=
  bc_Transact (ConnectionTransactor_contract c) opts "claimFees" [].
Definition ConnectionSession_ClaimFees (s : ConnectionSession) := ConnectionTransactor_ClaimFees (Connection_Transactor (ConnectionSession_Contract s)) (ConnectionSession_TransactOpts s).
Definition ConnectionTransactorSession_ClaimFees (s : ConnectionTransactorSession) := ConnectionTransactor_ClaimFees (ConnectionTransactorSession_Contract s) (ConnectionTransactorSession_TransactOpts s).

Definition ConnectionTransactor_Initialize (c : ConnectionTransactor) (opts : TransactOpts) (relayer : string) (xCall : string) : res string :=
  bc_Transact (ConnectionTransactor_contract c) opts "initialize" [VAddress relayer; VAddress xCall].
Definition ConnectionSession_Initialize (s : ConnectionSession) (relayer : string) (xCall : string) := ConnectionTransactor_Initialize (Connection_Transactor (ConnectionSession_Contract s)) (ConnectionSession_TransactOpts s) relayer xCall.
Definition ConnectionTransactorSession_Initialize (s : ConnectionTransactorSession) (relayer : string) (xCall : string) := ConnectionTransactor_Initialize (ConnectionTransactorSession_Contract s) (ConnectionTransactorSession_TransactOpts s) relayer xCall.

Definition ConnectionTransactor_RecvMessage (c : ConnectionTransactor) (opts : TransactOpts) (srcNetwork : string) (connSn : option Z) (msg : string) : res string :=
  bc_Transact (ConnectionTransactor_contract c) opts "recvMessage" [VString srcNetwork; VBig connSn; VBytes msg].
Definition ConnectionSession_RecvMessage (s : ConnectionSession) (srcNetwork : string) (connSn : option Z) (msg : string) := ConnectionTransactor_RecvMessage (Connection_Transactor (ConnectionSession_Contract s)) (ConnectionSession_TransactOpts s) srcNetwork connSn msg.
Definition ConnectionTransactorSession_RecvMessage (s : ConnectionTransactorSession) (srcNetwork : string) (connSn : option Z) (msg : string) := ConnectionTransactor_RecvMessage (ConnectionTransactorSession_Contract s) (ConnectionTransactorSession_TransactOpts s) srcNetwork connSn msg.

Definition ConnectionTransactor_RevertMessage (c : ConnectionTransactor) (opts : TransactOpts) (sn : option Z) : res string :=
  bc_Transact (ConnectionTransactor_contract c) opts "revertMessage" [VBig sn].
Definition ConnectionSession_RevertMessage (s : ConnectionSession) (sn : option Z) := ConnectionTransactor_RevertMessage (Connection_Transactor (ConnectionSession_Contract s)) (ConnectionSession_TransactOpts s) sn.
Definition ConnectionTransactorSession_RevertMessage (s : ConnectionTransactorSession) (sn : option Z) := ConnectionTransactor_RevertMessage (ConnectionTransactorSession_Contract s) (ConnectionTransactorSession_TransactOpts s) sn.

Definition ConnectionTransactor_SendMessage (c : ConnectionTransactor) (opts : TransactOpts) (to : string) (svc : string) (sn : option Z) (msg : string) : res string :=
  bc_Transact (ConnectionTransactor_contract c) opts "sendMessage" [VString to; VString svc; VBig sn; VBytes msg].
Definition ConnectionSession_SendMessage (s : ConnectionSession) (to : string) (svc : string) (sn : option Z) (msg : string) := ConnectionTransactor_SendMessage (Connection_Transactor (ConnectionSession_Contract s)) (ConnectionSession_TransactOpts s) to svc sn msg.
Definition ConnectionTransactorSession_SendMessage (s : ConnectionTransactorSession) (to : string) (svc : string) (sn : option Z) (msg : string) := ConnectionTransactor_SendMessage (ConnectionTransactorSession_Contract s) (ConnectionTransactorSession_TransactOpts s) to svc sn msg.

Definition ConnectionTransactor_SetAdmin (c : ConnectionTransactor) (opts : TransactOpts) (address : string) : res string :=
  bc_Transact (ConnectionTransactor_contract c) opts "setAdmin" [VAddress address].
Definition ConnectionSession_SetAdmin (s : ConnectionSession) (address : string) := ConnectionTransactor_SetAdmin (Connection_Transactor (ConnectionSession_Contract s)) (ConnectionSession_TransactOpts s) address.
Definition ConnectionTransactorSession_SetAdmin (s : ConnectionTransactorSession) (address : string) := ConnectionTransactor_SetAdmin (ConnectionTransactorSession_Contract s) (ConnectionTransactorSession_TransactOpts s) address.

Definition ConnectionTransactor_SetFee (c : ConnectionTransactor) (opts : TransactOpts) (networkId : string) (messageFee : option Z) (responseFee : option Z) : res string :=
  bc_Transact (ConnectionTransactor_contract c) opts "setFee" [VString networkId; VBig messageFee; VBig responseFee].
Definition ConnectionSession_SetFee (s : ConnectionSession) (networkId : string) (messageFee : option Z) (responseFee : option Z) := ConnectionTransactor_SetFee (Connection_Transactor (ConnectionSession_Contract s)) (ConnectionSession_TransactOpts s) networkId messageFee responseFee.
Definition ConnectionTransactorSession_SetFee (s : ConnectionTransactorSession) (networkId : string) (messageFee : option Z) (responseFee : option Z) := ConnectionTransactor_SetFee (ConnectionTransactorSession_Contract s) (ConnectionTransactorSession_TransactOpts s) networkId messageFee responseFee.

(** * Events *)

(** ** Initialized *)

Record ConnectionInitialized := mkConnectionInitialized { ConnectionInitialized_Version : Z; ConnectionInitialized_Raw : Evm.Log }.
Definition ConnectionInitialized_of (vs : list AbiValue) (raw : Evm.Log) : option ConnectionInitialized :=
  match vs with [VUint8 Version] => Some (mkConnectionInitialized Version raw) | _ => None end.
Definition ConnectionInitializedIterator := (Iterator (E := ConnectionInitialized) (CallOpts := CallOpts) (TransactOpts := TransactOpts) (FilterOpts := FilterOpts) (WatchOpts := WatchOpts)).
Definition ConnectionInitializedIterator_Next (pick : bool) (it : ConnectionInitializedIterator) : option (ConnectionInitializedIterator * bool) := Next ConnectionInitialized_of pick it.
Definition ConnectionInitializedIterator_Error (it : ConnectionInitializedIterator) : error := Iterator_Error it.
Definition ConnectionInitializedIterator_Close (it : ConnectionInitializedIterator) : ConnectionInitializedIterator * error := Iterator_Close it.
Definition ConnectionFilterer_FilterInitialized (c : ConnectionFilterer) (opts : FilterOpts) : res ConnectionInitializedIterator :=
  stream ← bc_FilterLogs (ConnectionFilterer_contract c) opts "Initialized" [];
  Ok (new_Iterator (ConnectionFilterer_contract c) "Initialized" stream).
Definition ConnectionFilterer_WatchInitialized (c : ConnectionFilterer) (opts : WatchOpts) : res (Watching (E := ConnectionInitialized)) :=
  stream ← bc_WatchLogs (ConnectionFilterer_contract c) opts "Initialized" [];
  Ok (new_Watching (ConnectionFilterer_contract c) "Initialized" stream).
Definition ConnectionFilterer_WatchInitialized_step (e : watch_event) (w : Watching (E := ConnectionInitialized)) : option (Watching (E := ConnectionInitialized)) :=
  watch_step (CallOpts := CallOpts) (TransactOpts := TransactOpts) (FilterOpts := FilterOpts) (WatchOpts := WatchOpts) ConnectionInitialized_of e w.
Definition ConnectionFilterer_ParseInitialized (c : ConnectionFilterer) (log : Evm.Log) : res ConnectionInitialized := unpack ConnectionInitialized_of (ConnectionFilterer_contract c) "Initialized" log.

(** ** Message *)

Record ConnectionMessage := mkConnectionMessage { ConnectionMessage_TargetNetwork : string; ConnectionMessage_Sn : option Z; ConnectionMessage_Msg : string; ConnectionMessage_Raw : Evm.Log }.
Definition ConnectionMessage_of (vs : list AbiValue) (raw : Evm.Log) : option ConnectionMessage :=
  match vs with [VString TargetNetwork; VBig Sn; VBytes Msg] => Some (mkConnectionMessage TargetNetwork Sn Msg raw) | _ => None end.
Definition ConnectionMessageIterator := (Iterator (E := ConnectionMessage) (CallOpts := CallOpts) (TransactOpts := TransactOpts) (FilterOpts := FilterOpts) (WatchOpts := WatchOpts)).
Definition ConnectionMessageIterator_Next (pick : bool) (it : ConnectionMessageIterator) : option (ConnectionMessageIterator * bool) := Next ConnectionMessage_of pick it.
Definition ConnectionMessageIterator_Error (it : ConnectionMessageIterator) : error := Iterator_Error it.
Definition ConnectionMessageIterator_Close (it : ConnectionMessageIterator) : ConnectionMessageIterator * error := Iterator_Close it.
Definition ConnectionFilterer_FilterMessage (c : ConnectionFilterer) (opts : FilterOpts) : res ConnectionMessageIterator :=
  stream ← bc_FilterLogs (ConnectionFilterer_contract c) opts "Message" [];
  Ok (new_Iterator (ConnectionFilterer_contract c) "Message" stream).
Definition ConnectionFilterer_WatchMessage (c : ConnectionFilterer) (opts : WatchOpts) : res (Watching (E := ConnectionMessage)) :=
  stream ← bc_WatchLogs (ConnectionFilterer_contract c) opts "Message" [];
  Ok (new_Watching (ConnectionFilterer_contract c) "Message" stream).
Definition ConnectionFilterer_WatchMessage_step (e : watch_event) (w : Watching (E := ConnectionMessage)) : option (Watching (E := ConnectionMessage)) :=
  watch_step (CallOpts := CallOpts) (TransactOpts := TransactOpts) (FilterOpts := FilterOpts) (WatchOpts := WatchOpts) ConnectionMessage_of e w.
Definition ConnectionFilterer_ParseMessage (c : ConnectionFilterer) (log : Evm.Log) : res ConnectionMessage := unpack ConnectionMessage_of (ConnectionFilterer_contract c) "Message" log.

End Connection.
End ConnectionBinding.
