(* ===== verification/EvmXcall.v ===== *)
(** Package relayer/chains/evm/abi: the binding of the xcall contract
    (xcall.go), method by method and event by event, on the code they share
    (EvmAbi.v). *)
From stdpp Require Import gmap strings list.
From Stdlib Require Import ZArith.
From S2P Require Import Prelude GoStd Types Evm EvmAbi.
Import EvmAbi.
Open Scope Z_scope.

Module XcallBinding.

(** * The ABI, as the metadata gives it *)

Definition XcallMetaData : MetaData := mkMetaData
  [mkAbiMethod "admin" "admin" [] [AddressT];
   mkAbiMethod "executeCall" "executeCall" [("_reqId", UintT 256); ("_data", BytesT)] [];
   mkAbiMethod "executeRollback" "executeRollback" [("_sn", UintT 256)] [];
   mkAbiMethod "getDefaultConnection" "getDefaultConnection" [("_nid", StringT)] [AddressT];
   mkAbiMethod "getFee" "getFee" [("_net", StringT); ("_rollback", BoolT); ("_sources", ArrayT StringT)] [UintT 256];
   mkAbiMethod "getFee0" "getFee" [("_net", StringT); ("_rollback", BoolT)] [UintT 256];
   mkAbiMethod "getNetworkAddress" "getNetworkAddress" [] [StringT];
   mkAbiMethod "getNetworkId" "getNetworkId" [] [StringT];
   mkAbiMethod "getProtocolFee" "getProtocolFee" [] [UintT 256];
   mkAbiMethod "getProtocolFeeHandler" "getProtocolFeeHandler" [] [AddressT];
   mkAbiMethod "handleBTPError" "handleBTPError" [("_src", StringT); ("_svc", StringT); ("_sn", UintT 256); ("_code", UintT 256); ("_msg", StringT)] [];
   mkAbiMethod "handleBTPMessage" "handleBTPMessage" [("_from", StringT); ("_svc", StringT); ("_sn", UintT 256); ("_msg", BytesT)] [];
   mkAbiMethod "handleError" "handleError" [("_sn", UintT 256)] [];
   mkAbiMethod "handleMessage" "handleMessage" [("_from", StringT); ("_msg", BytesT)] [];
   mkAbiMethod "initialize" "initialize" [("_nid", StringT)] [];
   mkAbiMethod "sendCallMessage" "sendCallMessage" [("_to", StringT); ("_data", BytesT); ("_rollback", BytesT)] [UintT 256];
   mkAbiMethod "sendCallMessage0" "sendCallMessage" [("_to", StringT); ("_data", BytesT); ("_rollback", BytesT); ("sources", ArrayT StringT); ("destinations", ArrayT StringT)] [UintT 256];
   mkAbiMethod "setAdmin" "setAdmin" [("_address", AddressT)] [];
   mkAbiMethod "setDefaultConnection" "setDefaultConnection" [("_nid", StringT); ("connection", AddressT)] [];
   mkAbiMethod "setProtocolFee" "setProtocolFee" [("_value", UintT 256)] [];
   mkAbiMethod "setProtocolFeeHandler" "setProtocolFeeHandler" [("_addr", AddressT)] [];
   mkAbiMethod "tryHandleCallMessage" "tryHandleCallMessage" [("toAddr", AddressT); ("to", StringT); ("from", StringT); ("data", BytesT); ("protocols", ArrayT StringT)] [];
   mkAbiMethod "verifySuccess" "verifySuccess" [("_sn", UintT 256)] [BoolT]]
  [mkAbiEvent "CallExecuted" [("_reqId", UintT 256, true); ("_code", IntT 256, false); ("_msg", StringT, false)];
   mkAbiEvent "CallMessage" [("_from", StringT, true); ("_to", StringT, true); ("_sn", UintT 256, true); ("_reqId", UintT 256, false); ("_data", BytesT, false)];
   mkAbiEvent "CallMessageSent" [("_from", AddressT, true); ("_to", StringT, true); ("_sn", UintT 256, true)];
   mkAbiEvent "Initialized" [("version", UintT 8, false)];
   mkAbiEvent "ResponseMessage" [("_sn", UintT 256, true); ("_code", IntT 256, false)];
   mkAbiEvent "RollbackExecuted" [("_sn", UintT 256, true)];
   mkAbiEvent "RollbackMessage" [("_sn", UintT 256, true)]].

Section Xcall.
Context {CallOpts TransactOpts FilterOpts WatchOpts Backend Abi : Type}.
Abbreviation Bound := (BoundContract (CallOpts := CallOpts) (TransactOpts := TransactOpts) (FilterOpts := FilterOpts) (WatchOpts := WatchOpts)).
Context (lib : Bind (CallOpts := CallOpts) (TransactOpts := TransactOpts) (FilterOpts := FilterOpts) (WatchOpts := WatchOpts) Backend Abi).

(** * The binding *)

Record XcallCaller := mkXcallCaller { XcallCaller_contract : Bound }.
Record XcallTransactor := mkXcallTransactor { XcallTransactor_contract : Bound }.
Record XcallFilterer := mkXcallFilterer { XcallFilterer_contract : Bound }.
Record Xcall := mkXcall { Xcall_Caller : XcallCaller; Xcall_Transactor : XcallTransactor; Xcall_Filterer : XcallFilterer }.
Record XcallSession := mkXcallSession {
  XcallSession_Contract : Xcall; XcallSession_CallOpts : CallOpts; XcallSession_TransactOpts : TransactOpts }.
Record XcallCallerSession := mkXcallCallerSession { XcallCallerSession_Contract : XcallCaller; XcallCallerSession_CallOpts : CallOpts }.
Record XcallTransactorSession := mkXcallTransactorSession {
  XcallTransactorSession_Contract : XcallTransactor; XcallTransactorSession_TransactOpts : TransactOpts }.
Record XcallRaw := mkXcallRaw { XcallRaw_Contract : Xcall }.
Record XcallCallerRaw := mkXcallCallerRaw { XcallCallerRaw_Contract : XcallCaller }.
Record XcallTransactorRaw := mkXcallTransactorRaw { XcallTransactorRaw_Contract : XcallTransactor }.

Definition bindXcall (address : string) (caller transactor filterer : option Backend) : res Bound :=
  parsed ← GetAbi _ _ lib XcallMetaData;
  Ok (NewBoundContract _ _ lib address parsed caller transactor filterer).
Definition NewXcall (address : string) (backend : Backend) : res Xcall :=
  contract ← bindXcall address (Some backend) (Some backend) (Some backend);
  Ok (mkXcall (mkXcallCaller contract) (mkXcallTransactor contract) (mkXcallFilterer contract)).
Definition NewXcallCaller (address : string) (caller : Backend) : res XcallCaller :=
  contract ← bindXcall address (Some caller) None None; Ok (mkXcallCaller contract).
Definition NewXcallTransactor (address : string) (transactor : Backend) : res XcallTransactor :=
  contract ← bindXcall address None (Some transactor) None; Ok (mkXcallTransactor contract).
Definition NewXcallFilterer (address : string) (filterer : Backend) : res XcallFilterer :=
  contract ← bindXcall address None None (Some filterer); Ok (mkXcallFilterer contract).

(** ** Raw access *)

Definition XcallRaw_Call (r : XcallRaw) := bc_Call (XcallCaller_contract (Xcall_Caller (XcallRaw_Contract r))).
Definition XcallRaw_Transfer (r : XcallRaw) := bc_Transfer (XcallTransactor_contract (Xcall_Transactor (XcallRaw_Contract r))).
Definition XcallRaw_Transact (r : XcallRaw) := bc_Transact (XcallTransactor_contract (Xcall_Transactor (XcallRaw_Contract r))).
Definition XcallCallerRaw_Call (r : XcallCallerRaw) := bc_Call (XcallCaller_contract (XcallCallerRaw_Contract r)).
Definition XcallTransactorRaw_Transfer (r : XcallTransactorRaw) := bc_Transfer (XcallTransactor_contract (XcallTransactorRaw_Contract r)).
Definition XcallTransactorRaw_Transact (r : XcallTransactorRaw) := bc_Transact (XcallTransactor_contract (XcallTransactorRaw_Contract r)).

Definition XcallCaller_Admin (c : XcallCaller) (opts : CallOpts) : res string :=
  call to_Address (XcallCaller_contract c) opts "admin" [].
Definition XcallSession_Admin (s : XcallSession) := XcallCaller_Admin (Xcall_Caller (XcallSession_Contract s)) (XcallSession_CallOpts s).
Definition XcallCallerSession_Admin (s : XcallCallerSession) := XcallCaller_Admin (XcallCallerSession_Contract s) (XcallCallerSession_CallOpts s).

Definition XcallCaller_GetDefaultConnection (c : XcallCaller) (opts : CallOpts) (nid : string) : res string :=
  call to_Address (XcallCaller_contract c) opts "getDefaultConnection" [VString nid].
Definition XcallSession_GetDefaultConnection (s : XcallSession) (nid : string) := XcallCaller_GetDefaultConnection (Xcall_Caller (XcallSession_Contract s)) (XcallSession_CallOpts s) nid.
Definition XcallCallerSession_GetDefaultConnection (s : XcallCallerSession) (nid : string) := XcallCaller_GetDefaultConnection (XcallCallerSession_Contract s) (XcallCallerSession_CallOpts s) nid.

Definition XcallCaller_GetFee (c : XcallCaller) (opts : CallOpts) (net : string) (rollback : bool) (sources : list string) : res (option Z) :=
  call to_Big (XcallCaller_contract c) opts "getFee" [VString net; VBool rollback; VStrings sources].
Definition XcallSession_GetFee (s : XcallSession) (net : string) (rollback : bool) (sources : list string) := XcallCaller_GetFee (Xcall_Caller (XcallSession_Contract s)) (XcallSession_CallOpts s) net rollback sources.
Definition XcallCallerSession_GetFee (s : XcallCallerSession) (net : string) (rollback : bool) (sources : list string) := XcallCaller_GetFee (XcallCallerSession_Contract s) (XcallCallerSession_CallOpts s) net rollback sources.

Definition XcallCaller_GetFee0 (c : XcallCaller) (opts : CallOpts) (net : string) (rollback : bool) : res (option Z) :=
  call to_Big (XcallCaller_contract c) opts "getFee0" [VString net; VBool rollback].
Definition XcallSession_GetFee0 (s : XcallSession) (net : string) (rollback : bool) := XcallCaller_GetFee0 (Xcall_Caller (XcallSession_Contract s)) (XcallSession_CallOpts s) net rollback.
Definition XcallCallerSession_GetFee0 (s : XcallCallerSession) (net : string) (rollback : bool) := XcallCaller_GetFee0 (XcallCallerSession_Contract s) (XcallCallerSession_CallOpts s) net rollback.

Definition XcallCaller_GetNetworkAddress (c : XcallCaller) (opts : CallOpts) : res string :=
  call to_String (XcallCaller_contract c) opts "getNetworkAddress" [].
Definition XcallSession_GetNetworkAddress (s : XcallSession) := XcallCaller_GetNetworkAddress (Xcall_Caller (XcallSession_Contract s)) (XcallSession_CallOpts s).
Definition XcallCallerSession_GetNetworkAddress (s : XcallCallerSession) := XcallCaller_GetNetworkAddress (XcallCallerSession_Contract s) (XcallCallerSession_CallOpts s).

Definition XcallCaller_GetNetworkId (c : XcallCaller) (opts : CallOpts) : res string :=
  call to_String (XcallCaller_contract c) opts "getNetworkId" [].
Definition XcallSession_GetNetworkId (s : XcallSession) := XcallCaller_GetNetworkId (Xcall_Caller (XcallSession_Contract s)) (XcallSession_CallOpts s).
Definition XcallCallerSession_GetNetworkId (s : XcallCallerSession) := XcallCaller_GetNetworkId (XcallCallerSession_Contract s) (XcallCallerSession_CallOpts s).

Definition XcallCaller_GetProtocolFee (c : XcallCaller) (opts : CallOpts) : res (option Z) :=
  call to_Big (XcallCaller_contract c) opts "getProtocolFee" [].
Definition XcallSession_GetProtocolFee (s : XcallSession) := XcallCaller_GetProtocolFee (Xcall_Caller (XcallSession_Contract s)) (XcallSession_CallOpts s).
Definition XcallCallerSession_GetProtocolFee (s : XcallCallerSession) := XcallCaller_GetProtocolFee (XcallCallerSession_Contract s) (XcallCallerSession_CallOpts s).

Definition XcallCaller_GetProtocolFeeHandler (c : XcallCaller) (opts : CallOpts) : res string :=
  call to_Address (XcallCaller_contract c) opts "getProtocolFeeHandler" [].
Definition XcallSession_GetProtocolFeeHandler (s : XcallSession) := XcallCaller_GetProtocolFeeHandler (Xcall_Caller (XcallSession_Contract s)) (XcallSession_CallOpts s).
Definition XcallCallerSession_GetProtocolFeeHandler (s : XcallCallerSession) := XcallCaller_GetProtocolFeeHandler (XcallCallerSession_Contract s) (XcallCallerSession_CallOpts s).

Definition XcallCaller_VerifySuccess (c : XcallCaller) (opts : CallOpts) (sn : option Z) : res bool :=
  call to_Bool (XcallCaller_contract c) opts "verifySuccess" [VBig sn].
Definition XcallSession_VerifySuccess (s : XcallSession) (sn : option Z) := XcallCaller_VerifySuccess (Xcall_Caller (XcallSession_Contract s)) (XcallSession_CallOpts s) sn.
Definition XcallCallerSession_VerifySuccess (s : XcallCallerSession) (sn : option Z) := XcallCaller_VerifySuccess (XcallCallerSession_Contract s) (XcallCallerSession_CallOpts s) sn.

Definition XcallTransactor_ExecuteCall (c : XcallTransactor) (opts : TransactOpts) (reqId : option Z) (data : string) : res string :=
  bc_Transact (XcallTransactor_contract c) opts "executeCall" [VBig reqId; VBytes data].
Definition XcallSession_ExecuteCall (s : XcallSession) (reqId : option Z) (data : string) := XcallTransactor_ExecuteCall (Xcall_Transactor (XcallSession_Contract s)) (XcallSession_TransactOpts s) reqId data.
Definition XcallTransactorSession_ExecuteCall (s : XcallTransactorSession) (reqId : option Z) (data : string) := XcallTransactor_ExecuteCall (XcallTransactorSession_Contract s) (XcallTransactorSession_TransactOpts s) reqId data.

Definition XcallTransactor_ExecuteRollback (c : XcallTransactor) (opts : TransactOpts) (sn : option Z) : res string :=
  bc_Transact (XcallTransactor_contract c) opts "executeRollback" [VBig sn].
Definition XcallSession_ExecuteRollback (s : XcallSession) (sn : option Z) := XcallTransactor_ExecuteRollback (Xcall_Transactor (XcallSession_Contract s)) (XcallSession_TransactOpts s) sn.
Definition XcallTransactorSession_ExecuteRollback (s : XcallTransactorSession) (sn : option Z) := XcallTransactor_ExecuteRollback (XcallTransactorSession_Contract s) (XcallTransactorSession_TransactOpts s) sn.

Definition XcallTransactor_HandleBTPError (c : XcallTransactor) (opts : TransactOpts) (src : string) (svc : string) (sn : option Z) (code : option Z) (msg : string) : res string :=
  bc_Transact (XcallTransactor_contract c) opts "handleBTPError" [VString src; VString svc; VBig sn; VBig code; VString msg].
Definition XcallSession_HandleBTPError (s : XcallSession) (src : string) (svc : string) (sn : option Z) (code : option Z) (msg : string) := XcallTransactor_HandleBTPError (Xcall_Transactor (XcallSession_Contract s)) (XcallSession_TransactOpts s) src svc sn code msg.
Definition XcallTransactorSession_HandleBTPError (s : XcallTransactorSession) (src : string) (svc : string) (sn : option Z) (code : option Z) (msg : string) := XcallTransactor_HandleBTPError (XcallTransactorSession_Contract s) (XcallTransactorSession_TransactOpts s) src svc sn code msg.

Definition XcallTransactor_HandleBTPMessage (c : XcallTransactor) (opts : TransactOpts) (from : string) (svc : string) (sn : option Z) (msg : string) : res string :=
  bc_Transact (XcallTransactor_contract c) opts "handleBTPMessage" [VString from; VString svc; VBig sn; VBytes msg].
Definition XcallSession_HandleBTPMessage (s : XcallSession) (from : string) (svc : string) (sn : option Z) (msg : string) := XcallTransactor_HandleBTPMessage (Xcall_Transactor (XcallSession_Contract s)) (XcallSession_TransactOpts s) from svc sn msg.
Definition XcallTransactorSession_HandleBTPMessage (s : XcallTransactorSession) (from : string) (svc : string) (sn : option Z) (msg : string) := XcallTransactor_HandleBTPMessage (XcallTransactorSession_Contract s) (XcallTransactorSession_TransactOpts s) from svc sn msg.

Definition XcallTransactor_HandleError (c : XcallTransactor) (opts : TransactOpts) (sn : option Z) : res string :=
  bc_Transact (XcallTransactor_contract c) opts "handleError" [VBig sn].
Definition XcallSession_HandleError (s : XcallSession) (sn : option Z) := XcallTransactor_HandleError (Xcall_Transactor (XcallSession_Contract s)) (XcallSession_TransactOpts s) sn.
Definition XcallTransactorSession_HandleError (s : XcallTransactorSession) (sn : option Z) := XcallTransactor_HandleError (XcallTransactorSession_Contract s) (XcallTransactorSession_TransactOpts s) sn.

Definition XcallTransactor_HandleMessage (c : XcallTransactor) (opts : TransactOpts) (from : string) (msg : string) : res string :=
  bc_Transact (XcallTransactor_contract c) opts "handleMessage" [VString from; VBytes msg].
Definition XcallSession_HandleMessage (s : XcallSession) (from : string) (msg : string) := XcallTransactor_HandleMessage (Xcall_Transactor (XcallSession_Contract s)) (XcallSession_TransactOpts s) from msg.
Definition XcallTransactorSession_HandleMessage (s : XcallTransactorSession) (from : string) (msg : string) := XcallTransactor_HandleMessage (XcallTransactorSession_Contract s) (XcallTransactorSession_TransactOpts s) from msg.

Definition XcallTransactor_Initialize (c : XcallTransactor) (opts : TransactOpts) (nid : string) : res string :=
  bc_Transact (XcallTransactor_contract c) opts "initialize" [VString nid].
Definition XcallSession_Initialize (s : XcallSession) (nid : string) := XcallTransactor_Initialize (Xcall_Transactor (XcallSession_Contract s)) (XcallSession_TransactOpts s) nid.
Definition XcallTransactorSession_Initialize (s : XcallTransactorSession) (nid : string) := XcallTransactor_Initialize (XcallTransactorSession_Contract s) (XcallTransactorSession_TransactOpts s) nid.

Definition XcallTransactor_SendCallMessage (c : XcallTransactor) (opts : TransactOpts) (to : string) (data : string) (rollback : string) : res string :=
  bc_Transact (XcallTransactor_contract c) opts "sendCallMessage" [VString to; VBytes data; VBytes rollback].
Definition XcallSession_SendCallMessage (s : XcallSession) (to : string) (data : string) (rollback : string) := XcallTransactor_SendCallMessage (Xcall_Transactor (XcallSession_Contract s)) (XcallSession_TransactOpts s) to data rollback.
Definition XcallTransactorSession_SendCallMessage (s : XcallTransactorSession) (to : string) (data : string) (rollback : string) := XcallTransactor_SendCallMessage (XcallTransactorSession_Contract s) (XcallTransactorSession_TransactOpts s) to data rollback.

Definition XcallTransactor_SendCallMessage0 (c : XcallTransactor) (opts : TransactOpts) (to : string) (data : string) (rollback : string) (sources : list string) (destinations : list string) : res string :=
  bc_Transact (XcallTransactor_contract c) opts "sendCallMessage0" [VString to; VBytes data; VBytes rollback; VStrings sources; VStrings destinations].
Definition XcallSession_SendCallMessage0 (s : XcallSession) (to : string) (data : string) (rollback : string) (sources : list string) (destinations : list string) := XcallTransactor_SendCallMessage0 (Xcall_Transactor (XcallSession_Contract s)) (XcallSession_TransactOpts s) to data rollback sources destinations.
Definition XcallTransactorSession_SendCallMessage0 (s : XcallTransactorSession) (to : string) (data : string) (rollback : string) (sources : list string) (destinations : list string) := XcallTransactor_SendCallMessage0 (XcallTransactorSession_Contract s) (XcallTransactorSession_TransactOpts s) to data rollback sources destinations.

Definition XcallTransactor_SetAdmin (c : XcallTransactor) (opts : TransactOpts) (address : string) : res string :=
  bc_Transact (XcallTransactor_contract c) opts "setAdmin" [VAddress address].
Definition XcallSession_SetAdmin (s : XcallSession) (address : string) := XcallTransactor_SetAdmin (Xcall_Transactor (XcallSession_Contract s)) (XcallSession_TransactOpts s) address.
Definition XcallTransactorSession_SetAdmin (s : XcallTransactorSession) (address : string) := XcallTransactor_SetAdmin (XcallTransactorSession_Contract s) (XcallTransactorSession_TransactOpts s) address.

Definition XcallTransactor_SetDefaultConnection (c : XcallTransactor) (opts : TransactOpts) (nid : string) (connection : string) : res string :=
  bc_Transact (XcallTransactor_contract c) opts "setDefaultConnection" [VString nid; VAddress connection].
Definition XcallSession_SetDefaultConnection (s : XcallSession) (nid : string) (connection : string) := XcallTransactor_SetDefaultConnection (Xcall_Transactor (XcallSession_Contract s)) (XcallSession_TransactOpts s) nid connection.
Definition XcallTransactorSession_SetDefaultConnection (s : XcallTransactorSession) (nid : string) (connection : string) := XcallTransactor_SetDefaultConnection (XcallTransactorSession_Contract s) (XcallTransactorSession_TransactOpts s) nid connection.

Definition XcallTransactor_SetProtocolFee (c : XcallTransactor) (opts : TransactOpts) (value : option Z) : res string :=
  bc_Transact (XcallTransactor_contract c) opts "setProtocolFee" [VBig value].
Definition XcallSession_SetProtocolFee (s : XcallSession) (value : option Z) := XcallTransactor_SetProtocolFee (Xcall_Transactor (XcallSession_Contract s)) (XcallSession_TransactOpts s) value.
Definition XcallTransactorSession_SetProtocolFee (s : XcallTransactorSession) (value : option Z) := XcallTransactor_SetProtocolFee (XcallTransactorSession_Contract s) (XcallTransactorSession_TransactOpts s) value.

Definition XcallTransactor_SetProtocolFeeHandler (c : XcallTransactor) (opts : TransactOpts) (addr : string) : res string :=
  bc_Transact (XcallTransactor_contract c) opts "setProtocolFeeHandler" [VAddress addr].
Definition XcallSession_SetProtocolFeeHandler (s : XcallSession) (addr : string) := XcallTransactor_SetProtocolFeeHandler (Xcall_Transactor (XcallSession_Contract s)) (XcallSession_TransactOpts s) addr.
Definition XcallTransactorSession_SetProtocolFeeHandler (s : XcallTransactorSession) (addr : string) := XcallTransactor_SetProtocolFeeHandler (XcallTransactorSession_Contract s) (XcallTransactorSession_TransactOpts s) addr.

Definition XcallTransactor_TryHandleCallMessage (c : XcallTransactor) (opts : TransactOpts) (toAddr : string) (to : string) (from : string) (data : string) (protocols : list string) : res string :=
  bc_Transact (XcallTransactor_contract c) opts "tryHandleCallMessage" [VAddress toAddr; VString to; VString from; VBytes data; VStrings protocols].
Definition XcallSession_TryHandleCallMessage (s : XcallSession) (toAddr : string) (to : string) (from : string) (data : string) (protocols : list string) := XcallTransactor_TryHandleCallMessage (Xcall_Transactor (XcallSession_Contract s)) (XcallSession_TransactOpts s) toAddr to from data protocols.
Definition XcallTransactorSession_TryHandleCallMessage (s : XcallTransactorSession) (toAddr : string) (to : string) (from : string) (data : string) (protocols : list string) := XcallTransactor_TryHandleCallMessage (XcallTransactorSession_Contract s) (XcallTransactorSession_TransactOpts s) toAddr to from data protocols.

(** * Events *)

(** ** CallExecuted *)

Record XcallCallExecuted := mkXcallCallExecuted { XcallCallExecuted_ReqId : option Z; XcallCallExecuted_Code : option Z; XcallCallExecuted_Msg : string; XcallCallExecuted_Raw : Evm.Log }.
Definition XcallCallExecuted_of (vs : list AbiValue) (raw : Evm.Log) : option XcallCallExecuted :=
  match vs with [VBig ReqId; VBig Code; VString Msg] => Some (mkXcallCallExecuted ReqId Code Msg raw) | _ => None end.
Definition XcallCallExecutedIterator := (Iterator (E := XcallCallExecuted) (CallOpts := CallOpts) (TransactOpts := TransactOpts) (FilterOpts := FilterOpts) (WatchOpts := WatchOpts)).
Definition XcallCallExecutedIterator_Next (pick : bool) (it : XcallCallExecutedIterator) : option (XcallCallExecutedIterator * bool) := Next XcallCallExecuted_of pick it.
Definition XcallCallExecutedIterator_Error (it : XcallCallExecutedIterator) : error := Iterator_Error it.
Definition XcallCallExecutedIterator_Close (it : XcallCallExecutedIterator) : XcallCallExecutedIterator * error := Iterator_Close it.
Definition XcallFilterer_FilterCallExecuted (c : XcallFilterer) (opts : FilterOpts) (reqId : list (option Z)) : res XcallCallExecutedIterator :=
  stream ← bc_FilterLogs (XcallFilterer_contract c) opts "CallExecuted" [rule VBig reqId];
  Ok (new_Iterator (XcallFilterer_contract c) "CallExecuted" stream).
Definition XcallFilterer_WatchCallExecuted (c : XcallFilterer) (opts : WatchOpts) (reqId : list (option Z)) : res (Watching (E := XcallCallExecuted)) :=
  stream ← bc_WatchLogs (XcallFilterer_contract c) opts "CallExecuted" [rule VBig reqId];
  Ok (new_Watching (XcallFilterer_contract c) "CallExecuted" stream).
Definition XcallFilterer_WatchCallExecuted_step (e : watch_event) (w : Watching (E := XcallCallExecuted)) : option (Watching (E := XcallCallExecuted)) :=
  watch_step (CallOpts := CallOpts) (TransactOpts := TransactOpts) (FilterOpts := FilterOpts) (WatchOpts := WatchOpts) XcallCallExecuted_of e w.
Definition XcallFilterer_ParseCallExecuted (c : XcallFilterer) (log : Evm.Log) : res XcallCallExecuted := unpack XcallCallExecuted_of (XcallFilterer_contract c) "CallExecuted" log.

(** ** CallMessage *)

Record XcallCallMessage := mkXcallCallMessage { XcallCallMessage_From : string; XcallCallMessage_To : string; XcallCallMessage_Sn : option Z; XcallCallMessage_ReqId : option Z; XcallCallMessage_Data : string; XcallCallMessage_Raw : Evm.Log }.
Definition XcallCallMessage_of (vs : list AbiValue) (raw : Evm.Log) : option XcallCallMessage :=
  match vs with [VHash From; VHash To; VBig Sn; VBig ReqId; VBytes Data] => Some (mkXcallCallMessage From To Sn ReqId Data raw) | _ => None end.
Definition XcallCallMessageIterator := (Iterator (E := XcallCallMessage) (CallOpts := CallOpts) (TransactOpts := TransactOpts) (FilterOpts := FilterOpts) (WatchOpts := WatchOpts)).
Definition XcallCallMessageIterator_Next (pick : bool) (it : XcallCallMessageIterator) : option (XcallCallMessageIterator * bool) := Next XcallCallMessage_of pick it.
Definition XcallCallMessageIterator_Error (it : XcallCallMessageIterator) : error := Iterator_Error it.
Definition XcallCallMessageIterator_Close (it : XcallCallMessageIterator) : XcallCallMessageIterator * error := Iterator_Close it.
Definition XcallFilterer_FilterCallMessage (c : XcallFilterer) (opts : FilterOpts) (from : list string) (to : list string) (sn : list (option Z)) : res XcallCallMessageIterator :=
  stream ← bc_FilterLogs (XcallFilterer_contract c) opts "CallMessage" [rule VString from; rule VString to; rule VBig sn];
  Ok (new_Iterator (XcallFilterer_contract c) "CallMessage" stream).
Definition XcallFilterer_WatchCallMessage (c : XcallFilterer) (opts : WatchOpts) (from : list string) (to : list string) (sn : list (option Z)) : res (Watching (E := XcallCallMessage)) :=
  stream ← bc_WatchLogs (XcallFilterer_contract c) opts "CallMessage" [rule VString from; rule VString to; rule VBig sn];
  Ok (new_Watching (XcallFilterer_contract c) "CallMessage" stream).
Definition XcallFilterer_WatchCallMessage_step (e : watch_event) (w : Watching (E := XcallCallMessage)) : option (Watching (E := XcallCallMessage)) :=
  watch_step (CallOpts := CallOpts) (TransactOpts := TransactOpts) (FilterOpts := FilterOpts) (WatchOpts := WatchOpts) XcallCallMessage_of e w.
Definition XcallFilterer_ParseCallMessage (c : XcallFilterer) (log : Evm.Log) : res XcallCallMessage := unpack XcallCallMessage_of (XcallFilterer_contract c) "CallMessage" log.

(** ** CallMessageSent *)

Record XcallCallMessageSent := mkXcallCallMessageSent { XcallCallMessageSent_From : string; XcallCallMessageSent_To : string; XcallCallMessageSent_Sn : option Z; XcallCallMessageSent_Raw : Evm.Log }.
Definition XcallCallMessageSent_of (vs : list AbiValue) (raw : Evm.Log) : option XcallCallMessageSent :=
  match vs with [VAddress From; VHash To; VBig Sn] => Some (mkXcallCallMessageSent From To Sn raw) | _ => None end.
Definition XcallCallMessageSentIterator := (Iterator (E := XcallCallMessageSent) (CallOpts := CallOpts) (TransactOpts := TransactOpts) (FilterOpts := FilterOpts) (WatchOpts := WatchOpts)).
Definition XcallCallMessageSentIterator_Next (pick : bool) (it : XcallCallMessageSentIterator) : option (XcallCallMessageSentIterator * bool) := Next XcallCallMessageSent_of pick it.
Definition XcallCallMessageSentIterator_Error (it : XcallCallMessageSentIterator) : error := Iterator_Error it.
Definition XcallCallMessageSentIterator_Close (it : XcallCallMessageSentIterator) : XcallCallMessageSentIterator * error := Iterator_Close it.
Definition XcallFilterer_FilterCallMessageSent (c : XcallFilterer) (opts : FilterOpts) (from : list string) (to : list string) (sn : list (option Z)) : res XcallCallMessageSentIterator :=
  stream ← bc_FilterLogs (XcallFilterer_contract c) opts "CallMessageSent" [rule VAddress from; rule VString to; rule VBig sn];
  Ok (new_Iterator (XcallFilterer_contract c) "CallMessageSent" stream).
Definition XcallFilterer_WatchCallMessageSent (c : XcallFilterer) (opts : WatchOpts) (from : list string) (to : list string) (sn : list (option Z)) : res (Watching (E := XcallCallMessageSent)) :=
  stream ← bc_WatchLogs (XcallFilterer_contract c) opts "CallMessageSent" [rule VAddress from; rule VString to; rule VBig sn];
  Ok (new_Watching (XcallFilterer_contract c) "CallMessageSent" stream).
Definition XcallFilterer_WatchCallMessageSent_step (e : watch_event) (w : Watching (E := XcallCallMessageSent)) : option (Watching (E := XcallCallMessageSent)) :=
  watch_step (CallOpts := CallOpts) (TransactOpts := TransactOpts) (FilterOpts := FilterOpts) (WatchOpts := WatchOpts) XcallCallMessageSent_of e w.
Definition XcallFilterer_ParseCallMessageSent (c : XcallFilterer) (log : Evm.Log) : res XcallCallMessageSent := unpack XcallCallMessageSent_of (XcallFilterer_contract c) "CallMessageSent" log.

(** ** Initialized *)

Record XcallInitialized := mkXcallInitialized { XcallInitialized_Version : Z; XcallInitialized_Raw : Evm.Log }.
Definition XcallInitialized_of (vs : list AbiValue) (raw : Evm.Log) : option XcallInitialized :=
  match vs with [VUint8 Version] => Some (mkXcallInitialized Version raw) | _ => None end.
Definition XcallInitializedIterator := (Iterator (E := XcallInitialized) (CallOpts := CallOpts) (TransactOpts := TransactOpts) (FilterOpts := FilterOpts) (WatchOpts := WatchOpts)).
Definition XcallInitializedIterator_Next (pick : bool) (it : XcallInitializedIterator) : option (XcallInitializedIterator * bool) := Next XcallInitialized_of pick it.
Definition XcallInitializedIterator_Error (it : XcallInitializedIterator) : error := Iterator_Error it.
Definition XcallInitializedIterator_Close (it : XcallInitializedIterator) : XcallInitializedIterator * error := Iterator_Close it.
Definition XcallFilterer_FilterInitialized (c : XcallFilterer) (opts : FilterOpts) : res XcallInitializedIterator :=
  stream ← bc_FilterLogs (XcallFilterer_contract c) opts "Initialized" [];
  Ok (new_Iterator (XcallFilterer_contract c) "Initialized" stream).
Definition XcallFilterer_WatchInitialized (c : XcallFilterer) (opts : WatchOpts) : res (Watching (E := XcallInitialized)) :=
  stream ← bc_WatchLogs (XcallFilterer_contract c) opts "Initialized" [];
  Ok (new_Watching (XcallFilterer_contract c) "Initialized" stream).
Definition XcallFilterer_WatchInitialized_step (e : watch_event) (w : Watching (E := XcallInitialized)) : option (Watching (E := XcallInitialized)) :=
  watch_step (CallOpts := CallOpts) (TransactOpts := TransactOpts) (FilterOpts := FilterOpts) (WatchOpts := WatchOpts) XcallInitialized_of e w.
Definition XcallFilterer_ParseInitialized (c : XcallFilterer) (log : Evm.Log) : res XcallInitialized := unpack XcallInitialized_of (XcallFilterer_contract c) "Initialized" log.

(** ** ResponseMessage *)

Record XcallResponseMessage := mkXcallResponseMessage { XcallResponseMessage_Sn : option Z; XcallResponseMessage_Code : option Z; XcallResponseMessage_Raw : Evm.Log }.
Definition XcallResponseMessage_of (vs : list AbiValue) (raw : Evm.Log) : option XcallResponseMessage :=
  match vs with [VBig Sn; VBig Code] => Some (mkXcallResponseMessage Sn Code raw) | _ => None end.
Definition XcallResponseMessageIterator := (Iterator (E := XcallResponseMessage) (CallOpts := CallOpts) (TransactOpts := TransactOpts) (FilterOpts := FilterOpts) (WatchOpts := WatchOpts)).
Definition XcallResponseMessageIterator_Next (pick : bool) (it : XcallResponseMessageIterator) : option (XcallResponseMessageIterator * bool) := Next XcallResponseMessage_of pick it.
Definition XcallResponseMessageIterator_Error (it : XcallResponseMessageIterator) : error := Iterator_Error it.
Definition XcallResponseMessageIterator_Close (it : XcallResponseMessageIterator) : XcallResponseMessageIterator * error := Iterator_Close it.
Definition XcallFilterer_FilterResponseMessage (c : XcallFilterer) (opts : FilterOpts) (sn : list (option Z)) : res XcallResponseMessageIterator :=
  stream ← bc_FilterLogs (XcallFilterer_contract c) opts "ResponseMessage" [rule VBig sn];
  Ok (new_Iterator (XcallFilterer_contract c) "ResponseMessage" stream).
Definition XcallFilterer_WatchResponseMessage (c : XcallFilterer) (opts : WatchOpts) (sn : list (option Z)) : res (Watching (E := XcallResponseMessage)) :=
  stream ← bc_WatchLogs (XcallFilterer_contract c) opts "ResponseMessage" [rule VBig sn];
  Ok (new_Watching (XcallFilterer_contract c) "ResponseMessage" stream).
Definition XcallFilterer_WatchResponseMessage_step (e : watch_event) (w : Watching (E := XcallResponseMessage)) : option (Watching (E := XcallResponseMessage)) :=
  watch_step (CallOpts := CallOpts) (TransactOpts := TransactOpts) (FilterOpts := FilterOpts) (WatchOpts := WatchOpts) XcallResponseMessage_of e w.
Definition XcallFilterer_ParseResponseMessage (c : XcallFilterer) (log : Evm.Log) : res XcallResponseMessage := unpack XcallResponseMessage_of (XcallFilterer_contract c) "ResponseMessage" log.

(** ** RollbackExecuted *)

Record XcallRollbackExecuted := mkXcallRollbackExecuted { XcallRollbackExecuted_Sn : option Z; XcallRollbackExecuted_Raw : Evm.Log }.
Definition XcallRollbackExecuted_of (vs : list AbiValue) (raw : Evm.Log) : option XcallRollbackExecuted :=
  match vs with [VBig Sn] => Some (mkXcallRollbackExecuted Sn raw) | _ => None end.
Definition XcallRollbackExecutedIterator := (Iterator (E := XcallRollbackExecuted) (CallOpts := CallOpts) (TransactOpts := TransactOpts) (FilterOpts := FilterOpts) (WatchOpts := WatchOpts)).
Definition XcallRollbackExecutedIterator_Next (pick : bool) (it : XcallRollbackExecutedIterator) : option (XcallRollbackExecutedIterator * bool) := Next XcallRollbackExecuted_of pick it.
Definition XcallRollbackExecutedIterator_Error (it : XcallRollbackExecutedIterator) : error := Iterator_Error it.
Definition XcallRollbackExecutedIterator_Close (it : XcallRollbackExecutedIterator) : XcallRollbackExecutedIterator * error := Iterator_Close it.
Definition XcallFilterer_FilterRollbackExecuted (c : XcallFilterer) (opts : FilterOpts) (sn : list (option Z)) : res XcallRollbackExecutedIterator :=
  stream ← bc_FilterLogs (XcallFilterer_contract c) opts "RollbackExecuted" [rule VBig sn];
  Ok (new_Iterator (XcallFilterer_contract c) "RollbackExecuted" stream).
Definition XcallFilterer_WatchRollbackExecuted (c : XcallFilterer) (opts : WatchOpts) (sn : list (option Z)) : res (Watching (E := XcallRollbackExecuted)) :=
  stream ← bc_WatchLogs (XcallFilterer_contract c) opts "RollbackExecuted" [rule VBig sn];
  Ok (new_Watching (XcallFilterer_contract c) "RollbackExecuted" stream).
Definition XcallFilterer_WatchRollbackExecuted_step (e : watch_event) (w : Watching (E := XcallRollbackExecuted)) : option (Watching (E := XcallRollbackExecuted)) :=
  watch_step (CallOpts := CallOpts) (TransactOpts := TransactOpts) (FilterOpts := FilterOpts) (WatchOpts := WatchOpts) XcallRollbackExecuted_of e w.
Definition XcallFilterer_ParseRollbackExecuted (c : XcallFilterer) (log : Evm.Log) : res XcallRollbackExecuted := unpack XcallRollbackExecuted_of (XcallFilterer_contract c) "RollbackExecuted" log.

(** ** RollbackMessage *)

Record XcallRollbackMessage := mkXcallRollbackMessage { XcallRollbackMessage_Sn : option Z; XcallRollbackMessage_Raw : Evm.Log }.
Definition XcallRollbackMessage_of (vs : list AbiValue) (raw : Evm.Log) : option XcallRollbackMessage :=
  match vs with [VBig Sn] => Some (mkXcallRollbackMessage Sn raw) | _ => None end.
Definition XcallRollbackMessageIterator := (Iterator (E := XcallRollbackMessage) (CallOpts := CallOpts) (TransactOpts := TransactOpts) (FilterOpts := FilterOpts) (WatchOpts := WatchOpts)).
Definition XcallRollbackMessageIterator_Next (pick : bool) (it : XcallRollbackMessageIterator) : option (XcallRollbackMessageIterator * bool) := Next XcallRollbackMessage_of pick it.
Definition XcallRollbackMessageIterator_Error (it : XcallRollbackMessageIterator) : error := Iterator_Error it.
Definition XcallRollbackMessageIterator_Close (it : XcallRollbackMessageIterator) : XcallRollbackMessageIterator * error := Iterator_Close it.
Definition XcallFilterer_FilterRollbackMessage (c : XcallFilterer) (opts : FilterOpts) (sn : list (option Z)) : res XcallRollbackMessageIterator :=
  stream ← bc_FilterLogs (XcallFilterer_contract c) opts "RollbackMessage" [rule VBig sn];
  Ok (new_Iterator (XcallFilterer_contract c) "RollbackMessage" stream).
Definition XcallFilterer_WatchRollbackMessage (c : XcallFilterer) (opts : WatchOpts) (sn : list (option Z)) : res (Watching (E := XcallRollbackMessage)) :=
  stream ← bc_WatchLogs (XcallFilterer_contract c) opts "RollbackMessage" [rule VBig sn];
  Ok (new_Watching (XcallFilterer_contract c) "RollbackMessage" stream).
Definition XcallFilterer_WatchRollbackMessage_step (e : watch_event) (w : Watching (E := XcallRollbackMessage)) : option (Watching (E := XcallRollbackMessage)) :=
  watch_step (CallOpts := CallOpts) (TransactOpts := TransactOpts) (FilterOpts := FilterOpts) (WatchOpts := WatchOpts) XcallRollbackMessage_of e w.
Definition XcallFilterer_ParseRollbackMessage (c : XcallFilterer) (log : Evm.Log) : res XcallRollbackMessage := unpack XcallRollbackMessage_of (XcallFilterer_contract c) "RollbackMessage" log.

End Xcall.
End XcallBinding.
