(* ===== verification/EvmBindings.v ===== *)
(** What the contract bindings promise, and the client of the EVM provider over
    them.

    The calls the bindings make fit the ABIs; the iterators give the logs in
    order and the watchers forward them in order, up to the first that does not
    unpack; the gas the provider estimates is that of the call it then sends. *)
From stdpp Require Import gmap strings list.
From Stdlib Require Import ZArith Lia.
From S2P Require Import Prelude GoStd Types Provider EvmNonce Evm EvmClient EvmAbi EvmConnection EvmXcall.
Import EvmAbi ConnectionBinding XcallBinding.
Open Scope Z_scope.

Module EvmBindings.

Section Bindings.
Context {CallOpts TransactOpts FilterOpts WatchOpts : Type}.
Abbreviation Bound := (BoundContract (CallOpts := CallOpts) (TransactOpts := TransactOpts) (FilterOpts := FilterOpts) (WatchOpts := WatchOpts)).
Implicit Types (c : Bound).

(** * Types *)

(** A contract that refuses what does not fit its ABI: arguments and outputs. *)
Definition outputs_fit (md : MetaData) (name : string) (out : list AbiValue) : bool :=
  match method_of md name with Some m => have_types (mt_Outputs m) out | None => false end.
Definition checked (md : MetaData) (c : Bound) : Bound := mkBoundContract
  (λ opts name args, if args_fit md name args then bc_Call c opts name args else Err "abi: argument")
  (λ opts name args, if args_fit md name args then bc_Transact c opts name args else Err "abi: argument")
  (bc_Transfer c) (bc_FilterLogs c) (bc_WatchLogs c) (bc_UnpackLog c).

(** The outputs of a call have the types of the ABI. *)
Definition outputs_typed (md : MetaData) (c : Bound) : Prop :=
  ∀ opts name args, bc_Call c opts name args ≠ Panic ∧
    ∀ out, bc_Call c opts name args = Ok out → outputs_fit md name out = true.

(** Every call that the two bindings make fits the ABI of its contract, in
    number and types of the arguments and under the name that the ABI files the
    method: a contract that checks them refuses none. *)
Theorem bindings_typed c :
  ConnectionTransactor_ClaimFees (mkConnectionTransactor (checked ConnectionMetaData c)) = ConnectionTransactor_ClaimFees (mkConnectionTransactor c) ∧
  ConnectionTransactor_Initialize (mkConnectionTransactor (checked ConnectionMetaData c)) = ConnectionTransactor_Initialize (mkConnectionTransactor c) ∧
  ConnectionTransactor_RecvMessage (mkConnectionTransactor (checked ConnectionMetaData c)) = ConnectionTransactor_RecvMessage (mkConnectionTransactor c) ∧
  ConnectionTransactor_RevertMessage (mkConnectionTransactor (checked ConnectionMetaData c)) = ConnectionTransactor_RevertMessage (mkConnectionTransactor c) ∧
  ConnectionTransactor_SendMessage (mkConnectionTransactor (checked ConnectionMetaData c)) = ConnectionTransactor_SendMessage (mkConnectionTransactor c) ∧
  ConnectionTransactor_SetAdmin (mkConnectionTransactor (checked ConnectionMetaData c)) = ConnectionTransactor_SetAdmin (mkConnectionTransactor c) ∧
  ConnectionTransactor_SetFee (mkConnectionTransactor (checked ConnectionMetaData c)) = ConnectionTransactor_SetFee (mkConnectionTransactor c) ∧
  XcallTransactor_ExecuteCall (mkXcallTransactor (checked XcallMetaData c)) = XcallTransactor_ExecuteCall (mkXcallTransactor c) ∧
  XcallTransactor_ExecuteRollback (mkXcallTransactor (checked XcallMetaData c)) = XcallTransactor_ExecuteRollback (mkXcallTransactor c) ∧
  XcallTransactor_HandleBTPError (mkXcallTransactor (checked XcallMetaData c)) = XcallTransactor_HandleBTPError (mkXcallTransactor c) ∧
  XcallTransactor_HandleBTPMessage (mkXcallTransactor (checked XcallMetaData c)) = XcallTransactor_HandleBTPMessage (mkXcallTransactor c) ∧
  XcallTransactor_HandleError (mkXcallTransactor (checked XcallMetaData c)) = XcallTransactor_HandleError (mkXcallTransactor c) ∧
  XcallTransactor_HandleMessage (mkXcallTransactor (checked XcallMetaData c)) = XcallTransactor_HandleMessage (mkXcallTransactor c) ∧
  XcallTransactor_Initialize (mkXcallTransactor (checked XcallMetaData c)) = XcallTransactor_Initialize (mkXcallTransactor c) ∧
  XcallTransactor_SendCallMessage (mkXcallTransactor (checked XcallMetaData c)) = XcallTransactor_SendCallMessage (mkXcallTransactor c) ∧
  XcallTransactor_SendCallMessage0 (mkXcallTransactor (checked XcallMetaData c)) = XcallTransactor_SendCallMessage0 (mkXcallTransactor c) ∧
  XcallTransactor_SetAdmin (mkXcallTransactor (checked XcallMetaData c)) = XcallTransactor_SetAdmin (mkXcallTransactor c) ∧
  XcallTransactor_SetDefaultConnection (mkXcallTransactor (checked XcallMetaData c)) = XcallTransactor_SetDefaultConnection (mkXcallTransactor c) ∧
  XcallTransactor_SetProtocolFee (mkXcallTransactor (checked XcallMetaData c)) = XcallTransactor_SetProtocolFee (mkXcallTransactor c) ∧
  XcallTransactor_SetProtocolFeeHandler (mkXcallTransactor (checked XcallMetaData c)) = XcallTransactor_SetProtocolFeeHandler (mkXcallTransactor c) ∧
  XcallTransactor_TryHandleCallMessage (mkXcallTransactor (checked XcallMetaData c)) = XcallTransactor_TryHandleCallMessage (mkXcallTransactor c) ∧
  ConnectionCaller_Admin (mkConnectionCaller (checked ConnectionMetaData c)) = ConnectionCaller_Admin (mkConnectionCaller c) ∧
  ConnectionCaller_ConnSn (mkConnectionCaller (checked ConnectionMetaData c)) = ConnectionCaller_ConnSn (mkConnectionCaller c) ∧
  ConnectionCaller_GetFee (mkConnectionCaller (checked ConnectionMetaData c)) = ConnectionCaller_GetFee (mkConnectionCaller c) ∧
  ConnectionCaller_GetReceipt (mkConnectionCaller (checked ConnectionMetaData c)) = ConnectionCaller_GetReceipt (mkConnectionCaller c) ∧
  XcallCaller_Admin (mkXcallCaller (checked XcallMetaData c)) = XcallCaller_Admin (mkXcallCaller c) ∧
  XcallCaller_GetDefaultConnection (mkXcallCaller (checked XcallMetaData c)) = XcallCaller_GetDefaultConnection (mkXcallCaller c) ∧
  XcallCaller_GetFee (mkXcallCaller (checked XcallMetaData c)) = XcallCaller_GetFee (mkXcallCaller c) ∧
  XcallCaller_GetFee0 (mkXcallCaller (checked XcallMetaData c)) = XcallCaller_GetFee0 (mkXcallCaller c) ∧
  XcallCaller_GetNetworkAddress (mkXcallCaller (checked XcallMetaData c)) = XcallCaller_GetNetworkAddress (mkXcallCaller c) ∧
  XcallCaller_GetNetworkId (mkXcallCaller (checked XcallMetaData c)) = XcallCaller_GetNetworkId (mkXcallCaller c) ∧
  XcallCaller_GetProtocolFee (mkXcallCaller (checked XcallMetaData c)) = XcallCaller_GetProtocolFee (mkXcallCaller c) ∧
  XcallCaller_GetProtocolFeeHandler (mkXcallCaller (checked XcallMetaData c)) = XcallCaller_GetProtocolFeeHandler (mkXcallCaller c) ∧
  XcallCaller_VerifySuccess (mkXcallCaller (checked XcallMetaData c)) = XcallCaller_VerifySuccess (mkXcallCaller c).
Proof. by repeat split. Qed.

(** What an ABI type promises of the Go value. *)
Lemma call_total {A} md (convert : AbiValue → option A) c opts name args m t :
  outputs_typed md c → method_of md name = Some m → mt_Outputs m = [t] →
  (∀ v, has_type t v = true → is_Some (convert v)) → call convert c opts name args ≠ Panic.
Proof.
  intros Hty Hm Ho Hc. unfold call. destruct (Hty opts name args) as [Hp Hout].
  destruct (bc_Call c opts name args) as [out| |]; cbn; [|done|done]. specialize (Hout out eq_refl).
  unfold outputs_fit in Hout. rewrite Hm, Ho in Hout. destruct out as [|v []]; cbn in *; try done.
  - rewrite andb_true_r in Hout. by destruct (Hc v Hout) as [a ->].
  - by rewrite andb_false_r in Hout.
Qed.

Lemma has_type_Address v : has_type AddressT v = true → is_Some (to_Address v).
Proof. by destruct v. Qed.
Lemma has_type_Big bits v : 64 < bits → has_type (UintT bits) v = true → is_Some (to_Big v).
Proof. destruct v; cbn; try done. lia. Qed.
Lemma has_type_Bool v : has_type BoolT v = true → is_Some (to_Bool v).
Proof. by destruct v. Qed.
Lemma has_type_String v : has_type StringT v = true → is_Some (to_String v).
Proof. by destruct v. Qed.

(** A call whose outputs have the types of the ABI never panics in the
    conversion of its result. *)
Lemma calls_convert c :
  (outputs_typed ConnectionMetaData c →
    (∀ o, ConnectionCaller_Admin (mkConnectionCaller c) o ≠ Panic) ∧
    (∀ o, ConnectionCaller_ConnSn (mkConnectionCaller c) o ≠ Panic) ∧
    (∀ o a b, ConnectionCaller_GetFee (mkConnectionCaller c) o a b ≠ Panic) ∧
    (∀ o a b, ConnectionCaller_GetReceipt (mkConnectionCaller c) o a b ≠ Panic)) ∧
  (outputs_typed XcallMetaData c →
    (∀ o, XcallCaller_Admin (mkXcallCaller c) o ≠ Panic) ∧
    (∀ o a, XcallCaller_GetDefaultConnection (mkXcallCaller c) o a ≠ Panic) ∧
    (∀ o a b d, XcallCaller_GetFee (mkXcallCaller c) o a b d ≠ Panic) ∧
    (∀ o a b, XcallCaller_GetFee0 (mkXcallCaller c) o a b ≠ Panic) ∧
    (∀ o, XcallCaller_GetNetworkAddress (mkXcallCaller c) o ≠ Panic) ∧
    (∀ o, XcallCaller_GetNetworkId (mkXcallCaller c) o ≠ Panic) ∧
    (∀ o, XcallCaller_GetProtocolFee (mkXcallCaller c) o ≠ Panic) ∧
    (∀ o, XcallCaller_GetProtocolFeeHandler (mkXcallCaller c) o ≠ Panic) ∧
    (∀ o a, XcallCaller_VerifySuccess (mkXcallCaller c) o a ≠ Panic)).
Proof.
  split; intros Hty; split_and!; intros; (eapply call_total; [exact Hty|reflexivity|reflexivity|]);
    first [exact has_type_Address|exact has_type_Bool|exact has_type_String|intros v; by apply has_type_Big].
Qed.

(** ** Events *)

Definition event_fits (md : MetaData) (name : string) (vs : list AbiValue) : bool :=
  match event_of md name with Some e => fields_fit (ev_Inputs e) vs | None => false end.

(** The struct of an event holds whatever the ABI lets the event hold. *)
Lemma events_fit vs raw :
  (event_fits ConnectionMetaData "Initialized" vs = true → is_Some (ConnectionInitialized_of vs raw)) ∧
  (event_fits ConnectionMetaData "Message" vs = true → is_Some (ConnectionMessage_of vs raw)) ∧
  (event_fits XcallMetaData "CallExecuted" vs = true → is_Some (XcallCallExecuted_of vs raw)) ∧
  (event_fits XcallMetaData "CallMessage" vs = true → is_Some (XcallCallMessage_of vs raw)) ∧
  (event_fits XcallMetaData "CallMessageSent" vs = true → is_Some (XcallCallMessageSent_of vs raw)) ∧
  (event_fits XcallMetaData "Initialized" vs = true → is_Some (XcallInitialized_of vs raw)) ∧
  (event_fits XcallMetaData "ResponseMessage" vs = true → is_Some (XcallResponseMessage_of vs raw)) ∧
  (event_fits XcallMetaData "RollbackExecuted" vs = true → is_Some (XcallRollbackExecuted_of vs raw)) ∧
  (event_fits XcallMetaData "RollbackMessage" vs = true → is_Some (XcallRollbackMessage_of vs raw)).
Proof.
  split_and!; intros Hf; repeat (destruct vs as [|[] vs]; try discriminate Hf); by eexists.
Qed.

(** * Iterators and watchers *)

Section Streams.
Context {E : Type} (of_values : list AbiValue → Evm.Log → option E).
Abbreviation unpack := (unpack of_values).

(** The reference: the events up to the first log that does not unpack, and its
    error. *)
Fixpoint unpack_all c (event : string) (logs : list Evm.Log) : list E * error :=
  match logs with
  | [] => ([], None)
  | log :: logs =>
      match unpack c event log with
      | Ok e => let '(l, err) := unpack_all c event logs in (e :: l, err)
      | r => ([], err_of r)
      end
  end.

Definition unpacks c (event : string) : Prop := ∀ log, bc_UnpackLog c event log ≠ Panic.

Lemma unpack_cases c event log : unpacks c event →
  (∃ e, unpack c event log = Ok e) ∨ (∃ err, unpack c event log = Err err).
Proof.
  intros Hu. unfold EvmAbi.unpack. specialize (Hu log). destruct (bc_UnpackLog c event log) as [vs|e|]; cbn; [|by right; exists e|done].
  destruct (of_values vs log) as [e|]; [left; by exists e|right; by eexists].
Qed.

(** The logs that still wait, once the subscription has ended without error. *)
Lemma iterate_done fuel picks it :
  unpacks (it_contract it) (it_event it) → it_fail it = None → it_done it = true →
  (length (st_logs (it_stream it)) < fuel)%nat →
  ∃ it', iterate of_values fuel picks it =
      Some ((unpack_all (it_contract it) (it_event it) (st_logs (it_stream it))).1, it') ∧
    it_fail it' = (unpack_all (it_contract it) (it_event it) (st_logs (it_stream it))).2.
Proof.
  intros Hu. revert picks it Hu. induction fuel as [|fuel IH]; intros picks [ev c event [logs err u] dn fl] Hu; cbn in *; [lia|].
  intros -> -> Hlt. destruct logs as [|log logs]; cbn; [by eexists|]. unfold Next_log; cbn.
  destruct (unpack_cases c event log Hu) as [[e He]|[e He]]; rewrite He; cbn; [|by eexists].
  destruct (IH (picks ∘ S) (mkIterator (Some e) c event (mkStream logs err u) true None)) as (it' & Hit & Hf); [done..|cbn in *; lia|].
  cbn in *. rewrite Hit. destruct (unpack_all c event logs) as [l e']. by eexists.
Qed.

(** One more [Next], once the [select] took the log. *)
Lemma iterate_cons fuel picks c event log logs end_ ev e :
  unpack c event log = Ok e → picks O = true →
  iterate of_values (S fuel) picks (mkIterator ev c event (mkStream (log :: logs) (Some end_) false) false None) =
  match iterate of_values fuel (picks ∘ S) (mkIterator (Some e) c event (mkStream logs (Some end_) false) false None) with
  | Some (l, it') => Some (e :: l, it')
  | None => None
  end.
Proof. intros He Hp. cbn [iterate]. unfold Next; cbn. rewrite Hp. unfold Next_log; cbn. by rewrite He. Qed.

Lemma iterate_stop fuel picks c event log logs end_ ev e :
  unpack c event log = Err e → picks O = true →
  ∃ it', iterate of_values (S fuel) picks (mkIterator ev c event (mkStream (log :: logs) (Some end_) false) false None) = Some ([], it') ∧
    it_fail it' = Some e.
Proof. intros He Hp. cbn [iterate]. unfold Next; cbn. rewrite Hp. unfold Next_log; cbn. rewrite He. by eexists. Qed.

Lemma iterate_ended c event logs picks ev : unpacks c event →
  ∃ it', iterate of_values (S (length logs)) picks (mkIterator ev c event (mkStream logs (Some None) false) false None) =
      Some ((unpack_all c event logs).1, it') ∧ it_fail it' = (unpack_all c event logs).2.
Proof.
  intros Hu. revert picks ev. induction logs as [|log logs IH]; intros picks ev; [by eexists|].
  destruct (picks O) eqn:Hp.
  - destruct (unpack_cases c event log Hu) as [[e He]|[e He]].
    + cbn [length]. rewrite (iterate_cons _ _ _ _ _ _ _ _ _ He Hp). destruct (IH (picks ∘ S) (Some e)) as (it' & -> & Hf).
      cbn [unpack_all]. rewrite He. destruct (unpack_all c event logs). by eexists.
    + destruct (iterate_stop (length (log :: logs)) picks c event log logs None ev e He Hp) as (it' & -> & Hf).
      cbn [unpack_all]. rewrite He. by eexists.
  - set (it := mkIterator ev c event (mkStream (log :: logs) (Some None) false) true None).
    assert (iterate of_values (S (length (log :: logs))) picks
      (mkIterator ev c event (mkStream (log :: logs) (Some None) false) false None) =
      iterate of_values (S (length (log :: logs))) picks it) as ->.
    { cbn [iterate]. unfold Next; cbn. by rewrite Hp. }
    by apply iterate_done; cbn; [| | |lia].
Qed.

Lemma iterate_failed c event logs picks ev err : unpacks c event →
  ∃ it' l, iterate of_values (S (length logs)) picks (mkIterator ev c event (mkStream logs (Some (Some err)) false) false None) = Some (l, it') ∧
    (∃ n, l = take n (unpack_all c event logs).1) ∧
    (it_fail it' = Some err ∨ l = (unpack_all c event logs).1 ∧ it_fail it' = (unpack_all c event logs).2 ∧ it_fail it' ≠ None).
Proof.
  intros Hu. revert picks ev. induction logs as [|log logs IH]; intros picks ev.
  { eexists _, []. split; [done|]. split; [by exists O|by left]. }
  destruct (picks O) eqn:Hp.
  - destruct (unpack_cases c event log Hu) as [[e He]|[e He]]; cbn [unpack_all]; rewrite He.
    + cbn [length]. rewrite (iterate_cons _ _ _ _ _ _ _ _ _ He Hp).
      destruct (IH (picks ∘ S) (Some e)) as (it' & l & -> & [n ->] & Hf). destruct (unpack_all c event logs) as [all err'].
      eexists _, _. split; [done|]. split; [by exists (S n)|]. destruct Hf as [?|(Hl & ? & ?)]; [by left|right]. cbn in *. by rewrite Hl.
    + destruct (iterate_stop (length (log :: logs)) picks c event log logs (Some err) ev e He Hp) as (it' & Hit & Hf).
      exists it', []. split; [exact Hit|]. split; [by exists O|]. right. by rewrite Hf.
  - cbn [iterate]. unfold Next; cbn. rewrite Hp. eexists _, []. split; [done|]. split; [by exists O|by left].
Qed.

(** An iterator over past logs always ends.  When the subscription ended
    without error it gives the events of all logs in order, up to the first that
    does not unpack, whose error it keeps, whichever the [select] takes first.
    When it ended with an error the events are the first few of those, and
    [Error] tells; and they may be none at all though every log had arrived. *)
Theorem iterator_gives_logs c event logs picks (Hu : unpacks c event) :
  let it end_ := new_Iterator c event (mkStream logs (Some end_) false) in
  let ref := unpack_all c event logs in
  (∃ it', iterate of_values (S (length logs)) picks (it None) = Some (ref.1, it') ∧ it_fail it' = ref.2) ∧
  ∀ err,
    (∃ it' n, iterate of_values (S (length logs)) picks (it (Some err)) = Some (take n ref.1, it') ∧ it_fail it' ≠ None) ∧
    (picks O = false → ∃ it', iterate of_values (S (length logs)) picks (it (Some err)) = Some ([], it') ∧ it_fail it' = Some err).
Proof.
  cbn zeta. unfold new_Iterator. split; [by apply iterate_ended|]. intros err. split.
  - destruct (iterate_failed c event logs picks None err Hu) as (it' & l & Hit & [n ->] & Hf). exists it', n.
    split; [done|]. destruct Hf as [->|(_ & _ & ?)]; done.
  - intros Hp. cbn [iterate]. unfold Next; cbn. destruct logs; [|rewrite Hp]; by eexists.
Qed.

(** ** Watching *)

Lemma unpack_all_snoc c event logs log l : unpacks c event →
  unpack_all c event logs = (l, None) →
  unpack_all c event (logs ++ [log]) =
  match unpack c event log with Ok e => (l ++ [e], None) | r => (l, err_of r) end.
Proof.
  intros Hu. revert l. induction logs as [|x logs IH]; intros l; cbn.
  { intros [= <-]. by destruct (unpack c event log). }
  destruct (unpack_cases c event x Hu) as [[e ->]|[e ->]]; [|done].
  destruct (unpack_all c event logs) as [l' err']. intros [= <- ->]. rewrite (IH l' eq_refl).
  by destruct (unpack c event log).
Qed.

Definition arrived (l : list watch_event) : list Evm.Log :=
  omap (λ e, match e with WArrive log => Some log | _ => None end) l.

(** The sink has what was taken from the channel, less the event that is on its
    way, or was when the goroutine returned. *)
Definition forwarded (w : Watching (E := E)) (taken : list Evm.Log) : Prop :=
  let got := unpack_all (wt_contract w) (wt_event w) taken in
  match wt_phase w with
  | WSelecting => got = (wt_sink w, None)
  | WSending e => got = (wt_sink w ++ [e], None)
  | WReturned err => st_unsubscribed (wt_stream w) = true ∧
      ((got = (wt_sink w, err) ∧ err ≠ None) ∨ ∃ lost, got = (wt_sink w ++ lost, None) ∧ (length lost ≤ 1)%nat)
  end.

Lemma forwarded_return err w taken l :
  unpack_all (wt_contract w) (wt_event w) taken = (wt_sink w ++ l, None) → (length l ≤ 1)%nat →
  forwarded (watch_return err w) taken.
Proof. intros Hg Hl. split; [done|]. right. by exists l. Qed.

Lemma watch_step_forwarded e w w' all :
  unpacks (wt_contract w) (wt_event w) → watch_step of_values e w = Some w' →
  (∃ taken, all = taken ++ st_logs (wt_stream w) ∧ forwarded w taken) →
  wt_contract w' = wt_contract w ∧ wt_event w' = wt_event w ∧
  ∃ taken, all ++ arrived [e] = taken ++ st_logs (wt_stream w') ∧ forwarded w' taken.
Proof.
  intros Hu Hs (taken & -> & Hf). destruct w as [c event [logs err u] phase sink]. cbn in Hu.
  destruct e as [| | | |log|err']; cbn in Hs |- *; rewrite ?app_nil_r.
  - destruct phase; try done. destruct logs as [|log logs]; [done|].
    cbn in Hf. pose proof (unpack_all_snoc c event taken log sink Hu Hf) as Hsn.
    destruct (unpack_cases c event log Hu) as [[e He]|[e He]]; rewrite He in Hs, Hsn; injection Hs as <-;
      (split_and!; [done..|]; exists (taken ++ [log]); split; [by rewrite <-app_assoc|]; cbn; rewrite Hsn).
    + done.
    + split; [done|]. by left.
  - destruct phase; try done. injection Hs as <-. split_and!; [done..|]. by exists taken.
  - destruct phase, err; try done; injection Hs as <-; split_and!; try done; exists taken; (split; [done|]).
    + apply (forwarded_return _ _ _ []); [cbn in *; by rewrite app_nil_r|cbn; lia].
    + apply (forwarded_return _ _ _ [e]); [exact Hf|cbn; lia].
  - destruct phase; try done; injection Hs as <-; split_and!; try done; exists taken; (split; [done|]).
    + apply (forwarded_return _ _ _ []); [cbn in *; by rewrite app_nil_r|cbn; lia].
    + apply (forwarded_return _ _ _ [e]); [exact Hf|cbn; lia].
  - injection Hs as <-. split_and!; [done..|]. exists taken. cbn. split; [by rewrite app_assoc|]. by destruct phase.
  - injection Hs as <-. split_and!; [done..|]. exists taken. split; [done|]. by destruct phase.
Qed.

Lemma watch_run_forwarded l w w' all :
  unpacks (wt_contract w) (wt_event w) → watch_run of_values l w = Some w' →
  (∃ taken, all = taken ++ st_logs (wt_stream w) ∧ forwarded w taken) →
  wt_contract w' = wt_contract w ∧ wt_event w' = wt_event w ∧
  ∃ taken, all ++ arrived l = taken ++ st_logs (wt_stream w') ∧ forwarded w' taken.
Proof.
  revert w all. induction l as [|e l IH]; intros w all Hu; cbn [watch_run].
  { intros [= <-]. by rewrite app_nil_r. }
  destruct (watch_step of_values e w) as [w1|] eqn:Hs; [|done]. cbn. intros Hl Hf.
  destruct (watch_step_forwarded e w w1 all Hu Hs Hf) as (Hc & He & Hf1).
  destruct (IH w1 (all ++ arrived [e])) as (Hc' & He' & taken & Heq & Hw'); [by rewrite Hc, He|done|done|].
  split_and!; [by rewrite Hc'|by rewrite He'|].
  exists taken. split; [|done]. rewrite <-Heq, <-app_assoc. f_equal.
  by destruct e.
Qed.

(** A watcher forwards the events of the logs in the order they arrive, and
    loses none: at any moment the sink has those of all logs it has taken from
    the channel, less at most the one it is sending.  It returns with the error
    of the first log that does not unpack, or when the subscription ends or it
    is told to quit, and always gives up the subscription. *)
Theorem watcher_forwards c event logs end_ l w
  (Hu : unpacks c event)
  (Hrun : watch_run of_values l (new_Watching c event (mkStream logs end_ false)) = Some w) :
  ∃ taken, logs ++ arrived l = taken ++ st_logs (wt_stream w) ∧
    match wt_phase w with
    | WSelecting => unpack_all c event taken = (wt_sink w, None)
    | WSending e => unpack_all c event taken = (wt_sink w ++ [e], None)
    | WReturned err => st_unsubscribed (wt_stream w) = true ∧
        ((unpack_all c event taken = (wt_sink w, err) ∧ err ≠ None) ∨
         ∃ lost, unpack_all c event taken = (wt_sink w ++ lost, None) ∧ (length lost ≤ 1)%nat)
    end.
Proof.
  destruct (watch_run_forwarded l (new_Watching c event (mkStream logs end_ false)) w logs Hu Hrun) as (Hc & He & taken & Heq & Hf);
    [by exists []|]. exists taken. split; [done|]. unfold forwarded in Hf. by rewrite Hc, He in Hf.
Qed.
End Streams.

(** * The provider's client *)

(** Options for a transaction with a nonce, and for a call. *)
Context (opts : Z → TransactOpts) (copts : CallOpts).

(** The two contracts as client.go uses them. *)
Definition connection_client (con : Connection (CallOpts := CallOpts) (TransactOpts := TransactOpts)
    (FilterOpts := FilterOpts) (WatchOpts := WatchOpts)) : EvmClient.Connection := {|
  EvmClient.ParseMessage log :=
    e ← ConnectionFilterer_ParseMessage (Connection_Filterer con) log;
    sn ← deref (ConnectionMessage_Sn e);
    Ok (Evm.mkConnectionMessage (ConnectionMessage_TargetNetwork e) sn (ConnectionMessage_Msg e));
  EvmClient.RecvMessage src sn data nonce :=
    ConnectionTransactor_RecvMessage (Connection_Transactor con) (opts nonce) src sn data;
  EvmClient.con_SetAdmin addr nonce := ConnectionTransactor_SetAdmin (Connection_Transactor con) (opts nonce) addr;
  EvmClient.con_RevertMessage sn nonce := ConnectionTransactor_RevertMessage (Connection_Transactor con) (opts nonce) sn;
  EvmClient.ClaimFees nonce := ConnectionTransactor_ClaimFees (Connection_Transactor con) (opts nonce);
  EvmClient.con_SetFee src msg response nonce :=
    ConnectionTransactor_SetFee (Connection_Transactor con) (opts nonce) src msg response;
  EvmClient.GetReceipt src sn := ConnectionCaller_GetReceipt (Connection_Caller con) copts src sn;
  EvmClient.con_GetFee network response :=
    fee ← ConnectionCaller_GetFee (Connection_Caller con) copts network response; deref fee |}.

Definition xcall_client (x : Xcall (CallOpts := CallOpts) (TransactOpts := TransactOpts)
    (FilterOpts := FilterOpts) (WatchOpts := WatchOpts)) : EvmClient.Xcall := {|
  EvmClient.xc_ParseCallMessage log :=
    e ← XcallFilterer_ParseCallMessage (Xcall_Filterer x) log;
    sn ← deref (XcallCallMessage_Sn e); reqId ← deref (XcallCallMessage_ReqId e);
    Ok (Evm.mkXcallCallMessage sn reqId (XcallCallMessage_Data e));
  EvmClient.xc_ParseRollbackMessage log :=
    e ← XcallFilterer_ParseRollbackMessage (Xcall_Filterer x) log; deref (XcallRollbackMessage_Sn e);
  EvmClient.xc_ExecuteCall reqID data nonce := XcallTransactor_ExecuteCall (Xcall_Transactor x) (opts nonce) reqID data;
  EvmClient.xc_ExecuteRollback sn nonce := XcallTransactor_ExecuteRollback (Xcall_Transactor x) (opts nonce) sn |}.

Definition value (a : Evm.AbiArg) : AbiValue :=
  match a with Evm.AString s => VString s | Evm.AInt z => VBig z | Evm.ABytes b => VBytes b end.

Definition metadata (abi : Evm.ContractAbi) : MetaData :=
  match abi with Evm.ConnectionAbi => ConnectionMetaData | Evm.XcallAbi => XcallMetaData end.

(** go-ethereum's [Pack] and the bindings' constructors in the place of the
    client's parameters. *)
Context {Abi : Type} (lib : Bind (CallOpts := CallOpts) (TransactOpts := TransactOpts) (FilterOpts := FilterOpts)
  (WatchOpts := WatchOpts) EvmClient.EthNode Abi).
Context (pack : Abi → string → list AbiValue → res string) (base : EvmClient.Libraries).

Definition libraries : EvmClient.Libraries := {|
  EvmClient.Dial := EvmClient.Dial base;
  EvmClient.NewConnection address node := con ← ConnectionBinding.NewConnection lib address node; Ok (connection_client con);
  EvmClient.NewXcall address node := x ← XcallBinding.NewXcall lib address node; Ok (xcall_client x);
  EvmClient.IsHexAddress := EvmClient.IsHexAddress base;
  EvmClient.lib_HexToAddress := EvmClient.lib_HexToAddress base;
  EvmClient.lib_Pack abi name args := abi ← GetAbi _ _ lib (metadata abi); pack abi name (value <$> args);
  EvmClient.Keccak256 := EvmClient.Keccak256 base;
  EvmClient.HexToECDSA := EvmClient.HexToECDSA base;
  EvmClient.SignTx := EvmClient.SignTx base;
  EvmClient.tx_Hash := EvmClient.tx_Hash base |}.

(** A client over the bindings holds the contracts at its two addresses. *)
Lemma newClient_contracts a1 a2 u1 u2 (cl : EvmClient.Client) :
  EvmClient.newClient libraries a1 a2 u1 u2 = Ok cl →
  ∃ abi1 abi2 ws, GetAbi _ _ lib ConnectionMetaData = Ok abi1 ∧ GetAbi _ _ lib XcallMetaData = Ok abi2 ∧
    let k1 := NewBoundContract _ _ lib a1 abi1 (Some ws) (Some ws) (Some ws) in
    let k2 := NewBoundContract _ _ lib a2 abi2 (Some ws) (Some ws) (Some ws) in
    EvmClient.connection cl =
      connection_client (mkConnection (mkConnectionCaller k1) (mkConnectionTransactor k1) (mkConnectionFilterer k1)) ∧
    EvmClient.xcall cl = xcall_client (mkXcall (mkXcallCaller k2) (mkXcallTransactor k2) (mkXcallFilterer k2)).
Proof.
  unfold EvmClient.newClient. intros (rpc & _ & (ws & _ & (con & Hcon & (x & Hx & (id & _ & [= <-])%res_bind_Ok)%res_bind_Ok)%res_bind_Ok)%res_bind_Ok)%res_bind_Ok.
  cbn in Hcon, Hx. unfold ConnectionBinding.NewConnection, bindConnection in Hcon. unfold XcallBinding.NewXcall, bindXcall in Hx.
  destruct (GetAbi _ _ lib ConnectionMetaData) as [abi1| |]; [|done..]. destruct (GetAbi _ _ lib XcallMetaData) as [abi2| |]; [|done..].
  injection Hcon as <-. injection Hx as <-. by exists abi1, abi2, ws.
Qed.

(** The bound contract that [newClient] has for an ABI. *)
Definition bound_at (a1 a2 : string) (md : MetaData) (k : Bound) : Prop :=
  ∃ abi ws, GetAbi _ _ lib md = Ok abi ∧
    ((md = ConnectionMetaData ∧ k = NewBoundContract _ _ lib a1 abi (Some ws) (Some ws) (Some ws)) ∨
     (md = XcallMetaData ∧ k = NewBoundContract _ _ lib a2 abi (Some ws) (Some ws) (Some ws))).

(** [Pack] refuses what does not fit the ABI. *)
Definition pack_checks : Prop :=
  ∀ md abi name args, GetAbi _ _ lib md = Ok abi → args_fit md name args = false → ∃ e, pack abi name args = Err e.

(** The address that the configuration gives a contract, as [NewProvider] and
    [EstimateGas] read it. *)
Definition address_of (cfg : Evm.Config) (contract : string) : string :=
  EvmClient.lib_HexToAddress base (default "" (cc_Contracts (Evm.c_Common cfg) !! contract)).

(** C23: the gas that the EVM provider estimates for a message is that of the call
    it then sends.  For every event type but SetAdmin the estimate is made for
    the address of the contract that the binding calls, the one that the
    configuration gives it, and packs with its ABI the method and the arguments
    that the binding hands to it; and they fit the ABI.  For SetAdmin the call
    fits too, but the estimate packs the address as a string: [Pack] refuses it,
    and the call is never sent. *)
Theorem estimate_is_sent cfg u1 u2 (cl0 : EvmClient.Client) keystore (m : MessageOf Z) call
  (Hnew : EvmClient.newClient libraries (address_of cfg ConnectionContract) (address_of cfg XcallContract) u1 u2 = Ok cl0)
  (Hcall : Evm.call_of (EvmClient.evm_client libraries cl0 keystore) m = Some call) :
  let cl := EvmClient.evm_client libraries cl0 keystore in
  ∃ md contract abi ws name args,
    (md, contract) ∈ [(ConnectionMetaData, ConnectionContract); (XcallMetaData, XcallContract)] ∧
    GetAbi _ _ lib md = Ok abi ∧ args_fit md name args = true ∧
    (∀ nonce, Evm.transact cl call nonce =
       bc_Transact (NewBoundContract _ _ lib (address_of cfg contract) abi (Some ws) (Some ws) (Some ws)) (opts nonce) name args) ∧
    (m_EventType m ≠ SetAdmin → ∀ from, Evm.EstimateGas_msg cl cfg from m =
       (data ← pack abi name args; Ok (Evm.mkCallMsg from (address_of cfg contract) data))) ∧
    (m_EventType m = SetAdmin → pack_checks → ∀ from, ∃ e, Evm.EstimateGas_msg cl cfg from m = Err e).
Proof.
  cbn zeta. destruct (newClient_contracts _ _ u1 u2 cl0 Hnew) as (abi1 & abi2 & ws & H1 & H2 & Hc & Hx).
  set (k1 := NewBoundContract _ _ lib _ abi1 _ _ _) in *. set (k2 := NewBoundContract _ _ lib _ abi2 _ _ _) in *.
  assert ((ConnectionMetaData, ConnectionContract) ∈ [(ConnectionMetaData, ConnectionContract); (XcallMetaData, XcallContract)]) as Hin1 by by left.
  assert ((XcallMetaData, XcallContract) ∈ [(ConnectionMetaData, ConnectionContract); (XcallMetaData, XcallContract)]) as Hin2 by (right; by left).
  unfold Evm.call_of in Hcall. unfold Evm.EstimateGas_msg. destruct m as [dst src sn data h ev req]; cbn [m_EventType m_Src m_Sn m_Data m_ReqID] in *.
  assert (ev ∈ [EmitMessage; CallMessage; SetAdmin; RevertMessage; ClaimFee; SetFee; RollbackMessage]) as Hev.
  { repeat case_decide; try done; subst; set_solver. }
  repeat (apply elem_of_cons in Hev as [->|Hev]); [..|by apply elem_of_nil in Hev];
    (repeat first [rewrite decide_True in Hcall by done|rewrite decide_False in Hcall by done]); injection Hcall as <-;
    cbn [Evm.transact EvmClient.evm_client EvmClient.transact Evm.Pack EvmClient.lib_Pack libraries metadata fmap list_fmap value];
    unfold EvmClient.ReceiveMessage, EvmClient.ExecuteCall, EvmClient.SetAdmin, EvmClient.RevertMessage, EvmClient.ClaimFee,
      EvmClient.SetFee, EvmClient.ExecuteRollback; rewrite ?Hc, ?Hx, ?H1, ?H2;
    (repeat first [rewrite decide_True by done|rewrite decide_False by done]).
  - by exists ConnectionMetaData, ConnectionContract, abi1, ws, "recvMessage", [VString src; VBig sn; VBytes data].
  - by exists XcallMetaData, XcallContract, abi2, ws, "executeCall", [VBig req; VBytes data].
  - exists ConnectionMetaData, ConnectionContract, abi1, ws, "setAdmin", [VAddress (EvmClient.lib_HexToAddress base src)].
    split_and!; [done..|]. intros _ Hp from. destruct (Hp ConnectionMetaData abi1 "setAdmin" [VString src] H1 eq_refl) as [e He].
    exists e. cbn. by rewrite He.
  - by exists ConnectionMetaData, ConnectionContract, abi1, ws, "revertMessage", [VBig sn].
  - by exists ConnectionMetaData, ConnectionContract, abi1, ws, "claimFees", [].
  - by exists ConnectionMetaData, ConnectionContract, abi1, ws, "setFee", [VString src; VBig sn; VBig req].
  - by exists XcallMetaData, XcallContract, abi2, ws, "executeRollback", [VBig sn].
Qed.

(** The signatures of events.go are those of the ABIs. *)
Lemma signatures :
  event_signature <$> event_of ConnectionMetaData "Message" = Some Evm.EmitMessageSig ∧
  event_signature <$> event_of XcallMetaData "CallMessage" = Some Evm.CallMessageSig ∧
  event_signature <$> event_of XcallMetaData "RollbackMessage" = Some Evm.RollbackMessageSig.
Proof. by vm_compute. Qed.

(** C24: the events of the two contracts become the messages they stand for.  A log
    whose topic is the hash of the signature that the ABI gives Message,
    CallMessage or RollbackMessage is unpacked as that event, and its fields are
    those of the message; the sender of a CallMessage, of which the log holds
    only a hash, is not looked at. *)
Theorem events_become_messages a1 a2 u1 u2 (cl0 : EvmClient.Client) keystore cfg contracts
  (Hnew : EvmClient.newClient libraries a1 a2 u1 u2 = Ok cl0)
  (Hhash : NoDup (EvmClient.Keccak256 base <$> [Evm.EmitMessageSig; Evm.CallMessageSig; Evm.RollbackMessageSig])) :
  let message_of := Evm.getRelayMessageFromLog (EvmClient.evm_client libraries cl0 keystore) cfg contracts in
  let topic md name log := ∃ e topics, event_of md name = Some e ∧
    Evm.l_Topics log = EvmClient.Keccak256 base (event_signature e) :: topics in
  let msg dst sn data log sig req := mkMessage dst (cc_NID (Evm.c_Common cfg)) (Some sn) data (Evm.l_BlockNumber log)
    (Evm.GetEventName contracts sig) req in
  ∃ k1 k2, bound_at a1 a2 ConnectionMetaData k1 ∧ bound_at a1 a2 XcallMetaData k2 ∧ ∀ log,
    (∀ net sn data, topic ConnectionMetaData "Message" log →
       bc_UnpackLog k1 "Message" log = Ok [VString net; VBig (Some sn); VBytes data] →
       message_of log = Ok (msg net sn data log Evm.EmitMessageSig None)) ∧
    (∀ from to sn req data, topic XcallMetaData "CallMessage" log →
       bc_UnpackLog k2 "CallMessage" log = Ok [VHash from; VHash to; VBig (Some sn); VBig (Some req); VBytes data] →
       message_of log = Ok (msg (cc_NID (Evm.c_Common cfg)) sn data log Evm.CallMessageSig (Some req))) ∧
    (∀ sn, topic XcallMetaData "RollbackMessage" log → bc_UnpackLog k2 "RollbackMessage" log = Ok [VBig (Some sn)] →
       message_of log = Ok (msg (cc_NID (Evm.c_Common cfg)) sn "" log Evm.RollbackMessageSig None)).
Proof.
  cbn zeta. destruct (newClient_contracts a1 a2 u1 u2 cl0 Hnew) as (abi1 & abi2 & ws & H1 & H2 & Hc & Hx).
  set (k1 := NewBoundContract _ _ lib a1 abi1 _ _ _) in *. set (k2 := NewBoundContract _ _ lib a2 abi2 _ _ _) in *.
  exists k1, k2. split; [exists abi1, ws; auto|]. split; [exists abi2, ws; auto|]. intros log.
  destruct signatures as (Hs1 & Hs2 & Hs3). apply fmap_Some in Hs1 as (e1 & He1 & Hs1).
  apply fmap_Some in Hs2 as (e2 & He2 & Hs2). apply fmap_Some in Hs3 as (e3 & He3 & Hs3).
  cbn [fmap list_fmap] in Hhash. rewrite !NoDup_cons, !not_elem_of_cons in Hhash. destruct Hhash as ((H12 & H13 & _) & (H23 & _) & _).
  unfold Evm.getRelayMessageFromLog. cbn [Evm.EmitMessageHash Evm.CallMessageHash Evm.RollbackMessageHash
    Evm.ParseConnectionMessage Evm.ParseCallMessage Evm.ParseRollbackMessage EvmClient.evm_client EvmClient.Keccak256 libraries].
  unfold EvmClient.ParseConnectionMessage, EvmClient.ParseCallMessage, EvmClient.ParseRollbackMessage. rewrite Hc, Hx.
  split_and!.
  - intros net sn data (e & topics & He & Ht) Hu. rewrite He1 in He. injection He as <-. rewrite Ht, <-Hs1, decide_True by done.
    cbn. unfold ConnectionFilterer_ParseMessage, EvmAbi.unpack. cbn. by rewrite Hu.
  - intros from to sn req data (e & topics & He & Ht) Hu. rewrite He2 in He. injection He as <-. rewrite Ht, <-Hs2.
    rewrite decide_False, decide_True by done.
    cbn. unfold XcallFilterer_ParseCallMessage, EvmAbi.unpack. cbn. by rewrite Hu.
  - intros sn (e & topics & He & Ht) Hu. rewrite He3 in He. injection He as <-. rewrite Ht, <-Hs3.
    rewrite decide_False, decide_False, decide_True by done.
    cbn. unfold XcallFilterer_ParseRollbackMessage, EvmAbi.unpack. cbn. by rewrite Hu.
Qed.
End Bindings.
End EvmBindings.
