(* ===== verification/EvmBindingsWitness.v ===== *)
(** The bindings over a concrete node: a contract that counts, numbers its
    transactions and gives two messages. *)
From stdpp Require Import gmap strings list.
From Stdlib Require Import ZArith Lia.
From S2P Require Import Prelude GoStd Types Provider EvmNonce Evm EvmWitness EvmListener EvmListenerWitness EvmClient EvmClientWitness.
From S2P Require Import EvmAbi EvmConnection EvmXcall EvmBindings.
Import EvmClient EvmAbi ConnectionBinding XcallBinding.
Open Scope Z_scope.

Module EvmBindingsWitness.

Abbreviation Bound := (BoundContract (CallOpts := unit) (TransactOpts := Z) (FilterOpts := unit) (WatchOpts := unit)).

(** What the contract at an address answers.  A log with the data [x] is not of
    this contract's making; the fields of the others are at hand. *)
Definition fields (event : string) (log : Evm.Log) : res (list AbiValue) :=
  if decide (Evm.l_Data log = "x") then Err "abi: short"
  else if decide (event = "Message") then Ok [VString "0x2.icon"; VBig (Some (Evm.l_BlockNumber log)); VBytes (Evm.l_Data log)]
  else if decide (event = "CallMessage") then Ok [VHash "h"; VHash "t"; VBig (Some 3); VBig (Some 4); VBytes (Evm.l_Data log)]
  else Ok [VBig (Some 5)].
Definition contract (address : string) : Bound := {|
  bc_Call _ _ _ := Ok [VBig (Some 1)];
  bc_Transact nonce name _ := Ok (address +:+ name);
  bc_Transfer _ := Ok "0x";
  bc_FilterLogs _ _ _ := Err "none"; bc_WatchLogs _ _ _ := Err "none";
  bc_UnpackLog := fields |}.
Definition lib : Bind (CallOpts := unit) (TransactOpts := Z) (FilterOpts := unit) (WatchOpts := unit) EthNode MetaData :=
  mkBind _ _ (λ md, Ok md) (λ address _ _ _ _, contract address).

(** [Pack] with the check of its arguments. *)
Definition pack (md : MetaData) (name : string) (args : list AbiValue) : res string :=
  if args_fit md name args then Ok name else Err "abi: cannot use string as type array as argument".

Lemma pack_refuses : EvmBindings.pack_checks lib pack.
Proof. intros md abi name args [= <-] Hf. unfold pack. rewrite Hf. by eexists. Qed.

(** ** Streams *)

Definition log (h : Z) (data : string) : Evm.Log := Evm.mkLog "0xc" ["t"] data h.
Definition logs : list Evm.Log := [log 1 "a"; log 2 "b"; log 3 "x"; log 4 "c"].
Definition event (h : Z) (data : string) : ConnectionMessage := mkConnectionMessage "0x2.icon" (Some h) data (log h data).

Lemma fields_unpack name : EvmBindings.unpacks (contract "0xc") name.
Proof. intros l. cbn. unfold fields. by repeat case_decide. Qed.

(** The second [select] takes the end of the subscription: the rest is drained. *)
Definition picks (n : nat) : bool := negb (Nat.eqb n 1).

Lemma iterator_gives_logs_witness :
  ∃ it, iterate ConnectionMessage_of 5 picks (new_Iterator (contract "0xc") "Message" (mkStream logs (Some None) false)) =
    Some ([event 1 "a"; event 2 "b"], it) ∧ Iterator_Error it = Some "abi: short".
Proof. exact (proj1 (EvmBindings.iterator_gives_logs ConnectionMessage_of (contract "0xc") "Message" logs picks (fields_unpack "Message"))). Defined.

(** The watcher sends the first event, takes the second log and is told to quit. *)
Definition watching : option (Watching (E := ConnectionMessage)) :=
  watch_run ConnectionMessage_of [WArrive (log 4 "d"); WLog; WAccepted; WLog; WQuit]
    (new_Watching (contract "0xc") "Message" (mkStream [log 1 "a"; log 2 "b"] None false)).

Lemma watcher_forwards_witness :
  ∃ w, watching = Some w ∧ wt_sink w = [event 1 "a"] ∧
    ∃ taken, [log 1 "a"; log 2 "b"; log 4 "d"] = taken ++ st_logs (wt_stream w) ∧
      match wt_phase w with
      | WSelecting => EvmBindings.unpack_all ConnectionMessage_of (contract "0xc") "Message" taken = (wt_sink w, None)
      | WSending e => EvmBindings.unpack_all ConnectionMessage_of (contract "0xc") "Message" taken = (wt_sink w ++ [e], None)
      | WReturned err => st_unsubscribed (wt_stream w) = true ∧
          ((EvmBindings.unpack_all ConnectionMessage_of (contract "0xc") "Message" taken = (wt_sink w, err) ∧ err ≠ None) ∨
           ∃ lost, EvmBindings.unpack_all ConnectionMessage_of (contract "0xc") "Message" taken = (wt_sink w ++ lost, None) ∧
             (length lost ≤ 1)%nat)
      end.
Proof.
  eexists. split; [vm_compute; reflexivity|]. split; [reflexivity|].
  exact (EvmBindings.watcher_forwards ConnectionMessage_of (contract "0xc") "Message" [log 1 "a"; log 2 "b"] None
    [WArrive (log 4 "d"); WLog; WAccepted; WLog; WQuit] _ (fields_unpack "Message") eq_refl).
Defined.

(** ** The client *)

Definition base : Libraries := EvmClientWitness.libraries (eth_node 9 []) (eth_node 9 []).
Definition libs : Libraries := EvmBindings.libraries (λ nonce, nonce) tt lib pack base.
Definition client : res Client := newClient libs "0xc" "0xx" "http://node" "ws://node".

Definition message (ev : string) : MessageOf Z := mkMessage "0x1.eth" "0x2.icon" (Some 3) "d" 9 ev (Some 4).

(** A configuration with the two addresses. *)
Definition evm_cfg : Evm.Config := Evm.mkConfig (mkCommonConfig "eth" "http://node" 0 "0xw"
  {[ ConnectionContract := "0xc"; XcallContract := "0xx" ]} 10 "0x1.eth" "/home" false) "" 100 1000 10 50.

(** A call of xcall, and the change of the administrator. *)
Lemma estimate_is_sent_witness :
  ∃ cl0, client = Ok cl0 ∧
    let cl := evm_client libs cl0 (Err "no") in
    (∃ call, Evm.call_of cl (message CallMessage) = Some call ∧
      (∀ nonce, Evm.transact cl call nonce = Ok "0xxexecuteCall") ∧
      ∃ md contract abi ws name args, GetAbi _ _ lib md = Ok abi ∧ args_fit md name args = true ∧
        (∀ nonce, Evm.transact cl call nonce =
           bc_Transact (NewBoundContract _ _ lib (EvmBindings.address_of base evm_cfg contract) abi (Some ws) (Some ws) (Some ws)) nonce name args) ∧
        ∀ from, Evm.EstimateGas_msg cl evm_cfg from (message CallMessage) =
          (data ← pack abi name args; Ok (Evm.mkCallMsg from (EvmBindings.address_of base evm_cfg contract) data))) ∧
    ∀ from, ∃ e, Evm.EstimateGas_msg cl evm_cfg from (message Types.SetAdmin) = Err e.
Proof.
  eexists. split; [reflexivity|]. split.
  - eexists. split; [reflexivity|]. split; [by intros nonce|].
    edestruct (EvmBindings.estimate_is_sent (λ nonce : Z, nonce) tt lib pack base evm_cfg "http://node" "ws://node" _ (Err "no")
      (message CallMessage) _ eq_refl eq_refl) as (md & contract & abi & ws & name & args & _ & Habi & Ha & Ht & He & _).
    exists md, contract, abi, ws, name, args. split; [exact Habi|]. split; [exact Ha|]. split; [exact Ht|]. by apply He.
  - edestruct (EvmBindings.estimate_is_sent (λ nonce : Z, nonce) tt lib pack base evm_cfg "http://node" "ws://node" _ (Err "no")
      (message Types.SetAdmin) _ eq_refl eq_refl) as (md & contract & abi & ws & name & args & _ & _ & _ & _ & _ & Hs).
    exact (Hs eq_refl pack_refuses).
Defined.

Definition event_maps : list EventMap :=
  [mkEventMap "" "0xc" {[ Evm.EmitMessageSig := EmitMessage ]}].

(** A message of the connection contract. *)
Lemma events_become_messages_witness :
  ∃ cl0, client = Ok cl0 ∧
    Evm.getRelayMessageFromLog (evm_client libs cl0 (Err "no")) EvmWitness.cfg event_maps
      (Evm.mkLog "0xc" [Evm.EmitMessageSig] "data" 7) =
    Ok (mkMessage "0x2.icon" (cc_NID (Evm.c_Common EvmWitness.cfg)) (Some 7) "data" 7 EmitMessage None).
Proof.
  eexists. split; [reflexivity|].
  edestruct (EvmBindings.events_become_messages (λ nonce : Z, nonce) tt lib pack
    (EvmClientWitness.libraries (eth_node 9 []) (eth_node 9 [])) "0xc" "0xx" "http://node" "ws://node" _ (Err "no")
    EvmWitness.cfg event_maps eq_refl) as (k1 & k2 & Hk1 & _ & Hl).
  { apply (bool_decide_unpack _). vm_compute. exact I. }
  destruct Hk1 as (abi & ws & [= <-] & [[_ ->]|[[=] _]]).
  destruct (Hl (Evm.mkLog "0xc" [Evm.EmitMessageSig] "data" 7)) as (Hm & _ & _).
  exact (Hm "0x2.icon" 7 "data" (ex_intro _ _ (ex_intro _ [] (conj eq_refl eq_refl))) eq_refl).
Defined.
End EvmBindingsWitness.
