(* ===== verification/Pipeline.v ===== *)
(** From the source chain to the database: the EVM listener of EvmListener.v as a
    feeder of the relayer (Feed.v).

    What the listener sends on the block channel is what the relayer finds in
    the queue of the chain, and the height a restarted listener goes on from is
    the one the relayer holds for the chain.  EvmListener.v says that no log is
    left unsent, Feed.v that nothing sent is dropped. *)
From stdpp Require Import gmap strings list.
From Stdlib Require Import ZArith Lia.
From S2P Require Import Prelude GoStd Types Store Provider Relay RelaySystem RelayCorrect RelayFrame Custody Feed.
From S2P Require Import EvmNonce Evm EvmCorrect EvmListener.
Import BlockStore MessageStore FinalityStore.
Open Scope Z_scope.

Section Pipeline.
Context {St : Type} `{StoreSpec St} `{CodecSpec Z}.
Context `{CodecSpec (RouteMessageOf Z)} `{CodecSpec (TransactionObjectOf Z)}.
Implicit Types (s : Relayer St) (w : World).

(** The source chain, and its provider. *)
Context (nid : string) (cfg : Evm.Config) (contracts : list EventMap).
Context (addresses topics : list string) (bindings : Evm.IClient).

Lemma lrun_out e l l' :
  lrun cfg contracts addresses topics bindings e l = Some l' → ∃ new, l_out l' = l_out l ++ new.
Proof.
  intros Hrun. destruct e; cbn [lrun] in Hrun;
    unfold on_tick, on_height, on_batch, on_send, on_scan_done, on_error, on_cancelled, Subscribe_opened,
      Subscribe_arrive, Subscribe_take, Subscribe_err, Subscribe_idle, Subscribe_cancelled in Hrun;
    repeat case_match; simplify_eq; cbn; first [by exists []; rewrite app_nil_r|by eexists].
Qed.

(** A block is made, or the listener does a step: as in [no_log_lost] all goes
    well for it, and a restart reads the height that the relayer holds. *)
Inductive evm_step (h0 : Z) s w : World → Prop :=
| evm_mine logs : Forall (λ log, Evm.l_BlockNumber log = w_head w + 1) logs → evm_step h0 s w (mine logs w)
| evm_listen e l :
    smooth addresses topics None h0 e w →
    match e with Error _ _ _ saved => saved = last_saved nid s | _ => True end →
    lrun cfg contracts addresses topics bindings e (w_l w) = Some l →
    evm_step h0 s w (mkWorld (w_head w) (w_logs w) l).

Definition evm_begin (h0 : Z) s w : Prop :=
  starts h0 w ∧ ∃ cl, Evm.startFromHeight cl cfg (last_saved nid s) = Ok h0.

Lemma evm_begin_empty h0 s w : evm_begin h0 s w → l_out (w_l w) = [].
Proof. intros [(_ & _ & Hl) _]. by rewrite Hl. Qed.

Lemma evm_step_grows h0 s w w' : evm_step h0 s w w' → ∃ new, l_out (w_l w') = l_out (w_l w) ++ new.
Proof. intros [logs _|e l _ _ Hrun]; [exists []; by rewrite app_nil_r|by eapply lrun_out]. Qed.

Definition evm_feeder (h0 : Z) : Feeder (St := St) World :=
  mkFeeder World (λ w, l_out (w_l w)) (evm_begin h0) (evm_step h0) (evm_begin_empty h0) (evm_step_grows h0).

Lemma fed_reached h0 w s hist :
  fed nid (evm_feeder h0) w s hist → reached cfg contracts addresses topics bindings (smooth addresses topics None h0) h0 w.
Proof.
  induction 1 as [w s [Hst _]|w s hist w' s' _ IH [logs Hlogs|e l Hsm _ Hrun] _|]; [by apply reached_begin|..|done].
  - eapply reached_step; [done|]. by constructor.
  - eapply reached_step; [done|]. by econstructor.
Qed.

(** C25: no message is lost between the source chain and the database.  Run the
    EVM listener, across any number of failures of its subscription, and the
    relayer, in any interleaving of its goroutines, timers and operators: when
    the listener is up to date and its queue is empty, every message of every
    log of the chain from the start on is in the message store, unless an action
    of the relayer released it: a success reported for it, a destination that is
    not configured or has it already, its expiry, or an operator. *)
Theorem no_message_lost h0 w s hist c
  (Hbatch : 0 < Evm.c_BlockBatchSize cfg) (Hbound : w_head w + Evm.c_BlockBatchSize cfg < 2 ^ 64)
  (Hrun : fed nid (evm_feeder h0) w s hist) (Hdone : up_to_date (w_l w))
  (Hc : rl_chains s !! nid = Some c) (Hempty : listenerChan c = []) :
  ∀ log b m, log ∈ w_logs w → h0 ≤ Evm.l_BlockNumber log →
    Evm.log_block bindings cfg contracts log = Some b → m ∈ bi_Messages b →
    is_Some (contents (rl_db s) !! wire_row m) ∨ ∃ a s0, (a, s0) ∈ hist ∧ releases a s0 (wire_row m).
Proof.
  intros log b m Hlog Hh Hb Hm. pose proof (fed_reached _ _ _ _ Hrun) as Hr.
  eapply (fed_secured nid (evm_feeder h0)); [done..| |exact Hm]. by eapply up_to_date_out.
Qed.

(** * Whatever goes wrong *)

(** The listener beside an honest node, with any of the hazards of
    EvmListener.v; the second component says that it has met none so far. *)
Inductive evm_watch_step (h0 : Z) s (x : World * bool) : World * bool → Prop :=
| watch_mine logs :
    Forall (λ log, Evm.l_BlockNumber log = w_head x.1 + 1) logs → evm_watch_step h0 s x (mine logs x.1, x.2)
| watch_listen e l clear :
    honest addresses topics e x.1 →
    match e with Error _ _ _ saved => saved = last_saved nid s | _ => True end →
    lrun cfg contracts addresses topics bindings e (w_l x.1) = Some l →
    (clear = true ↔ x.2 = true ∧ smooth addresses topics None h0 e x.1) →
    evm_watch_step h0 s x (mkWorld (w_head x.1) (w_logs x.1) l, clear).

Definition evm_watch_begin (h0 : Z) s (x : World * bool) : Prop := evm_begin h0 s x.1 ∧ x.2 = true.

Lemma evm_watch_empty h0 s x : evm_watch_begin h0 s x → l_out (w_l x.1) = [].
Proof. intros [Hb _]. by eapply evm_begin_empty. Qed.

Lemma evm_watch_grows h0 s x x' : evm_watch_step h0 s x x' → ∃ new, l_out (w_l x'.1) = l_out (w_l x.1) ++ new.
Proof. intros [logs _|e l clear _ _ Hrun _]; [exists []; by rewrite app_nil_r|by eapply lrun_out]. Qed.

Definition evm_watcher (h0 : Z) : Feeder (St := St) (World * bool) :=
  mkFeeder (World * bool) (λ x, l_out (w_l x.1)) (evm_watch_begin h0) (evm_watch_step h0)
    (evm_watch_empty h0) (evm_watch_grows h0).

(** Steps on which all goes well are among them. *)
Lemma evm_step_watched h0 s w w' : evm_step h0 s w w' → evm_watch_step h0 s (w, true) (w', true).
Proof.
  intros [logs Hl|e l Hsm Hsaved Hrun]; [by apply (watch_mine h0 s (w, true))|].
  apply (watch_listen h0 s (w, true) e l true); [exact (proj1 Hsm)|done..].
Qed.

Abbreviation reached_by := (reached cfg contracts addresses topics bindings).

Lemma watched_reached h0 x s hist :
  fed nid (evm_watcher h0) x s hist →
  reached_by (honest addresses topics) h0 x.1 ∧ (x.2 = true → reached_by (smooth addresses topics None h0) h0 x.1).
Proof.
  induction 1 as [x s [[Hst _] _]|x s hist x' s' _ [IHh IHs] [logs Hlogs|e l clear Hh _ Hrun Hclear] _|]; [|..|done].
  - split; [|intros _]; by apply reached_begin.
  - split; [|intros Hx; specialize (IHs Hx)]; (eapply reached_step; [done|]; by constructor).
  - split; [|intros [Hx Hsm]%Hclear; specialize (IHs Hx)]; (eapply reached_step; [done|]; by econstructor).
Qed.
End Pipeline.
