(* ===== verification/IconTypes.v ===== *)
(** Packages relayer/chains/icon/types and utils/hexstr: the hexadecimal
    number, byte and address formats of ICON's JSON-RPC, and its data. *)
From stdpp Require Import gmap strings list.
From Stdlib Require Import ZArith Lia Ascii.
From S2P Require Import Prelude GoStd Types.
Open Scope Z_scope.

(** * Hexadecimal strings (package hexstr) *)

Module HexStr.
Definition HexPrefix : string := "0x".
Definition NewFromString (val : string) : string :=
  if HasPrefix val HexPrefix then val else HexPrefix +:+ val.
Definition NewFromByte (val : string) : string := HexPrefix +:+ EncodeToString val.
Definition ToByte (h : string) : res string :=
  if decide (h = "") then Ok "" else DecodeString (TrimPrefix h HexPrefix).
End HexStr.

(** * Numbers *)

Definition HexInt : Type := string.

(** Both parsers give a value with the error. *)
Definition HexInt_Value (i : HexInt) : Z * error := ParseInt (TrimPrefix i "0x") 16 64.
(** The bit size is 32, though the result is an [int64]. *)
Definition HexInt_Int64 (i : HexInt) : Z * error := ParseInt (TrimPrefix i "0x") 16 32.
Definition HexInt_Int (i : HexInt) : Z * error := HexInt_Int64 i.

Definition decodeHexNumber (s : string) : bool * res string :=
  let '(negative, s) := match s with String "-" r => (true, r) | _ => (false, s) end in
  let s := if (2 <? Z.of_nat (String.length s)) && HasPrefix s "0x" then string_drop 2 s else s in
  let s := if Nat.even (String.length s) then s else String "0" s in
  (negative, DecodeString s).

Definition ParseBigInt (s : string) : res Z :=
  let '(neg, bs) := decodeHexNumber s in
  bs ← bs; Ok (if neg then - SetBytes bs else SetBytes bs).

Definition HexInt_BigInt (i : HexInt) : res Z := ParseBigInt i.

Definition NewHexInt (v : Z) : HexInt := "0x" +:+ FormatInt v 16.
Definition NewHexString (s : string) : HexInt := "0x" +:+ s.

(** * Bytes *)

Definition HexBytes : Type := string.

(** [hs[2:]] of a one-byte string panics. *)
Definition HexBytes_Value (hs : HexBytes) : res string :=
  match hs with
  | "" => Ok ""
  | String _ "" => Panic
  | String _ (String _ r) => DecodeString r
  end.

Definition NewHexBytes (b : string) : HexBytes := "0x" +:+ EncodeToString b.

(** * Addresses *)

Definition Address : Type := string.

(** [hex.Decode] into the last 20 bytes of a 21-byte array: decoding a 21st
    byte writes out of range. *)
Definition decode20 (s : string) : res string :=
  match DecodeString (String.substring 0 42 s) with
  | Ok bs => if (20 <? Z.of_nat (String.length bs)) then Panic else DecodeString s
  | _ => DecodeString s
  end.

Definition Address_Value (a : Address) : res string :=
  if Z.of_nat (String.length a) <? 2 then Panic
  else
    let prefix := String.substring 0 2 a in
    let rest := string_drop 2 a in
    if decide (prefix = "cx" ∨ prefix = "hx") then
      bs ← decode20 rest;
      let n := Z.of_nat (String.length bs) in
      if n =? 20 then Ok (String (if decide (prefix = "cx") then "001"%char else "000"%char) bs)
      else Err ("invalid length " +:+ FormatInt n 10)
    else Err ("invalid prefix " +:+ prefix).

Definition NewAddress (b : string) : Address :=
  match b with
  | String c r =>
      if Z.of_nat (String.length r) =? 20 then
        if byte_of c =? 1 then "cx" +:+ EncodeToString r
        else if byte_of c =? 0 then "hx" +:+ EncodeToString r
        else ""
      else ""
  | "" => ""
  end.

(** * Data of the JSON-RPC interface *)

Record EventLogStr := mkEventLogStr {
  els_Addr : Address; els_Indexed : list string; els_Data : list string }.

(** An event log in binary form. *)
Record EventLog := mkEventLog { el_Addr : Address; el_Indexed : list string; el_Data : list string }.

Record TransactionResult := mkTransactionResult {
  tres_To : Address;
  tres_CumulativeStepUsed : HexInt;
  tres_StepUsed : HexInt;
  tres_StepPrice : HexInt;
  tres_EventLogs : list EventLogStr;
  tres_LogsBloom : HexBytes;
  tres_Status : HexInt;
  tres_Failure : option (HexInt * string);
  tres_SCOREAddress : Address;
  tres_BlockHash : HexBytes;
  tres_BlockHeight : HexInt;
  tres_TxIndex : HexInt;
  tres_TxHash : HexBytes }.

(** Parameters of a call: the JSON object's fields; none for a nil interface as
    for an empty map. *)
Record CallData := mkCallData { cd_Method : string; cd_Params : list (string * string) }.

Record TransactionParam := mkTransactionParam {
  tp_Version : HexInt;
  tp_FromAddress : Address;
  tp_ToAddress : Address;
  tp_Value : HexInt;
  tp_StepLimit : HexInt;
  tp_Timestamp : HexInt;
  tp_NetworkID : HexInt;
  tp_Nonce : HexInt;
  tp_Signature : string;
  tp_DataType : string;
  tp_Data : CallData;
  tp_TxHash : HexBytes }.

Record CallParam := mkCallParam {
  cp_FromAddress : Address;
  cp_ToAddress : Address;
  cp_DataType : string;
  cp_Data : CallData;
  cp_Height : HexInt }.

Record EventFilter := mkEventFilter { ef_Addr : Address; ef_Signature : string }.

Record EventRequest := mkEventRequest {
  erq_EventFilter : list EventFilter;
  erq_Height : HexInt;
  erq_Logs : HexInt;
  erq_ProgressInterval : HexInt }.

Record BlockRequest := mkBlockRequest { brq_Height : HexInt; brq_EventFilters : list EventFilter }.

Record BlockNotification := mkBlockNotification {
  bn_Hash : HexBytes;
  bn_Height : HexInt;
  bn_Indexes : list (list HexInt);
  bn_Events : list (list (list HexInt)) }.

Record EventNotificationLog := mkEventNotificationLog {
  enl_Address : Address; enl_Indexed : list string; enl_Data : list string }.

Record EventNotification := mkEventNotification {
  en_Hash : HexBytes;
  en_Height : HexInt;
  en_Index : HexInt;
  en_Logs : list EventNotificationLog;
  en_Progress : HexInt }.

(** Of a block the relay reads its height and its transactions' hashes. *)
Record Block := mkBlock { blk_Height : Z; blk_NormalTransactions : list HexBytes }.

Record NetworkInfo := mkNetworkInfo {
  ni_Platform : string; ni_NetworkID : HexInt; ni_Channel : string; ni_Height : HexInt }.

(** * Correctness *)

Lemma TrimPrefix_0x s : TrimPrefix ("0x" +:+ s) "0x" = s.
Proof. apply TrimPrefix_app. Qed.

(** A 64-bit integer survives being written as a hexadecimal number and
    read back. *)
Lemma HexInt_Value_NewHexInt (v : Z) (Hv : - 2 ^ 63 ≤ v < 2 ^ 63) :
  HexInt_Value (NewHexInt v) = (v, None).
Proof. unfold HexInt_Value, NewHexInt. rewrite TrimPrefix_0x. by apply ParseInt_FormatInt. Qed.

Lemma ParseUint_FormatInt_range b bits v :
  2 ≤ b ≤ 16 → 0 < bits ≤ 64 → 0 ≤ v →
  ParseUint (FormatInt v b) b bits =
  if v <=? 2 ^ bits - 1 then (v, None) else (2 ^ bits - 1, Some errRange).
Proof.
  intros Hb Hbits Hv. pose proof (base_value_FormatInt b v Hb Hv) as Hval.
  assert (2 ^ bits ≤ 2 ^ 64) by (apply Z.pow_le_mono_r; lia).
  assert (0 < 2 ^ bits) by (apply Z.pow_pos_nonneg; lia).
  assert (FormatInt v b ≠ "") as Hne.
  { unfold FormatInt. replace (v <? 0) with false by lia.
    destruct (string_of_digits_cons (digits_of b v)) as (d & s & _ & ->);
      [apply digits_of_nonempty| |done].
    eapply Forall_impl; [apply digits_range; lia|]. intros; cbn in *; lia. }
  unfold ParseUint. destruct (FormatInt v b) eqn:E; [done|]. rewrite <-E in *.
  apply parseUint_loop_value; [lia|lia|lia|done].
Qed.

Lemma FormatInt_not_sign b v :
  2 ≤ b ≤ 16 → 0 ≤ v →
  (match FormatInt v b with
   | String "-" r => (true, r) | String "+" r => (false, r) | _ => (false, FormatInt v b) end)
  = (false, FormatInt v b).
Proof.
  intros Hb Hv. unfold FormatInt. replace (v <? 0) with false by lia.
  destruct (string_of_digits_cons (digits_of b v)) as (d & s & Hd & Hs); [apply digits_of_nonempty| |].
  { eapply Forall_impl; [apply digits_range; lia|]. intros; cbn in *; lia. }
  rewrite Hs. destruct (hex_char_not_sign d Hd) as [Hm Hp].
  generalize (hex_char d), Hm, Hp. clear. intros c Hm Hp.
  destruct c as [[] [] [] [] [] [] [] []]; cbn; congruence.
Qed.

(** [Int64] reads numbers of 32 bits only: every number from 2^31 on is
    read as 2^31 - 1 with a range error. *)
Lemma HexInt_Int64_range (v : Z) (Hv : 0 ≤ v) :
  HexInt_Int64 (NewHexInt v) =
  if v <? 2 ^ 31 then (v, None) else (2 ^ 31 - 1, Some errRange).
Proof.
  unfold HexInt_Int64, NewHexInt. rewrite TrimPrefix_0x. unfold ParseInt.
  rewrite FormatInt_not_sign by lia. rewrite ParseUint_FormatInt_range by lia.
  destruct (Z.leb_spec v (2 ^ 32 - 1)).
  - rewrite decide_True by auto. cbn [negb andb]. change (32 - 1) with 31.
    destruct (Z.ltb_spec v (2 ^ 31)).
    + by replace (2 ^ 31 <=? v) with false by lia.
    + by replace (2 ^ 31 <=? v) with true by lia.
  - rewrite decide_True by auto. by replace (v <? 2 ^ 31) with false by lia.
Qed.

Lemma FormatInt_head v : 0 ≤ v → ∃ d s, 0 ≤ d < 16 ∧ FormatInt v 16 = String (hex_char d) s.
Proof.
  intros Hv. unfold FormatInt. replace (v <? 0) with false by lia.
  apply string_of_digits_cons; [apply digits_of_nonempty|]. apply digits_range; lia.
Qed.

(** Padding to an even number of digits. *)
Definition pad_even (s : string) : string :=
  if Nat.even (String.length s) then s else String "0" s.

Lemma decodeHexNumber_0x c s :
  decodeHexNumber ("0x" +:+ String c s) = (false, DecodeString (pad_even (String c s))).
Proof.
  unfold decodeHexNumber. rewrite !string_app_cons, string_app_nil.
  cbn match beta zeta.
  replace (2 <? Z.of_nat (String.length (String "0" (String "x" (String c s))))) with true
    by (symmetry; apply Z.ltb_lt; cbn [String.length]; lia).
  replace (HasPrefix (String "0" (String "x" (String c s))) "0x") with true
    by (symmetry; unfold HasPrefix; apply prefix_spec; by exists (String c s)).
  reflexivity.
Qed.

(** A non-negative integer of any size survives being written as a
    hexadecimal number and read back by [BigInt]; of a negative one [BigInt]
    cannot read what was written. *)
Lemma HexInt_BigInt_NewHexInt (v : Z) :
  HexInt_BigInt (NewHexInt v) = if 0 <=? v then Ok v else Err errInvalidByte.
Proof.
  unfold HexInt_BigInt, ParseBigInt, NewHexInt. destruct (Z.leb_spec 0 v) as [Hv|Hv].
  - pose proof (base_value_FormatInt 16 v ltac:(lia) Hv) as Hval.
    destruct (FormatInt_head v Hv) as (d & s & _ & Hs). rewrite Hs, decodeHexNumber_0x, <-Hs.
    assert (Nat.even (String.length (pad_even (FormatInt v 16))) = true ∧
      base_value 16 (pad_even (FormatInt v 16)) 0 = Some v) as [He Ht].
    { unfold pad_even. destruct (Nat.even (String.length (FormatInt v 16))) eqn:E; [by rewrite E|]. cbn [String.length base_value].
      split; [by rewrite Nat.even_succ, <-Nat.negb_even, E|exact Hval]. }
    destruct (Decode_value _ 0 v He Ht) as (bs & Hbs & Hv'). rewrite Hbs. cbn. by rewrite <-Hv'.
  - assert (∃ r, FormatInt v 16 = String "-" r) as [r Hr].
    { unfold FormatInt. replace (v <? 0) with true by lia. eauto. }
    rewrite Hr, decodeHexNumber_0x. unfold pad_even.
    destruct (Nat.even (String.length (String "-" r))); [|done]. by destruct r.
Qed.

(** Bytes survive being written in hexadecimal and read back. *)
Lemma HexBytes_Value_NewHexBytes (b : string) : HexBytes_Value (NewHexBytes b) = Ok b.
Proof. unfold NewHexBytes. cbn. apply Decode_Encode. Qed.

Lemma Address_Value_prefix x e :
  x = "c"%char ∨ x = "h"%char →
  Address_Value (String x (String "x" e)) =
  (bs ← decode20 e;
   let n := Z.of_nat (String.length bs) in
   if n =? 20 then Ok (String (if decide (x = "c"%char) then "001"%char else "000"%char) bs)
   else Err ("invalid length " +:+ FormatInt n 10)).
Proof.
  intros Hx. unfold Address_Value.
  replace (Z.of_nat (String.length (String x (String "x" e))) <? 2) with false
    by (symmetry; apply Z.ltb_ge; cbn [String.length]; lia).
  cbn [String.substring string_drop].
  replace (String.substring 0 0 e) with "" by by destruct e.
  by destruct Hx as [-> | ->].
Qed.

(** The 21 bytes of a contract or account address survive being written as
    an address and read back. *)
Lemma Address_Value_NewAddress c (r : string)
  (Hc : byte_of c = 0 ∨ byte_of c = 1) (Hr : String.length r = 20%nat) :
  Address_Value (NewAddress (String c r)) = Ok (String c r).
Proof.
  assert (String.length (EncodeToString r) = 40%nat) as Hlen by (rewrite length_EncodeToString; lia).
  assert (∀ s, (String.length s ≤ 42)%nat → String.substring 0 42 s = s) as Hsub.
  { generalize 42%nat. intros n s. revert n. induction s as [|x s IH]; intros [|n] Hn; cbn in *; try lia; [done..|].
    f_equal. apply IH. lia. }
  assert (decode20 (EncodeToString r) = Ok r) as Hdec.
  { unfold decode20. rewrite Hsub by lia. rewrite Decode_Encode, Hr. done. }
  assert (c = if byte_of c =? 1 then "001"%char else "000"%char) as Hc'.
  { rewrite <-(of_byte_of c) at 1. destruct Hc as [-> | ->]; done. }
  unfold NewAddress. rewrite Hr. change (Z.of_nat 20 =? 20) with true. cbv iota.
  destruct (Z.eqb_spec (byte_of c) 1) as [H1|H1].
  - rewrite !string_app_cons, string_app_nil, Address_Value_prefix by auto.
    rewrite Hdec. cbn [mbind res_bind]. rewrite Hr. cbn. by rewrite <-Hc'.
  - destruct Hc as [Hc|]; [|done]. rewrite Hc. cbn [Z.eqb].
    rewrite !string_app_cons, string_app_nil, Address_Value_prefix by auto.
    rewrite Hdec. cbn [mbind res_bind]. rewrite Hr. cbn. by rewrite <-Hc'.
Qed.
