(* ===== verification/IconOptions.v ===== *)
(** Package relayer/chains/icon, client.go: the options that the client sends to
    the node in the Icon-Options header, and the header's format. *)
From stdpp Require Import gmap strings list.
From Stdlib Require Import ZArith Lia Ascii.
From S2P Require Import Prelude GoStd Types.
Open Scope Z_scope.

Definition HeaderKeyIconOptions : string := "Icon-Options".
Definition IconOptionsDebug : string := "debug".
Definition IconOptionsTimeout : string := "timeout".

Abbreviation IconOptions := (gmap string string).

(** * Access *)

Definition Set_ (key value : string) (opts : IconOptions) : IconOptions := <[key := value]> opts.
Definition Get (key : string) (opts : IconOptions) : string := default "" (opts !! key).
Definition Del (key : string) (opts : IconOptions) : IconOptions := delete key opts.

(** [strconv.FormatBool] and [strconv.ParseBool] *)
Definition FormatBool (b : bool) : string := if b then "true" else "false".
Definition ParseBool (s : string) : res bool :=
  if decide (s ∈ ["1"; "t"; "T"; "TRUE"; "true"; "True"]) then Ok true
  else if decide (s ∈ ["0"; "f"; "F"; "FALSE"; "false"; "False"]) then Ok false
  else Err errSyntax.

Definition SetBool (key : string) (value : bool) (opts : IconOptions) : IconOptions :=
  Set_ key (FormatBool value) opts.
Definition GetBool (key : string) (opts : IconOptions) : res bool := ParseBool (Get key opts).
Definition SetInt (key : string) (v : Z) (opts : IconOptions) : IconOptions :=
  Set_ key (FormatInt v 10) opts.
Definition GetInt (key : string) (opts : IconOptions) : Z * error := ParseInt (Get key opts) 10 64.

(** * The header *)

(** The options in the order in which the map is visited. *)
Definition ToHeaderValue (opts : list (string * string)) : string :=
  Join ((λ '(k, v), k +:+ "=" +:+ v) <$> opts) ",".

(** One element of the header: a name without a value, also when it starts with
    the equals sign, has the empty value. *)
Definition header_entry (kv : string) : string * string :=
  match SplitN2 kv "=" with
  | [k; v] => if decide (k = "") then (kv, "") else (k, v)
  | _ => (kv, "")
  end.

Definition add_entry (m : IconOptions) (kv : string) : IconOptions :=
  if decide (kv = "") then m else <[(header_entry kv).1 := (header_entry kv).2]> m.

(** From the header's text; [None] is the nil map. *)
Definition NewIconOptionsByHeader (s : string) : option IconOptions :=
  if decide (s = "") then None else Some (foldl add_entry ∅ (Split s ",")).

(** The options of [NewClient]. *)
Definition client_options : IconOptions := {[ IconOptionsTimeout := "10s"; IconOptionsDebug := "true" ]}.

(** * Facts *)

Lemma header_entry_kv k v : k ≠ "" → has_char "=" k = false → header_entry (k +:+ "=" +:+ v) = (k, v).
Proof.
  intros Hk Hc. unfold header_entry. rewrite string_app_cons, string_app_nil.
  rewrite SplitN2_cons by done. by rewrite decide_False.
Qed.

Lemma add_entries_map (l : list (string * string)) (m : IconOptions) :
  Forall (λ kv, kv.1 ≠ "" ∧ has_char "=" kv.1 = false) l →
  foldl add_entry m ((λ '(k, v), k +:+ "=" +:+ v) <$> l) = list_to_map (reverse l) ∪ m.
Proof.
  intros Hl. revert m. induction Hl as [|[k v] l [Hk Hc] Hl IH]; intros m; [symmetry; apply (left_id_L ∅ (∪))|].
  cbn [fmap list_fmap foldl]. rewrite IH. unfold add_entry at 1.
  rewrite decide_False by (by destruct k). rewrite header_entry_kv by done. cbn [fst snd].
  rewrite reverse_cons, list_to_map_app, <-(assoc_L (∪)). f_equal. cbn.
  by rewrite <-insert_union_l, (left_id_L ∅ (∪)).
Qed.

(** An option that was set is read back, and a number or a truth value that was
    set is read back as it was. *)
Theorem options_get_set (opts : IconOptions) key value b z (Hz : - 2 ^ 63 ≤ z < 2 ^ 63) :
  Get key (Set_ key value opts) = value ∧ Get key (Del key opts) = "" ∧
  GetBool key (SetBool key b opts) = Ok b ∧ GetInt key (SetInt key z opts) = (z, None).
Proof.
  unfold Get, Set_, Del, GetBool, SetBool, GetInt, SetInt, Get, Set_.
  rewrite !lookup_insert_eq, lookup_delete_eq. split_and!; [done|done|by destruct b|].
  cbn [default]. apply ParseInt_FormatInt; lia.
Qed.

Lemma options_get_set_witness :
  GetInt "retries" (SetInt "retries" (-7) client_options) = (-7, None).
Proof. by apply (options_get_set client_options "retries" "" true (-7)). Defined.

(** The header carries the options: read back, it gives the map it was written
    from, in whatever order the map was visited, when names are not empty and
    hold neither separator and values hold no comma. *)
Theorem header_roundtrip (opts : IconOptions) order
  (Hord : order ≡ₚ map_to_list opts) (Hne : opts ≠ ∅)
  (Hk : map_Forall (λ k v, k ≠ "" ∧ has_char "=" k = false ∧ has_char "," k = false ∧
                           has_char "," v = false) opts) :
  NewIconOptionsByHeader (ToHeaderValue order) = Some opts.
Proof.
  assert (Forall (λ kv, kv.1 ≠ "" ∧ has_char "=" kv.1 = false ∧ has_char "," kv.1 = false ∧
    has_char "," kv.2 = false) order) as Hall.
  { rewrite Hord. apply map_Forall_to_list in Hk. eapply Forall_impl; [exact Hk|]. by intros []. }
  assert (order ≠ []) as Hon.
  { intros ->. apply Permutation_nil_l in Hord. symmetry in Hord. by apply map_to_list_empty_iff in Hord. }
  assert (Split (ToHeaderValue order) "," = (λ '(k, v), k +:+ "=" +:+ v) <$> order) as Hs.
  { apply Split_Join; [by destruct order|]. apply Forall_fmap. eapply Forall_impl; [exact Hall|].
    intros [k v] (_ & _ & Hck & Hcv). cbn in *. rewrite !has_char_app, Hck, Hcv. done. }
  unfold NewIconOptionsByHeader. rewrite decide_False.
  - rewrite Hs, add_entries_map by (eapply Forall_impl; [exact Hall|]; naive_solver).
    rewrite (right_id_L ∅ (∪)). f_equal. rewrite <-(list_to_map_to_list opts).
    apply list_to_map_proper; [|by rewrite reverse_Permutation].
    rewrite reverse_Permutation, Hord. apply NoDup_fst_map_to_list.
  - destruct order as [|[k v] order]; [done|]. apply Forall_cons in Hall as [(Hk0 & _) _].
    destruct k; [done|]. unfold ToHeaderValue. by destruct order.
Qed.

Lemma header_roundtrip_witness :
  NewIconOptionsByHeader "timeout=10s,debug=true" = Some client_options.
Proof.
  apply (header_roundtrip client_options [(IconOptionsTimeout, "10s"); (IconOptionsDebug, "true")]).
  - vm_compute. apply perm_swap || reflexivity.
  - by intros H%(f_equal (lookup IconOptionsDebug)).
  - unfold client_options. intros k v [[<- <-]|[_ [<- <-]%lookup_singleton_Some]]%lookup_insert_Some;
      by vm_compute.
Defined.
