(* ===== verification/Icon.v ===== *)
(** Package relayer/chains/icon: the provider for ICON.

    The JSON-RPC transport, the JSON serialisation and the cryptography are
    third-party: [IconNode] holds the answers a node and those libraries give
    during one operation.  The provider's state is its wallet and the
    transactions it has sent. *)
From stdpp Require Import gmap strings list.
From Stdlib Require Import ZArith Lia Ascii.
From S2P Require Import Prelude GoStd Types Provider IconTypes.
Open Scope Z_scope.

Module Icon.

(** * Configuration *)

Record Config := mkConfig {
  c_Common : CommonConfig;
  c_StepMin : Z;
  c_StepLimit : Z;
  c_StepAdjustment : Z }.

Definition Validate (c : Config) : error :=
  if decide (cc_RPCUrl (c_Common c) = "") then Some "icon provider rpc endpoint is empty"
  else match ContractConfigMap_Validate (cc_Contracts (c_Common c)) with
       | Some e => Some ("contracts are not valid: " +:+ e)
       | None => None
       end.

Definition sanitize (c : Config) : Config :=
  mkConfig (c_Common c) (c_StepMin c) (c_StepLimit c)
    (if c_StepAdjustment c =? 0 then 50 else c_StepAdjustment c).

(** [NewProvider], given the node's network information: the configuration and
    the network id. *)
Definition NewProvider (c : Config) (info : res NetworkInfo) (homepath chainName : string) :
    res (Config * HexInt) :=
  match Validate c with
  | Some e => Err e
  | None =>
      let c := sanitize c in
      info ← wrapErr "failed to get network id: " info;
      let k := c_Common c in
      Ok (mkConfig (mkCommonConfig chainName (cc_RPCUrl k) (cc_StartHeight k) (cc_Address k)
            (cc_Contracts k) (cc_FinalityBlock k) (cc_NID k) homepath (cc_Disabled k))
            (c_StepMin c) (c_StepLimit c) (c_StepAdjustment c), ni_NetworkID info)
  end.

(** * Methods and events *)

Definition MethodRecvMessage : string := "recvMessage".
Definition MethodGetReceipts : string := "getReceipts".
Definition MethodSetAdmin : string := "setAdmin".
Definition MethodRevertMessage : string := "revertMessage".
Definition MethodGetFee : string := "getFee".
Definition MethodSetFee : string := "setFee".
Definition MethodClaimFees : string := "claimFees".
Definition MethodExecuteCall : string := "executeCall".
Definition MethodExecuteRollback : string := "executeRollback".

Definition EmitMessageSig : string := "Message(str,int,bytes)".
Definition CallMessageSig : string := "CallMessage(str,str,int,int,bytes)".
Definition RollbackMessageSig : string := "RollbackMessage(int)".

Definition sig_types (contractName : string) : list (string * string) :=
  if decide (contractName = XcallContract) then
    [(CallMessageSig, CallMessage); (RollbackMessageSig, RollbackMessage)]
  else if decide (contractName = ConnectionContract) then [(EmitMessageSig, EmitMessage)]
  else [].

(** A contract of the provider: its address, name, and signatures with their
    event types. *)
Record Contract := mkContract { ct_Address : string; ct_Name : string; ct_Sigs : list (string * string) }.

(** [eventMap], the contracts visited in the order given: the map is by address,
    so a contract replaces an earlier one at the same address. *)
Definition eventMap (contracts : list (string * string)) : list Contract :=
  foldl (λ out '(name, addr),
    mkContract addr name (sig_types name) :: filter (λ c, ct_Address c ≠ addr) out) [] contracts.

Definition GetAddressByEventType (contracts : list Contract) (eventType : string) : Address :=
  match list_find (λ c, eventType ∈ (ct_Sigs c).*2) contracts with
  | Some (_, c) => ct_Address c
  | None => ""
  end.

Definition GetMonitorEventFilters (contracts : list Contract) : list EventFilter :=
  c ← contracts; (λ sig, mkEventFilter (ct_Address c) sig.1) <$> ct_Sigs c.

Definition GetEventName (contracts : list Contract) (sig : string) : string :=
  match list_find (λ s, s.1 = sig) (c ← contracts; ct_Sigs c) with
  | Some (_, s) => s.2
  | None => ""
  end.

(** * The node *)

(** One poll for a transaction's result. *)
Inductive Poll : Type :=
| PResult (r : TransactionResult)
| PPending
| PError (e : string)
| PCancelled (e : string).

Record IconNode := mkIconNode {
  GetLastBlock : res Block;
  GetBlockByHeight : HexInt → res Block;
  GetTransactionResult : HexBytes → res TransactionResult;
  polls : HexBytes → list Poll;
  Call : CallParam → res HexInt;
  EstimateStep : TransactionParam → res HexInt;
  node_SendTransaction : TransactionParam → res HexBytes;
  node_GetBalance : Address → res HexInt;
  (* the transaction's JSON, its serialisation, hash and signature *)
  marshal_tx : TransactionParam → res string;
  SerializeJSON : string → res string;
  SHA3Sum256 : string → string;
  Sign : string → res string;
  wallet_bytes : res string }.

Record IconState := mkIconState { i_wallet : option string; i_sent : list TransactionParam }.

Record IconMessage := mkIconMessage {
  im_Address : Address; im_Params : list (string * string); im_Method : string }.

(** [guessDebugEndpoint] *)
Definition guessDebugEndpoint (endpoint : string) : string := Replace1 endpoint "v3" "v3d".
Definition wsEndpoint (endpoint reqUrl : string) : string := Replace1 endpoint "http" "ws" +:+ reqUrl.

Section Provider.
Context (node : IconNode) (cfg : Config) (networkID : HexInt) (contracts : list Contract).
Abbreviation NID := (cc_NID (c_Common cfg)).
Abbreviation Icon := (proc IconState).

(** ** Messages *)

Definition big_nil_Int64 (z : option Z) : res Z := z ← deref z; Ok (big_Int64 z).

(** Serial numbers and request ids are written through [Int64]. *)
Definition MakeIconMessage (message : MessageOf Z) : res IconMessage :=
  let ev := m_EventType message in
  let addr := GetAddressByEventType contracts ev in
  if decide (ev = EmitMessage) then
    sn ← big_nil_Int64 (m_Sn message);
    Ok (mkIconMessage addr [("srcNetwork", m_Src message); ("_connSn", NewHexInt sn);
          ("msg", NewHexBytes (m_Data message))] MethodRecvMessage)
  else if decide (ev = CallMessage) then
    req ← big_nil_Int64 (m_ReqID message);
    Ok (mkIconMessage addr [("_reqId", NewHexInt req); ("_data", NewHexBytes (m_Data message))]
          MethodExecuteCall)
  else if decide (ev = RollbackMessage) then
    sn ← big_nil_Int64 (m_Sn message);
    Ok (mkIconMessage addr [("_sn", NewHexInt sn)] MethodExecuteRollback)
  else if decide (ev = SetAdmin) then
    Ok (mkIconMessage addr [("_relayer", m_Src message)] MethodSetAdmin)
  else if decide (ev = RevertMessage) then
    sn ← big_nil_Int64 (m_Sn message);
    Ok (mkIconMessage addr [("_sn", NewHexInt sn)] MethodRevertMessage)
  else if decide (ev = ClaimFee) then Ok (mkIconMessage addr [] MethodClaimFees)
  else if decide (ev = SetFee) then
    msg ← big_nil_Int64 (m_Sn message);
    resp ← big_nil_Int64 (m_ReqID message);
    Ok (mkIconMessage addr [("networkId", m_Src message); ("messageFee", NewHexInt msg);
          ("responseFee", NewHexInt resp)] MethodSetFee)
  else Err ("can't generate message for unknown event type: " +:+ ev +:+ " ").

(** ** Transactions *)

Definition Wallet : Icon (string + string) :=
  w ← gets i_wallet;
  match w with
  | Some w => okE w
  | None =>
      w ←? liftRes (wallet_bytes node);
      _ ← modify (λ s, mkIconState (Some w) (i_sent s));
      okE w
  end.

Definition with_step (step : HexInt) (p : TransactionParam) : TransactionParam :=
  mkTransactionParam (tp_Version p) (tp_FromAddress p) (tp_ToAddress p) (tp_Value p) step
    (tp_Timestamp p) (tp_NetworkID p) (tp_Nonce p) (tp_Signature p) (tp_DataType p) (tp_Data p) (tp_TxHash p).
Definition with_time (t : HexInt) (p : TransactionParam) : TransactionParam :=
  mkTransactionParam (tp_Version p) (tp_FromAddress p) (tp_ToAddress p) (tp_Value p) (tp_StepLimit p)
    t (tp_NetworkID p) (tp_Nonce p) (tp_Signature p) (tp_DataType p) (tp_Data p) (tp_TxHash p).
Definition with_signature (hash sig : string) (p : TransactionParam) : TransactionParam :=
  mkTransactionParam (tp_Version p) (tp_FromAddress p) (tp_ToAddress p) (tp_Value p) (tp_StepLimit p)
    (tp_Timestamp p) (tp_NetworkID p) (tp_Nonce p) sig (tp_DataType p) (tp_Data p) hash.

(** [Client.SignTransaction]; [now] in nanoseconds. *)
Definition SignTransaction (now : Z) (p : TransactionParam) : res TransactionParam :=
  let p := with_time (NewHexInt (Z.quot now 1000)) p in
  js ← marshal_tx node p;
  bs ← SerializeJSON node js;
  let txHash := SHA3Sum256 node ("icx_sendTransaction." +:+ bs) in
  sig ← Sign node txHash;
  Ok (with_signature (NewHexBytes txHash) (Base64.EncodeToString sig) p).

(** [Client.EstimateStep], on a copy of the transaction stamped with the time
    in units of 3.6 seconds ([time.Hour.Microseconds()] nanoseconds); the debug
    end point is the node's, with the version changed. *)
Definition estimate_param (now : Z) (p : TransactionParam) : TransactionParam :=
  with_time (NewHexInt (Z.quot now 3600000000)) p.
Definition EstimateStep_ (now : Z) (p : TransactionParam) : res HexInt :=
  if decide (guessDebugEndpoint (cc_RPCUrl (c_Common cfg)) = "") then Err "UnavailableDebugEndPoint"
  else EstimateStep node (estimate_param now p).

(** The transaction before its step limit is known. *)
Definition tx_param (wallet : string) (msg : IconMessage) : TransactionParam :=
  mkTransactionParam (NewHexInt 3) (NewAddress wallet) (im_Address msg) "" "" "" networkID "" ""
    "call" (mkCallData (im_Method msg) (im_Params msg)) "".

(** The adjusted number of steps, in [int64]. *)
Definition adjust (steps : Z) : Z :=
  i64 (steps + Z.quot (i64 (steps * c_StepAdjustment cfg)) 100).

Definition SendTransaction (now : Z) (msg : IconMessage) : Icon (string + string) :=
  wallet ←? Wallet;
  let txParam := tx_param wallet msg in
  step ←? liftRes (wrapErr "failed estimating step: " (EstimateStep_ now txParam));
  match HexInt_Int64 step with
  | (_, Some e) => mret (inr e)
  | (steps, None) =>
      if c_StepLimit cfg <? steps then mret (inr ("step limit is too high: " +:+ FormatInt steps 10))
      else if steps <? c_StepMin cfg then mret (inr ("step limit is too low: " +:+ FormatInt steps 10))
      else
        let txParam := with_step (NewHexInt (adjust steps)) txParam in
        txParam ←? liftRes (SignTransaction now txParam);
        _ ←? liftRes (node_SendTransaction node txParam);
        _ ← modify (λ s, mkIconState (i_wallet s) (i_sent s ++ [txParam]));
        liftRes (HexBytes_Value (tp_TxHash txParam))
  end.

(** [WaitForResults]: at most [MaxTxRetry] polls. *)
Fixpoint WaitForResults_loop (hash : HexBytes) (retryCounter : Z) (l : list Poll) :
    res TransactionResult :=
  match l with
  | [] => Err "context canceled"
  | PCancelled e :: _ => Err e
  | p :: l =>
      if MaxTxRetry <=? retryCounter then Err ("max retry reached for tx " +:+ hash)
      else match p with
           | PPending => WaitForResults_loop hash (retryCounter + 1) l
           | PResult r => Ok r
           | PError e => Err e
           | PCancelled e => Err e
           end
  end.
Definition WaitForResults (hash : HexBytes) : res TransactionResult :=
  WaitForResults_loop hash 0 (polls node hash).

Definition err_text (e : error) : string := match e with Some e => e | None => "%!s(<nil>)" end.

(** The calls of the callback and the error returned.  A height that does not
    parse calls the callback and goes on. *)
Definition WaitForTxResult (txHash : string) (messageKey : MessageKey) (has_callback : bool) :
    list CallbackCall * res unit :=
  if has_callback then
    let txhash := NewHexBytes txHash in
    let call h code err := mkCallbackCall messageKey (mkTxResponse h txhash "" code "") err in
    match WaitForResults txhash with
    | Panic => ([], Panic)
    | Err e => ([call 0 Failed (Some e)], Err e)
    | Ok txRes =>
        let '(height, herr) := HexInt_Value (tres_BlockHeight txRes) in
        let first := match herr with Some e => [call 0 Failed (Some e)] | None => [] end in
        let '(status, serr) := HexInt_Int (tres_Status txRes) in
        if negb (status =? 1) || bool_decide (serr ≠ None) then
          let e := "error: " +:+ err_text serr in
          (first ++ [call height Failed (Some e)], Err e)
        else (first ++ [call height Success None], Ok tt)
    end
  else ([], Ok tt).

Definition Route (now : Z) (message : Message) : Icon (list CallbackCall * res unit) :=
  m ← liftRes (MakeIconMessage (message_wire message));
  match m with
  | inr e => mret ([], Err e)
  | inl iconMessage =>
      tx ← SendTransaction now iconMessage;
      match tx with
      | inr e => mret ([], Err ("error occured while sending transaction: " +:+ e))
      | inl txhash => mret (WaitForTxResult txhash (Message_MessageKey message) true)
      end
  end.

(** ** Administration *)

Definition connection : Address := default "" (cc_Contracts (c_Common cfg) !! ConnectionContract).
Definition xcall : Address := default "" (cc_Contracts (c_Common cfg) !! XcallContract).

(** Sending, waiting for the result of the transaction with hash [hash_of tx],
    and checking its status. *)
Definition send_and_wait (now : Z) (pre_send pre_wait pre_status : string) (hash_of : string → HexBytes)
    (msg : IconMessage) : Icon (unit + string) :=
  r ← SendTransaction now msg;
  match r with
  | inr e => mret (inr (pre_send +:+ e))
  | inl txHash =>
      txr ←? liftRes (wrapErr pre_wait (WaitForResults (hash_of txHash)));
      if decide (tres_Status txr = NewHexInt 1) then okE tt
      else mret (inr (pre_status +:+ tres_TxHash txr))
  end.

Definition RevertMessage_ (now : Z) (sn : option Z) : Icon (unit + string) :=
  sn ←? liftRes (big_nil_Int64 sn);
  send_and_wait now "" "" "failed: " NewHexBytes
    (mkIconMessage connection [("sn", NewHexInt sn)] MethodRevertMessage).

(** The raw hash, not its hexadecimal form, is waited for. *)
Definition SetAdmin_ (now : Z) (admin : string) : Icon (unit + string) :=
  send_and_wait now "SetAdmin: " "SetAdmin: WaitForResults: " "SetAdmin: failed to set admin: " id
    (mkIconMessage connection [("_relayer", admin)] MethodSetAdmin).

Definition SetFee_ (now : Z) (nid : string) (msgFee resFee : option Z) : Icon (unit + string) :=
  m ←? liftRes (big_nil_Int64 msgFee);
  r ←? liftRes (big_nil_Int64 resFee);
  send_and_wait now "SetFee: " "SetFee: WaitForResults: " "SetFee: failed to claim fees: " NewHexBytes
    (mkIconMessage connection [("networkId", nid); ("messageFee", NewHexInt m);
       ("responseFee", NewHexInt r)] MethodSetFee).

Definition ClaimFee_ (now : Z) : Icon (unit + string) :=
  send_and_wait now "ClaimFees: " "ClaimFees: WaitForResults: " "ClaimFees: failed to claim fees: "
    NewHexBytes (mkIconMessage connection [] MethodClaimFees).

Definition ExecuteRollback_ (now sn : Z) : Icon (unit + string) :=
  send_and_wait now "" "" "failed: " NewHexBytes
    (mkIconMessage xcall [("_sn", NewHexInt sn)] MethodExecuteRollback).

(** ** Queries *)

Definition prepareCallParams (methodName : string) (address : string) (param : list (string * string)) :
    CallParam :=
  mkCallParam (cc_Address (c_Common cfg)) address "call" (mkCallData methodName param) "".

Definition QueryLatestHeight_ : res Z := block ← GetLastBlock node; Ok (u64 (blk_Height block)).

(** The status is read after the call that fills it. *)
Definition MessageReceived_ (k : MessageKey) : res bool :=
  if decide (k_EventType k = EmitMessage) then
    sn ← big_nil_Int64 (sn_val (k_Sn k));
    status ← Call node (prepareCallParams MethodGetReceipts connection
      [("srcNetwork", k_Src k); ("_connSn", NewHexInt sn)]);
    Ok (bool_decide (status = NewHexInt 1))
  else if decide (k_EventType k = CallMessage) then Ok false
  else if decide (k_EventType k = RollbackMessage) then Ok false
  else Err "unknown event type".

(** The fee asked for always includes the response. *)
Definition GetFee_ (nid : string) (responseFee : bool) : res Z :=
  status ← wrapErr "GetFee: " (Call node (prepareCallParams MethodGetFee connection
    [("to", nid); ("response", NewHexInt 1)]));
  fee ← wrapErr "GetFee: " (HexInt_BigInt status);
  Ok (big_Uint64 fee).

Definition QueryBalance_ (addr : string) : res Coin :=
  balance ← node_GetBalance node addr;
  balance ← HexInt_BigInt balance;
  Ok (NewCoin "ICX" (big_Uint64 balance)).

Definition QueryTransactionReceipt_ (txHash : string) : res (option Receipt) :=
  r ← wrapErr "QueryTransactionReceipt: GetTransactionResult: " (GetTransactionResult node txHash);
  height ← wrapErr "QueryTransactionReceipt: bigIntConversion " (HexInt_BigInt (tres_BlockHeight r));
  match HexInt_Int (tres_Status r) with
  | (_, Some e) => Err ("QueryTransactionReceipt: bigIntConversion " +:+ e)
  | (status, None) => Ok (Some (mkReceipt txHash (big_Uint64 height) (status =? 1)))
  end.

(** ** Events *)

(** The part of the sender's address before the first slash. *)
Definition network_of (from : string) : string :=
  match SplitN2 from "/" with src :: _ => src | [] => "" end.

Definition len_string (l : list string) : string := FormatInt (Z.of_nat (length l)) 10.
Definition expected (what : string) (indexed data : list string) : string :=
  "expected indexed: " +:+ what +:+ ", got: " +:+ len_string indexed +:+ " indexed & " +:+ len_string data.

(** The length check joins its two conditions with "and", so it rejects only
    events that are wrong in both. *)
Definition parseEmitMessageEvent (height : Z) (e : EventNotificationLog) : res (MessageOf Z) :=
  if negb (length (enl_Indexed e) =? 3)%nat && negb (length (enl_Data e) =? 1)%nat then
    Err (expected "3 & data: 1" (enl_Indexed e) (enl_Data e))
  else
    dst ← index (enl_Indexed e) 1;
    i2 ← index (enl_Indexed e) 2;
    match HexInt_BigInt i2 with
    | Panic => Panic
    | Err _ => Err ("failed to parse sn: " +:+ i2)
    | Ok sn =>
        d0 ← index (enl_Data e) 0;
        match HexBytes_Value d0 with
        | Panic => Panic
        | Err _ => Err ("failed to parse data: " +:+ d0)
        | Ok data =>
            i0 ← index (enl_Indexed e) 0;
            Ok (mkMessage dst NID (Some sn) data height (GetEventName contracts i0) None)
        end
    end.

Definition parseCallMessageEvent (height : Z) (e : EventNotificationLog) : res (MessageOf Z) :=
  if negb (length (enl_Indexed e) =? 4)%nat && negb (length (enl_Data e) =? 2)%nat then
    Err (expected "4 & data: 2" (enl_Indexed e) (enl_Data e))
  else
    i1 ← index (enl_Indexed e) 1;
    i3 ← index (enl_Indexed e) 3;
    match HexInt_BigInt i3 with
    | Panic => Panic
    | Err _ => i2 ← index (enl_Indexed e) 2; Err ("failed to parse sn: " +:+ i2)
    | Ok sn =>
        d0 ← index (enl_Data e) 0;
        match HexInt_BigInt d0 with
        | Panic => Panic
        | Err _ => Err ("failed to parse reqID: " +:+ d0)
        | Ok reqID =>
            d1 ← index (enl_Data e) 1;
            match HexBytes_Value d1 with
            | Panic => Panic
            | Err _ => Err ("failed to parse data: " +:+ d1)
            | Ok data =>
                i0 ← index (enl_Indexed e) 0;
                Ok (mkMessage NID (network_of i1) (Some sn) data height
                      (GetEventName contracts i0) (Some reqID))
            end
        end
    end.

Definition parseRollbackMessageEvent (height : Z) (e : EventNotificationLog) : res (MessageOf Z) :=
  if negb (length (enl_Indexed e) =? 2)%nat then
    Err ("expected indexed: 2, got: " +:+ len_string (enl_Indexed e) +:+ " indexed")
  else
    i1 ← index (enl_Indexed e) 1;
    match HexInt_BigInt i1 with
    | Panic => Panic
    | Err _ => Err ("failed to parse sn: " +:+ i1)
    | Ok sn =>
        i0 ← index (enl_Indexed e) 0;
        Ok (mkMessage NID NID (Some sn) "" height (GetEventName contracts i0) None)
    end.

(** One log of a notification; other events are passed over. *)
Definition parse_log (height : Z) (event : EventNotificationLog) : res (option (MessageOf Z)) :=
  i0 ← index (enl_Indexed event) 0;
  if decide (i0 = EmitMessageSig) then Some <$> parseEmitMessageEvent height event
  else if decide (i0 = CallMessageSig) then Some <$> parseCallMessageEvent height event
  else if decide (i0 = RollbackMessageSig) then Some <$> parseRollbackMessageEvent height event
  else Ok None.

(** *** Binary event logs *)

Definition parseEmitMessage (e : EventLog) (eventType : string) (height : Z) : res (MessageOf Z) :=
  if negb (length (el_Indexed e) =? 3)%nat && negb (length (el_Data e) =? 1)%nat then
    Err (expected "3 & data: 1" (el_Indexed e) (el_Data e))
  else
    dst ← index (el_Indexed e) 1;
    i2 ← index (el_Indexed e) 2;
    d0 ← index (el_Data e) 0;
    Ok (mkMessage dst NID (Some (SetBytes i2)) d0 height eventType None).

(** The third index, not the fourth, is read for the serial number. *)
Definition parseCallMessage (e : EventLog) (eventType : string) (height : Z) : res (MessageOf Z) :=
  if negb (length (el_Indexed e) =? 4)%nat && negb (length (el_Data e) =? 2)%nat then
    Err (expected "4 & data: 2" (el_Indexed e) (el_Data e))
  else
    i1 ← index (el_Indexed e) 1;
    i2 ← index (el_Indexed e) 2;
    d0 ← index (el_Data e) 0;
    d1 ← index (el_Data e) 1;
    Ok (mkMessage NID (network_of i1) (Some (SetBytes i2)) d1 height eventType (Some (SetBytes d0))).

(** [None] is a message that is dropped. *)
Definition parseMessageFromEvent (event : EventLog) (height : Z) : res (option (MessageOf Z)) :=
  eventName ← index (el_Indexed event) 0;
  let eventType := GetEventName contracts eventName in
  let dropped (r : res (MessageOf Z)) :=
    match r with Ok m => Ok (Some m) | Err _ => Ok None | Panic => Panic end in
  if decide (eventName = EmitMessageSig) then dropped (parseEmitMessage event eventType height)
  else if decide (eventName = CallMessageSig) then dropped (parseCallMessage event eventType height)
  else Ok None.

Definition parseMessagesFromEventlogs (eventlogs : list EventLog) (height : Z) : res (list (MessageOf Z)) :=
  msgs ← res_mapM (λ el, parseMessageFromEvent el height) eventlogs;
  Ok (omap (M:=list) id msgs).

(** *** Notifications *)

Definition parseMessageEvent (n : EventNotification) : res (list (MessageOf Z)) :=
  height ← HexInt_BigInt (en_Height n);
  msgs ← res_mapM (parse_log (big_Uint64 height)) (en_Logs n);
  Ok (omap (M:=list) id msgs).

(** ** Listener *)

(** The effect of one notification: the height asked for on the next
    reconnection, and the blocks sent. *)
Definition on_notification (reqHeight : HexInt) (n : EventNotification) :
    res (HexInt * list (BlockInfoOf Z)) :=
  if decide (en_Progress n ≠ "") then
    match HexInt_Value (en_Progress n) with
    | (_, Some _) => Ok (reqHeight, [])
    | (height, None) => Ok (if 0 <? height then NewHexInt height else reqHeight, [])
    end
  else
    match parseMessageEvent n with
    | Panic => Panic
    | Err _ => Ok (reqHeight, [])
    | Ok msgs => Ok (reqHeight, (λ m, mkBlockInfo (m_MessageHeight m) [m]) <$> msgs)
    end.

Definition StartFromHeight (lastSavedHeight : Z) : res Z :=
  latestHeight ← QueryLatestHeight_;
  let start := cc_StartHeight (c_Common cfg) in
  if negb (start =? 0) && (start <? latestHeight) then Ok (i64 start)
  else if negb (lastSavedHeight =? 0) && (lastSavedHeight <? latestHeight) then Ok (i64 lastSavedHeight)
  else Ok (i64 latestHeight).

Definition Listener_request (processedheight : Z) : EventRequest :=
  mkEventRequest (GetMonitorEventFilters contracts) (NewHexInt processedheight) (NewHexInt 1) (NewHexInt 25).

(** ** Messages of a block *)

(** One event log of a transaction: [Ok None] is [continue]. *)
Definition GenerateMessages_log (keySrc : string) (txHeight : HexInt) (el : EventLogStr) :
    res (option (MessageOf Z)) :=
  i0 ← index (els_Indexed el) 0;
  let eventType := GetEventName contracts i0 in
  height ← wrapErr "GenerateMessage: bigIntConversion " (HexInt_BigInt txHeight);
  let height := big_Uint64 height in
  if decide (i0 = EmitMessageSig) then
    match els_Indexed el, els_Data el with
    | [_; dst; i2], [d0] =>
        if decide (els_Addr el = connection) then
          match HexInt_BigInt i2, HexBytes_Value d0 with
          | Ok sn, Ok data => Ok (Some (mkMessage dst keySrc (Some sn) data height eventType None))
          | Ok _, Panic => Panic
          | _, _ => Ok None
          end
        else Ok None
    | _, _ => Ok None
    end
  else if decide (i0 = CallMessageSig) then
    match els_Indexed el, els_Data el with
    | [_; i1; i2; i3], [d0; d1] =>
        if decide (els_Addr el = xcall) then
          match HexInt_BigInt i3 with
          | Ok sn =>
              match HexInt_BigInt d0 with
              | Ok requestID =>
                  match HexBytes_Value d1 with
                  | Ok data => Ok (Some (mkMessage NID (network_of i1) (Some sn) data height eventType
                                      (Some requestID)))
                  | Panic => Panic
                  | Err _ => Ok None
                  end
              | _ => Err ("failed to parse reqID: " +:+ d0)
              end
          | _ => Err ("failed to parse sn: " +:+ i2)
          end
        else Ok None
    | _, _ => Ok None
    end
  else if decide (i0 = RollbackMessageSig) then
    match els_Indexed el with
    | [_; i1] =>
        if decide (els_Addr el = xcall) then
          match HexInt_BigInt i1 with
          | Ok sn => Ok (Some (mkMessage NID NID (Some sn) "" height eventType None))
          | _ => Err ("failed to parse sn: " +:+ i1)
          end
        else Ok None
    | _ => Ok None
    end
  else Ok None.

Definition GenerateMessages_tx (keySrc : string) (hash : HexBytes) : res (list (MessageOf Z)) :=
  txResult ← wrapErr "GenerateMessage:GetTransactionResult " (GetTransactionResult node hash);
  msgs ← res_mapM (GenerateMessages_log keySrc (tres_BlockHeight txResult)) (tres_EventLogs txResult);
  Ok (omap (M:=list) id msgs).

Definition GenerateMessages_ (key : option (KeyWithHeightOf BigInt)) : res (list (MessageOf Z)) :=
  match key with
  | None => Err "GenerateMessage: message key cannot be nil"
  | Some key =>
      block ← wrapErr "GenerateMessage:GetBlockByHeight "
        (GetBlockByHeight node (NewHexInt (i64 (kh_Height key))));
      msgs ← res_mapM (GenerateMessages_tx (k_Src (kh_Key key))) (blk_NormalTransactions block);
      match concat msgs with
      | [] => Err "GenerateMessage: no messages found"
      | messages => Ok messages
      end
  end.
End Provider.

Fixpoint all_hex (s : string) : bool :=
  match s with
  | "" => true
  | String c s => match hex_val c with Some _ => all_hex s | None => false end
  end.
(** [isHexString]; lower-casing the text first turns "0X" into "0x". *)
Definition isHexString (s : string) : bool :=
  match s with
  | String "0" (String "x" r) | String "0" (String "X" r) => all_hex r
  | _ => false
  end.

(** * Keystores (keys.go) *)

Record KeyEnv := mkKeyEnv {
  Encrypt : string → res string;
  Decrypt : string → res string;
  (* the key file's wallet address *)
  NewFromKeyStore : string → string → res string;
  EncryptKeyAsKeyStore : string → res string }.

Definition keystorePath (cfg : Config) (addr : string) : string :=
  pathJoin [cc_HomeDir (c_Common cfg); "keystore"; cc_NID (c_Common cfg); addr].

Definition ReadFile (fs : gmap string string) (path : string) : res string :=
  match fs !! path with
  | Some d => Ok d
  | None => Err ("open " +:+ path +:+ ": no such file or directory")
  end.

Definition RestoreKeystore (env : KeyEnv) (cfg : Config) (fs : gmap string string) : res string :=
  let path := keystorePath cfg (cc_Address (c_Common cfg)) in
  keystoreCipher ← ReadFile fs path;
  keystoreJson ← Decrypt env keystoreCipher;
  authCipher ← ReadFile fs (path +:+ ".pass");
  secret ← Decrypt env authCipher;
  NewFromKeyStore env keystoreJson secret.

(** The two files of a keystore. *)
Definition write_keystore (path enc encpass : string) (fs : gmap string string) : gmap string string :=
  <[path +:+ ".pass" := encpass]> (<[path := enc]> fs).

Definition NewKeystore (env : KeyEnv) (cfg : Config) (password : string) (fs : gmap string string) :
    gmap string string * res string :=
  let r := data ← EncryptKeyAsKeyStore env password;
           enc ← Encrypt env data; encpass ← Encrypt env password;
           addr ← NewFromKeyStore env data password; Ok (enc, encpass, addr) in
  match r with
  | Ok (enc, encpass, addr) => (write_keystore (keystorePath cfg addr) enc encpass fs, Ok addr)
  | Err e => (fs, Err e)
  | Panic => (fs, Panic)
  end.

(** The key file is written before the passphrase is encrypted. *)
Definition ImportKeystore (env : KeyEnv) (cfg : Config) (keystore passphrase : string)
    (fs : gmap string string) : gmap string string * res string :=
  match (addr ← NewFromKeyStore env keystore passphrase; enc ← Encrypt env keystore; Ok (addr, enc)) with
  | Ok (addr, enc) =>
      let path := keystorePath cfg addr in
      match Encrypt env passphrase with
      | Ok encpass => (write_keystore path enc encpass fs, Ok addr)
      | r => (<[path := enc]> fs, r)
      end
  | Err e => (fs, Err e)
  | Panic => (fs, Panic)
  end.
End Icon.
