(* ===== verification/IconCorrect.v ===== *)
(** The ICON provider: its formats, what it sends, what it reads from events,
    and what it tells the relayer. *)
From stdpp Require Import gmap strings list.
From Stdlib Require Import ZArith Lia Ascii.
From S2P Require Import Prelude GoStd Types Provider IconTypes Icon.
Import Icon.
Open Scope Z_scope.

(** * Formats *)

(** C32: integers of 64 bits through [Value], non-negative integers of any size
    through [BigInt], bytes, and contract and account addresses survive being
    written in ICON's formats and read back; but [Int64], which the step
    estimate and the status are read with, refuses every number from 2^31 on. *)
Theorem formats_roundtrip (v n : Z) (b : string) c (r : string)
  (Hv : - 2 ^ 63 ≤ v < 2 ^ 63) (Hn : 0 ≤ n)
  (Hc : byte_of c = 0 ∨ byte_of c = 1) (Hr : String.length r = 20%nat) :
  HexInt_Value (NewHexInt v) = (v, None) ∧ HexInt_BigInt (NewHexInt n) = Ok n ∧
  HexBytes_Value (NewHexBytes b) = Ok b ∧ Address_Value (NewAddress (String c r)) = Ok (String c r) ∧
  HexInt_Int64 (NewHexInt n) = (if n <? 2 ^ 31 then (n, None) else (2 ^ 31 - 1, Some errRange)).
Proof.
  split_and!; [by apply HexInt_Value_NewHexInt| |apply HexBytes_Value_NewHexBytes
    |by apply Address_Value_NewAddress|by apply HexInt_Int64_range].
  rewrite HexInt_BigInt_NewHexInt. by replace (0 <=? n) with true by lia.
Qed.

(** * Events *)

Section Events.
Context (cfg : Config) (contracts : list Contract).
Abbreviation NID := (cc_NID (c_Common cfg)).

(** The logs the contracts emit. *)
Definition emitted (addr : Address) (dst : string) (sn : Z) (data : string) : EventNotificationLog :=
  mkEventNotificationLog addr [EmitMessageSig; dst; NewHexInt sn] [NewHexBytes data].
Definition called (addr : Address) (net from to : string) (sn reqId : Z) (data : string) :
    EventNotificationLog :=
  mkEventNotificationLog addr [CallMessageSig; net +:+ "/" +:+ from; to; NewHexInt sn]
    [NewHexInt reqId; NewHexBytes data].
Definition rolledback (addr : Address) (sn : Z) : EventNotificationLog :=
  mkEventNotificationLog addr [RollbackMessageSig; NewHexInt sn] [].

Lemma network_of_app net from : has_char "/"%char net = false → network_of (net +:+ "/" +:+ from) = net.
Proof.
  intros H. unfold network_of. rewrite string_app_cons, string_app_nil. by rewrite SplitN2_cons.
Qed.

Lemma BigInt_nonneg n : 0 ≤ n → HexInt_BigInt (NewHexInt n) = Ok n.
Proof. intros. rewrite HexInt_BigInt_NewHexInt. by replace (0 <=? n) with true by lia. Qed.

Lemma parse_emitted h addr dst sn d :
  0 ≤ sn → parse_log cfg contracts h (emitted addr dst sn d) =
  Ok (Some (mkMessage dst NID (Some sn) d h (GetEventName contracts EmitMessageSig) None)).
Proof.
  intros. unfold parse_log, emitted, parseEmitMessageEvent. cbn [enl_Indexed enl_Data index lookup list_lookup deref mbind res_bind length].
  rewrite decide_True by done. cbn -[NewHexInt NewHexBytes GetEventName].
  rewrite BigInt_nonneg by done. cbn -[NewHexBytes GetEventName].
  by rewrite HexBytes_Value_NewHexBytes.
Qed.

Lemma parse_called h addr net from to sn req d :
  0 ≤ sn → 0 ≤ req → has_char "/"%char net = false →
  parse_log cfg contracts h (called addr net from to sn req d) =
  Ok (Some (mkMessage NID net (Some sn) d h (GetEventName contracts CallMessageSig) (Some req))).
Proof.
  intros. unfold parse_log, called, parseCallMessageEvent. cbn [enl_Indexed enl_Data index lookup list_lookup deref mbind res_bind length].
  rewrite decide_False, decide_True by done. cbn -[NewHexInt NewHexBytes GetEventName network_of String.append].
  rewrite !BigInt_nonneg by done. cbn -[NewHexBytes GetEventName network_of String.append].
  rewrite HexBytes_Value_NewHexBytes. cbn -[GetEventName network_of String.append]. by rewrite network_of_app.
Qed.

Lemma parse_rolledback h addr sn :
  0 ≤ sn → parse_log cfg contracts h (rolledback addr sn) =
  Ok (Some (mkMessage NID NID (Some sn) "" h (GetEventName contracts RollbackMessageSig) None)).
Proof.
  intros. unfold parse_log, rolledback, parseRollbackMessageEvent. cbn [enl_Indexed enl_Data index lookup list_lookup deref mbind res_bind length].
  rewrite !decide_False, decide_True by done. cbn -[NewHexInt GetEventName].
  by rewrite BigInt_nonneg.
Qed.

(** The events of a notification become the messages the contracts
    emitted: source and destination networks, serial number, request id, data
    and height, in the order of the logs, each under its event type. *)
Theorem parseMessageEvent_emitted (h sn1 sn2 sn3 req : Z) conn xcall dst d1 net from to d2
  (Hh : 0 ≤ h < 2 ^ 64) (H1 : 0 ≤ sn1) (H2 : 0 ≤ sn2) (H3 : 0 ≤ sn3) (Hr : 0 ≤ req)
  (Hnet : has_char "/"%char net = false) hash idx progress :
  parseMessageEvent cfg contracts (mkEventNotification hash (NewHexInt h) idx
    [emitted conn dst sn1 d1; called xcall net from to sn2 req d2; rolledback xcall sn3] progress)
  = Ok [mkMessage dst NID (Some sn1) d1 h (GetEventName contracts EmitMessageSig) None;
        mkMessage NID net (Some sn2) d2 h (GetEventName contracts CallMessageSig) (Some req);
        mkMessage NID NID (Some sn3) "" h (GetEventName contracts RollbackMessageSig) None].
Proof.
  unfold parseMessageEvent. cbn [en_Height en_Logs]. rewrite (BigInt_nonneg h) by lia.
  cbn [mbind res_bind]. unfold big_Uint64. rewrite Z.abs_eq, u64_small by lia.
  cbn [res_mapM]. by rewrite parse_emitted, parse_called, parse_rolledback.
Qed.

(** The length checks of emit and call events reject an event only when
    both of its counts are wrong: with the indexed values right and the data
    missing they let it through, and reading the data panics. *)
Theorem parse_without_data_panics (h sn req : Z) addr dst net to
  (H1 : 0 ≤ sn) :
  parseEmitMessageEvent cfg contracts h
    (mkEventNotificationLog addr [EmitMessageSig; dst; NewHexInt sn] []) = Panic ∧
  parseCallMessageEvent cfg contracts h
    (mkEventNotificationLog addr [CallMessageSig; net; to; NewHexInt sn] []) = Panic ∧
  is_ok (parseEmitMessageEvent cfg contracts h (mkEventNotificationLog addr [EmitMessageSig; dst] [])) = false.
Proof.
  unfold parseEmitMessageEvent, parseCallMessageEvent. cbn. by rewrite BigInt_nonneg.
Qed.
End Events.

(** * Results *)

Lemma polls_found hash counter l r :
  WaitForResults_loop hash counter l = Ok r → PResult r ∈ l.
Proof.
  revert counter. induction l as [|p l IH]; intros counter; cbn; [done|].
  destruct p; try done; case_match; try done; [intros [= ->]; left|right; eauto].
Qed.

Lemma polls_bounded hash counter l r :
  0 ≤ counter → WaitForResults_loop hash counter l = Ok r →
  ∃ n, counter + Z.of_nat n < MaxTxRetry ∧ l !! n = Some (PResult r) ∧
    Forall (λ p, p = PPending) (take n l).
Proof.
  revert counter. induction l as [|p l IH]; intros counter H0 H1; cbn in H1; [done|].
  destruct (Z.leb_spec MaxTxRetry counter); [by destruct p|].
  destruct p as [r'| | |]; try done.
  - injection H1 as ->. exists 0%nat. split; [lia|]. split; [done|constructor].
  - apply IH in H1 as (n & ? & ? & ?); [|lia]. exists (S n). split; [lia|]. split; [done|].
    cbn. by constructor.
Qed.

Lemma polls_no_panic hash counter l : WaitForResults_loop hash counter l ≠ Panic.
Proof. revert counter. induction l as [|[] l IH]; intros counter; cbn; try done; by case_match. Qed.

(** The wait for a transaction always calls the callback, and its last call
    agrees with the error returned to the relayer: success exactly when a
    result of status 1 came within the allowed polls.  When the result's height
    does not parse, that call is preceded by another one, a failure, so one
    transaction may be reported both as failed and as successful. *)
Theorem WaitForTxResult_calls node txHash key :
  let h := NewHexBytes txHash in
  let '(calls, r) := WaitForTxResult node txHash key true in
  ∃ first c, calls = first ++ [c] ∧
    cb_key c = key ∧ tr_TxHash (cb_response c) = h ∧ cb_err c = err_of r ∧
    (tr_Code (cb_response c) = Success ↔ r = Ok tt) ∧
    (r = Ok tt ↔ ∃ t, WaitForResults node h = Ok t ∧ HexInt_Int (tres_Status t) = (1, None)) ∧
    (r = Ok tt → ∃ n t, Z.of_nat n < MaxTxRetry ∧ polls node h !! n = Some (PResult t)) ∧
    (first = [] ∨ ∃ f t e, first = [f] ∧ cb_key f = key ∧ tr_Code (cb_response f) = Failed ∧
       cb_err f = Some e ∧ WaitForResults node h = Ok t ∧ (HexInt_Value (tres_BlockHeight t)).2 = Some e).
Proof.
  cbn zeta. unfold WaitForTxResult. destruct (WaitForResults node (NewHexBytes txHash)) as [t|e|] eqn:E.
  - destruct (HexInt_Value (tres_BlockHeight t)) as [height herr] eqn:Eh.
    destruct (HexInt_Int (tres_Status t)) as [status serr] eqn:Es.
    assert (let first := match herr with
      | Some e => [mkCallbackCall key (mkTxResponse 0 (NewHexBytes txHash) "" Failed "") (Some e)]
      | None => [] end in
      first = [] ∨ ∃ f t' e, first = [f] ∧ cb_key f = key ∧ tr_Code (cb_response f) = Failed ∧
        cb_err f = Some e ∧ Ok t = Ok t' ∧ (HexInt_Value (tres_BlockHeight t')).2 = Some e) as Hfirst.
    { destruct herr as [e|]; [right|by left].
      eexists _, t, e. split_and!; try done. by rewrite Eh. }
    destruct (negb (status =? 1) || bool_decide (serr ≠ None)) eqn:Eb.
    + eexists _, _. split_and!; [done|done|done|done|by split| |done|exact Hfirst].
      split; [done|]. intros (t' & [= <-] & Hs). rewrite Es in Hs. injection Hs as -> ->.
      by cbn in Eb.
    + apply orb_false_elim in Eb as [E1%negb_false_iff%Z.eqb_eq E2%bool_decide_eq_false].
      assert (serr = None) as -> by (destruct serr; [by destruct E2|done]). subst status.
      eexists _, _. split_and!; [done|done|done|done|by split| | |exact Hfirst].
      * split; [|done]. intros _. by exists t.
      * intros _. apply polls_bounded in E as (n & ? & ? & _); [|lia]. by exists n, t.
  - eexists [], _. split_and!; [done|done|done|done|by split| |done|by left].
    split; [done|]. by intros (? & ? & _).
  - by apply polls_no_panic in E.
Qed.

(** * Sending *)

Section Sending.
Context (node : IconNode) (cfg : Config) (networkID : HexInt).
Implicit Types (s : IconState).

Lemma Wallet_sent s : wlp (Wallet node) (λ _ s', i_sent s' = i_sent s) s.
Proof.
  apply wpx_bind, wpx_gets. destruct (i_wallet s); [done|].
  apply wpx_tryE, wlp_liftRes; [|done]. intros w _. by apply wpx_bind, wpx_modify.
Qed.

Lemma SignTransaction_spec now p p' :
  SignTransaction node now p = Ok p' →
  tp_ToAddress p' = tp_ToAddress p ∧ tp_Data p' = tp_Data p ∧ tp_StepLimit p' = tp_StepLimit p ∧
  ∃ bs, tp_TxHash p' = NewHexBytes (SHA3Sum256 node bs).
Proof.
  unfold SignTransaction. intros Hs.
  apply res_bind_Ok in Hs as (js & _ & Hs). apply res_bind_Ok in Hs as (bs & _ & Hs).
  apply res_bind_Ok in Hs as (sig & _ & [= <-]). cbn. eauto 10.
Qed.

(** What one [SendTransaction] of [msg] does to the transactions sent. *)
Definition sends (now : Z) (msg : IconMessage) s (r : string + string) s' : Prop :=
  match r with
  | inr _ => i_sent s' = i_sent s
  | inl hash => ∃ p wallet step steps bs,
      i_sent s' = i_sent s ++ [p] ∧
      tp_ToAddress p = im_Address msg ∧ tp_Data p = mkCallData (im_Method msg) (im_Params msg) ∧
      EstimateStep node (estimate_param now (tx_param networkID wallet msg)) = Ok step ∧ HexInt_Int64 step = (steps, None) ∧
      c_StepMin cfg ≤ steps ≤ c_StepLimit cfg ∧ tp_StepLimit p = NewHexInt (adjust cfg steps) ∧
      hash = SHA3Sum256 node bs ∧ tp_TxHash p = NewHexBytes hash
  end.

Lemma SendTransaction_sends_one now msg s :
  wlp (SendTransaction node cfg networkID now msg) (sends now msg s) s.
Proof.
  apply wpx_tryE. eapply wpx_mono; [apply Wallet_sent|]. intros [w|e] s1 Hs1; [|done].
  apply wpx_tryE, wlp_liftRes; [|done]. intros step Hstep.
  destruct (HexInt_Int64 step) as [steps [e|]] eqn:Esteps; [done|].
  destruct (Z.ltb_spec (c_StepLimit cfg) steps); [done|].
  destruct (Z.ltb_spec steps (c_StepMin cfg)); [done|].
  apply wpx_tryE, wlp_liftRes; [|done]. intros p Hp.
  apply wpx_tryE, wlp_liftRes; [|done]. intros _ _.
  apply wpx_bind, wpx_modify. apply SignTransaction_spec in Hp as (? & ? & ? & bs & Hh).
  rewrite Hh, HexBytes_Value_NewHexBytes. cbn.
  exists p, w, step, steps, bs. unfold wrapErr, EstimateStep_ in Hstep.
  case_decide; [done|]. destruct (EstimateStep _ _) as [st| |] eqn:E; try done. injection Hstep as ->.
  rewrite Hs1, Hh. split_and!; done.
Qed.

(** The node and the libraries answer, with a value or an error. *)
Record answers : Prop := {
  an_wallet : wallet_bytes node ≠ Panic;
  an_step p : EstimateStep node p ≠ Panic;
  an_marshal p : marshal_tx node p ≠ Panic;
  an_serialize j : SerializeJSON node j ≠ Panic;
  an_sign h : Sign node h ≠ Panic;
  an_send p : node_SendTransaction node p ≠ Panic }.

Lemma SignTransaction_no_panic now p : answers → SignTransaction node now p ≠ Panic.
Proof.
  intros Han. unfold SignTransaction. intros [?|(js & _ & H)]%res_bind_Panic; [by eapply an_marshal|].
  apply res_bind_Panic in H as [?|(bs & _ & H)]; [by eapply an_serialize|].
  apply res_bind_Panic in H as [?|(sig & _ & H)]; [by eapply an_sign|done].
Qed.

Lemma icon_SendTransaction_runs now msg s : answers →
  wp (SendTransaction node cfg networkID now msg) (λ _ _, True) s.
Proof.
  intros Han. apply wpx_tryE. apply (wpx_mono _ _ (λ _ _, True)).
  - apply wpx_bind, wpx_gets. destruct (i_wallet s); [done|].
    by apply wpx_tryE, wp_liftRes; [apply Han|intros; apply wpx_bind, wpx_modify|].
  - intros [w|e] s1 _; [|done]. apply wpx_tryE, wp_liftRes; [|intros step _|done].
    { pose proof (an_step Han (estimate_param now (tx_param networkID w msg))). unfold EstimateStep_.
      case_decide; [done|]. by destruct (EstimateStep _ _). }
    destruct (HexInt_Int64 step) as [steps [e|]]; [done|].
    destruct (c_StepLimit cfg <? steps); [done|]. destruct (steps <? c_StepMin cfg); [done|].
    apply wpx_tryE, wp_liftRes; [by apply SignTransaction_no_panic|intros p Hp|done].
    apply wpx_tryE, wp_liftRes; [apply Han|intros _ _|done]. apply wpx_bind, wpx_modify.
    apply SignTransaction_spec in Hp as (_ & _ & _ & bs & ->). by rewrite HexBytes_Value_NewHexBytes.
Qed.

Lemma icon_Route_runs contracts now (message : Message) s :
  answers → MakeIconMessage contracts (message_wire message) ≠ Panic →
  wp (Route node cfg networkID contracts now message) (λ '(calls, r) s',
    (i_sent s' = i_sent s ∧ calls = [] ∧ ∃ e, r = Err e) ∨
    (∃ msg hash, MakeIconMessage contracts (message_wire message) = Ok msg ∧ sends now msg s (inl hash) s' ∧
       (calls, r) = WaitForTxResult node hash (Message_MessageKey message) true)) s.
Proof.
  intros Han Hm. apply wpx_bind, wp_liftRes; [done| |intros e _; left; eauto]. intros msg Hmsg.
  apply wpx_bind. eapply wpx_mono.
  { apply (wp_of_wlp _ (λ _ _, True)); [apply SendTransaction_sends_one|by apply icon_SendTransaction_runs]. }
  intros [hash|e] s2 Hs; cbn in Hs; [|left; rewrite Hs; eauto].
  apply wpx_ret. destruct (WaitForTxResult _ _ _ _) as [calls r] eqn:E. right. exists msg, hash. by rewrite E.
Qed.

(** With a node that answers, routing a message that has the numbers its
    event type needs never panics.  It either sends nothing, calls no callback
    and reports an error, or sends exactly one transaction, the call that the
    message's event type stands for, with a step limit adjusted from an
    estimate within the configured bounds, and then waits for that transaction;
    an estimate of 2^31 steps or more always stops it. *)
Theorem Route_sends_one contracts now (message : Message) s
  (Han : answers) (Hm : MakeIconMessage contracts (message_wire message) ≠ Panic) :
  wp (Route node cfg networkID contracts now message) (λ '(calls, r) s',
    (i_sent s' = i_sent s ∧ calls = [] ∧ ∃ e, r = Err e) ∨
    (∃ msg p wallet step steps hash, i_sent s' = i_sent s ++ [p] ∧
       MakeIconMessage contracts (message_wire message) = Ok msg ∧
       tp_ToAddress p = im_Address msg ∧ tp_Data p = mkCallData (im_Method msg) (im_Params msg) ∧
       EstimateStep node (estimate_param now (tx_param networkID wallet msg)) = Ok step ∧ HexInt_Int64 step = (steps, None) ∧
       c_StepMin cfg ≤ steps ≤ c_StepLimit cfg ∧ tp_StepLimit p = NewHexInt (adjust cfg steps) ∧
       (∀ z, step = NewHexInt z → 0 ≤ z → z = steps ∧ z < 2 ^ 31) ∧
       tp_TxHash p = NewHexBytes hash ∧
       (calls, r) = WaitForTxResult node hash (Message_MessageKey message) true)) s.
Proof.
  eapply wpx_mono; [by apply icon_Route_runs|].
  intros [calls r] s2 [Hno|(msg & hash & Hmsg & (p & w & step & steps & bs & ? & ? & ? & ? & Hst & ? & ? & _ & Hh) & Hw)];
    [by left|right].
  exists msg, p, w, step, steps, hash. split_and!; try done; try lia.
  intros z -> Hz. rewrite HexInt_Int64_range in Hst by done.
  destruct (Z.ltb_spec z (2 ^ 31)); [|done]. by injection Hst as ->.
Qed.

(** [SetAdmin] never succeeds: it waits for the raw hash of its transaction
    rather than for the hexadecimal one, and a node knows no transaction by a
    name of other than 66 bytes; the transaction may have been sent. *)
Theorem SetAdmin_never_succeeds now admin s
  (Hsha : ∀ x, String.length (SHA3Sum256 node x) = 32%nat)
  (Hnode : ∀ h r, String.length h ≠ 66%nat → PResult r ∉ polls node h) :
  wlp (SetAdmin_ node cfg networkID now admin) (λ r _, ∃ e, r = inr e) s.
Proof.
  apply wpx_bind. eapply wpx_mono; [apply SendTransaction_sends_one|].
  intros [hash|e] s2 Hs; cbn in Hs; [|eexists; done].
  destruct Hs as (p & w & step & steps & bs & _ & _ & _ & _ & _ & _ & _ & -> & _).
  apply wpx_tryE, wlp_liftRes; [|eauto]. intros t Ht.
  unfold wrapErr in Ht. destruct (WaitForResults node _) as [t'| |] eqn:E; try done.
  apply polls_found in E. exfalso. eapply Hnode; [|exact E].
  cbn. by rewrite Hsha.
Qed.
End Sending.

(** * Messages *)

(** The relayed call carries the message's serial number exactly when the
    number fits in 64 bits with its sign; larger ones are sent truncated, and
    a message without one panics. *)
Theorem MakeIconMessage_sn contracts (m : MessageOf Z) sn
  (Hev : m_EventType m = EmitMessage) (Hsn : m_Sn m = Some sn) :
  (∃ msg v, MakeIconMessage contracts m = Ok msg ∧ im_Method msg = MethodRecvMessage ∧
    im_Params msg = [("srcNetwork", m_Src m); ("_connSn", v); ("msg", NewHexBytes (m_Data m))] ∧
    HexInt_Value v = (i64 sn, None) ∧ (HexInt_Value v = (sn, None) ↔ - 2 ^ 63 ≤ sn < 2 ^ 63)) ∧
  MakeIconMessage contracts (mkMessage (m_Dst m) (m_Src m) None (m_Data m) (m_MessageHeight m)
    EmitMessage (m_ReqID m)) = Panic.
Proof.
  split; [|done]. unfold MakeIconMessage. rewrite decide_True, Hsn by done. cbn [big_nil_Int64 deref mbind res_bind].
  pose proof (i64_range sn). pose proof (HexInt_Value_NewHexInt (i64 sn) ltac:(lia)) as Hv.
  eexists _, _. split_and!; [done|done|done|exact Hv|].
  unfold big_Int64. rewrite Hv. split; [intros [= <-]; lia|]. intros. by rewrite i64_small by lia.
Qed.

(** * Keystores *)

(** Both a new keystore and an imported one restore to the same wallet,
    once the configuration names its address. *)
Theorem keystore_restores env cfg (password data addr : string) fs enc encp
  (He : Encrypt env data = Ok enc) (Hep : Encrypt env password = Ok encp)
  (Hd : Decrypt env enc = Ok data) (Hdp : Decrypt env encp = Ok password)
  (Hk : NewFromKeyStore env data password = Ok addr)
  (Hcfg : cc_Address (c_Common cfg) = addr) :
  (EncryptKeyAsKeyStore env password = Ok data →
    (NewKeystore env cfg password fs).2 = Ok addr ∧
    RestoreKeystore env cfg (NewKeystore env cfg password fs).1 = Ok addr) ∧
  (ImportKeystore env cfg data password fs).2 = Ok addr ∧
  RestoreKeystore env cfg (ImportKeystore env cfg data password fs).1 = Ok addr.
Proof.
  assert (RestoreKeystore env cfg (write_keystore (keystorePath cfg addr) enc encp fs) = Ok addr) as Hr.
  { unfold RestoreKeystore, write_keystore, ReadFile. rewrite Hcfg. set (path := keystorePath cfg addr).
    rewrite (lookup_insert_ne _ (path +:+ ".pass") path).
    2: { intros Heq. assert (".pass" = "") as Hx; [|done]. apply (string_app_inj_l path).
         by rewrite Heq, string_app_nil_r. }
    rewrite !lookup_insert_eq. cbn [mbind res_bind]. rewrite Hd. cbn [mbind res_bind]. by rewrite Hdp. }
  split.
  - intros Hgk. unfold NewKeystore. rewrite Hgk. cbn [mbind res_bind]. rewrite He. cbn [mbind res_bind].
    rewrite Hep. cbn [mbind res_bind]. rewrite Hk. done.
  - unfold ImportKeystore. rewrite Hk. cbn [mbind res_bind]. rewrite He. cbn [mbind res_bind].
    rewrite Hep. done.
Qed.
