(* ===== verification/IconWitness.v ===== *)
(** Concrete runs of the ICON provider. *)
From stdpp Require Import gmap strings list.
From Stdlib Require Import ZArith Lia Ascii.
From S2P Require Import Prelude GoStd Types Provider IconTypes Icon IconCorrect.
Import Icon.
Open Scope Z_scope.

Definition bytes20 : string := "abcdefghijklmnopqrst".

Lemma formats_roundtrip_witness :
  HexInt_Value (NewHexInt (-5)) = (-5, None) ∧ HexInt_BigInt (NewHexInt (2 ^ 70)) = Ok (2 ^ 70) ∧
  HexInt_Int64 (NewHexInt (2 ^ 70)) = (2 ^ 31 - 1, Some errRange) ∧
  Address_Value (NewAddress (String "001" bytes20)) = Ok (String "001" bytes20).
Proof.
  destruct (formats_roundtrip (-5) (2 ^ 70) "b" "001"%char bytes20) as (Hv & Hb & _ & Ha & Hi);
    [lia|lia|right; reflexivity|reflexivity|].
  split_and!; [exact Hv|exact Hb|exact Hi|exact Ha].
Defined.

Definition common : CommonConfig :=
  mkCommonConfig "icon" "http://node/api/v3" 0 "hxw"
    {[ ConnectionContract := "cxc"; XcallContract := "cxx" ]} 0 "0x2.icon" "/home" false.
Definition cfg : Config := mkConfig common 100 1000000 50.
Definition contracts : list Contract := eventMap [(ConnectionContract, "cxc"); (XcallContract, "cxx")].

Lemma parseMessageEvent_emitted_witness :
  parseMessageEvent cfg contracts (mkEventNotification "h" (NewHexInt 77) "0x0"
    [emitted "cxc" "0x1.eth" 5 "data"; called "cxx" "0x1.eth" "0xf" "cxt" 6 9 "more"; rolledback "cxx" 8] "")
  = Ok [mkMessage "0x1.eth" "0x2.icon" (Some 5) "data" 77 EmitMessage None;
        mkMessage "0x2.icon" "0x1.eth" (Some 6) "more" 77 CallMessage (Some 9);
        mkMessage "0x2.icon" "0x2.icon" (Some 8) "" 77 RollbackMessage None].
Proof.
  rewrite (parseMessageEvent_emitted cfg contracts 77 5 6 8 9); [reflexivity|lia..|reflexivity].
Defined.

Lemma parse_without_data_panics_witness :
  parse_log cfg contracts 7 (mkEventNotificationLog "cxc" [EmitMessageSig; "0x1.eth"; NewHexInt 3] []) = Panic.
Proof.
  destruct (parse_without_data_panics cfg contracts 7 3 0 "cxc" "0x1.eth" "" "") as [H _]; [lia|].
  change (Some <$> parseEmitMessageEvent cfg contracts 7
    (mkEventNotificationLog "cxc" [EmitMessageSig; "0x1.eth"; NewHexInt 3] []) = Panic).
  exact (f_equal (λ r, Some <$> r) H).
Defined.

(** Hashes are 32 bytes, and the node knows transactions by 66 bytes. *)
Definition hash32 : string := "0123456789abcdef0123456789abcdef".
Definition result (status : HexInt) : TransactionResult :=
  mkTransactionResult "" "" "" "" [] "" status None "" "" (NewHexInt 120) "" "0xdd".
Definition node : IconNode := {|
  GetLastBlock := Ok (mkBlock 120 []);
  GetBlockByHeight _ := Ok (mkBlock 120 []);
  GetTransactionResult _ := Ok (result (NewHexInt 1));
  polls h := if decide (String.length h = 66%nat) then [PPending; PResult (result (NewHexInt 1))]
             else [PError "invalid params"];
  Call _ := Ok (NewHexInt 1);
  EstimateStep _ := Ok (NewHexInt 2000);
  node_SendTransaction p := Ok (tp_TxHash p);
  node_GetBalance _ := Ok (NewHexInt 5);
  marshal_tx _ := Ok "json";
  SerializeJSON s := Ok s;
  SHA3Sum256 _ := hash32;
  Sign s := Ok s;
  wallet_bytes := Ok (String "000" bytes20) |}.
Definition state0 : IconState := mkIconState None [].
Definition msg : Message := mkMessage "0x2.icon" "0x1.eth" (Some (mkBigInt 1 3)) "d" 5 EmitMessage None.

(** The message is sent with one and a half times the estimate, and delivered. *)
Lemma Route_sends_one_witness : ∃ s' calls p,
  Route node cfg "0x1" contracts 0 msg state0 = Some (s', (calls, Ok tt)) ∧
  i_sent s' = [p] ∧ tp_StepLimit p = NewHexInt 3000 ∧ length calls = 1%nat.
Proof.
  assert (answers node) as Han by by split.
  pose proof (Route_sends_one node cfg "0x1" contracts 0 msg state0 Han) as H. unfold wpx in H.
  destruct (Route node cfg "0x1" contracts 0 msg state0) as [[s' [calls r]]|] eqn:E;
    [|vm_compute in E; discriminate].
  assert (r = Ok tt) as -> by (vm_compute in E; by injection E).
  destruct H as [(_ & _ & e & [=])|(im & p & w & step & steps & hash & Hs & _ & _ & _ & Hstep & Hst & _ & Hl & _)];
    [by vm_compute|].
  exists s', calls, p. split; [done|]. split; [exact Hs|]. split.
  - change (Ok (NewHexInt 2000) = Ok step) in Hstep. injection Hstep as <-.
    vm_compute in Hst. injection Hst as <-. rewrite Hl. reflexivity.
  - vm_compute in E. by injection E as _ <-.
Defined.

(** A result whose height does not parse is reported twice. *)
Definition node2 : IconNode := {|
  GetLastBlock := Ok (mkBlock 120 []); GetBlockByHeight _ := Ok (mkBlock 120 []);
  GetTransactionResult _ := Err "no";
  polls _ := [PResult (mkTransactionResult "" "" "" "" [] "" (NewHexInt 1) None "" "" "zz" "" "0xdd")];
  Call _ := Err "no"; EstimateStep _ := Err "no"; node_SendTransaction _ := Err "no";
  node_GetBalance _ := Err "no"; marshal_tx _ := Err "no"; SerializeJSON _ := Err "no";
  SHA3Sum256 _ := hash32; Sign _ := Err "no"; wallet_bytes := Err "no" |}.

Lemma WaitForTxResult_calls_witness : ∃ c1 c2,
  WaitForTxResult node2 hash32 (Message_MessageKey msg) true = ([c1; c2], Ok tt) ∧
  tr_Code (cb_response c1) = Failed ∧ tr_Code (cb_response c2) = Success.
Proof.
  pose proof (WaitForTxResult_calls node2 hash32 (Message_MessageKey msg)) as H. cbn zeta in H.
  destruct (WaitForTxResult node2 hash32 (Message_MessageKey msg) true) as [calls r] eqn:E.
  assert (length calls = 2%nat ∧ r = Ok tt) as [Hl ->] by (vm_compute in E; injection E as <- <-; done).
  destruct H as (first & c & -> & _ & _ & _ & Hc & _ & _ & [->|(f & t & e & -> & _ & Hf & _)]); [done|].
  exists f, c. split; [done|]. split; [exact Hf|by apply Hc].
Defined.

Lemma SetAdmin_never_succeeds_witness : ∃ s' e,
  SetAdmin_ node cfg "0x1" 0 "hxnew" state0 = Some (s', inr e) ∧ length (i_sent s') = 1%nat.
Proof.
  pose proof (SetAdmin_never_succeeds node cfg "0x1" 0 "hxnew" state0) as H. unfold wpx in H.
  destruct (SetAdmin_ node cfg "0x1" 0 "hxnew" state0) as [[s' r]|] eqn:E; [|vm_compute in E; discriminate].
  destruct H as [e ->]; [done| |].
  - intros h r' Hh. unfold node. cbn [polls]. rewrite decide_False by done.
    by intros [[=]|[]%elem_of_nil]%elem_of_cons.
  - exists s', e. split; [done|]. vm_compute in E. by injection E as <- _.
Defined.

Definition msg_sn (sn : Z) : MessageOf Z := mkMessage "0x2.icon" "0x1.eth" (Some sn) "d" 5 EmitMessage None.

Lemma MakeIconMessage_sn_witness : ∃ m v,
  MakeIconMessage contracts (msg_sn (2 ^ 64 + 3)) = Ok m ∧
  im_Params m = [("srcNetwork", "0x1.eth"); ("_connSn", v); ("msg", NewHexBytes "d")] ∧
  HexInt_Value v = (3, None).
Proof.
  destruct (MakeIconMessage_sn contracts (msg_sn (2 ^ 64 + 3)) (2 ^ 64 + 3) eq_refl eq_refl)
    as [(m & v & Hm & _ & Hp & Hv & _) _].
  exists m, v. split; [exact Hm|]. split; [exact Hp|]. rewrite Hv. reflexivity.
Defined.

Definition env : KeyEnv := {|
  Encrypt s := Ok ("e" +:+ s);
  Decrypt s := match s with String _ r => Ok r | "" => Err "no" end;
  NewFromKeyStore _ _ := Ok "hxw";
  EncryptKeyAsKeyStore _ := Ok "key" |}.

Lemma keystore_restores_witness :
  RestoreKeystore env cfg (NewKeystore env cfg "pass" ∅).1 = Ok "hxw".
Proof.
  by destruct (keystore_restores env cfg "pass" "key" "hxw" ∅ "ekey" "epass") as [[_ H] _].
Defined.
