(* ===== verification/IconMonitor.v ===== *)
(** ICON's event monitor: the websocket side of the client
    (relayer/chains/icon/client.go), and the listener that keeps it running
    (relayer/chains/icon/listener.go).

    A connection is its local address and what reading it yields, one read at a
    time; a read blocks for as long as nothing arrives. *)
From stdpp Require Import gmap strings list.
From Stdlib Require Import ZArith Lia.
From S2P Require Import Prelude GoStd Types Provider IconTypes Icon.
Open Scope Z_scope.

(** * The client *)

(** What the callback of [Monitor] is given, for notifications of type [N]. *)
Inductive WsEvent (N : Type) : Type :=
| WSEventInit
| WsNotification (n : N)
| WsError (err : string).
Arguments WSEventInit {_}. Arguments WsNotification {_} _. Arguments WsError {_} _.

Record WSResponse := mkWSResponse { ws_Code : Z; ws_Message : string }.

(** One round of the read loop: the context's error if it is done, or what the
    read returns; [normal] marks the error of a normal closure. *)
Inductive WsRead (N : Type) : Type :=
| RCancelled (err : string)
| RNotification (n : N)
| RError (err : string) (normal : bool).
Arguments RCancelled {_} _. Arguments RNotification {_} _. Arguments RError {_} _ _.

(** What dialling and the first exchange, with a request of type [Req], answer. *)
Record WsPeer (Req : Type) := mkWsPeer {
  ws_Dial : string → res string;
  ws_WriteJSON : Req → error;
  ws_ReadJSON : res WSResponse }.
Arguments mkWsPeer {_} _ _ _. Arguments ws_Dial {_} _ _. Arguments ws_WriteJSON {_} _ _. Arguments ws_ReadJSON {_} _.

(** The client's connections by local address, and the state that the callback
    works on. *)
Record Mon (A : Type) := mkMon { mn_conns : gset string; mn_user : A }.
Arguments mkMon {_} _ _. Arguments mn_conns {_} _. Arguments mn_user {_} _.

Section Client.
Context {A N Req : Type}.
Abbreviation M := (proc (Mon A)).

(** A callback returns an error, or panics. *)
Definition callback : Type := WsEvent N → proc A error.

Definition call_cb (cb : callback) (e : WsEvent N) : M error := λ s,
  match cb e (mn_user s) with
  | Some (u, err) => Some (mkMon (mn_conns s) u, err)
  | None => None
  end.

Definition addWsConn (la : string) : M unit := modify (λ s, mkMon ({[la]} ∪ mn_conns s) (mn_user s)).
Definition removeWsConn (la : string) : M unit := modify (λ s, mkMon (mn_conns s ∖ {[la]}) (mn_user s)).

(** The answers to the close message and to [Close] are only logged. *)
Definition wsClose (la : string) : M unit := removeWsConn la.

Definition CloseMonitor (la : string) : M unit := wsClose la.
Definition CloseAllMonitor (order : list string) : M unit := for_each order wsClose.

(** The local address of the connection. *)
Definition wsConnect (endpoint reqUrl : string) (peer : WsPeer Req) : M (string + string) :=
  la ←? liftRes (ws_Dial peer (Icon.wsEndpoint endpoint reqUrl));
  _ ← addWsConn la;
  okE la.

Definition wsRequest (peer : WsPeer Req) (req : Req) : res unit :=
  match ws_WriteJSON peer req with
  | Some err => Err ("fail to WriteJSON err:" +:+ err)
  | None =>
      match ws_ReadJSON peer with
      | Panic => Panic
      | Err err => Err ("fail to ReadJSON err:" +:+ err)
      | Ok resp =>
          if ws_Code resp =? 0 then Ok tt
          else Err ("invalid WSResponse code:" +:+ FormatInt (ws_Code resp) 10 +:+ ", message:" +:+ ws_Message resp)
      end
  end.

(** [None]: it is still reading. *)
Fixpoint wsReadJSONLoop (la : string) (reads : list (WsRead N)) (cb : callback) : M (option string) :=
  match reads with
  | [] => mret None
  | RCancelled err :: _ => mret (Some err)
  | r :: reads =>
      conns ← gets mn_conns;
      if decide (la ∉ conns) then mret (Some "wsReadJSONLoop c.conns is nil")
      else
        match r with
        | RCancelled err => mret (Some err)
        | RError err normal =>
            _ ← (if normal : bool then mret None else call_cb cb (WsError err));
            mret (Some err)
        | RNotification n =>
            err ← call_cb cb (WsNotification n);
            match err with
            | Some err => mret (Some err)
            | None => wsReadJSONLoop la reads cb
            end
        end
  end.

(** [Monitor]: the connection is closed whenever it returns. *)
Definition Monitor (endpoint reqUrl : string) (peer : WsPeer Req) (req : Req) (reads : list (WsRead N))
    (cb : callback) : M (option string) :=
  la ← wsConnect endpoint reqUrl peer;
  match la with
  | inr err => mret (Some err)
  | inl la =>
      let finish err := _ ← wsClose la; mret (Some err) in
      r ← liftRes (wsRequest peer req);
      match r with
      | inr err => finish err
      | inl _ =>
          err ← call_cb cb WSEventInit;
          match err with
          | Some err => finish err
          | None =>
              err ← wsReadJSONLoop la reads cb;
              match err with
              | Some err => finish err
              | None => mret None
              end
          end
      end
  end.

(** What a panic-free exchange leaves: whatever ends a monitor, its connection
    is gone from the client. *)
Lemma Monitor_closes endpoint reqUrl peer req reads cb conns u la s err :
  ws_Dial peer (Icon.wsEndpoint endpoint reqUrl) = Ok la → la ∉ conns →
  Monitor endpoint reqUrl peer req reads cb (mkMon conns u) = Some (s, Some err) → la ∉ mn_conns s.
Proof.
  intros Hd Hn. unfold Monitor, wsConnect, tryE, liftRes, addWsConn, modify, okE, wsClose, removeWsConn, mbind, proc_bind.
  rewrite Hd. cbn. destruct (wsRequest peer req) as [[]|e|]; cbn; [|intros [= <- _]; cbn; set_solver|done].
  destruct (call_cb cb WSEventInit _) as [[s1 [e|]]|]; [intros [= <- _]; cbn; set_solver| |done].
  destruct (wsReadJSONLoop la reads cb s1) as [[s2 [e|]]|]; [intros [= <- _]; cbn; set_solver|done|done].
Qed.
End Client.
Arguments callback _ _ : clear implicits.

(** * Monitoring blocks *)

Section Blocks.
Context {A : Type}.

(** The callback that [MonitorBlock] makes of its own: an error ends the
    monitor; [scb] is called once the node has answered, and must be there. *)
Definition block_callback (cb : BlockNotification → proc A error) (scb : option (proc A unit)) (errCb : string → proc A unit) :
    callback A BlockNotification := λ e,
  match e with
  | WsNotification t => cb t
  | WSEventInit =>
      match scb with
      | Some scb => _ ← scb; mret None
      | None => mret (Some "Second Callback function (scb) is nil ")
      end
  | WsError t => _ ← errCb t; mret (Some t)
  end.

Definition MonitorBlock (endpoint : string) (peer : WsPeer BlockRequest) (req : BlockRequest) (reads : list (WsRead BlockNotification))
    (cb : BlockNotification → proc A error) (scb : option (proc A unit)) (errCb : string → proc A unit) :
    proc (Mon A) (option string) :=
  Monitor endpoint "/block" peer req reads (block_callback cb scb errCb).

(** Without [scb] it reads nothing. *)
Lemma MonitorBlock_needs_scb endpoint peer req reads cb errCb conns u la :
  ws_Dial peer (Icon.wsEndpoint endpoint "/block") = Ok la → la ∉ conns → wsRequest peer req = Ok tt →
  MonitorBlock endpoint peer req reads cb None errCb (mkMon conns u) =
  Some (mkMon conns u, Some "Second Callback function (scb) is nil ").
Proof.
  intros Hd Hn Hr. unfold MonitorBlock, Monitor, wsConnect, tryE, liftRes, addWsConn, modify, okE, mbind, proc_bind.
  rewrite Hd. cbn. rewrite Hr. cbn. by replace (({[la]} ∪ conns) ∖ {[la]}) with conns by set_solver.
Qed.
End Blocks.

(** * Monitoring events *)

Section Events.
Context {A : Type}.
Abbreviation M := (proc (Mon A)).

(** The callback that [MonitorEvent] makes of its own: an error is only
    logged; anything but a notification goes to [errCb]. *)
Definition event_callback (cb : EventNotification → proc A error) (errCb : string → proc A unit) :
    callback A EventNotification := λ e,
  match e with
  | WsNotification n => _ ← cb n; mret None
  | WsError err => _ ← errCb err; mret None
  | WSEventInit => _ ← errCb "not supported type types.WSEvent"; mret None
  end.

Definition MonitorEvent (endpoint : string) (peer : WsPeer EventRequest) (req : EventRequest) (reads : list (WsRead EventNotification))
    (cb : EventNotification → proc A error) (errCb : string → proc A unit) : M (option string) :=
  Monitor endpoint "/event" peer req reads (event_callback cb errCb).

(** ** What a monitor does *)

(** The notifications up to the first round that is not one, and how it ends:
    with an error, of which the callback is told or not. *)
Fixpoint read_until (reads : list (WsRead EventNotification)) : list EventNotification * option (string * bool) :=
  match reads with
  | [] => ([], None)
  | RNotification n :: reads => let '(ns, e) := read_until reads in (n :: ns, e)
  | RCancelled err :: _ => ([], Some (err, false))
  | RError err normal :: _ => ([], Some (err, negb normal))
  end.

(** What that does to the callback's state. *)
Definition handle_all (cb : EventNotification → proc A error) (errCb : string → proc A unit)
    (reads : list (WsRead EventNotification)) : proc A unit :=
  _ ← for_each (read_until reads).1 (λ n, _ ← cb n; mret tt);
  match (read_until reads).2 with Some (err, true) => errCb err | _ => mret tt end.

(** The same, on the client. *)
Definition on_user {B} (m : proc A B) : M B := λ s,
  match m (mn_user s) with
  | Some (u, b) => Some (mkMon (mn_conns s) u, b)
  | None => None
  end.

Lemma loop_spec la reads cb errCb s :
  la ∈ mn_conns s →
  wsReadJSONLoop la reads (event_callback cb errCb) s =
  (_ ← on_user (handle_all cb errCb reads); mret (fst <$> (read_until reads).2)) s.
Proof.
  revert s. induction reads as [|[err|n|err normal] reads IH]; intros [conns u] Hla.
  - done.
  - done.
  - cbn [wsReadJSONLoop]. unfold mbind at 1, proc_bind at 1, gets at 1. cbn [mn_conns] in *.
    rewrite decide_False by tauto. unfold call_cb, event_callback, on_user, handle_all.
    cbn [read_until]. destruct (read_until reads) as [ns e] eqn:E. cbn [fst snd for_each].
    unfold mbind, proc_bind. cbn [mn_user mn_conns]. destruct (cb n u) as [[u' x]|]; cbn; [|done].
    rewrite IH by done. unfold on_user, handle_all. rewrite E. unfold mbind, proc_bind. cbn [mn_user mn_conns fst snd]. done.
  - cbn [wsReadJSONLoop]. unfold mbind at 1, proc_bind at 1, gets at 1. cbn [mn_conns] in *.
    rewrite decide_False by tauto. unfold call_cb, event_callback, on_user, handle_all.
    destruct normal; cbn; [done|]. unfold mbind, proc_bind. cbn. by destruct (errCb err u) as [[u' x]|].
Qed.

(** A monitor hands every notification it reads to the callback, in order
    and whatever the callback returns, until the read fails or the context ends;
    it returns that error, and by then its connection is gone from the client. *)
Theorem MonitorEvent_reads endpoint peer req reads cb errCb conns u la
  (Hdial : ws_Dial peer (Icon.wsEndpoint endpoint "/event") = Ok la) (Hnew : la ∉ conns)
  (Hreq : wsRequest peer req = Ok tt) :
  MonitorEvent endpoint peer req reads cb errCb (mkMon conns u) =
  match (_ ← errCb "not supported type types.WSEvent"; handle_all cb errCb reads) u with
  | None => None
  | Some (u', _) =>
      Some (match (read_until reads).2 with
            | Some (err, _) => (mkMon conns u', Some err)
            | None => (mkMon ({[la]} ∪ conns) u', None)
            end)
  end.
Proof.
  unfold MonitorEvent, Monitor, wsConnect, tryE. rewrite Hdial, Hreq.
  unfold liftRes, addWsConn, modify, okE, call_cb. cbn. unfold mbind, proc_bind. cbn.
  destruct (errCb _ u) as [[u1 []]|]; cbn; [|done].
  rewrite loop_spec by (cbn; set_solver). unfold on_user, mbind, proc_bind. cbn [mn_user mn_conns].
  destruct (handle_all cb errCb reads u1) as [[u2 []]|]; cbn; [|done].
  destruct (read_until reads).2 as [[err b]|]; cbn; [|done].
  unfold wsClose, removeWsConn, modify. cbn.
  by replace (({[la]} ∪ conns) ∖ {[la]}) with conns by set_solver.
Qed.
End Events.

(** * The listener *)

(** The goroutine that monitors: before its connection is open, reading, with
    what has arrived on it, or asleep after an error. *)
Inductive Monitoring : Type :=
| MStarting
| MReading (queue : list EventNotification)
| MSleeping.

(** [il_req] is shared by the callbacks of all connections; [il_token] is the
    reconnect channel, of capacity one. *)
Record IListening := mkIListening {
  il_req : EventRequest;
  il_token : bool;
  il_monitors : list Monitoring;
  il_out : list (BlockInfoOf Z);
  il_returned : option string }.

Inductive ievent : Type :=
| IReconnect
| IOpened (i : nat) (r : res unit)
| IRead (i : nat) (cancelled : bool)
| IFailed (i : nat)
| IWake (i : nat)
| IStopped (i : nat)
| ICancelled (err : string).

Section Listener.
Context (cfg : Icon.Config) (contracts : list Icon.Contract).

Definition with_height (h : HexInt) (r : EventRequest) : EventRequest :=
  mkEventRequest (erq_EventFilter r) h (erq_Logs r) (erq_ProgressInterval r).

(** The error that the callback returns, to be logged. *)
Definition notification_error (n : EventNotification) : error :=
  if decide (en_Progress n ≠ "") then (HexInt_Value (en_Progress n)).2
  else err_of (Icon.parseMessageEvent cfg contracts n).

(** The callback of [MonitorEvent], on the request and the blocks sent. *)
Definition on_event (cancelled : bool) (n : EventNotification) :
    proc (EventRequest * list (BlockInfoOf Z)) error := λ '(req, out),
  if cancelled then Some ((req, out), None)
  else match Icon.on_notification cfg contracts (erq_Height req) n with
       | Panic => None
       | Err e => Some ((req, out), Some e)
       | Ok (h, blocks) => Some ((with_height h req, out ++ blocks), notification_error n)
       end.

Definition IListener_begin (processedheight : Z) : IListening :=
  mkIListening (Icon.Listener_request contracts processedheight) true [] [] None.

Definition in_monitors (ms : list Monitoring) (s : IListening) : IListening :=
  mkIListening (il_req s) (il_token s) ms (il_out s) (il_returned s).

(** [case <-reconnectCh] *)
Definition i_reconnect (s : IListening) : option IListening :=
  match il_returned s, il_token s with
  | None, true => Some (mkIListening (il_req s) false (il_monitors s ++ [MStarting]) (il_out s) None)
  | _, _ => None
  end.

(** The connection and the first exchange. *)
Definition i_opened (i : nat) (r : res unit) (s : IListening) : option IListening :=
  match il_monitors s !! i with
  | Some MStarting =>
      Some (in_monitors (<[i := match r with Ok _ => MReading [] | _ => MSleeping end]> (il_monitors s)) s)
  | _ => None
  end.

(** A notification is read and handled; a panic ends the process. *)
Definition i_read (i : nat) (cancelled : bool) (s : IListening) : option IListening :=
  match il_monitors s !! i with
  | Some (MReading (n :: queue)) =>
      match on_event cancelled n (il_req s, il_out s) with
      | Some ((req, out), _) =>
          Some (mkIListening req (il_token s) (<[i := MReading queue]> (il_monitors s)) out (il_returned s))
      | None => None
      end
  | _ => None
  end.

(** [MonitorEvent] returns an error that is not the context's. *)
Definition i_failed (i : nat) (s : IListening) : option IListening :=
  match il_monitors s !! i with
  | Some (MReading _) => Some (in_monitors (<[i := MSleeping]> (il_monitors s)) s)
  | _ => None
  end.

(** After three seconds: [reconnect()], and the goroutine ends. *)
Definition i_wake (i : nat) (s : IListening) : option IListening :=
  match il_monitors s !! i with
  | Some MSleeping =>
      Some (mkIListening (il_req s) true (delete i (il_monitors s)) (il_out s) (il_returned s))
  | _ => None
  end.

(** [MonitorEvent] returns [context.Canceled]. *)
Definition i_stopped (i : nat) (s : IListening) : option IListening :=
  match il_monitors s !! i with
  | Some (MReading _) => Some (in_monitors (delete i (il_monitors s)) s)
  | _ => None
  end.

(** [case <-ctx.Done()] *)
Definition i_cancelled (err : string) (s : IListening) : option IListening :=
  match il_returned s with
  | None => Some (mkIListening (il_req s) (il_token s) (il_monitors s) (il_out s) (Some err))
  | Some _ => None
  end.

Definition irun (e : ievent) : IListening → option IListening :=
  match e with
  | IReconnect => i_reconnect
  | IOpened i r => i_opened i r
  | IRead i cancelled => i_read i cancelled
  | IFailed i => i_failed i
  | IWake i => i_wake i
  | IStopped i => i_stopped i
  | ICancelled err => i_cancelled err
  end.

(** The context lives. *)
Definition alive (e : ievent) : bool :=
  match e with IRead _ true | IStopped _ | ICancelled _ => false | _ => true end.

(** * The node *)

(** The chain's height and the notifications of its events with their heights,
    the listener, and the height that the open connection streams next. *)
Record INode := mkINode {
  in_head : Z;
  in_events : list (Z * EventNotification);
  in_pos : Z;
  in_l : IListening }.

Definition progress (p : Z) : EventNotification := mkEventNotification "" "" "" [] (NewHexInt p).

Definition arrive (ns : list EventNotification) (w : INode) : INode :=
  mkINode (in_head w) (in_events w) (in_pos w)
    (in_monitors ((λ m, match m with MReading q => MReading (q ++ ns) | m => m end) <$> il_monitors (in_l w)) (in_l w)).
Definition streamed (w : INode) : list EventNotification :=
  snd <$> filter (λ e, e.1 = in_pos w) (in_events w).

(** What the node does: make a block; stream the events of the next height;
    tell that all below some height have been streamed.  A connection streams
    from the height requested. *)
Inductive istep (w : INode) : INode → Prop :=
| istep_mine evs :
    Forall (λ e, e.1 = in_head w + 1 ∧ en_Progress e.2 = "") evs →
    istep w (mkINode (in_head w + 1) (in_events w ++ evs) (in_pos w) (in_l w))
| istep_stream w' :
    in_pos w ≤ in_head w → w' = arrive (streamed w) w →
    istep w (mkINode (in_head w') (in_events w') (in_pos w' + 1) (in_l w'))
| istep_progress p : 0 < p ≤ in_pos w → istep w (arrive [progress p] w)
| istep_run e s :
    alive e = true → irun e (in_l w) = Some s →
    istep w (mkINode (in_head w) (in_events w)
      (match e with IOpened _ _ => (HexInt_Value (erq_Height (il_req s))).1 | _ => in_pos w end) s).

Definition istarts (h0 : Z) (w : INode) : Prop :=
  0 ≤ h0 ≤ in_head w + 1 ∧ in_l w = IListener_begin h0 ∧
  Forall (λ e, e.1 ≤ in_head w ∧ en_Progress e.2 = "") (in_events w).

Inductive ireached (h0 : Z) : INode → Prop :=
| ireached_begin w : istarts h0 w → ireached h0 w
| ireached_step w w' : ireached h0 w → istep w w' → ireached h0 w'.

(** ** What is still to come *)

(** The blocks of a notification that parses have been sent. *)
Definition handled (s : IListening) (n : EventNotification) : Prop :=
  ∀ msgs m, Icon.parseMessageEvent cfg contracts n = Ok msgs → m ∈ msgs →
    mkBlockInfo (m_MessageHeight m) [m] ∈ il_out s.

(** Every event from [h0] on below [p] has been handled, or is in [q]. *)
Definition past (h0 : Z) (w : INode) (q : list EventNotification) (p : Z) : Prop :=
  p ≤ in_head w + 1 ∧
  ∀ h n, (h, n) ∈ in_events w → h0 ≤ h < p → handled (in_l w) n ∨ n ∈ q.

(** A progress notification is true of the notifications before it. *)
Definition true_progress (h0 : Z) (w : INode) (q : list EventNotification) : Prop :=
  ∀ q1 x q2, q = q1 ++ x :: q2 → en_Progress x ≠ "" →
    ∃ p, en_Progress x = NewHexInt p ∧ 0 < p ∧ past h0 w q1 p.

Record followed (h0 : Z) (w : INode) : Prop := {
  f_one : (il_token (in_l w) = true ∧ il_monitors (in_l w) = []) ∨
          (il_token (in_l w) = false ∧ ∃ m, il_monitors (in_l w) = [m]);
  f_events h n : (h, n) ∈ in_events w → h ≤ in_head w ∧ en_Progress n = "";
  f_req : ∃ r, erq_Height (il_req (in_l w)) = NewHexInt r ∧ 0 ≤ r ∧ past h0 w [] r;
  f_queue q : il_monitors (in_l w) = [MReading q] →
    past h0 w q (in_pos w) ∧ true_progress h0 w q }.

Lemma handled_more s n out req t ms ret :
  handled s n → il_out s ⊆ out → handled (mkIListening req t ms out ret) n.
Proof. intros Hh Hout msgs m Hp Hm. apply Hout. by eapply Hh. Qed.

(** What is past stays past when the listener goes on. *)
Lemma past_run h0 w q p s pos :
  past h0 w q p → il_out (in_l w) ⊆ il_out s → past h0 (mkINode (in_head w) (in_events w) pos s) q p.
Proof.
  intros [Hp Hpast] Hout. split; [done|]. intros h n Hin Hh. destruct (Hpast h n Hin Hh) as [Hd|?]; [left|by right].
  intros msgs m Hm Hin'. apply Hout. by eapply Hd.
Qed.

Lemma past_mono h0 w q q' p : past h0 w q p → q ⊆ q' → past h0 w q' p.
Proof. intros [? Hpast] Hq. split; [done|]. intros h n Hin Hh. destruct (Hpast h n Hin Hh); [by left|right; by apply Hq]. Qed.

(** A new block is past nothing. *)
Lemma past_mine h0 w q p evs :
  Forall (λ e, e.1 = in_head w + 1 ∧ en_Progress e.2 = "") evs → past h0 w q p →
  past h0 (mkINode (in_head w + 1) (in_events w ++ evs) (in_pos w) (in_l w)) q p.
Proof.
  intros Hevs [Hp Hpast]. split; [cbn; lia|]. cbn. intros h n [Hin|Hin]%elem_of_app Hh; [by eapply Hpast|].
  rewrite Forall_forall in Hevs. apply Hevs in Hin as [Hin _]. cbn in Hin. lia.
Qed.

Lemma followed_mine h0 w evs :
  Forall (λ e, e.1 = in_head w + 1 ∧ en_Progress e.2 = "") evs → followed h0 w →
  followed h0 (mkINode (in_head w + 1) (in_events w ++ evs) (in_pos w) (in_l w)).
Proof.
  intros Hevs [Hone Hev (r & Hr & Hr0 & Hpast) Hq]. split; cbn; [done|..].
  - intros h n [Hin|Hin]%elem_of_app; [apply Hev in Hin as [? ?]; split; [lia|done]|].
    rewrite Forall_forall in Hevs. apply Hevs in Hin as [? ?]. cbn in *. split; [lia|done].
  - exists r. split_and!; [done..|]. by apply past_mine.
  - intros q Hm. destruct (Hq q Hm) as [Hp Ht]. split; [by apply past_mine|].
    intros q1 x q2 -> Hx. destruct (Ht q1 x q2 eq_refl Hx) as (p & ? & ? & ?). exists p. split_and!; [done..|].
    by apply past_mine.
Qed.

(** Notifications reach the open connection. *)
Lemma followed_arrive h0 w ns pos :
  followed h0 w →
  (∀ q, il_monitors (in_l w) = [MReading q] → past h0 w (q ++ ns) pos ∧ true_progress h0 w (q ++ ns)) →
  followed h0 (mkINode (in_head (arrive ns w)) (in_events (arrive ns w)) pos (in_l (arrive ns w))).
Proof.
  intros [Hone Hev (r & Hr & Hr0 & Hpast) Hq] Hns. split; cbn.
  - destruct Hone as [(? & ->)|(? & m & ->)]; [by left|right]. split; [done|]. by eexists.
  - done.
  - exists r. split_and!; [done..|]. by apply past_run.
  - intros q' Hm. destruct (il_monitors (in_l w)) as [|[|q|] []]; cbn in Hm; simplify_eq.
    destruct (Hns q eq_refl) as [Hp Ht]. split; [by apply past_run|].
    intros q1 x q2 Heq Hx. destruct (Ht q1 x q2 Heq Hx) as (p & ? & ? & ?). exists p. split_and!; [done..|].
    by apply past_run.
Qed.

Lemma followed_stream h0 w w' :
  followed h0 w → in_pos w ≤ in_head w → w' = arrive (streamed w) w →
  followed h0 (mkINode (in_head w') (in_events w') (in_pos w' + 1) (in_l w')).
Proof.
  intros Hf Hpos ->. apply followed_arrive; [done|]. intros q Hm. destruct Hf as [_ Hev _ Hq].
  destruct (Hq q Hm) as [[Hp Hpast] Ht]. split.
  - cbn [arrive in_pos]. split; [lia|]. intros h n Hin Hh. destruct (decide (h = in_pos w)) as [->|Hne].
    + right. apply elem_of_app. right. apply list_elem_of_fmap. exists (in_pos w, n). split; [done|].
      by apply list_elem_of_filter.
    + destruct (Hpast h n Hin ltac:(lia)); [by left|right; set_solver].
  - intros q1 x q2 Heq Hx. apply app_eq_app in Heq as (l & [[-> Hl]|[-> Hl]]).
    + destruct l as [|y l]; cbn in Hl.
      * assert (x ∈ streamed w) as Hin by (rewrite <-Hl; left).
        apply list_elem_of_fmap in Hin as ([h n] & -> & [_ Hin]%list_elem_of_filter). cbn in Hx.
        by apply Hev in Hin as [_ ?].
      * injection Hl as <- ->. by apply (Ht q1 x l).
    + assert (x ∈ streamed w) as Hin by (rewrite Hl; set_solver).
      apply list_elem_of_fmap in Hin as ([h n] & -> & [_ Hin]%list_elem_of_filter). cbn in Hx.
      by apply Hev in Hin as [_ ?].
Qed.

Lemma followed_progress h0 w p :
  followed h0 w → 0 < p ≤ in_pos w → followed h0 (arrive [progress p] w).
Proof.
  intros Hf Hp. apply (followed_arrive h0 w [progress p] (in_pos w)); [done|]. intros q Hm.
  destruct (f_queue _ _ Hf q Hm) as [[Hle Hpast] Ht]. split; [apply (past_mono _ _ q); [done|set_solver]|].
  intros q1 x q2 Heq Hx. apply app_eq_app in Heq as (l & [[-> Hl]|[-> Hl]]).
  - destruct l as [|y l]; cbn in Hl.
    + assert (x = progress p) as -> by congruence. exists p. split_and!; [done|lia|]. rewrite app_nil_r in Hpast. split; [lia|].
      intros h n Hin Hh. apply (Hpast h n Hin). lia.
    + injection Hl as <- ->. by apply (Ht q1 x l).
  - destruct l as [|y l]; cbn in Hl; [|destruct l; discriminate]. assert (x = progress p) as -> by congruence. exists p. split_and!; [done|lia|].
    rewrite app_nil_r. split; [lia|]. intros h n Hin Hh. apply (Hpast h n Hin). lia.
Qed.

Lemma isingleton_lookup {A} (x y : A) i : [x] !! i = Some y → i = 0%nat ∧ y = x.
Proof. destruct i as [|[|i]]; intros [=]; auto. Qed.

(** A notification is handled as the callback does, and what was asked for next
    is past. *)
Lemma followed_read h0 w i s :
  in_head w < 2 ^ 62 → followed h0 w → i_read i false (in_l w) = Some s →
  followed h0 (mkINode (in_head w) (in_events w) (in_pos w) s).
Proof.
  intros Hbound [Hone Hev (r & Hr & Hr0 & Hpast) Hq] Hrun. unfold i_read in Hrun.
  destruct Hone as [(_ & Hms)|(Ht & m & Hms)]; [by rewrite Hms in Hrun|]. rewrite Hms in Hrun.
  destruct ([m] !! i) as [[|[|x q]|]|] eqn:E; try done. apply isingleton_lookup in E as [-> <-].
  destruct (Hq _ Hms) as [Hpos Htrue].
  assert (∃ req out, s = mkIListening req false [MReading q] out (il_returned (in_l w)) ∧
    il_out (in_l w) ⊆ out ∧ (en_Progress x = "" → handled s x) ∧
    ∃ r', erq_Height req = NewHexInt r' ∧ 0 ≤ r' ∧ past h0 w [] r') as (req & out & -> & Hout & Hx & Hreq).
  { unfold on_event, Icon.on_notification in Hrun. destruct (decide (en_Progress x ≠ "")) as [Hp|Hp].
    - destruct (Htrue [] x q eq_refl Hp) as (p & Hpr & Hp0 & Hpp). pose proof Hpp as [Hle _].
      rewrite Hpr, HexInt_Value_NewHexInt in Hrun by lia. cbn in Hrun.
      destruct (Z.ltb_spec 0 p); [|lia]. injection Hrun as <-. rewrite Ht. eexists _, _. split; [done|].
      split; [set_solver|]. split; [done|]. exists p. split_and!; [done|lia|done].
    - apply dec_stable in Hp. destruct (Icon.parseMessageEvent cfg contracts x) as [msgs|e|] eqn:Hparse; try done;
        injection Hrun as <-; rewrite Ht; eexists _, _; (split; [done|]; split; [set_solver|]; split; [|by exists r]);
        intros _ msgs' m Hm Hin; rewrite Hparse in Hm; [|done]. injection Hm as <-.
      cbn. apply elem_of_app. right. apply list_elem_of_fmap. by exists m. }
  assert (∀ h n q1 p, (h, n) ∈ in_events w → past h0 w (x :: q1) p → h0 ≤ h < p →
    handled (mkIListening req false [MReading q] out (il_returned (in_l w))) n ∨ n ∈ q1) as Hstep.
  { intros h n q1 p Hin [_ Hp] Hh. destruct (Hp h n Hin Hh) as [Hd|[->|?]%elem_of_cons]; [left|left|by right].
    - by eapply handled_more.
    - apply Hx. by eapply Hev. }
  split; cbn.
  - right. split; [done|]. by eexists.
  - done.
  - destruct Hreq as (r' & Hr' & ? & Hp'). exists r'. split_and!; [done..|]. by apply past_run.
  - intros q' [= <-]. split.
    + split; [apply Hpos|]. cbn. intros h n Hin Hh. by eapply Hstep.
    + intros q1 y q2 -> Hy. destruct (Htrue (x :: q1) y q2 eq_refl Hy) as (p & ? & ? & Hp).
      exists p. split_and!; [done..|]. split; [apply Hp|]. cbn. intros h n Hin Hh. by eapply Hstep.
Qed.

Lemma followed_run h0 w e s :
  in_head w < 2 ^ 62 → followed h0 w → alive e = true → irun e (in_l w) = Some s →
  followed h0 (mkINode (in_head w) (in_events w)
    (match e with IOpened _ _ => (HexInt_Value (erq_Height (il_req s))).1 | _ => in_pos w end) s).
Proof.
  intros Hbound Hf Ha Hrun. destruct e as [|i r|i []|i|i|i|err]; try done; cbn [irun] in Hrun; [| |by eapply followed_read|..];
    destruct Hf as [Hone Hev (r0 & Hr & Hr0 & Hpast) Hq].
  - unfold i_reconnect in Hrun. destruct (il_returned (in_l w)); [done|]. destruct (il_token (in_l w)) eqn:Ht; [|done].
    destruct Hone as [(_ & Hms)|[? _]]; [|congruence]. rewrite Hms in Hrun. injection Hrun as <-. split; cbn; try done.
    + right. split; [done|]. by eexists.
    + exists r0. split_and!; [done..|]. by apply past_run.
  - unfold i_opened in Hrun. destruct Hone as [(_ & Hms)|(Ht & m & Hms)]; rewrite Hms in Hrun; [done|].
    destruct ([m] !! i) as [[| |]|] eqn:E; try done. apply isingleton_lookup in E as [-> <-]. injection Hrun as <-.
    cbn. rewrite Hr, HexInt_Value_NewHexInt by (destruct Hpast; lia). cbn. split; cbn; [|done|..].
    + right. split; [done|]. by eexists.
    + exists r0. split_and!; [done..|]. by apply past_run.
    + intros q [= Hm]. assert (q = []) as -> by (destruct r; congruence). split; [by apply past_run|].
      intros q1 x q2 Heq. by destruct q1.
  - unfold i_failed in Hrun. destruct Hone as [(_ & Hms)|(Ht & m & Hms)]; rewrite Hms in Hrun; [done|].
    destruct ([m] !! i) as [[| |]|] eqn:E; try done. apply isingleton_lookup in E as [-> <-]. injection Hrun as <-.
    split; cbn; [|done|..|done].
    + right. split; [done|]. by eexists.
    + exists r0. split_and!; [done..|]. by apply past_run.
  - unfold i_wake in Hrun. destruct Hone as [(_ & Hms)|(Ht & m & Hms)]; rewrite Hms in Hrun; [done|].
    destruct ([m] !! i) as [[| |]|] eqn:E; try done. apply isingleton_lookup in E as [-> <-]. injection Hrun as <-.
    split; cbn; [by left|done|..|done]. exists r0. split_and!; [done..|]. by apply past_run.
Qed.

Lemma ireached_followed h0 w : in_head w < 2 ^ 62 → ireached h0 w → followed h0 w.
Proof.
  intros Hb Hr. induction Hr as [w (Hh & Hl & Hev)|w w' Hr IH Hs].
  - split; rewrite ?Hl; cbn; [by left| | |done].
    + intros h n Hin. rewrite Forall_forall in Hev. by apply Hev in Hin.
    + exists h0. split_and!; [done|lia|]. split; [lia|]. intros. lia.
  - assert (in_head w < 2 ^ 62) as Hb' by (destruct Hs; subst; cbn in *; lia). specialize (IH Hb').
    destruct Hs as [evs Hevs|w' Hp ->|p Hp|e s Ha Hrun].
    + by apply followed_mine.
    + by eapply followed_stream.
    + by apply followed_progress.
    + by apply followed_run.
Qed.

Lemma iopen_out h0 w :
  in_head w < 2 ^ 62 → ireached h0 w → il_monitors (in_l w) = [MReading []] → in_head w < in_pos w →
  ∀ h n msgs m, (h, n) ∈ in_events w → h0 ≤ h → Icon.parseMessageEvent cfg contracts n = Ok msgs → m ∈ msgs →
    mkBlockInfo (m_MessageHeight m) [m] ∈ il_out (in_l w).
Proof.
  intros Hbound Hrun Hopen Hall h n msgs m Hin Hh Hp Hm.
  pose proof (ireached_followed h0 w Hbound Hrun) as [_ Hev _ Hq].
  destruct (Hq [] Hopen) as [[_ Hpast] _]. pose proof (Hev h n Hin) as [Hle _].
  destruct (Hpast h n Hin ltac:(lia)) as [Hd|?%elem_of_nil]; [|done]. by eapply Hd.
Qed.

(** No event is lost on ICON as long as the context lives: however often
    connections fail, at whatever point, when an open connection has
    streamed the whole chain and all of it was read, every message of every
    event from the start on has been sent. *)
Theorem icon_no_event_lost h0 w
  (Hbound : in_head w < 2 ^ 62) (Hrun : ireached h0 w)
  (Hopen : il_monitors (in_l w) = [MReading []]) (Hall : in_head w < in_pos w) :
  ∀ h n msgs m, (h, n) ∈ in_events w → h0 ≤ h → Icon.parseMessageEvent cfg contracts n = Ok msgs → m ∈ msgs →
    mkBlockInfo (m_MessageHeight m) [m] ∈ il_out (in_l w).
Proof. by apply iopen_out. Qed.
End Listener.
