(* ===== verification/IconMonitorWitness.v ===== *)
(** ICON's event monitor on concrete connections. *)
From stdpp Require Import gmap strings list.
From Stdlib Require Import ZArith Lia.
From S2P Require Import Prelude GoStd Types Provider IconTypes Icon IconCorrect IconWitness IconMonitor.
Open Scope Z_scope.

(** A block with a message of serial number [sn]. *)
Definition note (h sn : Z) : EventNotification :=
  mkEventNotification "h" (NewHexInt h) "0x0" [emitted "cxc" "0x1.eth" sn "data"] "".
Definition garbled : EventNotification := mkEventNotification "h" "no number" "0x0" [] "".

(** * The client *)

Definition peer : WsPeer EventRequest := mkWsPeer (λ url, Ok ("to " +:+ url)) (λ _, None) (Ok (mkWSResponse 0 "")).
Definition logged (n : EventNotification) : proc (list string) error := λ s, Some (s ++ [en_Height n], Some "ignored").
Definition told (err : string) : proc (list string) unit := λ s, Some (s ++ [err], tt).

Lemma MonitorEvent_reads_witness :
  MonitorEvent "http://node" peer (Icon.Listener_request contracts 5)
    [RNotification (note 1 2); RNotification garbled; RError "reset" false; RNotification (note 3 4)]
    logged told (mkMon {["other"]} []) =
  Some (mkMon {["other"]} ["not supported type types.WSEvent"; "0x1"; "no number"; "reset"], Some "reset").
Proof.
  rewrite (MonitorEvent_reads _ _ _ _ _ _ _ _ "to ws://node/event").
  - vm_compute. reflexivity.
  - vm_compute. reflexivity.
  - set_solver.
  - reflexivity.
Defined.

(** * The listener *)

Inductive iact : Type :=
| AMine (sns : list Z)
| AStream
| AProgress (p : Z)
| ARun (e : ievent).

Abbreviation run := (irun cfg contracts).
Abbreviation reached_from h0 := (ireached cfg contracts h0).

Fixpoint iexec (l : list iact) (w : INode) : option INode :=
  match l with
  | [] => Some w
  | AMine sns :: l =>
      let h := in_head w + 1 in
      iexec l (mkINode h (in_events w ++ ((λ sn, (h, note h sn)) <$> sns)) (in_pos w) (in_l w))
  | AStream :: l =>
      if in_pos w <=? in_head w then
        let w' := arrive (streamed w) w in iexec l (mkINode (in_head w') (in_events w') (in_pos w' + 1) (in_l w'))
      else None
  | AProgress p :: l => if (0 <? p) && (p <=? in_pos w) then iexec l (arrive [progress p] w) else None
  | ARun e :: l =>
      if alive e then
        s ← run e (in_l w);
        iexec l (mkINode (in_head w) (in_events w)
          (match e with IOpened _ _ => (HexInt_Value (erq_Height (il_req s))).1 | _ => in_pos w end) s)
      else None
  end.

Lemma iexec_reached h0 l w w' : reached_from h0 w → iexec l w = Some w' → reached_from h0 w'.
Proof.
  revert w. induction l as [|[sns| |p|e] l IH]; intros w Hr He; cbn [iexec] in He; [by injection He as <-|..].
  - eapply IH; [|done]. eapply ireached_step; [done|]. apply istep_mine.
    apply Forall_fmap, Forall_forall. intros sn _. done.
  - destruct (Z.leb_spec (in_pos w) (in_head w)); [|done]. eapply IH; [|done]. eapply ireached_step; [done|].
    by eapply istep_stream.
  - destruct ((0 <? p) && (p <=? in_pos w)) eqn:E; [|done]. apply andb_true_iff in E as [H1 H2].
    eapply IH; [|done]. eapply ireached_step; [done|]. apply istep_progress. lia.
  - destruct (alive e) eqn:Ha; [|done]. destruct (run e (in_l w)) as [s|] eqn:Hrun; [|done]. cbn in He.
    eapply IH; [|done]. eapply ireached_step; [done|]. by apply istep_run.
Qed.

(** The third block brings two messages; the first is read, then the connection
    breaks; the next one goes on from the height that was acknowledged. *)
Definition begun : INode := mkINode 2 [(2, note 2 7)] 0 (IListener_begin contracts 2).
Definition broken : list iact :=
  [ARun IReconnect; ARun (IOpened 0 (Ok tt)); AStream; AProgress 3; AMine [8; 9]; AStream;
   ARun (IRead 0 false); ARun (IRead 0 false); ARun (IRead 0 false); ARun (IFailed 0); ARun (IWake 0); AMine [];
   ARun IReconnect; ARun (IOpened 0 (Err "refused")); ARun (IWake 0);
   ARun IReconnect; ARun (IOpened 0 (Ok tt)); AStream; AStream; ARun (IRead 0 false); ARun (IRead 0 false)].
Definition ended : INode := default begun (iexec broken begun).

(** Each message was sent; the one before the break twice. *)
Lemma icon_no_event_lost_witness :
  (λ b, m_Sn <$> bi_Messages b) <$> il_out (in_l ended) = [[Some 7]; [Some 8]; [Some 8]; [Some 9]] ∧
  ∀ h n msgs m, (h, n) ∈ in_events ended → 2 ≤ h → Icon.parseMessageEvent cfg contracts n = Ok msgs → m ∈ msgs →
    mkBlockInfo (m_MessageHeight m) [m] ∈ il_out (in_l ended).
Proof.
  split; [vm_compute; reflexivity|].
  apply (icon_no_event_lost cfg contracts 2).
  - vm_compute. reflexivity.
  - apply (iexec_reached 2 broken begun); [|vm_compute; reflexivity]. constructor.
    split_and!; [cbn; lia..|done|]. by repeat constructor.
  - vm_compute. reflexivity.
  - vm_compute. reflexivity.
Defined.
