(* ===== verification/Genuine.v ===== *)
(** What a listener sends was emitted on its chain: the other half of what
    EvmListener.v and IconMonitor.v show, that what was emitted is sent. *)
From stdpp Require Import gmap strings list.
From Stdlib Require Import ZArith Lia.
From S2P Require Import Prelude GoStd Types Evm EvmListener IconTypes Icon IconMonitor.
Open Scope Z_scope.

(** * EVM *)

Section Evm.
Context (cfg : Evm.Config) (contracts : list EventMap) (addresses topics : list string) (bindings : Evm.IClient).
Implicit Types (w : World).
Abbreviation log_block := (Evm.log_block bindings cfg contracts).

Definition sub_logs (sub : Sub) : list Evm.Log := match sub with SubLive queue => queue | _ => [] end.
Definition phase_logs (p : Phase) : list Evm.Log := match p with Scanning _ logs _ => logs | _ => [] end.

(** What the listener is about to send, and has sent. *)
Record genuine w : Prop := {
  g_scan : phase_logs (l_phase (w_l w)) ⊆ w_logs w;
  g_subs sub : sub ∈ l_subs (w_l w) → sub_logs sub ⊆ w_logs w;
  g_out b : b ∈ l_out (w_l w) → ∃ log, log ∈ w_logs w ∧ log_block log = Some b }.

Lemma genuine_same w s :
  genuine w → phase_logs (l_phase s) ⊆ w_logs w → (∀ sub, sub ∈ l_subs s → sub_logs sub ⊆ w_logs w) →
  l_out s = l_out (w_l w) → genuine (mkWorld (w_head w) (w_logs w) s).
Proof. intros [_ _ Ho] Hp Hs Hout. split; [done..|]. cbn. by rewrite Hout. Qed.

Lemma genuine_sent w log s :
  genuine w → log ∈ w_logs w → phase_logs (l_phase s) ⊆ w_logs w → (∀ sub, sub ∈ l_subs s → sub_logs sub ⊆ w_logs w) →
  l_out s = l_out (w_l w) → genuine (mkWorld (w_head w) (w_logs w) (sent cfg contracts bindings log s)).
Proof.
  intros [_ _ Ho] Hlog Hp Hs Hout. split; [done..|]. cbn. rewrite Hout.
  intros b [?|Hb%elem_option_list]%elem_of_app; [by apply Ho|by exists log].
Qed.

Lemma elem_of_insert {A} (l : list A) i x y : y ∈ <[i := x]> l → y = x ∨ y ∈ l.
Proof.
  intros [j Hj]%list_elem_of_lookup. apply list_lookup_insert_Some in Hj as [(_ & -> & _)|[_ Hj]]; [by left|right].
  by eapply list_elem_of_lookup_2.
Qed.

Lemma genuine_mine w logs : genuine w → genuine (mine logs w).
Proof.
  intros [Hp Hs Ho]. split; cbn.
  - set_solver.
  - intros sub (sub0 & -> & Hin)%list_elem_of_fmap. specialize (Hs sub0 Hin). destruct sub0; cbn in *; set_solver.
  - intros b (log & ? & ?)%Ho. exists log. set_solver.
Qed.

Lemma genuine_run w e s :
  honest addresses topics e w → genuine w → lrun cfg contracts addresses topics bindings e (w_l w) = Some s →
  genuine (mkWorld (w_head w) (w_logs w) s).
Proof.
  intros Hh Hg Hrun. pose proof Hg as [Hp Hs Ho]. destruct w as [head logs l]. cbn [w_l w_head w_logs] in *.
  pose proof (λ s, genuine_same (mkWorld head logs l) s Hg) as Hsame. cbn [w_l w_head w_logs] in Hsame.
  assert (∀ i sub sub', l_subs l !! i = Some sub → sub_logs sub' ⊆ sub_logs sub →
    ∀ x, x ∈ <[i := sub']> (l_subs l) → sub_logs x ⊆ logs) as Hins.
  { intros i sub sub' Hi Hsub x [->|Hx]%elem_of_insert; [|by apply Hs].
    etrans; [exact Hsub|]. eapply Hs, list_elem_of_lookup_2, Hi. }
  assert (∀ i x, x ∈ delete i (l_subs l) → sub_logs x ⊆ logs) as Hdel.
  { intros i x Hx. apply Hs. eapply elem_of_submseteq; [exact Hx|]. apply sublist_submseteq, sublist_delete. }
  destruct e; cbn [lrun] in Hrun.
  - unfold on_tick in Hrun. destruct (l_phase l), (l_ticker l); simplify_eq. apply Hsame; [done| |done].
    cbn. intros sub [?| ->%list_elem_of_singleton]%elem_of_app; [by apply Hs|done].
  - unfold on_height in Hrun. destruct (l_phase l); simplify_eq. by apply Hsame.
  - unfold on_batch in Hrun. destruct (l_phase l) as [| |latest [|] [|[from to] todo]|]; simplify_eq.
    apply Hsame; [ |done..]. cbn. specialize (Hh from to). destruct (Evm.getLogsRetry _ _).2 as [logs'| |]; [|done..].
    rewrite (Hh logs' eq_refl). cbn. intros x [_ ?]%list_elem_of_filter. done.
  - unfold on_send in Hrun. destruct (l_phase l) as [| |latest [|log rest] todo|]; simplify_eq. cbn in Hp.
    apply (genuine_sent (mkWorld head logs l) log); [done|set_solver|cbn; set_solver|done|done].
  - unfold on_scan_done in Hrun. destruct (l_phase l) as [| |latest [|] []|]; simplify_eq. by apply Hsame.
  - unfold Subscribe_opened in Hrun. destruct (l_subs l !! i) as [[]|] eqn:Hi; simplify_eq.
    apply Hsame; [done| |done]. cbn. eapply Hins; [exact Hi|]. by destruct r.
  - done.
  - unfold Subscribe_take in Hrun. destruct (l_subs l !! i) as [[|[|log queue]|]|] eqn:Hi; simplify_eq.
    assert (log :: queue ⊆ logs) as Hq by (apply (Hs (SubLive (log :: queue))); by eapply list_elem_of_lookup_2).
    apply (genuine_sent (mkWorld head logs l) log); [done|set_solver|done| |done].
    cbn. eapply Hins; [exact Hi|]. cbn. set_solver.
  - unfold Subscribe_err in Hrun. destruct (l_subs l !! i) as [[]|] eqn:Hi; simplify_eq.
    apply Hsame; [done| |done]. cbn. eapply Hins; [exact Hi|]. cbn. set_solver.
  - unfold Subscribe_idle in Hrun. destruct (l_subs l !! i) as [[]|] eqn:Hi; simplify_eq. destruct r; simplify_eq; try done.
    apply Hsame; [done| |done]. cbn. eapply Hins; [exact Hi|]. cbn. set_solver.
  - unfold Subscribe_cancelled in Hrun. destruct (l_subs l !! i) as [[]|] eqn:Hi; simplify_eq.
    apply Hsame; [done| |done]. cbn. by apply Hdel.
  - unfold on_error in Hrun. destruct (l_phase l), (l_subs l !! i) as [[]|] eqn:Hi; simplify_eq.
    apply Hsame; [done| |done]. cbn. by apply Hdel.
  - unfold on_cancelled in Hrun. destruct (l_phase l); simplify_eq. by apply Hsame.
Qed.

(** Whatever fails, on an honest node. *)
Lemma evm_sent_emitted (P : event → World → Prop) h0 w b :
  (∀ e w, P e w → honest addresses topics e w) → reached cfg contracts addresses topics bindings P h0 w →
  b ∈ l_out (w_l w) → ∃ log, log ∈ w_logs w ∧ log_block log = Some b.
Proof.
  intros HP Hr. apply g_out. induction Hr as [w (_ & _ & Hl)|w w' _ IH [logs _|e s He Hrun]]; [|by apply genuine_mine|].
  - split; rewrite Hl; cbn; [set_solver..|]. by intros b' ?%elem_of_nil.
  - eapply genuine_run; [by apply HP|done|done].
Qed.
End Evm.

(** * ICON *)

Section Icon.
Context (cfg : Icon.Config) (contracts : list Icon.Contract).
Implicit Types (w : INode).

(** An event of the chain, or a notification of progress. *)
Definition announced w (n : EventNotification) : Prop :=
  (∃ h, (h, n) ∈ in_events w) ∨ ∃ p, 0 < p ∧ n = progress p.
Definition from_event w (b : BlockInfoOf Z) : Prop :=
  ∃ h n msgs m, (h, n) ∈ in_events w ∧ Icon.parseMessageEvent cfg contracts n = Ok msgs ∧ m ∈ msgs ∧
    b = mkBlockInfo (m_MessageHeight m) [m].
Definition unread (m : Monitoring) : list EventNotification := match m with MReading q => q | _ => [] end.

Record igenuine w : Prop := {
  ig_queue m n : m ∈ il_monitors (in_l w) → n ∈ unread m → announced w n;
  ig_out b : b ∈ il_out (in_l w) → from_event w b }.

Lemma announced_more w evs pos l n :
  announced w n → announced (mkINode (in_head w + 1) (in_events w ++ evs) pos l) n.
Proof. intros [[h Hn]|?]; [left; exists h; cbn; set_solver|by right]. Qed.

Lemma from_event_more w evs pos l b :
  from_event w b → from_event (mkINode (in_head w + 1) (in_events w ++ evs) pos l) b.
Proof. intros (h & n & msgs & m & ? & ? & ? & ?). exists h, n, msgs, m. cbn. set_solver. Qed.

Lemma igenuine_arrive w ns pos :
  igenuine w → (∀ n, n ∈ ns → announced w n) →
  igenuine (mkINode (in_head (arrive ns w)) (in_events (arrive ns w)) pos (in_l (arrive ns w))).
Proof.
  intros [Hq Ho] Hns. split; cbn; [|exact Ho]. intros m n (m0 & -> & Hm)%list_elem_of_fmap Hn. specialize (Hq m0 n Hm).
  destruct m0 as [|q|]; cbn in *; [by apply elem_of_nil in Hn| |by apply elem_of_nil in Hn].
  apply elem_of_app in Hn as [?|?]; [by apply Hq|by apply Hns].
Qed.

(** The callback sends what the notification holds. *)
Lemma on_event_from w c n req out req' out' e :
  announced w n → on_event cfg contracts c n (req, out) = Some ((req', out'), e) →
  (∀ b, b ∈ out → from_event w b) → ∀ b, b ∈ out' → from_event w b.
Proof.
  intros Ha Hon Hout b. unfold on_event in Hon. destruct c; [injection Hon as <- <- _; apply Hout|].
  unfold Icon.on_notification in Hon. case_decide as Hp.
  - destruct (HexInt_Value _) as [h [e'|]]; injection Hon as <- <- _; rewrite app_nil_r; apply Hout.
  - destruct (Icon.parseMessageEvent cfg contracts n) as [msgs|e'|] eqn:Hpm; [| |done].
    + injection Hon as <- <- _. intros [?|(m & -> & Hm)%list_elem_of_fmap]%elem_of_app; [by apply Hout|].
      destruct Ha as [[h Hn]|(p & _ & ->)]; [by exists h, n, msgs, m|].
      discriminate Hp.
    + injection Hon as <- <- _. rewrite app_nil_r. apply Hout.
Qed.

Lemma igenuine_run w e s pos :
  igenuine w → irun cfg contracts e (in_l w) = Some s → igenuine (mkINode (in_head w) (in_events w) pos s).
Proof.
  intros [Hq Ho] Hrun.
  assert (∀ i m m', il_monitors (in_l w) !! i = Some m → unread m' ⊆ unread m →
    ∀ x n, x ∈ <[i := m']> (il_monitors (in_l w)) → n ∈ unread x → announced w n) as Hins.
  { intros i m m' Hi Hsub x n [->|Hx]%elem_of_insert Hn; [|by eapply Hq].
    eapply Hq; [by eapply list_elem_of_lookup_2|by apply Hsub]. }
  assert (∀ i x n, x ∈ delete i (il_monitors (in_l w)) → n ∈ unread x → announced w n) as Hdel.
  { intros i x n Hx. apply Hq. eapply elem_of_submseteq; [exact Hx|]. apply sublist_submseteq, sublist_delete. }
  destruct e; cbn [irun] in Hrun.
  - unfold i_reconnect in Hrun. destruct (il_returned (in_l w)), (il_token (in_l w)); simplify_eq. split; cbn; [|exact Ho].
    intros m n [?| ->%list_elem_of_singleton]%elem_of_app; [by apply Hq|by intros ?%elem_of_nil].
  - unfold i_opened in Hrun. destruct (il_monitors (in_l w) !! i) as [[]|] eqn:Hi; simplify_eq. split; cbn; [|exact Ho].
    eapply Hins; [exact Hi|]. by destruct r.
  - unfold i_read in Hrun. destruct (il_monitors (in_l w) !! i) as [[|[|n q]|]|] eqn:Hi; simplify_eq.
    destruct (on_event _ _ _ _ _) as [[[req out] err]|] eqn:Hon; simplify_eq. split; cbn.
    + eapply Hins; [exact Hi|]. cbn. set_solver.
    + eapply on_event_from; [|exact Hon|exact Ho]. eapply Hq; [by eapply list_elem_of_lookup_2|]. cbn. by left.
  - unfold i_failed in Hrun. destruct (il_monitors (in_l w) !! i) as [[]|] eqn:Hi; simplify_eq. split; cbn; [|exact Ho].
    eapply Hins; [exact Hi|]. cbn. set_solver.
  - unfold i_wake in Hrun. destruct (il_monitors (in_l w) !! i) as [[]|] eqn:Hi; simplify_eq. split; cbn; [|exact Ho].
    by eapply Hdel.
  - unfold i_stopped in Hrun. destruct (il_monitors (in_l w) !! i) as [[]|] eqn:Hi; simplify_eq. split; cbn; [|exact Ho].
    by eapply Hdel.
  - unfold i_cancelled in Hrun. destruct (il_returned (in_l w)); simplify_eq. by split.
Qed.

Lemma icon_sent_emitted h0 w b : ireached cfg contracts h0 w → b ∈ il_out (in_l w) → from_event w b.
Proof.
  intros Hr. apply ig_out. induction Hr as [w (_ & Hl & _)|w w' _ IH [evs _|w1 _ ->|p Hp|e s _ Hrun]].
  - split; rewrite Hl; cbn; [by intros m n ?%elem_of_nil|by intros b' ?%elem_of_nil].
  - destruct IH as [Hq Ho]. split; cbn; [intros m n Hm Hn; eapply announced_more; by eapply Hq|].
    intros b' Hb'. by eapply from_event_more, Ho.
  - apply igenuine_arrive; [done|]. intros n (x & -> & [_ Hx]%list_elem_of_filter)%list_elem_of_fmap. left. exists x.1. by destruct x.
  - apply (igenuine_arrive w [progress p] (in_pos w)); [done|]. intros n ->%list_elem_of_singleton. right. exists p. split; [lia|done].
  - by eapply igenuine_run.
Qed.
End Icon.
