(* ===== verification/IconPipeline.v ===== *)
(** From the source chain to the database: the ICON listener of IconMonitor.v as a
    feeder of the relayer (Feed.v). *)
From stdpp Require Import gmap strings list.
From Stdlib Require Import ZArith Lia.
From S2P Require Import Prelude GoStd Types Store Provider Relay RelaySystem RelayCorrect RelayFrame Custody Feed.
From S2P Require Import IconTypes Icon IconMonitor.
Import BlockStore MessageStore FinalityStore.
Open Scope Z_scope.

Section Pipeline.
Context {St : Type} `{StoreSpec St} `{CodecSpec Z}.
Context `{CodecSpec (RouteMessageOf Z)} `{CodecSpec (TransactionObjectOf Z)}.
Implicit Types (s : Relayer St) (w : INode).
Context (nid : string) (cfg : Icon.Config) (contracts : list Icon.Contract).

Lemma irun_out e l l' : irun cfg contracts e l = Some l' → ∃ new, il_out l' = il_out l ++ new.
Proof.
  intros Hrun. destruct e; cbn [irun] in Hrun;
    unfold i_reconnect, i_opened, i_read, i_failed, i_wake, i_stopped, i_cancelled, on_event in Hrun;
    repeat case_match; simplify_eq; cbn; first [by exists []; rewrite app_nil_r|by eexists].
Qed.

Lemma istep_out w w' : istep cfg contracts w w' → ∃ new, il_out (in_l w') = il_out (in_l w) ++ new.
Proof. intros [evs _|w1 _ ->|p _|e l _ Hrun]; [..|by eapply irun_out]; exists []; by rewrite app_nil_r. Qed.

(** The listener starts from the height that the relayer holds. *)
Definition icon_begin (h0 : Z) s w : Prop :=
  istarts contracts h0 w ∧ ∃ node, Icon.StartFromHeight node cfg (last_saved nid s) = Ok h0.

Lemma icon_begin_empty h0 s w : icon_begin h0 s w → il_out (in_l w) = [].
Proof. intros [(_ & Hl & _) _]. by rewrite Hl. Qed.

Definition icon_feeder (h0 : Z) : Feeder (St := St) INode :=
  mkFeeder INode (λ w, il_out (in_l w)) (icon_begin h0) (λ _, istep cfg contracts) (icon_begin_empty h0)
    (λ _ w w', istep_out w w').

Lemma fed_ireached h0 w s hist : fed nid (icon_feeder h0) w s hist → ireached cfg contracts h0 w.
Proof. induction 1 as [w s [Hst _]|w s hist w' s' _ IH Hs _|]; [by constructor|by eapply ireached_step|done]. Qed.

(** C27: no message is lost between an ICON chain and the database.  Run the
    listener, however often its connections fail and at whatever point, and
    the relayer, in any interleaving of its goroutines, timers and operators:
    when an open connection has streamed the whole chain and was read, and the
    queue is empty, every message of every event of the chain from the start
    on is in the message store, unless an action of the relayer released it: a
    success reported for it, a destination that is not configured or has it
    already, its expiry, or an operator. *)
Theorem icon_no_message_lost h0 w s hist c
  (Hbound : in_head w < 2 ^ 62) (Hrun : fed nid (icon_feeder h0) w s hist)
  (Hopen : il_monitors (in_l w) = [MReading []]) (Hall : in_head w < in_pos w)
  (Hc : rl_chains s !! nid = Some c) (Hempty : listenerChan c = []) :
  ∀ h n msgs m, (h, n) ∈ in_events w → h0 ≤ h → Icon.parseMessageEvent cfg contracts n = Ok msgs → m ∈ msgs →
    is_Some (contents (rl_db s) !! wire_row m) ∨ ∃ a s0, (a, s0) ∈ hist ∧ releases a s0 (wire_row m).
Proof.
  intros h n msgs m Hin Hh Hp Hm.
  apply (fed_secured nid (icon_feeder h0) w s hist c (mkBlockInfo (m_MessageHeight m) [m])); [done..| |by left].
  apply (iopen_out cfg contracts h0 w Hbound (fed_ireached h0 w s hist Hrun) Hopen Hall h n msgs m Hin Hh Hp Hm).
Qed.
End Pipeline.
