(* ===== verification/PipelineWitness.v ===== *)
(** Concrete runs from the source chain to the database, and what the relayer
    kept of it. *)
From stdpp Require Import gmap strings list.
From Stdlib Require Import ZArith Lia.
From S2P Require Import Prelude GoStd Types Store LvlDB Concrete Provider Relay RelaySystem RelayCorrect Custody RelayWitness.
From S2P Require Import EvmNonce Evm EvmCorrect EvmWitness EvmListener EvmListenerWitness Feed Pipeline.
From S2P Require Import IconTypes Icon IconWitness IconMonitor IconMonitorWitness IconPipeline.
Open Scope Z_scope.

(** * Custody *)

(** The message is taken, then routed and reported delivered. *)
Definition delivered_run : list action :=
  [Router prov0 9 ["a"; "b"] [("a", [key7]); ("b", [])] routeTimer; TaskStart 10 0;
   TaskCallback prov0 "a" "b" key7 (response7 Success) None; TaskReturn 0 None].
Definition before : Relayer MemDB :=
  default rly0 (RelaySystem.exec false [Listen "a" 5 [mkMessage "b" "a" (Some 7) "d" 5 EmitMessage None]] rly0).
Definition ended_run (l : list action) : Relayer MemDB := default rly0 (RelaySystem.exec false (ProcessBlock "a" :: l) before).

(** Before the success is reported the row is there; afterwards it was released. *)
Lemma taken_message_kept_witness :
  is_Some (contents (rl_db (ended_run (take 2 delivered_run))) !! row_of key7) ∧
  contents (rl_db (ended_run delivered_run)) !! row_of key7 = None ∧
  (is_Some (contents (rl_db (ended_run delivered_run)) !! row_of key7) ∨
   released (ProcessBlock "a" :: delivered_run) before (row_of key7)).
Proof.
  split; [vm_compute; by eexists|]. split; [vm_compute; reflexivity|].
  apply (taken_message_kept false rly0 before (ended_run delivered_run) "a"
    (default (mkChainRuntime [] 0 0 ∅) (rl_chains before !! "a")) (mkBlockInfo 5 [msg7]) [] msg7 delivered_run
    rly0_initial (mem_healthy _)).
  - apply (exec_reachable false [Listen "a" 5 [mkMessage "b" "a" (Some 7) "d" 5 EmitMessage None]] rly0 rly0);
      [apply reachable_refl|vm_compute; reflexivity].
  - vm_compute. reflexivity.
  - vm_compute. reflexivity.
  - by left.
  - vm_compute. reflexivity.
Defined.

(** * The pipeline *)

(** Runs of a listener, whose steps [src] computes, beside a relayer. *)
Section Run.
Context {A L : Type} (nid : string) (f : Feeder (St := MemDB) L) (src : A → Relayer MemDB → L → option L).
Context (Hsrc : ∀ a s l l', src a s l = Some l' → steps f s l l').

(** Something that happens at the chain or the listener, or an action of the
    relayer. *)
Inductive pact : Type :=
| Source (a : A)
| Relays (a : action).

Abbreviation Pipe := (L * Relayer MemDB * list (action * Relayer MemDB))%type.

Definition pstep (a : pact) (p : Pipe) : option Pipe :=
  let '(w, s, hist) := p in
  match a with
  | Source a => w' ← src a s w; s' ← RelaySystem.exec true (sends nid f w w') s; Some (w', s', hist)
  | Relays a => if is_listener nid a then None else s' ← RelaySystem.exec true [a] s; Some (w, s', hist ++ [(a, s)])
  end.
Fixpoint prun (l : list pact) (p : Pipe) : option Pipe :=
  match l with [] => Some p | a :: l => p ← pstep a p; prun l p end.

Lemma pstep_fed a w s hist w' s' hist' :
  fed nid f w s hist → pstep a (w, s, hist) = Some (w', s', hist') → fed nid f w' s' hist'.
Proof using Hsrc.
  intros Hp Hs. destruct a as [a|a]; cbn -[RelaySystem.exec] in Hs.
  - destruct (src a s w) as [w1|] eqn:Ha; [|done]. cbn -[RelaySystem.exec] in Hs.
    destruct (RelaySystem.exec true (sends nid f w w1) s) as [s1|] eqn:He; [|done]. injection Hs as <- <- <-.
    eapply fed_listener; [done|by eapply Hsrc|done].
  - destruct (is_listener nid a) eqn:Hl; [done|].
    destruct (RelaySystem.exec true [a] s) as [s1|] eqn:He; [|done]. injection Hs as <- <- <-. by constructor.
Qed.

Lemma prun_fed l w s hist w' s' hist' :
  fed nid f w s hist → prun l (w, s, hist) = Some (w', s', hist') → fed nid f w' s' hist'.
Proof using Hsrc.
  revert w s hist. induction l as [|a l IH]; intros w s hist Hp; [by intros [= <- <- <-]|].
  cbn [prun]. destruct (pstep a (w, s, hist)) as [[[w1 s1] hist1]|] eqn:Ha; [|done].
  apply IH. by eapply pstep_fed.
Qed.

Lemma prun_default l w s :
  fed nid f w s [] → is_ok (deref (prun l (w, s, []))) = true →
  let p := default (w, s, []) (prun l (w, s, [])) in fed nid f p.1.1 p.1.2 p.2.
Proof using Hsrc.
  intros Hp. destruct (prun l (w, s, [])) as [[[w' s'] hist]|] eqn:E; [|done]. intros _. by eapply prun_fed.
Qed.
End Run.
Arguments Source {_} _.
Arguments Relays {_} _.

(** ** EVM *)

Abbreviation evm5_on St := (evm_feeder (St := St) "0x1.eth" EvmWitness.cfg map_of addresses topics binds 5).
Abbreviation evm5 := (evm5_on MemDB).

(** The restarted listener reads the relayer's height. *)
Definition saved_right {St} (a : act) (s : Relayer St) : bool :=
  match a with Do (Error _ _ _ saved) => saved =? last_saved "0x1.eth" s | _ => true end.
Definition evm_src {St} (a : act) (s : Relayer St) (w : World) : option World :=
  if fine None 5 a w && saved_right a s then do_act a w else None.

Lemma evm_src_steps {St} `{StoreSpec St} a (s : Relayer St) w w' : evm_src a s w = Some w' → steps (evm5_on St) s w w'.
Proof.
  unfold evm_src. destruct (fine None 5 a w) eqn:Hf; [|done]. destruct (saved_right a s) eqn:Hsv; [|done]. cbn [andb].
  destruct a as [logs|b|b|e]; cbn.
  - intros [= <-]. constructor. cbn in Hf. apply Forall_forall. intros log Hl.
    rewrite forallb_forall in Hf. apply Z.eqb_eq, Hf. by apply list_elem_of_In.
  - intros (l & Hl & ->)%fmap_Some. econstructor; [by apply fine_height|done..].
  - intros (l & Hl & ->)%fmap_Some. econstructor; [by apply fine_batch|done..].
  - intros (l & Hl & ->)%fmap_Some. econstructor; [by apply fine_do| |done].
    destruct e; try done. cbn in Hsv. lia.
Qed.

(** Two chains, the first one saved at height 5. *)
Definition prly : Relayer MemDB :=
  mkRelayer ∅ {[ "0x1.eth" := mkChainRuntime [] 0 5 ∅; "0x2.icon" := mkChainRuntime [] 0 0 ∅ ]} ∅ 1 [].
Definition key6 : MessageKey := mkMessageKey (Some (mkBigInt 1 6)) "0x1.eth" "0x2.icon" EmitMessage.
Definition at_height (h : Z) (nid : string) : ChainProvider := {|
  QueryLatestHeight := Ok h;
  QueryTransactionReceipt _ := Err "no"; Route _ := ([], Ok tt);
  ShouldReceiveMessage _ := Ok true; ShouldSendMessage _ := Ok true; MessageReceived _ := Ok false;
  FinalityBlock := 0; GenerateMessages _ := Err "no"; p_RevertMessage _ := Ok tt; p_GetFee _ _ := Ok 0;
  p_SetFee _ _ _ := Ok tt; p_ClaimFee := Ok tt |}.
Abbreviation both := ["0x1.eth"; "0x2.icon"].

(** The subscription fails after block 8, whose height the relayer saves; block
    9 is made before the restart.  The message of block 6 is delivered. *)
Definition story : list (pact (A := act)) :=
  [Source (Do Tick); Source (Do (Opened 0 (Ok tt))); Source (AskHeight true); Source (AskBatch true); Source (Do Send);
   Relays (ProcessBlock "0x1.eth"); Source (Do ScanDone); Source (Mine [log_at 8]); Source (Do (SubLog 0));
   Relays (Router (at_height 8) 9 both [("0x1.eth", []); ("0x2.icon", [])] heightTimer);
   Source (Do (SubErr 0 "tcp")); Source (Mine [log_at 9]); Source (Do (Error 0 false (Ok tt) 8));
   Source (Do Tick); Source (Do (Opened 0 (Ok tt))); Source (AskHeight true); Source (AskBatch true);
   Source (Do Send); Source (Do Send); Source (Do ScanDone);
   Relays (ProcessBlock "0x1.eth"); Relays (ProcessBlock "0x1.eth"); Relays (ProcessBlock "0x1.eth");
   Relays (Router (at_height 9) (10 ^ 12) both [("0x1.eth", [key6]); ("0x2.icon", [])] routeTimer);
   Relays (TaskStart (10 ^ 12) 0);
   Relays (TaskCallback (at_height 9) "0x1.eth" "0x2.icon" key6 (mkTxResponse 3 "0xdd" "" Success "") None)].

Definition story_end := default (EvmListenerWitness.begun, prly, []) (prun "0x1.eth" evm5 evm_src story (EvmListenerWitness.begun, prly, [])).

Lemma story_begins : fed "0x1.eth" evm5 EvmListenerWitness.begun prly [].
Proof.
  apply fed_begin.
  - split; [|by exists (chain_node (Ok 7) (Err ""))].
    split_and!; [cbn; lia..| |done]. intros log [->|?%elem_of_nil]%elem_of_cons; [cbn; lia|done].
  - split_and!; [done..|]. intros n c. unfold prly. cbn [rl_chains].
    intros [[_ <-]|[_ [_ <-]%lookup_singleton_Some]]%lookup_insert_Some; done.
  - apply mem_healthy.
Qed.

Lemma story_fed : fed "0x1.eth" evm5 story_end.1.1 story_end.1.2 story_end.2.
Proof. apply (prun_default "0x1.eth" evm5 evm_src evm_src_steps story); [apply story_begins|vm_compute; reflexivity]. Qed.

Definition sent_message (h : Z) : MessageOf Z := mkMessage "0x2.icon" "0x1.eth" (Some h) "d" h EmitMessage None.

Definition row_stored (h : Z) : bool := is_ok (deref (contents (rl_db story_end.1.2) !! wire_row (sent_message h))).
Lemma story_rows : row_stored 6 = false ∧ row_stored 8 = true ∧ row_stored 9 = true.
Proof. vm_compute. auto. Qed.

Lemma story_up_to_date : up_to_date (w_l story_end.1.1).
Proof. split; vm_compute; reflexivity. Qed.

Definition story_chain : ChainRuntime :=
  default (mkChainRuntime [] 0 0 ∅) (rl_chains story_end.1.2 !! "0x1.eth").
Lemma story_queue : rl_chains story_end.1.2 !! "0x1.eth" = Some story_chain ∧ listenerChan story_chain = [].
Proof. split; vm_compute; reflexivity. Qed.

Lemma story_log : log_at 6 ∈ w_logs story_end.1.1 ∧ w_head story_end.1.1 + Evm.c_BlockBatchSize EvmWitness.cfg < 2 ^ 64.
Proof. split; [vm_compute; repeat (constructor; try reflexivity)|vm_compute; reflexivity]. Qed.

(** The messages of blocks 8 and 9 are stored; that of block 6 was released. *)
Lemma no_message_lost_witness :
  (row_stored 6 = false ∧ row_stored 8 = true ∧ row_stored 9 = true) ∧
  (is_Some (contents (rl_db story_end.1.2) !! wire_row (sent_message 6)) ∨
   ∃ a s0, (a, s0) ∈ story_end.2 ∧ releases a s0 (wire_row (sent_message 6))).
Proof.
  split; [exact story_rows|].
  exact (no_message_lost "0x1.eth" EvmWitness.cfg map_of addresses topics binds 5 story_end.1.1 story_end.1.2 story_end.2
    story_chain eq_refl (proj2 story_log) story_fed story_up_to_date (proj1 story_queue) (proj2 story_queue)
    (log_at 6) (mkBlockInfo 6 [sent_message 6]) (sent_message 6) (proj1 story_log) ltac:(done)
    ltac:(vm_compute; reflexivity) ltac:(by left)).
Defined.

(** ** ICON *)

Abbreviation icon2 := (icon_feeder (St := MemDB) "0x2.icon" IconWitness.cfg IconWitness.contracts 2).
Definition icon_src (a : iact) (_ : Relayer MemDB) (w : INode) : option INode := iexec [a] w.

Lemma icon_src_steps a s w w' : icon_src a s w = Some w' → steps icon2 s w w'.
Proof.
  unfold icon_src. destruct a as [sns| |p|e]; cbn [iexec].
  - intros [= <-]. apply istep_mine. apply Forall_fmap, Forall_forall. intros sn _. done.
  - destruct (Z.leb_spec (in_pos w) (in_head w)); [|done]. intros [= <-].
    by apply (istep_stream _ _ w (arrive (streamed w) w)).
  - destruct ((0 <? p) && (p <=? in_pos w)) eqn:E; [|done]. intros [= <-]. apply andb_true_iff in E as [H1 H2].
    apply istep_progress. lia.
  - destruct (alive e) eqn:Ha; [|done]. destruct (irun _ _ e (in_l w)) as [l|] eqn:Hrun; [|done]. intros [= <-]. by constructor.
Qed.

(** The ICON chain is saved at height 2, and at 4 when the listener starts. *)
Definition irly : Relayer MemDB :=
  mkRelayer ∅ {[ "0x1.eth" := mkChainRuntime [] 0 0 ∅; "0x2.icon" := mkChainRuntime [] 0 2 ∅ ]} ∅ 1 [].

(** The connection breaks while the events of block 3 are read; what it brings
    again is stored over itself. *)
Definition icon_story : list (pact (A := iact)) :=
  (Source <$> broken) ++
  [Relays (ProcessBlock "0x2.icon"); Relays (ProcessBlock "0x2.icon"); Relays (ProcessBlock "0x2.icon");
   Relays (ProcessBlock "0x2.icon")].
Definition icon_end := default (IconMonitorWitness.begun, irly, []) (prun "0x2.icon" icon2 icon_src icon_story (IconMonitorWitness.begun, irly, [])).

Definition icon_node (head : Z) : Icon.IconNode := {|
  Icon.GetLastBlock := Ok (mkBlock head []); Icon.GetBlockByHeight _ := Err "no"; Icon.GetTransactionResult _ := Err "no";
  Icon.polls _ := []; Icon.Call _ := Err "no"; Icon.EstimateStep _ := Err "no"; Icon.node_SendTransaction _ := Err "no";
  Icon.node_GetBalance _ := Err "no"; Icon.marshal_tx _ := Err "no"; Icon.SerializeJSON _ := Err "no";
  Icon.SHA3Sum256 _ := hash32; Icon.Sign _ := Err "no"; Icon.wallet_bytes := Err "no" |}.

Lemma icon_story_fed : fed "0x2.icon" icon2 icon_end.1.1 icon_end.1.2 icon_end.2.
Proof.
  apply (prun_default "0x2.icon" icon2 icon_src icon_src_steps icon_story); [|vm_compute; reflexivity].
  apply fed_begin.
  - split; [split_and!; [cbn; lia..|done|by repeat constructor]|]. exists (icon_node 4). vm_compute. reflexivity.
  - split_and!; [done..|]. intros n c. unfold irly. cbn [rl_chains].
    intros [[_ <-]|[_ [_ <-]%lookup_singleton_Some]]%lookup_insert_Some; done.
  - apply mem_healthy.
Qed.

Definition icon_message (sn : Z) : MessageOf Z := mkMessage "0x1.eth" "0x2.icon" (Some sn) "data" 3 EmitMessage None.

Definition irow_stored (sn : Z) : bool := is_ok (deref (contents (rl_db icon_end.1.2) !! wire_row (icon_message sn))).
Lemma icon_rows : irow_stored 7 = true ∧ irow_stored 8 = true ∧ irow_stored 9 = true.
Proof. vm_compute. auto. Qed.

Definition icon_chain : ChainRuntime := default (mkChainRuntime [] 0 0 ∅) (rl_chains icon_end.1.2 !! "0x2.icon").
Lemma icon_queue : rl_chains icon_end.1.2 !! "0x2.icon" = Some icon_chain ∧ listenerChan icon_chain = [].
Proof. split; vm_compute; reflexivity. Qed.
Lemma icon_read : in_head icon_end.1.1 < 2 ^ 62 ∧ il_monitors (in_l icon_end.1.1) = [MReading []] ∧
  in_head icon_end.1.1 < in_pos icon_end.1.1.
Proof. split_and!; vm_compute; reflexivity. Qed.
Lemma icon_event : (3, note 3 8) ∈ in_events icon_end.1.1.
Proof. vm_compute. repeat (constructor; try reflexivity). Qed.
Lemma icon_parsed : Icon.parseMessageEvent IconWitness.cfg IconWitness.contracts (note 3 8) = Ok [icon_message 8].
Proof. vm_compute. reflexivity. Qed.

(** All three messages are stored. *)
Lemma icon_no_message_lost_witness :
  (irow_stored 7 = true ∧ irow_stored 8 = true ∧ irow_stored 9 = true) ∧
  (is_Some (contents (rl_db icon_end.1.2) !! wire_row (icon_message 8)) ∨
   ∃ a s0, (a, s0) ∈ icon_end.2 ∧ releases a s0 (wire_row (icon_message 8))).
Proof.
  split; [exact icon_rows|].
  exact (icon_no_message_lost "0x2.icon" IconWitness.cfg IconWitness.contracts 2 icon_end.1.1 icon_end.1.2 icon_end.2
    icon_chain (proj1 icon_read) icon_story_fed (proj1 (proj2 icon_read)) (proj2 (proj2 icon_read))
    (proj1 icon_queue) (proj2 icon_queue) 3 (note 3 8) [icon_message 8] (icon_message 8) icon_event
    ltac:(done) icon_parsed ltac:(by left)).
Defined.
