(* ===== verification/IconClient.v ===== *)
(** Package relayer/chains/icon: the JSON-RPC client (client.go).

    goloop's client, which sends a request and decodes the answer, is
    third-party, as is the node: [Server] gives the answer to a request, after
    the requests sent before it.  Every method sends one request; waiting for a
    result sends up to [MaxTxRetry].  The websocket side of the client is in
    IconMonitor.v.  [IconData] holds the parameters of the methods. *)
From stdpp Require Import gmap strings list.
From Stdlib Require Import ZArith Lia.
From S2P Require Import Prelude GoStd Types Provider IconTypes Icon.
Open Scope Z_scope.

Module IconClient.

(** * Requests *)

Record ProofEventsParam := mkProofEventsParam { pe_BlockHash : HexBytes; pe_Index : HexInt; pe_Events : list HexInt }.

(** The parameters of a request. *)
Inductive Params : Type :=
| PTransaction (p : TransactionParam)
| PTransactionHash (hash : HexBytes)
| PCall (p : CallParam)
| PBlockHeight (height : HexInt)
| PDataHash (hash : HexBytes)
| PProofResult (blockHash : HexBytes) (index : HexInt)
| PProofEvents (p : ProofEventsParam)
| PAddress (addr : Address)
| PEmpty.

(** A request: the end point when it is not the client's own, the method, the
    parameters. *)
Record Request := mkRequest { rq_EndPoint : option string; rq_Method : string; rq_Params : Params }.

(** An error of the call: goloop's [jsonrpc.Error], with its code and text, or
    any other. *)
Inductive RpcError : Type :=
| JsonrpcError (code : Z) (text : string)
| OtherError (text : string).
Definition Error (e : RpcError) : string := match e with JsonrpcError _ t => t | OtherError t => t end.

(** A block's header, as [codec.RLP] decodes it. *)
Record BlockHeader := mkBlockHeader {
  bh_Version : Z; bh_Height : Z; bh_Timestamp : Z; bh_Proposer : string; bh_PrevID : string; bh_VotesHash : string;
  bh_NextValidatorsHash : string; bh_PatchTransactionsHash : string; bh_NormalTransactionsHash : string;
  bh_LogsBloom : string; bh_Result : string; bh_NSFilter : string }.

(** The node and the decoding of its answers. *)
Class Server (Json : Type) := {
  answer : list Request → Request → Json + RpcError;
  as_HexBytes : Json → res HexBytes;
  as_HexInt : Json → res HexInt;
  as_TransactionResult : Json → res TransactionResult;
  as_Block : Json → res Block;
  as_bytes : Json → res string;
  as_proof : Json → res (list string);
  as_proofs : Json → res (list (list string));
  as_NetworkInfo : Json → res NetworkInfo;
  rlp_BlockHeader : string → res BlockHeader;
  (* the codes of goloop's server/jsonrpc *)
  ErrorCodePending : Z;
  ErrorCodeNotFound : Z;
  ErrorCodeExecuting : Z }.

Section Client.
Context {Json : Type} `{!Server Json}.
Context (DebugEndPoint : string).

(** The state is the requests sent so far. *)
Abbreviation Cl := (proc (list Request)).

(** [JsonRpcClient.Do] and [DoURL], the answer decoded. *)
Definition Do {A} (endpoint : option string) (method : string) (params : Params) (decode : Json → res A) :
    Cl (A + RpcError) := λ sent,
  let rq := mkRequest endpoint method params in
  match answer sent rq with
  | inr e => Some (sent ++ [rq], inr e)
  | inl json =>
      match decode json with
      | Ok a => Some (sent ++ [rq], inl a)
      | Err e => Some (sent ++ [rq], inr (OtherError e))
      | Panic => None
      end
  end.

(** * Methods *)

Definition SendTransaction (p : TransactionParam) : Cl (HexBytes + RpcError) :=
  Do None "icx_sendTransaction" (PTransaction p) as_HexBytes.
Definition SendTransactionAndWait (p : TransactionParam) : Cl (HexBytes + RpcError) :=
  Do None "icx_sendTransactionAndWait" (PTransaction p) as_HexBytes.
Definition GetTransactionResult (hash : HexBytes) : Cl (TransactionResult + RpcError) :=
  Do None "icx_getTransactionResult" (PTransactionHash hash) as_TransactionResult.
Definition WaitTransactionResult (hash : HexBytes) : Cl (TransactionResult + RpcError) :=
  Do None "icx_waitTransactionResult" (PTransactionHash hash) as_TransactionResult.
(** The result is decoded into the variable the caller gives. *)
Definition Call {A} (p : CallParam) (decode : Json → res A) : Cl (A + RpcError) :=
  Do None "icx_call" (PCall p) decode.
Definition GetLastBlock : Cl (Block + RpcError) := Do None "icx_getLastBlock" PEmpty as_Block.
Definition GetBlockByHeight (height : HexInt) : Cl (Block + RpcError) :=
  Do None "icx_getBlockByHeight" (PBlockHeight height) as_Block.
Definition GetBlockHeaderBytesByHeight (height : HexInt) : Cl (string + RpcError) :=
  Do None "icx_getBlockHeaderByHeight" (PBlockHeight height) as_bytes.
Definition GetDataByHash (hash : HexBytes) : Cl (string + RpcError) :=
  Do None "icx_getDataByHash" (PDataHash hash) as_bytes.
Definition GetProofForResult (blockHash : HexBytes) (index : HexInt) : Cl (list string + RpcError) :=
  Do None "icx_getProofForResult" (PProofResult blockHash index) as_proof.
Definition GetProofForEvents (p : ProofEventsParam) : Cl (list (list string) + RpcError) :=
  Do None "icx_getProofForEvents" (PProofEvents p) as_proofs.
Definition GetNetworkInfo : Cl (NetworkInfo + RpcError) := Do None "icx_getNetworkInfo" PEmpty as_NetworkInfo.

Definition GetBlockHeaderByHeight (height : Z) : Cl (BlockHeader + RpcError) :=
  b ← GetBlockHeaderBytesByHeight (NewHexInt height);
  match b with
  | inr e => mret (inr e)
  | inl b =>
      match rlp_BlockHeader b with Ok h => mret (inl h) | Err e => mret (inr (OtherError e)) | Panic => panic end
  end.

Definition GetBalance (addr : Address) : Cl (Z + RpcError) :=
  r ← Do None "icx_getBalance" (PAddress addr) as_HexInt;
  match r with
  | inr e => mret (inr e)
  | inl result =>
      match HexInt_BigInt result with Ok z => mret (inl z) | Err e => mret (inr (OtherError e)) | Panic => panic end
  end.

(** On a copy of the transaction, with a time of its own. *)
Definition EstimateStep (now : Z) (param : TransactionParam) : Cl (HexInt + RpcError) :=
  if decide (DebugEndPoint = "") then mret (inr (OtherError "UnavailableDebugEndPoint"))
  else Do (Some DebugEndPoint) "debug_estimateStep" (PTransaction (Icon.estimate_param now param)) as_HexInt.

(** [WaitForResults]: at each tick the context may have ended ([ctx] of the
    number of the tick). *)
Definition is_waiting (e : RpcError) : bool :=
  match e with
  | JsonrpcError code _ => (code =? ErrorCodePending) || (code =? ErrorCodeNotFound) || (code =? ErrorCodeExecuting)
  | OtherError _ => false
  end.

Fixpoint WaitForResults_loop (fuel tick : nat) (ctx : nat → option string) (hash : HexBytes) (retryCounter : Z) :
    Cl (TransactionResult + RpcError) :=
  match fuel with
  | O => mret (inr (OtherError "out of fuel"))
  | S fuel =>
      match ctx tick with
      | Some e => mret (inr (OtherError e))
      | None =>
          if MaxTxRetry <=? retryCounter then mret (inr (OtherError ("max retry reached for tx " +:+ hash)))
          else
            txr ← GetTransactionResult hash;
            match txr with
            | inl txr => mret (inl txr)
            | inr e =>
                if is_waiting e then WaitForResults_loop fuel (S tick) ctx hash (retryCounter + 1)
                else mret (inr e)
            end
      end
  end.
Definition WaitForResults (ctx : nat → option string) (hash : HexBytes) : Cl (TransactionResult + RpcError) :=
  WaitForResults_loop (S (Z.to_nat MaxTxRetry)) 0 ctx hash 0.

(** * The client implements the node of Icon.v *)

(** The polls of a wait that starts after the requests [sent]. *)
Fixpoint polls_of (n tick : nat) (ctx : nat → option string) (hash : HexBytes) (sent : list Request) : list Icon.Poll :=
  match n with
  | O => []
  | S n =>
      match ctx tick with
      | Some e => [Icon.PCancelled e]
      | None =>
          let p := match GetTransactionResult hash sent with
            | Some (_, inl r) => Icon.PResult r
            | Some (_, inr e) => if is_waiting e then Icon.PPending else Icon.PError (Error e)
            | None => Icon.PCancelled "panic"
            end in
          p :: polls_of n (S tick) ctx hash
            (sent ++ [mkRequest None "icx_getTransactionResult" (PTransactionHash hash)])
      end
  end.

Definition of_answer {A} (r : A + RpcError) : res A := match r with inl a => Ok a | inr e => Err (Error e) end.

(** Decoding answers with a value or an error. *)
Definition decodes : Prop := ∀ json, as_TransactionResult json ≠ Panic.

(** C36: waiting for a transaction over JSON-RPC is the wait of Icon.v on what
    the node answers: it always ends, has asked for the result of that
    transaction at most [MaxTxRetry] times and sent nothing else, and gives the
    first answer that is not "pending", "not found" or "executing", or the error
    of the context, or that the tries are used up. *)
Theorem WaitForResults_refines ctx hash sent (Hdec : decodes) :
  let asked := mkRequest None "icx_getTransactionResult" (PTransactionHash hash) in
  ∃ n r, WaitForResults ctx hash sent = Some (sent ++ replicate n asked, r) ∧ Z.of_nat n ≤ MaxTxRetry ∧
    of_answer r = Icon.WaitForResults_loop hash 0 (polls_of (S (Z.to_nat MaxTxRetry)) 0 ctx hash sent).
Proof.
  cbn zeta. set (asked := mkRequest _ _ _). unfold WaitForResults.
  assert (∀ fuel tick sent retry, 0 ≤ retry ≤ MaxTxRetry → Z.of_nat fuel = MaxTxRetry - retry + 1 →
    ∃ n r, WaitForResults_loop fuel tick ctx hash retry sent = Some (sent ++ replicate n asked, r) ∧
      Z.of_nat n ≤ MaxTxRetry - retry ∧
      of_answer r = Icon.WaitForResults_loop hash retry (polls_of fuel tick ctx hash sent)) as Hloop.
  2:{ destruct (Hloop (S (Z.to_nat MaxTxRetry)) 0%nat sent 0) as (n & r & ? & ? & ?);
        [unfold MaxTxRetry; lia..|]. exists n, r. split_and!; [done|lia|done]. }
  clear sent. induction fuel as [|fuel IH]; intros tick sent retry Hr Hf; [lia|].
  cbn [WaitForResults_loop polls_of]. destruct (ctx tick) as [e|].
  { exists 0%nat, (inr (OtherError e)). cbn. rewrite app_nil_r. split_and!; [done|lia|done]. }
  cbn [Icon.WaitForResults_loop]. destruct (Z.leb_spec MaxTxRetry retry).
  { exists 0%nat. eexists. cbn. rewrite app_nil_r. split_and!; [done|lia|].
    unfold GetTransactionResult, Do. fold asked. destruct (answer sent asked) as [json|e];
      [|destruct (is_waiting e); reflexivity].
    specialize (Hdec json). destruct (as_TransactionResult json); done. }
  unfold GetTransactionResult, Do, mbind, proc_bind. fold asked. destruct (answer sent asked) as [json|e] eqn:Ha.
  - specialize (Hdec json). destruct (as_TransactionResult json) as [r|e|] eqn:Hd; [| |done];
      (exists 1%nat; eexists; split_and!; [done|lia|done]).
  - destruct (is_waiting e) eqn:Hw.
    + destruct (IH (S tick) (sent ++ [asked]) (retry + 1)) as (n & r & Hloop & Hn & Hres); [lia..|].
      exists (S n), r. rewrite Hloop, <-app_assoc. split_and!; [done|lia|exact Hres].
    + exists 1%nat. eexists. split_and!; [done|lia|done].
Qed.
End Client.

(** * Proofs and encoded data *)

(** goloop's RLP codec and its Merkle trie are third-party: the encoding of an
    index, the value proved for a key under a root hash, and the value that
    bytes encode with what follows it. *)
Section Utils.
Context {V : Type} (RLP_MarshalToBytes : Z → res string) (mpt_Prove : string → string → list string → res string)
  (RLP_UnmarshalFromBytes : string → res (V * string)).

Definition MptProve (key : HexInt) (proofs : list string) (hash : string) : res string :=
  match HexInt_Value key with
  | (_, Some err) => Err err
  | (index, None) => indexKey ← RLP_MarshalToBytes index; mpt_Prove hash indexKey proofs
  end.

Definition Base64ToData (encoded : string) : res (V * string) :=
  if decide (encoded = "") then Err "Encoded string is empty "
  else decoded ← Base64.DecodeString encoded; RLP_UnmarshalFromBytes decoded.

(** Data that was marshalled and encoded is read back. *)
Lemma Base64ToData_encoded v s :
  s ≠ "" → RLP_UnmarshalFromBytes s = Ok (v, "") → Base64ToData (Base64.EncodeToString s) = Ok (v, "").
Proof.
  intros Hs Hu. unfold Base64ToData. rewrite decide_False; [by rewrite Base64.base64_roundtrip|].
  intros E. pose proof (Base64.base64_roundtrip s) as Hr. rewrite E in Hr. by injection Hr as <-.
Qed.
End Utils.
End IconClient.

(** * relayer/chains/icon/types: the parameters of the contracts' methods,
    as structs and as the JSON objects that are sent; and the parameters of the
    node's own methods that [IconClient] sends. *)

Module IconData.

(** * The contracts' methods *)

Record RecvMessage := mkRecvMessage { rv_SrcNID : string; rv_ConnSn : HexInt; rv_Msg : HexBytes }.
Record ExecuteCall := mkExecuteCall { ec_ReqID : HexInt; ec_Data : HexBytes }.
Record SetAdmin := mkSetAdmin { sa_Relayer : string }.
Record RevertMessage := mkRevertMessage { rm_Sn : HexInt }.
Record SetFee := mkSetFee { sf_NetworkID : string; sf_MsgFee : HexInt; sf_ResFee : HexInt }.
Record ExecuteRollback := mkExecuteRollback { er_Sn : HexInt }.

(** Their JSON objects, by the struct tags. *)
Definition RecvMessage_json (p : RecvMessage) : list (string * string) :=
  [("srcNetwork", rv_SrcNID p); ("_connSn", rv_ConnSn p); ("msg", rv_Msg p)].
Definition ExecuteCall_json (p : ExecuteCall) : list (string * string) := [("_reqId", ec_ReqID p); ("_data", ec_Data p)].
Definition SetAdmin_json (p : SetAdmin) : list (string * string) := [("_relayer", sa_Relayer p)].
Definition RevertMessage_json (p : RevertMessage) : list (string * string) := [("_sn", rm_Sn p)].
Definition SetFee_json (p : SetFee) : list (string * string) :=
  [("networkId", sf_NetworkID p); ("messageFee", sf_MsgFee p); ("responseFee", sf_ResFee p)].
Definition ExecuteRollback_json (p : ExecuteRollback) : list (string * string) := [("_sn", er_Sn p)].

(** An object that has exactly the fields, in any order, read by name. *)
Definition field (name : string) (o : list (string * string)) : option string :=
  snd <$> head (filter (λ f, f.1 = name) o).
Definition RecvMessage_of (o : list (string * string)) : option RecvMessage :=
  src ← field "srcNetwork" o; sn ← field "_connSn" o; msg ← field "msg" o; Some (mkRecvMessage src sn msg).
Definition ExecuteCall_of (o : list (string * string)) : option ExecuteCall :=
  req ← field "_reqId" o; data ← field "_data" o; Some (mkExecuteCall req data).
Definition RevertMessage_of (o : list (string * string)) : option RevertMessage := mkRevertMessage <$> field "_sn" o.

Lemma RecvMessage_roundtrip p : RecvMessage_of (RecvMessage_json p) = Some p.
Proof. by destruct p. Qed.
Lemma ExecuteCall_roundtrip p : ExecuteCall_of (ExecuteCall_json p) = Some p.
Proof. by destruct p. Qed.

(** A message routed to an ICON chain arrives there: what the contract reads of
    the parameters is the source, the number and the data of the message, as
    long as the number fits 64 bits. *)
Lemma MakeIconMessage_arrives contracts (m : MessageOf Z) n :
  - 2 ^ 63 ≤ n < 2 ^ 63 →
  (m_EventType m = EmitMessage → m_Sn m = Some n →
    ∃ msg p, Icon.MakeIconMessage contracts m = Ok msg ∧ Icon.im_Method msg = Icon.MethodRecvMessage ∧
      RecvMessage_of (Icon.im_Params msg) = Some p ∧ rv_SrcNID p = m_Src m ∧
      HexInt_Value (rv_ConnSn p) = (n, None) ∧ HexBytes_Value (rv_Msg p) = Ok (m_Data m)) ∧
  (m_EventType m = CallMessage → m_ReqID m = Some n →
    ∃ msg p, Icon.MakeIconMessage contracts m = Ok msg ∧ Icon.im_Method msg = Icon.MethodExecuteCall ∧
      ExecuteCall_of (Icon.im_Params msg) = Some p ∧
      HexInt_Value (ec_ReqID p) = (n, None) ∧ HexBytes_Value (ec_Data p) = Ok (m_Data m)).
Proof.
  intros Hn. assert (big_Int64 n = n) as Hi.
  { by apply i64_small. }
  split; intros He Hsn; unfold Icon.MakeIconMessage; rewrite He; cbn [mbind res_bind];
    (repeat first [rewrite decide_True by done|rewrite decide_False by done]); rewrite Hsn; cbn [Icon.big_nil_Int64 deref mbind res_bind];
    rewrite Hi; do 2 eexists; (split; [reflexivity|]); (split; [reflexivity|]); (split; [reflexivity|]); cbn;
    split_and?; auto using HexInt_Value_NewHexInt, HexBytes_Value_NewHexBytes.
Qed.

(** The operator's [RevertMessage] names its parameter [sn]; the one that is
    routed names it [_sn]. *)
Lemma revert_parameters_differ contracts (m : MessageOf Z) n msg :
  m_EventType m = Types.RevertMessage → m_Sn m = Some n → Icon.MakeIconMessage contracts m = Ok msg →
  ∀ v, Icon.im_Params msg ≠ [("sn", v)].
Proof.
  intros He Hsn. unfold Icon.MakeIconMessage. rewrite He.
  repeat first [rewrite decide_True by done|rewrite decide_False by done]. rewrite Hsn. cbn. by intros [= <-] v.
Qed.

(** * The node's methods *)

Record AddressParam := mkAddressParam { ap_Address : Address; ap_Height : HexInt }.
Record TransactionHashParam := mkTransactionHashParam { th_Hash : HexBytes }.
Record BlockHeightParam := mkBlockHeightParam { bhp_Height : HexInt }.
Record DataHashParam := mkDataHashParam { dh_Hash : HexBytes }.
Record ProofResultParam := mkProofResultParam { prp_BlockHash : HexBytes; prp_Index : HexInt }.

(** As IconClient.v sends them; it asks for no balance at a height. *)
Definition AddressParam_of (p : AddressParam) : IconClient.Params := IconClient.PAddress (ap_Address p).
Definition TransactionHashParam_of (p : TransactionHashParam) : IconClient.Params := IconClient.PTransactionHash (th_Hash p).
Definition BlockHeightParam_of (p : BlockHeightParam) : IconClient.Params := IconClient.PBlockHeight (bhp_Height p).
Definition DataHashParam_of (p : DataHashParam) : IconClient.Params := IconClient.PDataHash (dh_Hash p).
Definition ProofResultParam_of (p : ProofResultParam) : IconClient.Params := IconClient.PProofResult (prp_BlockHash p) (prp_Index p).
End IconData.
