(* ===== verification/IconClientWitness.v ===== *)
(** The ICON client over concrete nodes. *)
From stdpp Require Import gmap strings list.
From Stdlib Require Import ZArith Lia.
From S2P Require Import Prelude GoStd Types Provider IconTypes Icon IconClient.
Import IconClient.
Open Scope Z_scope.

Definition result_120 : TransactionResult :=
  mkTransactionResult "" "" "" "" [] "" (NewHexInt 1) None "" "" (NewHexInt 120) "" "0xdd".

(** A node that has executed the transaction once [executed] requests have been
    made, and says "pending" (code -31002) before. *)
Definition icon_server (executed : nat) : Server unit := {|
  answer sent _ := if decide (executed ≤ length sent)%nat then inl tt else inr (JsonrpcError (-31002) "Pending");
  as_HexBytes _ := Err "no"; as_HexInt _ := Ok "0x10"; as_TransactionResult _ := Ok result_120;
  as_Block _ := Err "no"; as_bytes _ := Err "no"; as_proof _ := Err "no"; as_proofs _ := Err "no";
  as_NetworkInfo _ := Err "no"; rlp_BlockHeader _ := Err "no";
  ErrorCodePending := -31002; ErrorCodeNotFound := -31004; ErrorCodeExecuting := -31003 |}.

Definition open_context (_ : nat) : option string := None.
Definition asks (n : nat) : list Request :=
  replicate n (mkRequest None "icx_getTransactionResult" (PTransactionHash "0xdd")).

(** Executed after two polls: the third gives the result. *)
Lemma WaitForResults_refines_witness :
  WaitForResults (Server0 := icon_server 2) open_context "0xdd" [] = Some (asks 3, inl result_120) ∧
  ∃ n r, WaitForResults (Server0 := icon_server 2) open_context "0xdd" [] = Some (asks n, r) ∧ Z.of_nat n ≤ MaxTxRetry ∧
    of_answer r = Icon.WaitForResults_loop "0xdd" 0
      (polls_of (Server0 := icon_server 2) (S (Z.to_nat MaxTxRetry)) 0 open_context "0xdd" []).
Proof.
  split; [vm_compute; reflexivity|].
  exact (@WaitForResults_refines unit (icon_server 2) open_context "0xdd" [] (λ _, ltac:(discriminate))).
Defined.

(** Never executed: the error after the last try, with nothing more asked. *)
Example wait_gives_up :
  ∃ n, WaitForResults (Server0 := icon_server 1000) open_context "0xdd" [] =
       Some (asks n, inr (OtherError "max retry reached for tx 0xdd")) ∧ Z.of_nat n = MaxTxRetry.
Proof. exists (Z.to_nat MaxTxRetry). split; vm_compute; reflexivity. Qed.

(** The balance is the hex integer the node gives. *)
Example balance_16 : GetBalance (Server0 := icon_server 0) "hx1" [] =
  Some ([mkRequest None "icx_getBalance" (PAddress "hx1")], inl 16).
Proof. vm_compute. reflexivity. Qed.
