(* ===== verification/WasmTypes.v ===== *)
(** Package relayer/chains/wasm/types: the contracts' messages, the search
    queries and the data of the CosmWasm provider. *)
From stdpp Require Import gmap strings list.
From Stdlib Require Import ZArith Lia Ascii.
From S2P Require Import Prelude GoStd Types IconTypes.
Open Scope Z_scope.

Module WasmTypes.

Definition CodeTypeOK : Z := 0.
Definition CodeTypeErr : Z := 1.
Definition ChainType : string := "cosmos".

(** * Messages of the contracts (msg.go) *)

Record ReceiveMessage := mkReceiveMessage { rv_SrcNetwork : string; rv_ConnSn : string; rv_Msg : string }.
Record ExecMessage := mkExecMessage { em_ReqID : string; em_Data : list Z }.
Record SetFeeMsg := mkSetFeeMsg { sf_NetworkID : string; sf_MessageFee : string; sf_ResponseFee : string }.

(** The JSON objects handed to [jsoniter.Marshal]; [ExecNil] is a nil pointer,
    which marshals to [null]. *)
Inductive ExecMsg : Type :=
| ExecRecvMsg (m : ReceiveMessage)
| ExecExecMsg (m : ExecMessage)
| ExecRevertMsg (sn : string)
| ExecSetAdmin (address : string)
| ExecClaimFee
| ExecSetFee (m : SetFeeMsg)
| ExecGetFee (nid : string) (response : bool)
| ExecExecuteRollback (sn : string)
| QueryReceiptMsg (srcNetwork connSn : string)
| ExecNil.

Definition NewExecRecvMsg (message : MessageOf Z) : ExecMsg :=
  ExecRecvMsg (mkReceiveMessage (m_Src message) (Sn_String (m_Sn message)) (HexStr.NewFromByte (m_Data message))).

(** [unmarshal] reads a JSON array of integers; data that is none makes the
    whole message nil. *)
Definition NewExecExecMsg (unmarshal : string → res (list Z)) (message : MessageOf Z) : ExecMsg :=
  match unmarshal (m_Data message) with
  | Ok data => ExecExecMsg (mkExecMessage (Sn_String (m_ReqID message)) data)
  | _ => ExecNil
  end.

Definition NewExecRevertMsg (message : MessageOf Z) : ExecMsg := ExecRevertMsg (Sn_String (m_Sn message)).
Definition NewExecSetAdmin (address : string) : ExecMsg := ExecSetAdmin address.
Definition NewExecClaimFee : ExecMsg := ExecClaimFee.
Definition NewExecSetFee (networkID : string) (msgFee resFee : option Z) : ExecMsg :=
  ExecSetFee (mkSetFeeMsg networkID (Sn_String msgFee) (Sn_String resFee)).
Definition NewExecGetFee (networkID : string) (response : bool) : ExecMsg := ExecGetFee networkID response.
Definition NewExecExecuteRollback (sn : option Z) : ExecMsg := ExecExecuteRollback (Sn_String sn).

(** * Queries (query.go) *)

Inductive QueryExpression : Type :=
| Query (field operator value : string)
| CompositeQuery (or : bool) (queries : list QueryExpression).

(** One round of [CompositeQuery.GetQuery]'s loop. *)
Definition merge (merger : string) (resultQuery q : string) : string :=
  if decide (q ≠ "") then
    if decide (resultQuery ≠ "") then resultQuery +:+ " " +:+ merger +:+ " " +:+ q else q
  else resultQuery.

Fixpoint GetQuery (q : QueryExpression) : string :=
  match q with
  | Query field operator value =>
      field +:+ (if decide (operator ≠ "") then operator else "=") +:+ value
  | CompositeQuery or queries =>
      fold_left (λ acc q, merge (if or then "OR" else "AND") acc (GetQuery q)) queries ""
  end.

(** * Searches (types.go) *)

(** An event: its type and attributes.  Of the SDK's event types only these
    parts are used. *)
Record Event := mkEvent { ev_Type : string; ev_Attributes : list (string * string) }.

Record TxSearchParam := mkTxSearchParam {
  sp_StartHeight : Z;
  sp_EndHeight : Z;
  sp_Events : list Event;
  sp_Prove : bool;
  sp_Page : option Z;
  sp_PerPage : option Z;
  sp_OrderBy : string }.

Definition attrib_queries (events : list Event) : list QueryExpression :=
  ev ← events;
  (λ '(key, value), Query (ev_Type ev +:+ "." +:+ key) "" value) <$> ev_Attributes ev.

Definition height_queries (startHeight endHeight : Z) : list QueryExpression :=
  if u64 (endHeight - startHeight) =? 0 then [Query "tx.height" "=" (FormatInt startHeight 10)]
  else [Query "tx.height" ">=" (FormatInt startHeight 10); Query "tx.height" "<=" (FormatInt endHeight 10)].

Definition BuildQuery (param : TxSearchParam) : string :=
  GetQuery (CompositeQuery false
    (height_queries (sp_StartHeight param) (sp_EndHeight param) ++
     [CompositeQuery false (attrib_queries (sp_Events param))])).

Record TxResultResponse := mkTxResultResponse {
  tr_Height : Z;
  tr_ResultCode : Z;
  tr_ResultCodespace : string;
  tr_ResultData : string;
  tr_Log : string;
  tr_Events : list Event }.

Record SubscribeOpts := mkSubscribeOpts { so_Height : Z; so_Address : string; so_Method : string }.
Record HeightRange := mkHeightRange { hr_Start : Z; hr_End : Z }.

End WasmTypes.
