(* ===== verification/Wasm.v ===== *)
(** Package relayer/chains/wasm: the provider for CosmWasm chains.

    The Cosmos SDK and CometBFT clients are third-party: [WasmNode] holds the
    answers they give during one operation.  The provider's state is its
    account, cached with its sequence number, and the transactions the node
    has accepted. *)
From stdpp Require Import gmap strings list.
From Stdlib Require Import ZArith Lia Ascii.
From S2P Require Import Prelude GoStd Types Provider IconTypes WasmTypes.
Import WasmTypes.
Open Scope Z_scope.

Module Wasm.

(** * Configuration (config.go) *)

Record Config := mkConfig {
  c_Common : CommonConfig;
  c_GrpcUrl : string;
  c_KeyringBackend : string;
  c_KeyringDir : string;
  c_AccountPrefix : string;
  c_Denomination : string;
  c_GasPrices : string;
  (* the bits of a float64, only passed on *)
  c_GasAdjustment : Z;
  c_MinGasAmount : Z;
  c_MaxGasAmount : Z;
  c_TxConfirmationInterval : Z;
  c_BroadcastMode : string;
  c_SignModeStr : string;
  c_Simulate : bool;
  c_ExtraCodec : string;
  c_BlockBatchSize : Z }.

Definition Validate (c : Config) : error :=
  if decide (cc_ChainName (c_Common c) = "") then Some "chain-name cannot be empty"
  else if decide (cc_HomeDir (c_Common c) = "") then Some "home-dir cannot be empty"
  else None.

Definition with_batch (n : Z) (c : Config) : Config :=
  mkConfig (c_Common c) (c_GrpcUrl c) (c_KeyringBackend c) (c_KeyringDir c) (c_AccountPrefix c)
    (c_Denomination c) (c_GasPrices c) (c_GasAdjustment c) (c_MinGasAmount c) (c_MaxGasAmount c)
    (c_TxConfirmationInterval c) (c_BroadcastMode c) (c_SignModeStr c) (c_Simulate c) (c_ExtraCodec c) n.

Definition sanitize (c : Config) : Config :=
  if c_BlockBatchSize c =? 0 then with_batch 50 c else c.

(** [NewProvider] up to the creation of the client. *)
Definition NewProvider_config (c : Config) (homePath chainName : string) : res Config :=
  let k := c_Common c in
  let k := mkCommonConfig chainName (cc_RPCUrl k) (cc_StartHeight k) (cc_Address k) (cc_Contracts k)
    (cc_FinalityBlock k) (cc_NID k) homePath (cc_Disabled k) in
  let dir := if decide (c_KeyringDir c = "") then pathJoin [homePath; cc_NID k] else c_KeyringDir c in
  let c := mkConfig k (c_GrpcUrl c) (c_KeyringBackend c) dir (c_AccountPrefix c)
    (c_Denomination c) (c_GasPrices c) (c_GasAdjustment c) (c_MinGasAmount c) (c_MaxGasAmount c)
    (c_TxConfirmationInterval c) (c_BroadcastMode c) (c_SignModeStr c) (c_Simulate c) (c_ExtraCodec c)
    (c_BlockBatchSize c) in
  match Validate c with Some e => Err e | None => Ok (sanitize c) end.

(** * Events (events.go) *)

Definition EventTypeWasmMessage : string := "wasm-Message".
Definition EventTypeWasmCallMessage : string := "wasm-CallMessage".
Definition EventTypeWasmRollbackMessage : string := "wasm-RollbackMessage".
Definition EventAttrKeyMsg : string := "msg".
Definition EventAttrKeyTargetNetwork : string := "targetNetwork".
Definition EventAttrKeyConnSn : string := "connSn".
Definition EventAttrKeyReqID : string := "reqId".
Definition EventAttrKeyData : string := "data".
Definition EventAttrKeyFrom : string := "from".
Definition EventAttrKeySn : string := "sn".
Definition EventAttrKeyContractAddress : string := "_contract_address".

Definition errConnSn : string := "failed to parse connSn from event".

Section Parse.
Context (NID : string).
Abbreviation Msg := (MessageOf Z).

Definition set_Dst (v : string) (m : Msg) : Msg :=
  mkMessage v (m_Src m) (m_Sn m) (m_Data m) (m_MessageHeight m) (m_EventType m) (m_ReqID m).
Definition set_Src (v : string) (m : Msg) : Msg :=
  mkMessage (m_Dst m) v (m_Sn m) (m_Data m) (m_MessageHeight m) (m_EventType m) (m_ReqID m).
Definition set_Sn (v : Z) (m : Msg) : Msg :=
  mkMessage (m_Dst m) (m_Src m) (Some v) (m_Data m) (m_MessageHeight m) (m_EventType m) (m_ReqID m).
Definition set_Data (v : string) (m : Msg) : Msg :=
  mkMessage (m_Dst m) (m_Src m) (m_Sn m) v (m_MessageHeight m) (m_EventType m) (m_ReqID m).
Definition set_Height (v : Z) (m : Msg) : Msg :=
  mkMessage (m_Dst m) (m_Src m) (m_Sn m) (m_Data m) v (m_EventType m) (m_ReqID m).
Definition set_ReqID (v : Z) (m : Msg) : Msg :=
  mkMessage (m_Dst m) (m_Src m) (m_Sn m) (m_Data m) (m_MessageHeight m) (m_EventType m) (Some v).

Definition parse_number (v : string) (f : Z → Msg) : res Msg :=
  match SetString10 v with Some n => Ok (f n) | None => Err errConnSn end.

(** One attribute of an event of each type. *)
Definition emit_attr (m : Msg) (attr : string * string) : res Msg :=
  let '(key, value) := attr in
  if decide (key = EventAttrKeyMsg) then
    data ← wrapErr "failed to parse msg data from event: " (HexStr.ToByte (HexStr.NewFromString value));
    Ok (set_Data data m)
  else if decide (key = EventAttrKeyConnSn) then parse_number value (λ n, set_Sn n m)
  else if decide (key = EventAttrKeyTargetNetwork) then Ok (set_Dst value m)
  else if decide (key = EventAttrKeyFrom) then Ok (set_Src value m)
  else Ok m.

Definition call_attr (m : Msg) (attr : string * string) : res Msg :=
  let '(key, value) := attr in
  if decide (key = EventAttrKeyReqID) then parse_number value (λ n, set_ReqID n m)
  else if decide (key = EventAttrKeyData) then Ok (set_Data value m)
  else if decide (key = EventAttrKeyFrom) then Ok (set_Src value m)
  else if decide (key = EventAttrKeySn) then parse_number value (λ n, set_Sn n m)
  else Ok m.

Definition rollback_attr (m : Msg) (attr : string * string) : res Msg :=
  let '(key, value) := attr in
  if decide (key = EventAttrKeySn) then parse_number value (λ n, set_Sn n m) else Ok m.

(** [for _, attr := range ev.Attributes] *)
Fixpoint fold_attrs (f : Msg → string * string → res Msg) (m : Msg) (attrs : list (string * string)) :
    res Msg :=
  match attrs with
  | [] => Ok m
  | a :: attrs => m ← f m a; fold_attrs f m attrs
  end.

(** One event: [Ok None] for an event of another type. *)
Definition parse_event (ev : Event) : res (option Msg) :=
  if decide (ev_Type ev = EventTypeWasmMessage) then
    Some <$> fold_attrs emit_attr (mkMessage "" NID None "" 0 EmitMessage None) (ev_Attributes ev)
  else if decide (ev_Type ev = EventTypeWasmCallMessage) then
    Some <$> fold_attrs call_attr (mkMessage NID "" None "" 0 CallMessage None) (ev_Attributes ev)
  else if decide (ev_Type ev = EventTypeWasmRollbackMessage) then
    Some <$> fold_attrs rollback_attr (mkMessage NID NID None "" 0 RollbackMessage None) (ev_Attributes ev)
  else Ok None.

Definition ParseMessageFromEvents (eventsList : list Event) : res (list Msg) :=
  msgs ← res_mapM parse_event eventsList; Ok (omap (M:=list) id msgs).
End Parse.

(** A contract: its address, name, and event types with the relay's. *)
Record Contract := mkContract { ct_Address : string; ct_Name : string; ct_SigType : list (string * string) }.

Definition sig_types (contractName : string) : list (string * string) :=
  if decide (contractName = XcallContract) then
    [(EventTypeWasmCallMessage, CallMessage); (EventTypeWasmRollbackMessage, RollbackMessage)]
  else if decide (contractName = ConnectionContract) then [(EventTypeWasmMessage, EmitMessage)]
  else [].

(** [eventMap], the contracts visited in the order given: the map is by address,
    so a contract replaces an earlier one at the same address. *)
Definition eventMap (contracts : list (string * string)) : list Contract :=
  foldl (λ out '(name, addr),
    mkContract addr name (sig_types name) :: filter (λ c, ct_Address c ≠ addr) out) [] contracts.

Definition GetAddressByEventType (contracts : list Contract) (eventType : string) : string :=
  match list_find (λ c, eventType ∈ (ct_SigType c).*2) contracts with
  | Some (_, c) => ct_Address c
  | None => ""
  end.

Definition GetEventName (contracts : list Contract) (addr : string) : string :=
  match list_find (λ s, s.1 = addr) (c ← contracts; ct_SigType c) with
  | Some (_, s) => s.2
  | None => ""
  end.

Definition wasm_type (eventType : string) : string :=
  if decide (eventType = EmitMessage) then EventTypeWasmMessage
  else if decide (eventType = CallMessage) then EventTypeWasmCallMessage
  else if decide (eventType = RollbackMessage) then EventTypeWasmRollbackMessage
  else "".

Definition GetMonitorEventFilters (contracts : list Contract) : list Event :=
  c ← contracts;
  (λ s, mkEvent (wasm_type s.2) [(EventAttrKeyContractAddress, "'" +:+ ct_Address c +:+ "'")]) <$> ct_SigType c.

(** * Keystores (keys.go) *)

Record KeyEnv := mkKeyEnv {
  Encrypt : string → res string;
  Decrypt : string → res string;
  (* the keyring *)
  ImportArmor : string → string → res unit;
  GetArmor : string → res string;
  GetKeyAddress : res string;
  CreateAccount : string → res (string * string);
  KeyByAddress : string → bool }.

Definition keystorePath (cfg : Config) (addr : string) : string :=
  pathJoin [cc_HomeDir (c_Common cfg); "keystore"; cc_NID (c_Common cfg); addr].

Definition ReadFile (fs : gmap string string) (path : string) : res string :=
  match fs !! path with
  | Some d => Ok d
  | None => Err ("open " +:+ path +:+ ": no such file or directory")
  end.

(** A key that the keyring already holds counts as restored. *)
Definition RestoreKeystore (env : KeyEnv) (cfg : Config) (fs : gmap string string) : res unit :=
  let path := keystorePath cfg (cc_Address (c_Common cfg)) in
  privFile ← ReadFile fs path;
  priv ← Decrypt env privFile;
  passFile ← ReadFile fs (path +:+ ".pass");
  pass ← Decrypt env passFile;
  match ImportArmor env priv pass with
  | Err e => if Contains e "cannot overwrite key" then Ok tt else Err e
  | r => r
  end.

Definition write_keystore (path enc encpass : string) (fs : gmap string string) : gmap string string :=
  <[path +:+ ".pass" := encpass]> (<[path := enc]> fs).

(** The armor is written before the passphrase is encrypted. *)
Definition NewKeystore (env : KeyEnv) (cfg : Config) (passphrase : string) (fs : gmap string string) :
    gmap string string * res string :=
  match ('(armor, addr) ← CreateAccount env passphrase; enc ← Encrypt env armor; Ok (enc, addr)) with
  | Ok (enc, addr) =>
      match Encrypt env passphrase with
      | Ok encpass => (write_keystore (keystorePath cfg addr) enc encpass fs, Ok addr)
      | r => (<[keystorePath cfg addr := enc]> fs, r)
      end
  | Err e => (fs, Err e)
  | Panic => (fs, Panic)
  end.

Definition ImportKeystore (env : KeyEnv) (cfg : Config) (privFile passphrase : string)
    (fs : gmap string string) : gmap string string * res string :=
  let r := _ ← ImportArmor env privFile passphrase; armor ← GetArmor env passphrase;
           addr ← GetKeyAddress env; enc ← Encrypt env armor; encpass ← Encrypt env passphrase;
           Ok (addr, enc, encpass) in
  match r with
  | Ok (addr, enc, encpass) => (write_keystore (keystorePath cfg addr) enc encpass fs, Ok addr)
  | Err e => (fs, Err e)
  | Panic => (fs, Panic)
  end.

(** * The node *)

Record Account := mkAccount { a_Address : string; a_AccountNumber : Z; a_Sequence : Z }.

(** The SDK's transaction factory, and its response to a broadcast. *)
Record Factory := mkFactory {
  f_Simulate : bool; f_Gas : Z; f_GasPrices : string; f_GasAdjustment : Z;
  f_AccountNumber : Z; f_Sequence : Z }.
Record SdkTxResponse := mkSdkTxResponse { sr_TxHash : string; sr_Code : Z; sr_RawLog : string }.

Record MsgExecuteContract := mkMsgExecuteContract { mx_Sender : string; mx_Contract : string; mx_Msg : string }.
Record ResultTx := mkResultTx { rt_Height : Z; rt_Events : list Event }.

(** What comes first on the subscription of a transaction's result: the end of
    the caller's context, or the event, whose data may not convert. *)
Inductive SubEvent : Type :=
| SubDone (e : string)
| SubEventData (r : TxResultResponse + string).

(** The numbered answers are those of the first and second attempt to send. *)
Record WasmNode := mkWasmNode {
  GetLatestBlockHeight : res Z;
  GetTransactionReceipt : string → res (Z * Z);
  GetBalance : string → string → res (string * Z);
  GetAccountInfo : string → res Account;
  (* the gas of a factory made from no flags *)
  NewFactoryCLI : res Z;
  EstimateGas : nat → Factory → list MsgExecuteContract → res Z;
  PrepareTx : nat → Factory → list MsgExecuteContract → res string;
  BroadcastTx : nat → string → res SdkTxResponse;
  (* [None]: nothing ever comes *)
  SubscribeTx : string → res (option SubEvent);
  TxSearch : TxSearchParam → res (list ResultTx * Z);
  QuerySmartContract : string → string → res string;
  Marshal : ExecMsg → res string;
  UnmarshalInts : string → res (list Z);
  UnmarshalBool : string → res bool;
  UnmarshalString : string → res string;
  ErrWrongSequence : string }.

Record WasmState := mkWasmState {
  w_wallet : option Account;
  w_sent : list (Z * list MsgExecuteContract) }.

Section Provider.
Context (node : WasmNode) (env : KeyEnv) (cfg : Config) (fs : gmap string string) (eventList : list Event).
Abbreviation NID := (cc_NID (c_Common cfg)).
Abbreviation Wasm := (proc WasmState).

Definition contract_addr (name : string) : string := default "" (cc_Contracts (c_Common cfg) !! name).

(** ** Sending *)

Definition set_wallet (w : Account) : Wasm unit := modify (λ s, mkWasmState (Some w) (w_sent s)).

(** The wallet is restored from the keystore, and its account asked for. *)
Definition load_wallet : Wasm string :=
  match RestoreKeystore env cfg fs with
  | Panic => panic
  | Err _ => mret ""
  | Ok _ =>
      match GetAccountInfo node (GetWallet (c_Common cfg)) with
      | Panic => panic
      | Err _ => mret ""
      | Ok account =>
          _ ← set_wallet account;
          mret (if KeyByAddress env (a_Address account) then a_Address account else "")
      end
  end.

(** The address of the wallet, empty when there is none. *)
Definition Wallet : Wasm string :=
  w ← gets w_wallet;
  match w with
  | Some w => if decide (a_Address w = "") then load_wallet else mret (a_Address w)
  | None => load_wallet
  end.

Definition getRawContractMessage (message : MessageOf Z) : res string :=
  let ev := m_EventType message in
  if decide (ev = EmitMessage) then Marshal node (NewExecRecvMsg message)
  else if decide (ev = CallMessage) then Marshal node (NewExecExecMsg (UnmarshalInts node) message)
  else if decide (ev = RevertMessage) then Marshal node (NewExecRevertMsg message)
  else if decide (ev = SetAdmin) then Marshal node (NewExecSetAdmin (m_Dst message))
  else if decide (ev = ClaimFee) then Marshal node NewExecClaimFee
  else if decide (ev = SetFee) then
    Marshal node (NewExecSetFee (m_Src message) (m_Sn message) (m_ReqID message))
  else if decide (ev = RollbackMessage) then Marshal node (NewExecExecuteRollback (m_Sn message))
  else Err ("unknown event type: " +:+ ev +:+ " ").

(** [Client.BuildTxFactory] *)
Definition BuildTxFactory : res (bool * Z) := gas ← NewFactoryCLI node; Ok (c_Simulate cfg, gas).

Definition prepareAndPushTxToMemPool (attempt : nat) (acc seq : Z) (msgs : list MsgExecuteContract) :
    Wasm (SdkTxResponse + string) :=
  b ←? liftRes BuildTxFactory;
  let '(simulate, gas) := b in
  let txf := mkFactory simulate gas (c_GasPrices cfg) (c_GasAdjustment cfg) acc seq in
  gas ←? liftRes (if simulate then EstimateGas node attempt txf msgs else Ok gas);
  let txf := mkFactory simulate gas (c_GasPrices cfg) (c_GasAdjustment cfg) acc seq in
  if gas <? c_MinGasAmount cfg then
    mret (inr ("gas amount " +:+ FormatInt gas 10 +:+ " is too low; the minimum allowed gas amount is "
      +:+ FormatInt (c_MinGasAmount cfg) 10))
  else if c_MaxGasAmount cfg <? gas then
    mret (inr ("gas amount " +:+ FormatInt gas 10 +:+ " exceeds the maximum allowed limit of "
      +:+ FormatInt (c_MaxGasAmount cfg) 10))
  else
    txBytes ←? liftRes (PrepareTx node attempt txf msgs);
    r ←? liftRes (BroadcastTx node attempt txBytes);
    if sr_Code r =? CodeTypeOK then
      _ ← modify (λ s, mkWasmState (w_wallet s) (w_sent s ++ [(seq, msgs)]));
      okE r
    else mret (inr ("failed to send tx: " +:+ sr_RawLog r)).

(** Without a wallet the account number's read panics. *)
Definition sendMessage (attempt : nat) (msgs : list MsgExecuteContract) : Wasm (SdkTxResponse + string) :=
  w ← gets w_wallet;
  match w with
  | None => panic
  | Some w => prepareAndPushTxToMemPool attempt (a_AccountNumber w) (a_Sequence w) msgs
  end.

Definition set_sequence (seq : Z) (w : Account) : Account := mkAccount (a_Address w) (a_AccountNumber w) seq.

Definition handleSequence : Wasm (unit + string) :=
  addr ← Wallet;
  acc ←? liftRes (GetAccountInfo node addr);
  w ← gets w_wallet;
  match w with
  | None => panic
  | Some w => _ ← set_wallet (set_sequence (a_Sequence acc) w); okE tt
  end.

Definition contract_of (ev : string) : option string :=
  if decide (ev ∈ [EmitMessage; RevertMessage; SetAdmin; ClaimFee; SetFee]) then
    Some (contract_addr ConnectionContract)
  else if decide (ev ∈ [CallMessage; RollbackMessage]) then Some (contract_addr XcallContract)
  else None.

(** A sequence mismatch is sent a second time, with the chain's sequence. *)
Definition call (message : MessageOf Z) : Wasm (SdkTxResponse + string) :=
  rawMsg ←? liftRes (getRawContractMessage message);
  match contract_of (m_EventType message) with
  | None => mret (inr ("unknown event type: " +:+ m_EventType message +:+ " "))
  | Some contract =>
      sender ← Wallet;
      let msgs := [mkMsgExecuteContract sender contract rawMsg] in
      r ← sendMessage 0 msgs;
      match r with
      | inr e =>
          if Contains e (ErrWrongSequence node) then
            h ← handleSequence;
            match h with
            | inr mm => mret (inr ("failed to handle sequence mismatch error: " +:+ mm +:+ " || " +:+ e))
            | inl _ => sendMessage 1 msgs
            end
          else mret (inr e)
      | inl r => mret (inl r)
      end
  end.

(** ** Results *)

(** [None]: the call never returns.  The timeout bounds the subscription only:
    the loop watches the caller's context. *)
Definition subscribeTxResult (tx : SdkTxResponse) (maxWaitInterval : Z) : option (res (TxResponse * error)) :=
  let failed := mkTxResponse 0 (sr_TxHash tx) "" Failed "" in
  match SubscribeTx node (sr_TxHash tx) with
  | Panic => Some Panic
  | Err e => Some (Ok (failed, Some e))
  | Ok None => None
  | Ok (Some (SubDone e)) => Some (Ok (failed, Some e))
  | Ok (Some (SubEventData (inr e))) => Some (Ok (failed, Some e))
  | Ok (Some (SubEventData (inl t))) =>
      let res code := mkTxResponse (tr_Height t) (sr_TxHash tx) (tr_ResultCodespace t) code (tr_ResultData t) in
      if tr_ResultCode t mod 2 ^ 32 =? CodeTypeOK then Some (Ok (res Success, None))
      else Some (Ok (res Failed, Some ("transaction failed with error: " +:+ tr_Log t)))
  end.

Definition waitForTxResult (mk : MessageKey) (tx : SdkTxResponse) : option (list CallbackCall * res unit) :=
  r ← subscribeTxResult tx (c_TxConfirmationInterval cfg);
  match r with
  | Panic => Some ([], Panic)
  | Err e => Some ([], Err e)
  | Ok (response, err) =>
      Some ([mkCallbackCall mk response err], match err with Some e => Err e | None => Ok tt end)
  end.

(** [inl None]: sent, and waiting for ever. *)
Definition Route (message : Message) : Wasm (option (list CallbackCall * res unit)) :=
  r ← call (message_wire message);
  match r with
  | inr e => mret (Some ([], Err e))
  | inl r =>
      w ← gets w_wallet;
      match w with
      | None => panic
      | Some w =>
          _ ← set_wallet (set_sequence (u64 (a_Sequence w + 1)) w);
          mret (waitForTxResult (Message_MessageKey message) r)
      end
  end.

(** The polling alternative, which nothing calls: the messages put on its
    channel, given the answer and the time since the start of each tick. *)
Fixpoint pollTxResultStream (maxWaitInterval : Z)
    (answers : list (res (Z * string * string * Z * string) * Z)) : option (option TxResponse * error) :=
  match answers with
  | [] => None
  | (Ok (height, hash, codespace, code, data), _) :: _ =>
      Some (Some (mkTxResponse height hash codespace (u8 code) data), None)
  | (Err e, elapsed) :: answers =>
      if maxWaitInterval <? elapsed then Some (None, Some e) else pollTxResultStream maxWaitInterval answers
  | (Panic, _) :: _ => None
  end.

(** ** Administration and queries *)

Definition admin_call (message : MessageOf Z) : Wasm (unit + string) := _ ←? call message; okE tt.

Definition RevertMessage_ (sn : option Z) : Wasm (unit + string) :=
  admin_call (mkMessage "" "" sn "" 0 RevertMessage None).
Definition SetFee_ (networkID : string) (msgFee resFee : option Z) : Wasm (unit + string) :=
  admin_call (mkMessage "" networkID msgFee "" 0 SetFee resFee).
Definition ClaimFee_ : Wasm (unit + string) := admin_call (mkMessage "" "" None "" 0 ClaimFee None).
Definition SetAdmin_ (address : string) : Wasm (unit + string) :=
  admin_call (mkMessage "" address None "" 0 SetAdmin None).
Definition ExecuteRollback_ (sn : option Z) : Wasm (unit + string) :=
  admin_call (mkMessage "" "" sn "" 0 RollbackMessage None).

Definition QueryLatestHeight_ : res Z := GetLatestBlockHeight node.

Definition QueryTransactionReceipt_ (txHash : string) : res (option Receipt) :=
  '(height, code) ← GetTransactionReceipt node txHash;
  Ok (Some (mkReceipt txHash (u64 height) (code =? CodeTypeOK))).

(** The answer is read after it is decoded. *)
Definition MessageReceived_ (key : MessageKey) : res bool :=
  if decide (k_EventType key = EmitMessage) then
    raw ← Marshal node (QueryReceiptMsg (k_Src key) (Sn_String (sn_val (k_Sn key))));
    data ← QuerySmartContract node (contract_addr ConnectionContract) raw;
    UnmarshalBool node data
  else if decide (k_EventType key = CallMessage) then Ok false
  else if decide (k_EventType key = RollbackMessage) then Ok false
  else Err "unknown event type".

Definition QueryBalance_ (addr : string) : res Coin :=
  '(denom, amount) ← GetBalance node addr (c_Denomination cfg); Ok (mkCoin denom (big_Uint64 amount)).

Definition ShouldReceiveMessage_ (message : Message) : res bool := Ok true.
Definition ShouldSendMessage_ (message : Message) : res bool := Ok true.

(** [Client.GetFee] included. *)
Definition GetFee_ (networkID : string) (responseFee : bool) : res Z :=
  data ← Marshal node (NewExecGetFee networkID responseFee);
  r ← QuerySmartContract node (contract_addr ConnectionContract) data;
  feeStr ← UnmarshalString node r;
  match ParseUint feeStr 10 64 with
  | (_, Some e) => Err e
  | (fee, None) => Ok fee
  end.

(** ** Scanning *)

Definition perPage : Z := 25.

Definition search_param (startHeight endHeight : Z) (event : Event) (page : option Z) : TxSearchParam :=
  mkTxSearchParam startHeight endHeight [event] false page (Some perPage) "".

(** The goroutine for one event: its first page, and the pages from 2 to
    [TotalCount / perPage + 1]. *)
Definition search_event (h : HeightRange) (event : Event) : res (list ResultTx) :=
  '(txs, total) ← TxSearch node (search_param (hr_Start h) (hr_End h) event None);
  if perPage <? total then
    more ← res_mapM (λ i, TxSearch node (search_param (hr_Start h) (hr_End h) event (Some i)))
             (seqZ 2 (Z.quot total perPage));
    Ok (txs ++ concat (fst <$> more))
  else Ok txs.

(** The messages of one transaction; a message without a serial number panics
    in the log line. *)
Definition tx_messages (resultTx : ResultTx) : res (BlockInfoOf Z) :=
  msgs ← ParseMessageFromEvents NID (rt_Events resultTx);
  let msgs := set_Height (u64 (rt_Height resultTx)) <$> msgs in
  if decide (Exists (λ m, m_Sn m = None) msgs) then Panic
  else Ok (mkBlockInfo (u64 (rt_Height resultTx)) msgs).

Definition getMessagesFromTxList (resultTxList : list ResultTx) : res (list (BlockInfoOf Z)) :=
  res_mapM tx_messages resultTxList.

(** A search that fails is logged, and its event passed over. *)
Fixpoint search_events (h : HeightRange) (events : list Event) : res (list ResultTx) :=
  match events with
  | [] => Ok []
  | event :: events =>
      match search_event h event with
      | Panic => Panic
      | Err _ => search_events h events
      | Ok txs => rest ← search_events h events; Ok (txs ++ rest)
      end
  end.

Definition fetchBlockMessages (h : HeightRange) : res (list (BlockInfoOf Z)) :=
  txs ← search_events h eventList; getMessagesFromTxList txs.

Definition GenerateMessages_ (key : KeyWithHeightOf BigInt) : res (list (MessageOf Z)) :=
  blocks ← fetchBlockMessages (mkHeightRange (kh_Height key) (kh_Height key));
  Ok (blocks ≫= bi_Messages).

Definition getStartHeight (latestHeight lastSavedHeight : Z) : res Z :=
  let start := cc_StartHeight (c_Common cfg) in
  if (0 <? start) && (start <? latestHeight) then Ok start
  else if latestHeight <? lastSavedHeight then Err "last saved height cannot be greater than latest height"
  else if negb (lastSavedHeight =? 0) && (lastSavedHeight <? latestHeight) then Ok lastSavedHeight
  else Ok latestHeight.

(** [fuel] bounds the number of ranges. *)
Fixpoint getHeightStream (fuel : nat) (fromHeight toHeight : Z) : list HeightRange :=
  match fuel with
  | O => []
  | S fuel =>
      if fromHeight <=? toHeight then
        mkHeightRange fromHeight (u64 (fromHeight + c_BlockBatchSize cfg - 1)) ::
        getHeightStream fuel (u64 (fromHeight + c_BlockBatchSize cfg)) toHeight
      else []
  end.

(** The block put on the channel for one range; none for a range whose fetch
    fails. *)
Definition query_range (h : HeightRange) : res (option (BlockInfoOf Z)) :=
  match fetchBlockMessages h with
  | Panic => Panic
  | Err _ => Ok None
  | Ok blockInfo => Ok (Some (mkBlockInfo (hr_End h) (blockInfo ≫= bi_Messages)))
  end.

Definition runBlockQuery (fuel : nat) (fromHeight toHeight : Z) : res (list (BlockInfoOf Z) * Z) :=
  blocks ← res_mapM query_range (getHeightStream fuel fromHeight toHeight);
  Ok (omap (M:=list) id blocks, u64 (toHeight + 1)).

(** ** Listener *)

(** The heights the listener keeps, and whether each ticker runs. *)
Record ListenerState := mkListenerState {
  ls_start : Z; ls_latest : Z; ls_subscribe : bool; ls_poll : bool }.

Definition Listener_init (lastSavedHeight : Z) : res ListenerState :=
  latestHeight ← QueryLatestHeight_;
  startHeight ← getStartHeight latestHeight lastSavedHeight;
  Ok (mkListenerState startHeight latestHeight true false).

(** The query of one subscription. *)
Definition subscribe_query (opts : SubscribeOpts) : string :=
  Join ["tm.event = 'Tx'"; "tx.height >= " +:+ FormatInt (so_Height opts) 10 +:+ " ";
        so_Method opts +:+ "._contract_address = '" +:+ so_Address opts +:+ "'"] " AND ".

(** One event of a subscription: the options and the block sent, then whether
    the log line panics.  The messages keep height 0. *)
Definition SubscribeMessageEvents_event (opts : SubscribeOpts) (e : TxResultResponse + string) :
    SubscribeOpts * option (BlockInfoOf Z) * bool :=
  match e with
  | inr _ => (opts, None, false)
  | inl r =>
      match ParseMessageFromEvents NID (tr_Events r) with
      | Ok msgs =>
          let h := u64 (tr_Height r) in
          (mkSubscribeOpts h (so_Address opts) (so_Method opts), Some (mkBlockInfo h msgs),
           bool_decide (Exists (λ m, m_Sn m = None) msgs))
      | _ => (opts, None, false)
      end
  end.
End Provider.

(** The size of a pipeline. *)
Definition getNumOfPipelines (numCPU diff : Z) : Z := if diff <=? numCPU then diff else numCPU.
End Wasm.
