(* ===== verification/WasmCorrect.v ===== *)
(** The CosmWasm provider: what it reads from events, what it scans, what it
    sends, and what it tells the relayer. *)
From stdpp Require Import gmap strings list.
From Stdlib Require Import ZArith Lia Ascii.
From S2P Require Import Prelude GoStd Types Provider IconTypes WasmTypes Wasm.
Import WasmTypes Wasm.
Open Scope Z_scope.

(** * Events *)

Lemma res_fmap_Some {A} (r : res A) x : Some <$> r = Ok (Some x) → r = Ok x.
Proof. destruct r; [by intros [= ->]|done..]. Qed.

Section Events.
Context (NID : string).

(** The events of the contracts. *)
Definition emitted (contract dst data : string) (sn : Z) : Event :=
  mkEvent EventTypeWasmMessage [(EventAttrKeyContractAddress, contract); (EventAttrKeyTargetNetwork, dst);
    (EventAttrKeyConnSn, big_String sn); (EventAttrKeyMsg, EncodeToString data)].
Definition called (contract from data : string) (sn reqId : Z) : Event :=
  mkEvent EventTypeWasmCallMessage [(EventAttrKeyContractAddress, contract); (EventAttrKeyFrom, from);
    (EventAttrKeySn, big_String sn); (EventAttrKeyReqID, big_String reqId); (EventAttrKeyData, data)].
Definition rolledback (contract : string) (sn : Z) : Event :=
  mkEvent EventTypeWasmRollbackMessage [(EventAttrKeyContractAddress, contract); (EventAttrKeySn, big_String sn)].

Lemma SetString10_String n : 0 ≤ n → SetString10 (big_String n) = Some n.
Proof.
  intros Hn. pose proof (dec_value_FormatInt n Hn) as Hv. unfold big_String in *.
  assert (FormatInt n 10 = string_of_digits (digits_of 10 n) "") as Hf.
  { unfold FormatInt. by replace (n <? 0) with false by lia. }
  destruct (string_of_digits_cons (digits_of 10 n)) as (d & s & Hd & Hs); [apply digits_of_nonempty| |].
  { eapply Forall_impl; [apply digits_range; lia|]. intros; cbn in *; lia. }
  rewrite Hf, Hs in Hv |- *. destruct (hex_char_not_sign d Hd) as [Hm Hp].
  unfold SetString10.
  assert ((match String (hex_char d) s with
    | String "-" r => (true, r) | String "+" r => (false, r) | _ => (false, String (hex_char d) s) end)
    = (false, String (hex_char d) s)) as ->.
  { generalize (hex_char d), Hm, Hp. clear. intros c Hm Hp.
    destruct c as [[] [] [] [] [] [] [] []]; cbn; congruence. }
  by rewrite Hv.
Qed.

Lemma Encode_not_prefixed data : HasPrefix (EncodeToString data) "0x" = false.
Proof.
  destruct (HasPrefix (EncodeToString data) "0x") eqn:E; [|done].
  unfold HasPrefix in E. apply prefix_spec in E as [r Hr].
  pose proof (Decode_Encode data) as Hd. rewrite Hr in Hd.
  rewrite !string_app_cons in Hd. by cbn in Hd.
Qed.

Lemma ToByte_Encode data : HexStr.ToByte (HexStr.NewFromString (EncodeToString data)) = Ok data.
Proof.
  unfold HexStr.NewFromString. change HexStr.HexPrefix with "0x". rewrite Encode_not_prefixed.
  unfold HexStr.ToByte. rewrite decide_False by done. by rewrite TrimPrefix_app, Decode_Encode.
Qed.

(** C33: the events of the contracts become the messages they stand for: source
    and destination networks, serial number, request id and data, in order. *)
Theorem ParseMessageFromEvents_emitted contract1 contract2 dst d1 from d2 (sn1 sn2 sn3 req : Z)
  (H1 : 0 ≤ sn1) (H2 : 0 ≤ sn2) (H3 : 0 ≤ sn3) (Hr : 0 ≤ req) :
  ParseMessageFromEvents NID [emitted contract1 dst d1 sn1; mkEvent "tx" [("fee", "1")];
      called contract2 from d2 sn2 req; rolledback contract2 sn3]
  = Ok [mkMessage dst NID (Some sn1) d1 0 EmitMessage None;
        mkMessage NID from (Some sn2) d2 0 CallMessage (Some req);
        mkMessage NID NID (Some sn3) "" 0 RollbackMessage None].
Proof.
  assert (parse_event NID (emitted contract1 dst d1 sn1) =
    Ok (Some (mkMessage dst NID (Some sn1) d1 0 EmitMessage None))) as He.
  { unfold parse_event, emitted. cbn -[HexStr.ToByte HexStr.NewFromString SetString10 EncodeToString].
    unfold parse_number. rewrite SetString10_String by done.
    cbn -[HexStr.ToByte HexStr.NewFromString EncodeToString]. by rewrite ToByte_Encode. }
  assert (parse_event NID (called contract2 from d2 sn2 req) =
    Ok (Some (mkMessage NID from (Some sn2) d2 0 CallMessage (Some req)))) as Hc.
  { unfold parse_event, called. cbn -[SetString10].
    unfold parse_number. rewrite !SetString10_String by done. by cbn -[SetString10]. }
  assert (parse_event NID (rolledback contract2 sn3) =
    Ok (Some (mkMessage NID NID (Some sn3) "" 0 RollbackMessage None))) as Hb.
  { unfold parse_event, rolledback. cbn -[SetString10]. unfold parse_number. by rewrite SetString10_String. }
  unfold ParseMessageFromEvents. cbn [res_mapM]. by rewrite He, Hc, Hb.
Qed.

(** An event whose contract address is replaced by another. *)
Definition from_contract (contract : string) (ev : Event) : Event :=
  mkEvent (ev_Type ev) ((λ '(key, value),
    (key, if decide (key = EventAttrKeyContractAddress) then contract else value)) <$> ev_Attributes ev).

Lemma fold_attrs_from f contract m attrs :
  (∀ m v, f m (EventAttrKeyContractAddress, v) = Ok m) →
  fold_attrs f m ((λ '(key, value),
    (key, if decide (key = EventAttrKeyContractAddress) then contract else value)) <$> attrs) =
  fold_attrs f m attrs.
Proof.
  intros Hf. revert m. induction attrs as [|[k v] attrs IH]; intros m; [done|].
  change (fold_attrs f m ((k, if decide (k = EventAttrKeyContractAddress) then contract else v) ::
     ((λ '(key, value), (key, if decide (key = EventAttrKeyContractAddress) then contract else value)) <$> attrs))
   = fold_attrs f m ((k, v) :: attrs)). cbn [fold_attrs].
  case_decide as Hk.
  - subst. rewrite !Hf. apply IH.
  - destruct (f m (k, v)); [apply IH|done|done].
Qed.

(** The parser never looks at the contract an event comes from: whatever
    contract emits an event of the expected type, in a transaction that the
    search returned for another event, the same message is relayed. *)
Theorem parse_any_contract (contracts : list string) (evs : list Event) :
  ParseMessageFromEvents NID (zip_with from_contract contracts evs) =
  ParseMessageFromEvents NID (take (length contracts) evs).
Proof.
  unfold ParseMessageFromEvents. f_equal. revert evs. induction contracts as [|c cs IH]; intros evs; [done|].
  destruct evs as [|ev evs]; [done|]. cbn [zip_with length take res_mapM].
  rewrite IH. f_equal. unfold parse_event, from_contract. cbn [ev_Type ev_Attributes].
  by rewrite !fold_attrs_from.
Qed.
End Events.

(** * Searches *)

Section Search.
Context (node : WasmNode) (cfg : Config) (eventList : list Event).

(** CometBFT's answer to a search with 25 transactions a page that matches
    [all]: an error for a page that does not exist. *)
Definition pages (all : list ResultTx) : Z := Z.max 1 ((Z.of_nat (length all) + 24) `quot` 25).
Definition paged (all : list ResultTx) (page : option Z) : res (list ResultTx * Z) :=
  let p := default 1 page in
  if (0 <? p) && (p <=? pages all) then
    Ok (take 25 (drop (25 * Z.to_nat (p - 1)) all), Z.of_nat (length all))
  else Err "page should be within range".

Lemma res_mapM_all {A B} (f : A → res B) (g : A → B) l :
  (∀ x, x ∈ l → f x = Ok (g x)) → res_mapM f l = Ok (g <$> l).
Proof.
  induction l as [|x l IH]; intros H; cbn; [done|]. rewrite H by left. cbn.
  rewrite IH; [done|]. intros y Hy. apply H. by right.
Qed.

Lemma res_mapM_last_Err {A B} (f : A → res B) (g : A → B) l x e :
  (∀ x, x ∈ l → f x = Ok (g x)) → f x = Err e → res_mapM f (l ++ [x]) = Err e.
Proof.
  intros H He. induction l as [|y l IH]; cbn; [by rewrite He|].
  rewrite H by left. cbn. rewrite IH; [done|]. intros z Hz. apply H. by right.
Qed.

Lemma concat_pages {A} (all : list A) (n k : nat) :
  concat ((λ i, take 25 (drop (25 * Z.to_nat (i - 1)) all)) <$> seqZ (Z.of_nat k + 1) (Z.of_nat n)) =
  take (25 * n) (drop (25 * k) all).
Proof.
  revert k. induction n as [|n IH]; intros k.
  - rewrite Nat.mul_0_r. by rewrite take_0.
  - rewrite seqZ_cons by lia. cbn [fmap list_fmap concat].
    replace (Z.succ (Z.of_nat k + 1)) with (Z.of_nat (S k) + 1) by lia.
    replace (Z.pred (Z.of_nat (S n))) with (Z.of_nat n) by lia.
    change (concat (?f <$> ?l)) with (concat (f <$> l)). rewrite IH.
    replace (Z.to_nat (Z.of_nat k + 1 - 1)) with k by lia.
    replace (25 * S k)%nat with (25 * k + 25)%nat by lia. rewrite <-drop_drop.
    replace (25 * S n)%nat with (25 + 25 * n)%nat by lia.
    by rewrite take_take_drop.
Qed.

Lemma search_event_result h event (all : list ResultTx) :
  (∀ page, TxSearch node (search_param (hr_Start h) (hr_End h) event page) = paged all page) →
  search_event node h event =
  if (25 <? Z.of_nat (length all)) && (Z.of_nat (length all) mod 25 =? 0)
  then Err "page should be within range" else Ok all.
Proof.
  intros Hnode.
  unfold search_event. rewrite Hnode. unfold paged at 1. cbn [default].
  set (n := Z.of_nat (length all)).
  assert (1 <= pages all) as Hp by (unfold pages; lia).
  replace (1 <=? pages all) with true by (symmetry; apply Z.leb_le; lia). cbn [Z.ltb Z.compare andb mbind res_bind].
  cbn [Z.sub Z.add Z.opp Z.pos_sub Z.to_nat Nat.mul]. fold n. unfold perPage.
  change (25 * Z.to_nat 0)%nat with 0%nat. rewrite drop_0.
  destruct (Z.ltb_spec 25 n) as [Hn|Hn]; cbn [andb].
  2: { rewrite take_ge by lia. done. }
  assert (pages all = (n + 24) / 25) as Hpages.
  { unfold pages. fold n. rewrite Z.quot_div_nonneg by lia.
    assert (1 <= (n + 24) / 25) by (apply Z.div_le_lower_bound; lia). lia. }
  rewrite Z.quot_div_nonneg by lia.
  assert (∀ i, 2 ≤ i ≤ pages all →
    TxSearch node (search_param (hr_Start h) (hr_End h) event (Some i)) =
    Ok (take 25 (drop (25 * Z.to_nat (i - 1)) all), n)) as Hpage.
  { intros i Hi. rewrite Hnode. unfold paged. change (default 1 (Some i)) with i. cbv zeta.
    replace (0 <? i) with true by lia. by replace (i <=? pages all) with true by lia. }
  pose proof (Z.div_mod n 25 ltac:(lia)) as Hdm. pose proof (Z.mod_pos_bound n 25 ltac:(lia)) as Hmb.
  destruct (Z.eqb_spec (n mod 25) 0) as [Hm|Hm].
  - assert (pages all = n / 25) as Hq.
    { rewrite Hpages. symmetry. apply (Z.div_unique _ _ _ 24); lia. }
    replace (n / 25) with ((n / 25 - 1) + 1) by lia.
    rewrite seqZ_app by lia. rewrite (seqZ_cons (2 + _)) by lia.
    rewrite (seqZ_nil _ (Z.pred 1)) by lia.
    erewrite (res_mapM_last_Err _ (λ i, (take 25 (drop (25 * Z.to_nat (i - 1)) all), n))); [done| |].
    + intros i Hi%elem_of_seqZ. apply Hpage. lia.
    + rewrite Hnode. unfold paged. change (default 1 (Some ?x)) with x. cbv zeta.
      replace (2 + (n / 25 - 1) <=? pages all) with false by lia. by rewrite andb_false_r.
  - assert (pages all = n / 25 + 1) as Hq.
    { rewrite Hpages. symmetry. apply (Z.div_unique _ _ _ (n mod 25 - 1)); lia. }
    erewrite (res_mapM_all _ (λ i, (take 25 (drop (25 * Z.to_nat (i - 1)) all), n))).
    2: { intros i Hi%elem_of_seqZ. apply Hpage. lia. }
    cbn [mbind res_bind]. f_equal. rewrite <-list_fmap_compose.
    replace (n / 25) with (Z.of_nat (Z.to_nat (n / 25))) by lia.
    pose proof (concat_pages all (Z.to_nat (n / 25)) 1) as Hc. change (Z.of_nat 1 + 1) with 2 in Hc.
    change (25 * 1)%nat with 25%nat in Hc.
    match goal with |- _ ++ concat ?l = _ => change l with
      ((λ i, take 25 (drop (25 * Z.to_nat (i - 1)) all)) <$> seqZ 2 (Z.of_nat (Z.to_nat (n / 25)))) end.
    rewrite Hc, (take_ge (drop 25 all)); [apply take_drop|].
    rewrite length_drop. lia.
Qed.

(** A search collects every matching transaction, in order, over all its
    pages, unless there are more than 25 and their number is a multiple of
    25: then the last page asked for does not exist, and the search fails. *)
Theorem search_event_pages h event (all : list ResultTx)
  (Hnode : ∀ page, TxSearch node (search_param (hr_Start h) (hr_End h) event page) = paged all page) :
  search_event node h event =
  if (25 <? Z.of_nat (length all)) && (Z.of_nat (length all) mod 25 =? 0)
  then Err "page should be within range" else Ok all.
Proof. by apply search_event_result. Qed.
End Search.

(** When the transactions of a range fill their pages exactly, past the
    first one, none of their messages reaches the relayer, and yet the range
    is reported as scanned: the block sent for it is empty and carries its
    last height. *)
Theorem full_pages_lost node cfg event h (all : list ResultTx)
  (Hnode : ∀ page, TxSearch node (search_param (hr_Start h) (hr_End h) event page) = paged all page)
  (Hn : (25 < length all)%nat) (Hm : Z.of_nat (length all) mod 25 = 0) :
  query_range node cfg [event] h = Ok (Some (mkBlockInfo (hr_End h) [])).
Proof.
  unfold query_range, fetchBlockMessages. cbn [search_events].
  assert (search_event node h event = Err "page should be within range") as ->; [|done].
  unfold search_event. rewrite Hnode. unfold paged at 1. change (default 1 (@None Z)) with 1. cbv zeta.
  set (n := Z.of_nat (length all)) in *.
  assert (pages all = n / 25) as Hq.
  { unfold pages. fold n. rewrite Z.quot_div_nonneg by lia.
    assert (1 <= (n + 24) / 25) by (apply Z.div_le_lower_bound; lia).
    rewrite Z.max_r by lia. symmetry. apply (Z.div_unique _ _ _ 24); [lia|].
    pose proof (Z.div_mod n 25 ltac:(lia)). lia. }
  assert (1 < n / 25) by (pose proof (Z.div_mod n 25 ltac:(lia)); lia).
  replace (1 <=? pages all) with true by lia. cbn [Z.ltb Z.compare andb mbind res_bind].
  unfold perPage. replace (25 <? n) with true by lia. rewrite Z.quot_div_nonneg by lia.
  replace (n / 25) with ((n / 25 - 1) + 1) by lia.
  rewrite seqZ_app by lia. rewrite (seqZ_cons (2 + _)) by lia. rewrite (seqZ_nil _ (Z.pred 1)) by lia.
  erewrite (res_mapM_last_Err _ (λ i, (take 25 (drop (25 * Z.to_nat (i - 1)) all), n))); [done| |].
  - intros i Hi%elem_of_seqZ. rewrite Hnode. unfold paged. change (default 1 (Some i)) with i. cbv zeta.
    replace (0 <? i) with true by lia. by replace (i <=? pages all) with true by lia.
  - rewrite Hnode. unfold paged. change (default 1 (Some ?x)) with x. cbv zeta.
    replace (2 + (n / 25 - 1) <=? pages all) with false by lia. by rewrite andb_false_r.
Qed.

(** * Synchronisation *)

(** The heights of a range. *)
Definition heights (h : HeightRange) : list Z := seqZ (hr_Start h) (hr_End h - hr_Start h + 1).

Lemma getHeightStream_heights cfg fuel from to :
  0 < c_BlockBatchSize cfg → 0 ≤ from → to + c_BlockBatchSize cfg < 2 ^ 64 → from ≤ to →
  to - from < Z.of_nat fuel →
  ∃ init h, getHeightStream cfg fuel from to = init ++ [h] ∧
    to ≤ hr_End h < to + c_BlockBatchSize cfg ∧ (hr_End h - from + 1) mod c_BlockBatchSize cfg = 0 ∧
    flat_map heights (init ++ [h]) = seqZ from (hr_End h - from + 1).
Proof.
  set (b := c_BlockBatchSize cfg). intros Hb. revert from.
  induction fuel as [|fuel IH]; intros from H0 Hlt Hle Hf; [lia|]. cbn [getHeightStream]. fold b.
  replace (from <=? to) with true by lia. rewrite (u64_small (from + b - 1)), (u64_small (from + b)) by lia.
  destruct (Z.le_gt_cases (from + b) to) as [Hnext|Hlast].
  - destruct (IH (from + b)) as (init & h & -> & Hend & Hmod & Hh); [lia..|].
    exists (mkHeightRange from (from + b - 1) :: init), h. split; [done|]. split; [done|]. split.
    + replace (hr_End h - from + 1) with (hr_End h - (from + b) + 1 + 1 * b) by lia.
      rewrite Z.mod_add by lia. done.
    + cbn [app flat_map]. rewrite Hh. unfold heights at 1. cbn [hr_Start hr_End].
      replace (hr_End h - from + 1) with (b + (hr_End h - (from + b) + 1)) by lia.
      rewrite (seqZ_app from b) by lia. f_equal. f_equal; lia.
  - destruct fuel as [|fuel]; cbn [getHeightStream].
    + exists [], (mkHeightRange from (from + b - 1)). cbn [app flat_map hr_Start hr_End].
      split; [done|]. split; [lia|]. split.
      * replace (from + b - 1 - from + 1) with b by lia. apply Z.mod_same; lia.
      * by rewrite app_nil_r.
    + replace (from + b <=? to) with false by lia.
      exists [], (mkHeightRange from (from + b - 1)). cbn [app flat_map hr_Start hr_End].
      split; [done|]. split; [lia|]. split.
      * replace (from + b - 1 - from + 1) with b by lia. apply Z.mod_same; lia.
      * by rewrite app_nil_r.
Qed.

(** The block of the last range is sent last, with the end of the range. *)
Lemma last_block node cfg eventList fuel from to init h blocks next b :
  getHeightStream cfg fuel from to = init ++ [h] →
  runBlockQuery node cfg eventList fuel from to = Ok (blocks, next) →
  query_range node cfg eventList h = Ok (Some b) → last blocks = Some b ∧ bi_Height b = hr_End h.
Proof.
  intros Hs (bs & Hbs & [= <- _])%res_bind_Ok Hq. rewrite Hs in Hbs. apply res_mapM_Ok in Hbs.
  apply Forall2_app_inv_l in Hbs as (bs1 & bs2 & _ & Hbs2 & ->).
  inversion Hbs2 as [|h' b' l l' Hh Hl]; subst. inversion Hl; subst. rewrite Hq in Hh. injection Hh as <-.
  rewrite omap_app. cbn. rewrite last_snoc. split; [done|].
  unfold query_range in Hq. destruct (fetchBlockMessages _ _ _ _); [|done..]. by injection Hq as <-.
Qed.

(** C35: the ranges of a synchronisation cover every height from the first to
    the latest exactly once, in order, and end less than one batch beyond it;
    they end on it only when the batch size divides the number of heights.  The
    block sent for the last range carries that end as its height.  And a
    listener whose saved height is beyond what its node answers, as one that lags
    behind the others, refuses to start, unless a start height below the node's
    is configured, from which it then starts. *)
Theorem sync_overshoots node cfg eventList fuel from to
  (Hb : 0 < c_BlockBatchSize cfg) (H0 : 0 ≤ from ≤ to) (Hlt : to + c_BlockBatchSize cfg < 2 ^ 64)
  (Hf : to - from < Z.of_nat fuel) :
  let start := cc_StartHeight (c_Common cfg) in
  ∃ init h, getHeightStream cfg fuel from to = init ++ [h] ∧
    flat_map heights (init ++ [h]) = seqZ from (hr_End h - from + 1) ∧
    to ≤ hr_End h < to + c_BlockBatchSize cfg ∧
    (hr_End h = to ↔ (to - from + 1) mod c_BlockBatchSize cfg = 0) ∧
    (∀ blocks next b, runBlockQuery node cfg eventList fuel from to = Ok (blocks, next) →
      query_range node cfg eventList h = Ok (Some b) → last blocks = Some b ∧ bi_Height b = hr_End h) ∧
    (∀ saved latest, GetLatestBlockHeight node = Ok latest → latest < saved →
      Listener_init node cfg saved =
        if (0 <? start) && (start <? latest) then Ok (mkListenerState start latest true false)
        else Err "last saved height cannot be greater than latest height").
Proof.
  cbn zeta. destruct (getHeightStream_heights cfg fuel from to) as (init & h & Hs & Hend & Hmod & Hh); [lia..|].
  set (b := c_BlockBatchSize cfg) in *.
  exists init, h. split; [done|]. split; [done|]. split; [done|]. split.
  - split; [by intros <-|]. intros Hd.
    assert ((hr_End h - to) mod b = 0) as Hz.
    { replace (hr_End h - to) with ((hr_End h - from + 1) - (to - from + 1)) by lia.
      rewrite Zminus_mod, Hmod, Hd. cbn. apply Zmod_0_l. }
    rewrite Z.mod_small in Hz by lia. lia.
  - split; [intros blocks next b0; by apply last_block with init|]. intros saved latest Hl Hlate. unfold Listener_init, QueryLatestHeight_. rewrite Hl. cbn [mbind res_bind].
    unfold getStartHeight. destruct (_ && _); [done|]. by replace (latest <? saved) with true by lia.
Qed.

(** * Sending *)

Section Sending.
Context (node : WasmNode) (env : KeyEnv) (cfg : Config) (fs : gmap string string).
Implicit Types (s : WasmState).

Lemma Wallet_spec s :
  wlp (Wallet node env cfg fs) (λ _ s', w_sent s' = w_sent s) s.
Proof.
  assert (∀ s, wlp (load_wallet node env cfg fs) (λ _ s', w_sent s' = w_sent s) s) as Hload.
  { intros s0. unfold load_wallet. destruct (RestoreKeystore env cfg fs); [|done|done].
    by destruct (GetAccountInfo node _). }
  apply wpx_bind, wpx_gets. destruct (w_wallet s) as [w|]; [|apply Hload].
  case_decide; [apply Hload|done].
Qed.

(** The node accepted [msgs] as [tx], signed under the sequence number [seq] with
    an amount of gas within the bounds of the configuration. *)
Definition accepted (seq : Z) (msgs : list MsgExecuteContract) (tx : SdkTxResponse) : Prop :=
  ∃ i txf bytes, f_Sequence txf = seq ∧ c_MinGasAmount cfg ≤ f_Gas txf ≤ c_MaxGasAmount cfg ∧
    PrepareTx node i txf msgs = Ok bytes ∧ BroadcastTx node i bytes = Ok tx ∧ sr_Code tx = CodeTypeOK.

(** What one attempt to send [msgs] does. *)
Definition attempts (msgs : list MsgExecuteContract) s (r : SdkTxResponse + string) s' : Prop :=
  w_wallet s' = w_wallet s ∧
  match r with
  | inr _ => w_sent s' = w_sent s
  | inl tx => ∃ w, w_wallet s = Some w ∧ w_sent s' = w_sent s ++ [(a_Sequence w, msgs)] ∧
      accepted (a_Sequence w) msgs tx
  end.

Lemma sendMessage_spec i msgs s : wlp (sendMessage node cfg i msgs) (attempts msgs s) s.
Proof.
  apply wpx_bind, wpx_gets. destruct (w_wallet s) as [w|] eqn:Hw; [|done].
  apply wpx_tryE, wlp_liftRes; [|done]. intros [simulate gas] _.
  apply wpx_tryE, wlp_liftRes; [|done]. intros gas' _.
  destruct (Z.ltb_spec gas' (c_MinGasAmount cfg)); [done|]. destruct (Z.ltb_spec (c_MaxGasAmount cfg) gas'); [done|].
  apply wpx_tryE, wlp_liftRes; [|done]. intros bytes Hbytes.
  apply wpx_tryE, wlp_liftRes; [|done]. intros r Hr.
  destruct (Z.eqb_spec (sr_Code r) CodeTypeOK); [|done].
  apply wpx_bind, wpx_modify. split; [done|]. exists w. split; [done|]. split; [done|].
  eexists i, _, bytes. split_and!; [..|exact Hbytes|exact Hr|done]; cbn; [done|lia..].
Qed.

Lemma handleSequence_spec s :
  wlp (handleSequence node env cfg fs) (λ _ s', w_sent s' = w_sent s) s.
Proof.
  apply wpx_bind. eapply wpx_mono; [apply Wallet_spec|]. intros addr s1 Hs1.
  apply wpx_tryE, wlp_liftRes; [|done]. intros acc _. apply wpx_bind, wpx_gets.
  destruct (w_wallet s1); [|done]. by apply wpx_bind, wpx_modify.
Qed.

(** What [call] does: at most one transaction is accepted, under the sequence
    number that the wallet holds at the end. *)
Lemma call_spec m s :
  wlp (call node env cfg fs m) (λ r s',
    match r with
    | inr _ => w_sent s' = w_sent s
    | inl tx => ∃ w sender contract raw, w_wallet s' = Some w ∧ contract_of cfg (m_EventType m) = Some contract ∧
        getRawContractMessage node m = Ok raw ∧
        w_sent s' = w_sent s ++ [(a_Sequence w, [mkMsgExecuteContract sender contract raw])] ∧
        accepted (a_Sequence w) [mkMsgExecuteContract sender contract raw] tx
    end) s.
Proof.
  apply wpx_tryE, wlp_liftRes; [|done]. intros raw Hraw.
  destruct (contract_of cfg (m_EventType m)) as [contract|] eqn:Hc; [|done].
  apply wpx_bind. eapply wpx_mono; [apply Wallet_spec|]. intros sender s1 Hs1.
  apply wpx_bind. eapply wpx_mono; [apply sendMessage_spec|].
  intros [r|e] s2 [Hw2 Hs2]; [|].
  - destruct Hs2 as (w & Hw & Hs2 & Hacc). exists w, sender, contract, raw. rewrite Hs2, Hs1, Hw2. done.
  - destruct (Contains e (ErrWrongSequence node)); [|by apply wpx_ret; rewrite Hs2].
    apply wpx_bind. eapply wpx_mono; [apply handleSequence_spec|].
    intros [[]|e'] s3 Hs3; [|by apply wpx_ret; rewrite Hs3, Hs2].
    eapply wpx_mono; [apply sendMessage_spec|]. intros [r|e''] s4 [Hw4 Hs4].
    + destruct Hs4 as (w & Hw & Hs4 & Hacc). exists w, sender, contract, raw. rewrite Hs4, Hs3, Hs2, Hs1, Hw4. done.
    + by rewrite Hs4, Hs3, Hs2.
Qed.

(** The node, the keyring and the libraries answer, with a value or an error. *)
Record answers : Prop := {
  an_keystore : RestoreKeystore env cfg fs ≠ Panic;
  an_account a : GetAccountInfo node a ≠ Panic;
  an_factory : NewFactoryCLI node ≠ Panic;
  an_gas i f m : EstimateGas node i f m ≠ Panic;
  an_prepare i f m : PrepareTx node i f m ≠ Panic;
  an_broadcast i t : BroadcastTx node i t ≠ Panic;
  an_marshal m : Marshal node m ≠ Panic }.

Definition has_wallet s : Prop := is_Some (w_wallet s).

Lemma wasm_Wallet_runs s : answers → has_wallet s → wp (Wallet node env cfg fs) (λ _ s', has_wallet s') s.
Proof.
  intros Han [w Hw]. apply wpx_bind, wpx_gets. rewrite Hw. case_decide; [|apply wpx_ret; by exists w].
  unfold load_wallet. destruct (RestoreKeystore env cfg fs) eqn:E; [| |by destruct (an_keystore Han)].
  - pose proof (an_account Han (GetWallet (c_Common cfg))).
    destruct (GetAccountInfo node _) as [acc|e|]; [|apply wpx_ret; by exists w|done].
    apply wpx_bind, wpx_modify, wpx_ret. by eexists.
  - apply wpx_ret. by exists w.
Qed.

Lemma wp_sendMessage i msgs s : answers → has_wallet s →
  wp (sendMessage node cfg i msgs) (λ _ s', has_wallet s') s.
Proof.
  intros Han [w Hw]. apply wpx_bind, wpx_gets. rewrite Hw.
  assert (has_wallet s) as Hs by by exists w.
  apply wpx_tryE, wp_liftRes; [unfold BuildTxFactory; pose proof (an_factory Han); by destruct (NewFactoryCLI node)| |done].
  intros [simulate gas] _.
  apply wpx_tryE, wp_liftRes; [destruct simulate; [apply Han|done]| |done]. intros gas' _.
  destruct (gas' <? c_MinGasAmount cfg); [done|]. destruct (c_MaxGasAmount cfg <? gas'); [done|].
  apply wpx_tryE, wp_liftRes; [apply Han| |done]. intros bytes _.
  apply wpx_tryE, wp_liftRes; [apply Han| |done]. intros r _.
  by destruct (sr_Code r =? CodeTypeOK).
Qed.

Lemma wp_handleSequence s : answers → has_wallet s →
  wp (handleSequence node env cfg fs) (λ _ s', has_wallet s') s.
Proof.
  intros Han Hs. apply wpx_bind. eapply wpx_mono; [by apply wasm_Wallet_runs|]. intros addr s1 [w Hw].
  apply wpx_tryE, wp_liftRes; [apply Han| |by exists w]. intros acc _. apply wpx_bind, wpx_gets.
  rewrite Hw. apply wpx_bind, wpx_modify. by eexists.
Qed.

Lemma wp_call m s : answers → has_wallet s → wp (call node env cfg fs m) (λ _ s', has_wallet s') s.
Proof.
  intros Han Hs. apply wpx_tryE, wp_liftRes; [| |done].
  { unfold getRawContractMessage. by repeat case_decide; try apply Han. }
  intros raw _. destruct (contract_of cfg (m_EventType m)); [|done].
  apply wpx_bind. eapply wpx_mono; [by apply wasm_Wallet_runs|]. intros sender s1 Hs1.
  apply wpx_bind. eapply wpx_mono; [by apply wp_sendMessage|]. intros [r|e] s2 Hs2; [done|].
  destruct (Contains e (ErrWrongSequence node)); [|done].
  apply wpx_bind. eapply wpx_mono; [by apply wp_handleSequence|]. intros [[]|e'] s3 Hs3; [|done].
  by apply wp_sendMessage.
Qed.

Lemma wasm_Route_runs (message : Message) s :
  answers → has_wallet s →
  wp (Route node env cfg fs message) (λ r s',
    (w_sent s' = w_sent s ∧ ∃ e, r = Some ([], Err e)) ∨
    (∃ seq sender contract raw tx w, w_sent s' = w_sent s ++ [(seq, [mkMsgExecuteContract sender contract raw])] ∧
       contract_of cfg (m_EventType message) = Some contract ∧
       getRawContractMessage node (message_wire message) = Ok raw ∧
       w_wallet s' = Some w ∧ a_Sequence w = u64 (seq + 1) ∧
       accepted seq [mkMsgExecuteContract sender contract raw] tx ∧
       r = waitForTxResult node cfg (Message_MessageKey message) tx)) s.
Proof.
  intros Han Hw. apply wpx_bind. eapply wpx_mono.
  { eapply wp_of_wlp; [apply call_spec|by apply wp_call]. }
  intros [tx|e] s1 Hs1; [|left; eauto].
  destruct Hs1 as (w & sender & contract & raw & Hw1 & Hc & Hraw & Hs1 & Hacc).
  apply wpx_bind, wpx_gets. rewrite Hw1. apply wpx_bind, wpx_modify. right.
  eexists _, _, _, _, _, _. split_and!; [exact Hs1|exact Hc|exact Hraw|done|done|exact Hacc|done].
Qed.

(** With a node that answers and a loaded wallet, routing never panics and
    has at most one transaction accepted, also when a sequence mismatch makes
    it send twice; the gas is then within the bounds of the configuration, the
    wallet holds the next sequence number, and the wait is for that
    transaction.  Otherwise nothing was accepted, no callback is called and an
    error is returned. *)
Theorem Route_one_tx (message : Message) s (Han : answers) (Hw : has_wallet s) :
  wp (Route node env cfg fs message) (λ r s',
    (w_sent s' = w_sent s ∧ ∃ e, r = Some ([], Err e)) ∨
    (∃ seq sender contract raw tx w, w_sent s' = w_sent s ++ [(seq, [mkMsgExecuteContract sender contract raw])] ∧
       contract_of cfg (m_EventType message) = Some contract ∧
       getRawContractMessage node (message_wire message) = Ok raw ∧
       w_wallet s' = Some w ∧ a_Sequence w = u64 (seq + 1) ∧
       accepted seq [mkMsgExecuteContract sender contract raw] tx ∧
       r = waitForTxResult node cfg (Message_MessageKey message) tx)) s.
Proof. by apply wasm_Route_runs. Qed.

(** The fee and administration calls leave the sequence number as it was
    when their transaction was accepted, so the next transaction is first
    tried with a number already used. *)
Theorem admin_keeps_sequence m s :
  wlp (admin_call node env cfg fs m) (λ r s', r = inl tt → ∃ w msgs, w_wallet s' = Some w ∧
    w_sent s' = w_sent s ++ [(a_Sequence w, msgs)]) s.
Proof.
  apply wpx_tryE. eapply wpx_mono; [apply call_spec|]. intros [tx|e] s1 Hs1; [|done].
  destruct Hs1 as (w & sender & contract & raw & Hw & _ & _ & Hs1 & _). apply wpx_ret. intros _. eauto.
Qed.

(** The administrator's address never reaches the contract: whatever the
    address, the message sets the empty one. *)
Theorem SetAdmin_drops_address address address' :
  SetAdmin_ node env cfg fs address = SetAdmin_ node env cfg fs address' ∧
  getRawContractMessage node (mkMessage "" address None "" 0 SetAdmin None) = Marshal node (ExecSetAdmin "").
Proof. done. Qed.

(** The wait for a transaction's result calls the callback exactly once,
    with the message's own key, the transaction's hash and the error returned,
    and a success exactly when the event carries code 0; but if no event comes
    and the caller's context goes on, it never returns, whatever confirmation
    interval is configured. *)
Theorem waitForTxResult_once interval mk tx
  (Hp : SubscribeTx node (sr_TxHash tx) ≠ Panic) :
  match waitForTxResult node cfg mk tx with
  | None => SubscribeTx node (sr_TxHash tx) = Ok None
  | Some (calls, r) => ∃ c, calls = [c] ∧ cb_key c = mk ∧ tr_TxHash (cb_response c) = sr_TxHash tx ∧
      cb_err c = err_of r ∧ (tr_Code (cb_response c) = Success ↔ r = Ok tt) ∧
      (r = Ok tt ↔ ∃ t, SubscribeTx node (sr_TxHash tx) = Ok (Some (SubEventData (inl t))) ∧
         tr_ResultCode t mod 2 ^ 32 = CodeTypeOK)
  end ∧
  subscribeTxResult node tx interval = subscribeTxResult node tx (c_TxConfirmationInterval cfg).
Proof.
  split; [|done]. unfold waitForTxResult, subscribeTxResult.
  destruct (SubscribeTx node (sr_TxHash tx)) as [[[e|[t|e]]|]|e|] eqn:E; [| | | | |done]; cbn.
  - eexists. split_and!; [done..|by split|]. split; [done|]. by intros (? & ? & _).
  - destruct (Z.eqb_spec (tr_ResultCode t mod 2 ^ 32) CodeTypeOK) as [Hc|Hc]; cbn.
    + eexists. split_and!; [done..|]. split; [|done]. intros _. by exists t.
    + eexists. split_and!; [done..|by split|]. split; [done|]. by intros (? & [= <-] & ?).
  - eexists. split_and!; [done..|by split|]. split; [done|]. by intros (? & ? & _).
  - done.
  - eexists. split_and!; [done..|by split|]. split; [done|]. by intros (? & ? & _).
Qed.
End Sending.
