(* ===== verification/WasmWitness.v ===== *)
(** Concrete runs of the CosmWasm provider. *)
From stdpp Require Import gmap strings list.
From Stdlib Require Import ZArith Lia Ascii.
From S2P Require Import Prelude GoStd Types Provider IconTypes WasmTypes Wasm WasmCorrect.
Import WasmTypes Wasm.
Open Scope Z_scope.

Definition common : CommonConfig :=
  mkCommonConfig "archway" "http://node" 0 "arch1w"
    {[ ConnectionContract := "arch1c"; XcallContract := "arch1x" ]} 0 "archway" "/home" false.
Definition cfg : Config := mkConfig common "" "" "" "arch" "uarch" "1" 0 100 1000000 6000000000 "sync" "" true "" 50.

Lemma ParseMessageFromEvents_emitted_witness :
  ParseMessageFromEvents "archway" [emitted "arch1c" "0x2.icon" "data" 5; mkEvent "tx" [("fee", "1")];
    called "arch1x" "0x2.icon" "more" 6 9; rolledback "arch1x" 8]
  = Ok [mkMessage "0x2.icon" "archway" (Some 5) "data" 0 EmitMessage None;
        mkMessage "archway" "0x2.icon" (Some 6) "more" 0 CallMessage (Some 9);
        mkMessage "archway" "archway" (Some 8) "" 0 RollbackMessage None].
Proof. apply (ParseMessageFromEvents_emitted "archway" "arch1c" "arch1x" "0x2.icon" "data"); lia. Defined.

(** An event of a stranger's contract gives the message of the relay's own. *)
Lemma parse_any_contract_witness :
  ParseMessageFromEvents "archway" [emitted "arch1evil" "0x2.icon" "data" 5] =
  ParseMessageFromEvents "archway" [emitted "arch1c" "0x2.icon" "data" 5].
Proof. exact (parse_any_contract "archway" ["arch1evil"] [emitted "arch1c" "0x2.icon" "data" 5]). Defined.

(** ** A node whose searches match [n] transactions *)

Definition tx1 : ResultTx := mkResultTx 120 [emitted "arch1c" "0x2.icon" "data" 5].
Definition filter1 : Event := mkEvent EventTypeWasmMessage [(EventAttrKeyContractAddress, "'arch1c'")].
Definition node (n : nat) : WasmNode := {|
  GetLatestBlockHeight := Ok 120;
  GetTransactionReceipt _ := Ok (120, 0);
  GetBalance _ denom := Ok (denom, 5);
  GetAccountInfo a := Ok (mkAccount a 3 (Z.of_nat n));
  NewFactoryCLI := Ok 0;
  EstimateGas attempt txf _ := if decide (f_Sequence txf = Z.of_nat n) then Ok 500
    else Err "account sequence mismatch: incorrect account sequence";
  PrepareTx _ _ _ := Ok "tx";
  BroadcastTx _ _ := Ok (mkSdkTxResponse "AB" 0 "");
  SubscribeTx h := if decide (h = "AB") then
      Ok (Some (SubEventData (inl (mkTxResultResponse 121 0 "" "" "" []))))
    else Ok None;
  TxSearch p := paged (replicate n tx1) (sp_Page p);
  QuerySmartContract _ _ := Ok "false";
  Marshal _ := Ok "json";
  UnmarshalInts _ := Ok [1];
  UnmarshalBool _ := Ok false;
  UnmarshalString s := Ok s;
  ErrWrongSequence := "incorrect account sequence" |}.

Lemma search_event_pages_witness :
  search_event (node 60) (mkHeightRange 100 149) filter1 = Ok (replicate 60 tx1) ∧
  search_event (node 50) (mkHeightRange 100 149) filter1 = Err "page should be within range".
Proof.
  split.
  - rewrite (search_event_pages (node 60) (mkHeightRange 100 149) filter1 (replicate 60 tx1)); reflexivity.
  - rewrite (search_event_pages (node 50) (mkHeightRange 100 149) filter1 (replicate 50 tx1)); reflexivity.
Defined.

Lemma full_pages_lost_witness :
  query_range (node 50) cfg [filter1] (mkHeightRange 100 149) = Ok (Some (mkBlockInfo 149 [])) ∧
  option_map (λ b, length (bi_Messages b))
    (match query_range (node 49) cfg [filter1] (mkHeightRange 100 149) with Ok b => b | _ => None end) = Some 49%nat.
Proof.
  split; [|vm_compute; reflexivity].
  apply (full_pages_lost (node 50) cfg filter1 (mkHeightRange 100 149) (replicate 50 tx1));
    [reflexivity|rewrite length_replicate; lia|reflexivity].
Defined.

Lemma sync_overshoots_witness : ∃ h,
  getHeightStream cfg 30 100 120 = [h] ∧ hr_End h = 149 ∧
  Listener_init (node 0) cfg 149 = Err "last saved height cannot be greater than latest height".
Proof.
  destruct (sync_overshoots (node 0) cfg [] 30 100 120) as (init & h & Hs & _ & _ & _ & _ & Hl);
    [cbn; lia|lia|cbn; lia|cbn; lia|].
  assert (getHeightStream cfg 30 100 120 = [mkHeightRange 100 149]) as E by (vm_compute; reflexivity).
  rewrite E in Hs. destruct init as [|h0 init]; [|by destruct init]. injection Hs as <-.
  exists (mkHeightRange 100 149). split; [exact E|]. split; [reflexivity|].
  apply (Hl 149 120); [reflexivity|lia].
Defined.

(** ** Sending *)

Definition env : KeyEnv := {|
  Encrypt s := Ok s; Decrypt s := Ok s; ImportArmor _ _ := Err "cannot overwrite key";
  GetArmor _ := Ok "armor"; GetKeyAddress := Ok "arch1w"; CreateAccount _ := Ok ("armor", "arch1w");
  KeyByAddress _ := true |}.
Definition fs : gmap string string :=
  write_keystore "/home/keystore/archway/arch1w" "armor" "pass" ∅.
Definition msg : Message := mkMessage "archway" "0x2.icon" (Some (mkBigInt 1 3)) "d" 5 EmitMessage None.

(** The cached sequence number 5 is out of date: the message is sent under 7,
    and 8 is next. *)
Lemma Route_one_tx_witness : ∃ s' calls w,
  Route (node 7) env cfg fs msg (mkWasmState (Some (mkAccount "arch1w" 3 5)) []) =
    Some (s', Some (calls, Ok tt)) ∧
  w_sent s' = [(7, [mkMsgExecuteContract "arch1w" "arch1c" "json"])] ∧
  w_wallet s' = Some w ∧ a_Sequence w = 8.
Proof.
  assert (answers (node 7) env cfg fs) as Han.
  { split; try done. intros i f m. unfold node. cbn [EstimateGas]. by case_decide. }
  pose proof (Route_one_tx (node 7) env cfg fs msg (mkWasmState (Some (mkAccount "arch1w" 3 5)) []) Han
    (ltac:(by eexists))) as H.
  unfold wpx in H.
  destruct (Route (node 7) env cfg fs msg _) as [[s' r]|] eqn:E; [|vm_compute in E; discriminate].
  assert (∃ calls, r = Some (calls, Ok tt)) as [calls ->] by (vm_compute in E; injection E as <- <-; by eexists).
  destruct H as [(_ & e & [=])|(seq & sender & contract & raw & tx & w & Hs & _ & _ & Hw & Hseq & _)].
  assert (w_sent s' = [(7, [mkMsgExecuteContract "arch1w" "arch1c" "json"])]) as Hsent
    by (vm_compute in E; by injection E as <- _).
  exists s', calls, w. split; [done|]. split; [exact Hsent|]. split; [exact Hw|].
  rewrite Hseq. rewrite Hsent in Hs. cbn [w_sent app] in Hs. injection Hs as <- _ _ _. reflexivity.
Defined.

Lemma waitForTxResult_once_witness : ∃ c,
  waitForTxResult (node 7) cfg (Message_MessageKey msg) (mkSdkTxResponse "AB" 0 "") = Some ([c], Ok tt) ∧
  tr_Code (cb_response c) = Success ∧
  waitForTxResult (node 7) cfg (Message_MessageKey msg) (mkSdkTxResponse "CD" 0 "") = None.
Proof.
  destruct (waitForTxResult_once (node 7) cfg 0 (Message_MessageKey msg) (mkSdkTxResponse "AB" 0 "")) as [H _];
    [discriminate|].
  destruct (waitForTxResult (node 7) cfg (Message_MessageKey msg) (mkSdkTxResponse "AB" 0 ""))
    as [[calls r]|] eqn:E; [|vm_compute in E; discriminate].
  assert (r = Ok tt) as -> by (vm_compute in E; by injection E).
  destruct H as (c & -> & _ & _ & _ & Hc & _). exists c. split; [done|]. split; [by apply Hc|reflexivity].
Defined.
