(* ===== verification/WasmCodec.v ===== *)
(** Package relayer/chains/wasm: the Cosmos SDK's global state (codec.go), and the
    keystore operations over it (keys.go).

    The SDK writes an address as text with a prefix that is global to the
    process; [SetSDKConfigContext] takes a mutex and sets it.  It also has one
    amino codec for the process.  [bech32] and the key ring are parameters. *)
From stdpp Require Import gmap strings list.
From Stdlib Require Import ZArith Lia Ascii.
From S2P Require Import Prelude GoStd Types Provider WasmTypes Wasm.
Open Scope Z_scope.

Module WasmCodec.

(** * The SDK's globals *)

(** [sdkTypes.GetConfig()] with the mutex, and the names in [legacy.Cdc]. *)
Record Sdk := mkSdk {
  sdk_account : string;
  sdk_validator : string;
  sdk_consensus : string;
  sdk_locked : bool;
  sdk_amino : list string }.
(** Before anyone sets it. *)
Definition sdk_default : Sdk := mkSdk "cosmos" "cosmosvaloper" "cosmosvalcons" false [].

(** [None]: it waits for the mutex. *)
Definition SetSDKConfigContext (prefix : string) (g : Sdk) : option Sdk :=
  if sdk_locked g then None
  else Some (mkSdk prefix (prefix +:+ "valoper") (prefix +:+ "valcons") true (sdk_amino g)).
(** The function it returns. *)
Definition unlock (g : Sdk) : Sdk := mkSdk (sdk_account g) (sdk_validator g) (sdk_consensus g) false (sdk_amino g).
Definition SetSDKContext (cfg : Wasm.Config) : Sdk → option Sdk := SetSDKConfigContext (Wasm.c_AccountPrefix cfg).

(** ** Codecs *)

(** The modules whose interfaces a registry has. *)
Record Codec := mkCodec { InterfaceRegistry : list string }.
Definition moduleBasics : list string := ["wasm"; "auth"; "bank"].
Definition makeCodecConfig : Codec := mkCodec [].

(** amino refuses a type that it has, with a panic. *)
Definition RegisterConcrete (name : string) (g : Sdk) : res Sdk :=
  if decide (name ∈ sdk_amino g) then Panic
  else Ok (mkSdk (sdk_account g) (sdk_validator g) (sdk_consensus g) (sdk_locked g) (sdk_amino g ++ [name])).

Fixpoint register_extra (extraCodecs : list string) (c : Codec) (g : Sdk) : res (Codec * Sdk) :=
  match extraCodecs with
  | [] => Ok (c, g)
  | codec :: extraCodecs =>
      if decide (codec = "injective") then
        g ← RegisterConcrete "injective/PubKeyEthSecp256k1" g;
        g ← RegisterConcrete "injective/PrivKeyEthSecp256k1" g;
        register_extra extraCodecs (mkCodec (InterfaceRegistry c ++ ["injective"])) g
      else register_extra extraCodecs c g
  end.

Definition MakeCodec (moduleBasics extraCodecs : list string) (g : Sdk) : res (Codec * Sdk) :=
  register_extra extraCodecs (mkCodec (InterfaceRegistry makeCodecConfig ++ "std" :: moduleBasics)) g.

(** As [newClientContext] calls it, for one configuration after the other. *)
Definition config_codec (c : Wasm.Config) (g : Sdk) : res (Codec * Sdk) :=
  MakeCodec moduleBasics (Split (Wasm.c_ExtraCodec c) ","%char) g.
Fixpoint config_codecs (cs : list Wasm.Config) (g : Sdk) : res (list Codec * Sdk) :=
  match cs with
  | [] => Ok ([], g)
  | c :: cs => x ← config_codec c g; y ← config_codecs cs x.2; Ok (x.1 :: y.1, y.2)
  end.

(** * Keystores *)

Section Keys.
Context (bech32 : string → string → string).

(** The key ring deals in the bytes of an address. *)
Record KeyRing := mkKeyRing {
  kr_env : Wasm.KeyEnv;
  kr_CreateAccount : string → res (string * string);
  kr_GetKeyAddress : res string }.

(** [addr.String()], at the prefix of the moment. *)
Definition String_ (g : Sdk) (addr : string) : string := bech32 (sdk_account g) addr.

Definition env_at (g : Sdk) (k : KeyRing) : Wasm.KeyEnv := Wasm.mkKeyEnv
  (Wasm.Encrypt (kr_env k)) (Wasm.Decrypt (kr_env k)) (Wasm.ImportArmor (kr_env k)) (Wasm.GetArmor (kr_env k))
  (addr ← kr_GetKeyAddress k; Ok (String_ g addr))
  (λ pass, x ← kr_CreateAccount k pass; Ok (x.1, String_ g x.2))
  (Wasm.KeyByAddress (kr_env k)).

(** The prefix is set after the account's address was written. *)
Definition NewKeystore (k : KeyRing) (cfg : Wasm.Config) (passphrase : string) (fs : gmap string string) (g : Sdk) :
    option (Sdk * (gmap string string * res string)) :=
  match kr_CreateAccount k passphrase with
  | Ok _ => g' ← SetSDKContext cfg g; Some (unlock g', Wasm.NewKeystore (env_at g k) cfg passphrase fs)
  | _ => Some (g, Wasm.NewKeystore (env_at g k) cfg passphrase fs)
  end.
Definition ImportKeystore (k : KeyRing) (cfg : Wasm.Config) (privFile passphrase : string) (fs : gmap string string) (g : Sdk) :
    option (Sdk * (gmap string string * res string)) :=
  g' ← SetSDKContext cfg g; Some (unlock g', Wasm.ImportKeystore (env_at g' k) cfg privFile passphrase fs).

(** ** Facts *)

(** An account that is imported is filed under the address of its own chain. *)
Lemma ImportKeystore_address k cfg privFile passphrase fs g g' fs' addr :
  ImportKeystore k cfg privFile passphrase fs g = Some (g', (fs', Ok addr)) →
  ∃ bytes, kr_GetKeyAddress k = Ok bytes ∧ addr = bech32 (Wasm.c_AccountPrefix cfg) bytes.
Proof.
  unfold ImportKeystore, SetSDKContext, SetSDKConfigContext. destruct (sdk_locked g); [done|]. cbn. intros [= _ Hi].
  unfold Wasm.ImportKeystore in Hi. cbn in Hi.
  destruct (Wasm.ImportArmor (kr_env k) privFile passphrase) as [[]| |]; [|done..]. cbn in Hi.
  destruct (Wasm.GetArmor (kr_env k) passphrase) as [armor| |]; [|done..]. cbn in Hi.
  destruct (kr_GetKeyAddress k) as [bytes| |]; [|done..]. cbn in Hi. exists bytes. split; [done|].
  destruct (Wasm.Encrypt (kr_env k) armor) as [enc| |]; [|done..]. cbn in Hi.
  destruct (Wasm.Encrypt (kr_env k) passphrase) as [encpass| |]; [|done..]. cbn in Hi. by injection Hi as _ <-.
Qed.

(** [keystore new] writes the address of a new account before it sets the
    chain's prefix: with whatever prefix the process had, "cosmos" when nothing
    was done before.  The account is filed and reported under that address.  For
    a chain with another prefix it is not its address there, and the provider
    that is configured with its address there finds no keystore. *)
Theorem NewKeystore_misfiled k cfg passphrase g g' fs fs' addr
  (Hprefixes : ∀ p q b, bech32 p b = bech32 q b → p = q)
  (Hrun : NewKeystore k cfg passphrase fs g = Some (g', (fs', Ok addr)))
  (Hprefix : sdk_account g ≠ Wasm.c_AccountPrefix cfg) :
  ∃ armor bytes, kr_CreateAccount k passphrase = Ok (armor, bytes) ∧
    addr = bech32 (sdk_account g) bytes ∧ addr ≠ bech32 (Wasm.c_AccountPrefix cfg) bytes ∧
    is_Some (fs' !! Wasm.keystorePath cfg addr) ∧
    (fs !! Wasm.keystorePath cfg (bech32 (Wasm.c_AccountPrefix cfg) bytes) = None →
     Wasm.keystorePath cfg (bech32 (Wasm.c_AccountPrefix cfg) bytes) ≠ Wasm.keystorePath cfg addr →
     Wasm.keystorePath cfg (bech32 (Wasm.c_AccountPrefix cfg) bytes) ≠ Wasm.keystorePath cfg addr +:+ ".pass" →
     fs' !! Wasm.keystorePath cfg (bech32 (Wasm.c_AccountPrefix cfg) bytes) = None).
Proof.
  unfold NewKeystore in Hrun. destruct (kr_CreateAccount k passphrase) as [[armor bytes]| |] eqn:Hc.
  2-3: unfold Wasm.NewKeystore in Hrun; cbn in Hrun; by rewrite Hc in Hrun.
  unfold SetSDKContext, SetSDKConfigContext in Hrun. destruct (sdk_locked g); [done|]. cbn in Hrun. injection Hrun as _ Hn.
  unfold Wasm.NewKeystore in Hn. cbn in Hn. rewrite Hc in Hn. cbn in Hn.
  destruct (Wasm.Encrypt (kr_env k) armor) as [enc| |]; [|done..]. cbn in Hn.
  destruct (Wasm.Encrypt (kr_env k) passphrase) as [encpass| |]; [|done..]. injection Hn as <- <-.
  exists armor, bytes. unfold String_. split_and!; [done|done| | |].
  - intros He%Hprefixes. done.
  - unfold Wasm.write_keystore. rewrite lookup_insert. case_decide; [by eexists|]. rewrite lookup_insert_eq. by eexists.
  - intros Hfs Hne1 Hne2. unfold Wasm.write_keystore. rewrite !lookup_insert_ne; [done|..]; intros Heq; [by apply Hne1|by apply Hne2].
Qed.
End Keys.

(** An account on a chain whose prefix is "neutron". *)
Definition bech32_plain (prefix bytes : string) : string := prefix +:+ "1" +:+ bytes.

Lemma suffix_inj (p q s : string) : p +:+ s = q +:+ s → p = q.
Proof.
  revert q. induction p as [|a p IH]; intros [|b q] Heq; cbn in Heq; [done|..].
  - exfalso. apply (f_equal String.length) in Heq. cbn [String.length String.append] in Heq. rewrite ?string_length_app in Heq. cbn in Heq. lia.
  - exfalso. apply (f_equal String.length) in Heq. cbn [String.length String.append] in Heq. rewrite ?string_length_app in Heq. cbn in Heq. lia.
  - injection Heq as -> Heq. f_equal. by apply IH.
Qed.

Definition neutron : Wasm.Config :=
  Wasm.mkConfig (mkCommonConfig "neutron" "http://node" 0 "" ∅ 10 "neutron-1" "/home" false) "" "" "" "neutron" "" "" 0 0 0 0 "" ""
    false "" 50.
Definition ring : KeyRing := mkKeyRing
  (Wasm.mkKeyEnv (λ d, Ok d) (λ d, Ok d) (λ _ _, Ok tt) (λ _, Ok "armor") (Ok "") (λ _, Ok ("", "")) (λ _, true))
  (λ _, Ok ("armor", "qpzry")) (Ok "qpzry").
Definition misfiled : gmap string string :=
  Wasm.write_keystore (Wasm.keystorePath neutron "cosmos1qpzry") "armor" "secret" ∅.

Lemma NewKeystore_misfiled_witness :
  NewKeystore bech32_plain ring neutron "secret" ∅ sdk_default =
    Some (unlock (mkSdk "neutron" "neutronvaloper" "neutronvalcons" true []), (misfiled, Ok "cosmos1qpzry")) ∧
  misfiled !! Wasm.keystorePath neutron "neutron1qpzry" = None.
Proof.
  split; [reflexivity|].
  destruct (NewKeystore_misfiled bech32_plain ring neutron "secret" sdk_default _ ∅ misfiled "cosmos1qpzry"
    (λ p q b, suffix_inj p q ("1" +:+ b)) eq_refl ltac:(done)) as (armor & bytes & Hc & _ & _ & _ & Hn).
  injection Hc as _ <-. apply Hn; [reflexivity|vm_compute; discriminate|vm_compute; discriminate].
Defined.

(** ** The mutex *)

(** Providers of several chains, each between taking the mutex and giving it
    back: the prefix is its own. *)
Inductive sdk_event : Type :=
| Enter (cfg : Wasm.Config)
| Leave.
Definition sdk_step (e : sdk_event) (s : option Wasm.Config * Sdk) : option (option Wasm.Config * Sdk) :=
  match e, s with
  | Enter cfg, (None, g) => g' ← SetSDKContext cfg g; Some (Some cfg, g')
  | Leave, (Some _, g) => Some (None, unlock g)
  | _, _ => None
  end.
Fixpoint sdk_run (l : list sdk_event) (s : option Wasm.Config * Sdk) : option (option Wasm.Config * Sdk) :=
  match l with [] => Some s | e :: l => s ← sdk_step e s; sdk_run l s end.

Lemma inside_own_prefix l g s :
  sdk_locked g = false → sdk_run l (None, g) = Some s →
  match s.1 with
  | Some cfg => sdk_account s.2 = Wasm.c_AccountPrefix cfg ∧ sdk_locked s.2 = true
  | None => sdk_locked s.2 = false
  end.
Proof.
  intros Hg. assert (∀ l s0, match s0.1 with Some cfg => sdk_account s0.2 = Wasm.c_AccountPrefix cfg ∧ sdk_locked s0.2 = true
    | None => sdk_locked s0.2 = false end → sdk_run l s0 = Some s → match s.1 with
    | Some cfg => sdk_account s.2 = Wasm.c_AccountPrefix cfg ∧ sdk_locked s.2 = true | None => sdk_locked s.2 = false end) as Hgen; [|by apply Hgen].
  clear. induction l as [|e l IH]; intros s0 Hs0; cbn; [by intros [= <-]|].
  destruct (sdk_step e s0) as [s1|] eqn:Hst; [|done]. cbn. apply IH. destruct s0 as [[cfg|] g0], e as [cfg'|]; cbn in *; try done.
  - by injection Hst as <-.
  - unfold SetSDKContext, SetSDKConfigContext in Hst. rewrite Hs0 in Hst. by injection Hst as <-.
Qed.

(** ** The codecs of two chains *)

Lemma RegisterConcrete_names name g g' : RegisterConcrete name g = Ok g' → name ∉ sdk_amino g ∧ sdk_amino g' = sdk_amino g ++ [name].
Proof. unfold RegisterConcrete. case_decide; [done|]. by intros [= <-]. Qed.

Lemma register_extra_taken extra c g :
  "injective" ∈ extra → "injective/PubKeyEthSecp256k1" ∈ sdk_amino g → register_extra extra c g = Panic.
Proof.
  intros Hin Hg. revert c. induction extra as [|codec extra IH]; intros c; [by apply elem_of_nil in Hin|].
  cbn [register_extra]. destruct (decide (codec = "injective")) as [->|Hne].
  - unfold RegisterConcrete. by rewrite decide_True.
  - apply elem_of_cons in Hin as [Heq|Hin]; [by destruct Hne|by apply IH].
Qed.

Lemma register_extra_adds extra c g c' g' :
  register_extra extra c g = Ok (c', g') →
  (∀ x, x ∈ sdk_amino g → x ∈ sdk_amino g') ∧ ("injective" ∈ extra → "injective/PubKeyEthSecp256k1" ∈ sdk_amino g') ∧
  InterfaceRegistry c' = InterfaceRegistry c ++ filter (λ x, x = "injective") extra.
Proof.
  revert c g. induction extra as [|codec extra IH]; intros c g; cbn.
  - intros [= <- <-]. split_and!; [done|set_solver|by rewrite app_nil_r].
  - case_decide as Hd.
    + destruct (RegisterConcrete "injective/PubKeyEthSecp256k1" g) as [g1| |] eqn:H1; [|done..]. cbn.
      destruct (RegisterConcrete "injective/PrivKeyEthSecp256k1" g1) as [g2| |] eqn:H2; [|done..]. cbn.
      apply RegisterConcrete_names in H1 as [_ H1]. apply RegisterConcrete_names in H2 as [_ H2].
      intros (Ha & Hb & Hr)%IH. split_and!.
      * intros x Hx. apply Ha. rewrite H2, H1. set_solver.
      * intros _. apply Ha. rewrite H2, H1. set_solver.
      * rewrite Hr. cbn. by rewrite <-app_assoc, Hd.
    + intros (Ha & Hb & Hr)%IH. split_and!; [done| |done]. intros Hin. apply Hb. set_solver.
Qed.

(** A second chain with the injective codec ends the process. *)
Lemma second_injective c1 c2 cs g :
  "injective" ∈ Split (Wasm.c_ExtraCodec c1) ","%char → "injective" ∈ Split (Wasm.c_ExtraCodec c2) ","%char →
  ∀ x, config_codecs (c1 :: c2 :: cs) g ≠ Ok x.
Proof.
  intros H1 H2 x. cbn [config_codecs]. destruct (config_codec c1 g) as [[c' g']| |] eqn:Hr; [|done..].
  apply register_extra_adds in Hr as (_ & Hb & _). cbn [mbind res_bind snd].
  unfold config_codec at 1, MakeCodec. by rewrite register_extra_taken by auto.
Qed.
End WasmCodec.
