(* ===== verification/WasmClient.v ===== *)
(** Package relayer/chains/wasm: the client around the Cosmos SDK (client.go)
    and its context (config.go).

    The SDK, CometBFT and the keyring are third-party: [Sdk] holds their
    operations.  Of CometBFT's HTTP client the relay relies on one thing beyond
    its answers: it subscribes only while it is running ([h_running]), and it
    runs once it was started. *)
From stdpp Require Import gmap strings list.
From Stdlib Require Import ZArith Lia.
From S2P Require Import Prelude GoStd Types Provider WasmTypes Wasm WasmCorrect.
Import WasmTypes.
Open Scope Z_scope.

Module WasmClient.

(** * The context *)

(** [http.HTTP], connected to a node. *)
Record HTTP := mkHTTP { h_remote : string; h_running : bool }.

(** [sdkClient.Context]: the fields the relay sets. *)
Record Context := mkContext {
  x_ChainID : string;
  x_Client : HTTP;
  x_NodeURI : string;
  x_KeyringDir : string;
  x_HomeDir : string;
  x_BroadcastMode : string;
  x_SignModeStr : string;
  x_Simulate : bool;
  x_FromAddress : string;
  x_FeePayer : string;
  x_From : string;
  x_FromName : string;
  x_FeeGranter : string }.

(** The answers of [Status]: the network's name and the latest height. *)
Record Status := mkStatus { st_Network : string; st_LatestBlockHeight : Z }.

(** [tx.NewFactoryCLI] gives a factory, an unsigned transaction is a [Builder],
    a key of the keyring a [Key], and a packed account an [Any]. *)
Class Sdk (TxFactory Builder Key Any : Type) := {
  (* CometBFT *)
  http_New : string → res unit;
  http_Start : string → res unit;
  http_Status : string → res Status;
  http_Subscribe : string → string → res unit;
  errNotRunning : string;
  http_TxSearch : string → string → bool → option Z → option Z → string → res (list Wasm.ResultTx * Z);
  (* connections and keyring *)
  grpc_NewClient : string → res unit;
  keyring_New : string → string → string → res unit;
  keyring_Key : string → res Key;
  keyring_KeyByAddress : string → res Key;
  keyring_Import : string → string → string → res unit;
  keyring_Export : string → string → res string;
  key_Name : Key → string;
  key_Address : Key → res string;
  (* a keyring in memory holds the new account only *)
  NewEntropy : Z → res string;
  NewMnemonic : string → res string;
  NewSigningAlgo : string → res unit;
  HDPath : string;
  NewAccount : string → string → string → string → res Key;
  ExportNew : Key → string → string → res string;
  (* transactions *)
  tx_NewFactoryCLI : Context → res TxFactory;
  tx_WithSimulateAndExecute : bool → TxFactory → TxFactory;
  tx_CalculateGas : Context → TxFactory → list Wasm.MsgExecuteContract → res (string * Z);
  tx_BuildUnsignedTx : TxFactory → list Wasm.MsgExecuteContract → res Builder;
  tx_Sign : TxFactory → string → Builder → res Builder;
  tx_Encode : Builder → res string;
  ctx_BroadcastTx : Context → string → res Wasm.SdkTxResponse;
  (* queries *)
  q_GetTx : string → res (Z * Z);
  q_Balance : string → string → res (string * Z);
  q_Account : string → res Any;
  UnpackAny : Any → res Wasm.Account;
  q_SmartContractState : string → string → res string;
  json_string : string → res string }.

(** [NewAccount] and [ExportNew] answer for a keyring made for the one call. *)

Section Client.
Context {TxFactory Builder Key Any : Type} `{Sdk TxFactory Builder Key Any}.
Abbreviation Cl := (proc Context).

(** [Client.HTTP]: a new client is not running. *)
Definition HTTP_ (rpcUrl : string) : res HTTP := _ ← http_New rpcUrl; Ok (mkHTTP rpcUrl false).

(** [cometRPCClient.Start()] *)
Definition start (h : HTTP) : res HTTP := _ ← http_Start (h_remote h); Ok (mkHTTP (h_remote h) true).

(** [Config.newClientContext]: the error of [Start] is returned with the
    context. *)
Definition newClientContext (c : Wasm.Config) : res Context :=
  let k := Wasm.c_Common c in
  _ ← keyring_New (cc_ChainName k) (Wasm.c_KeyringBackend c) (Wasm.c_KeyringDir c);
  cometRPCClient ← HTTP_ (cc_RPCUrl k);
  _ ← grpc_NewClient (Wasm.c_GrpcUrl c);
  networkInfo ← http_Status (h_remote cometRPCClient);
  client ← start cometRPCClient;
  Ok (mkContext (st_Network networkInfo) client (cc_RPCUrl k) (Wasm.c_KeyringDir c) (cc_HomeDir k)
        (Wasm.c_BroadcastMode c) (Wasm.c_SignModeStr c) (Wasm.c_Simulate c) "" "" "" "" "").

(** * Transactions *)

Definition BuildTxFactory (x : Context) : res TxFactory :=
  txf ← tx_NewFactoryCLI x; Ok (tx_WithSimulateAndExecute (x_Simulate x) txf).

Definition EstimateGas (x : Context) (txf : TxFactory) (msgs : list Wasm.MsgExecuteContract) : res (string * Z) :=
  tx_CalculateGas x txf msgs.

(** Signed by the key whose name the context holds. *)
Definition PrepareTx (x : Context) (txf : TxFactory) (msgs : list Wasm.MsgExecuteContract) : res string :=
  txBuilder ← tx_BuildUnsignedTx txf msgs;
  txBuilder ← tx_Sign txf (x_FromName x) txBuilder;
  tx_Encode txBuilder.

Definition BroadcastTx (x : Context) (txBytes : string) : res Wasm.SdkTxResponse := ctx_BroadcastTx x txBytes.

(** * Keys *)

Definition with_from (addr name : string) (x : Context) : Context :=
  mkContext (x_ChainID x) (x_Client x) (x_NodeURI x) (x_KeyringDir x) (x_HomeDir x) (x_BroadcastMode x)
    (x_SignModeStr x) (x_Simulate x) addr addr addr name addr.

(** The address, or none when the keyring does not have it. *)
Definition SetAddress (addr : string) : Cl (option string) :=
  match keyring_KeyByAddress addr with
  | Panic => panic
  | Err _ => mret None
  | Ok key => _ ← modify (with_from addr (key_Name key)); mret (Some addr)
  end.

(** The armored key and the address. *)
Definition CreateAccount (uid passphrase : string) : res (string * string) :=
  bip39seed ← NewEntropy 256;
  mnemonic ← NewMnemonic bip39seed;
  _ ← NewSigningAlgo "secp256k1";
  key ← NewAccount uid mnemonic passphrase HDPath;
  armor ← ExportNew key uid passphrase;
  addr ← key_Address key;
  Ok (armor, addr).

Definition ImportArmor (uid armor passphrase : string) : res unit := keyring_Import uid armor passphrase.
Definition GetArmor (uid passphrase : string) : res string := keyring_Export uid passphrase.
Definition GetKey (uid : string) : res Key := keyring_Key uid.
Definition GetKeyByAddr (addr : string) : res Key := keyring_KeyByAddress addr.

(** * Queries *)

Definition GetLatestBlockHeight (x : Context) : res Z :=
  nodeStatus ← http_Status (h_remote (x_Client x)); Ok (u64 (st_LatestBlockHeight nodeStatus)).

Definition GetTransactionReceipt (txHash : string) : res (Z * Z) := q_GetTx txHash.
Definition GetBalance (addr denomination : string) : res (string * Z) := q_Balance addr denomination.

(** [return account, UnpackAny(res.Account, &account)]: the language leaves open
    whether [account] is read before or after the call that fills it; read
    before, the account is [nil]. *)
Definition GetAccountInfo (read_after : bool) (addr : string) : res (option Wasm.Account) :=
  r ← q_Account addr;
  account ← UnpackAny r;
  Ok (if read_after then Some account else None).

Definition TxSearch (x : Context) (param : TxSearchParam) : res (list Wasm.ResultTx * Z) :=
  http_TxSearch (h_remote (x_Client x)) (BuildQuery param) (sp_Prove param) (sp_Page param) (sp_PerPage param)
    (sp_OrderBy param).

Definition QuerySmartContract (address queryData : string) : res string := q_SmartContractState address queryData.

Definition GetFee (addr queryData : string) : res Z :=
  data ← QuerySmartContract addr queryData;
  feeStr ← json_string data;
  match ParseUint feeStr 10 64 with (_, Some e) => Err e | (fee, None) => Ok fee end.

Definition GetNetworkInfo (x : Context) : res Status := http_Status (h_remote (x_Client x)).

(** * Subscriptions *)

Definition Subscribe (x : Context) (query : string) : res unit :=
  if h_running (x_Client x) then http_Subscribe (h_remote (x_Client x)) query else Err errNotRunning.

Definition IsConnected (x : Context) : bool := h_running (x_Client x).

Definition with_client (h : HTTP) (x : Context) : Context :=
  mkContext (x_ChainID x) h (x_NodeURI x) (x_KeyringDir x) (x_HomeDir x) (x_BroadcastMode x)
    (x_SignModeStr x) (x_Simulate x) (x_FromAddress x) (x_FeePayer x) (x_From x) (x_FromName x) (x_FeeGranter x).

(** The new client is not started. *)
Definition Reconnect : Cl error :=
  x ← gets id;
  match HTTP_ (x_NodeURI x) with
  | Panic => panic
  | Err e => mret (Some e)
  | Ok client => _ ← modify (with_client client); mret None
  end.

(** * What the provider relies on *)

(** The signer follows the address: after [SetAddress], in whatever way the
    connection is renewed, a transaction is signed by the key of that address;
    an address the keyring does not have changes nothing. *)
Lemma SetAddress_signs addr x x' r :
  SetAddress addr x = Some (x', r) →
  (∃ key, keyring_KeyByAddress addr = Ok key ∧ r = Some addr ∧ x_FromAddress x' = addr ∧
     ∀ x2 e, Reconnect x' = Some (x2, e) → ∀ txf msgs,
       PrepareTx x2 txf msgs = (b ← tx_BuildUnsignedTx txf msgs; b ← tx_Sign txf (key_Name key) b; tx_Encode b)) ∨
  (∃ e, keyring_KeyByAddress addr = Err e) ∧ r = None ∧ x' = x.
Proof.
  unfold SetAddress. destruct (keyring_KeyByAddress addr) as [key|e|] eqn:Hk; [|intros [= <- <-]; right; eauto|done].
  intros [= <- <-]. left. exists key. split_and!; [done..|]. intros x2 e. unfold Reconnect, mbind, proc_bind; cbn.
  destruct (HTTP_ _) as [h|e'|]; [|intros [= <- _]; done|done]. cbn. by intros [= <- _].
Qed.

(** After a reconnection the client does not run: it cannot subscribe. *)
Lemma Reconnect_stopped x x' : Reconnect x = Some (x', None) →
  IsConnected x' = false ∧ ∀ query, Subscribe x' query = Err errNotRunning.
Proof.
  unfold Reconnect, mbind, proc_bind; cbn. destruct (HTTP_ _) as [h|e|] eqn:Hh; [|done|done]. cbn.
  intros [= <-]. unfold HTTP_ in Hh. apply res_bind_Ok in Hh as (? & _ & [= <-]). done.
Qed.
End Client.

(** * The client as the provider sees it *)

Section Node.
Context {Builder Key Any : Type} `{!Sdk Wasm.Factory Builder Key Any}.

(** What the provider asks in one operation (Wasm.v), answered by the client;
    [events] are what the subscriptions to transactions bring, and [other] gives
    the serialisation.  An account that was read too early is [nil]. *)
Definition client_node (x : Context) (read_after : bool) (events : string → option Wasm.SubEvent)
    (other : Wasm.WasmNode) : Wasm.WasmNode := {|
  Wasm.GetLatestBlockHeight := GetLatestBlockHeight x;
  Wasm.GetTransactionReceipt := GetTransactionReceipt;
  Wasm.GetBalance := GetBalance;
  Wasm.GetAccountInfo addr := a ← GetAccountInfo read_after addr; deref a;
  Wasm.NewFactoryCLI := txf ← BuildTxFactory x; Ok (Wasm.f_Gas txf);
  Wasm.EstimateGas _ txf msgs := '(_, adjusted) ← EstimateGas x txf msgs; Ok adjusted;
  Wasm.PrepareTx _ := PrepareTx x;
  Wasm.BroadcastTx _ := BroadcastTx x;
  Wasm.SubscribeTx hash := _ ← Subscribe x ("tm.event = 'Tx' AND tx.hash = '" +:+ hash +:+ "'"); Ok (events hash);
  Wasm.TxSearch := TxSearch x;
  Wasm.QuerySmartContract := QuerySmartContract;
  Wasm.Marshal := Wasm.Marshal other;
  Wasm.UnmarshalInts := Wasm.UnmarshalInts other;
  Wasm.UnmarshalBool := Wasm.UnmarshalBool other;
  Wasm.UnmarshalString := json_string;
  Wasm.ErrWrongSequence := Wasm.ErrWrongSequence other |}.

(** The provider's fee is the client's. *)
Lemma GetFee_client x read_after events other cfg networkID response :
  Wasm.GetFee_ (client_node x read_after events other) cfg networkID response =
  (data ← Wasm.Marshal other (NewExecGetFee networkID response);
   GetFee (Wasm.contract_addr cfg ConnectionContract) data).
Proof. done. Qed.

(** Once it reconnected, the client cannot wait for a transaction. *)
Lemma stopped_wait x read_after events other cfg mk tx :
  IsConnected x = false →
  Wasm.waitForTxResult (client_node x read_after events other) cfg mk tx =
  Some ([mkCallbackCall mk (mkTxResponse 0 (Wasm.sr_TxHash tx) "" Failed "") (Some errNotRunning)], Err errNotRunning).
Proof.
  intros Hx. unfold Wasm.waitForTxResult, Wasm.subscribeTxResult. cbn. unfold Subscribe.
  unfold IsConnected in Hx. by rewrite Hx.
Qed.

(** Once the client has reconnected it cannot subscribe, and no delivery is
    noticed any more: whatever the node makes of a routed message, the relayer
    is told of a failure.  Either nothing was sent, or one transaction was
    accepted, the callback is called once with its hash and a failure, and the
    error says that the client is not running; so the relayer keeps the message
    and tries it again, unless the destination's contract says it has it. *)
Theorem reconnected_route_fails x0 x events other env cfg fs (message : Message) s
  (Hre : Reconnect x0 = Some (x, None)) (Han : answers (client_node x true events other) env cfg fs)
  (Hw : has_wallet s) :
  wp (Wasm.Route (client_node x true events other) env cfg fs message) (λ r s',
    (Wasm.w_sent s' = Wasm.w_sent s ∧ ∃ e, r = Some ([], Err e)) ∨
    (∃ sent hash, Wasm.w_sent s' = Wasm.w_sent s ++ [sent] ∧
       r = Some ([mkCallbackCall (Message_MessageKey message) (mkTxResponse 0 hash "" Failed "") (Some errNotRunning)],
                 Err errNotRunning))) s.
Proof.
  destruct (Reconnect_stopped x0 x Hre) as [Hx _].
  eapply wpx_mono; [by apply wasm_Route_runs|].
  intros r s' [?|(seq & sender & contract & raw & tx & w & Hs & _ & _ & _ & _ & _ & ->)]; [by left|right].
  eexists _, _. split; [exact Hs|]. by apply stopped_wait.
Qed.
End Node.
End WasmClient.
