(* ===== verification/WasmListener.v ===== *)
(** The CosmWasm listener as a state machine (relayer/chains/wasm/provider.go):
    the loop of [Listener], the goroutines of [SubscribeMessageEvents] it
    starts, and the client they share.

    [wrun] is what one event does to them.  An event carries what the node
    ([Wasm.WasmNode]) or the SDK ([WasmClient.Sdk]) answers at that time. *)
From stdpp Require Import gmap strings list.
From Stdlib Require Import ZArith Lia.
From S2P Require Import Prelude GoStd Types Provider WasmTypes Wasm WasmCorrect WasmClient.
Import WasmTypes.
Open Scope Z_scope.

Module WasmListener.

(** A goroutine in [SubscribeMessageEvents]: asking for its subscription, or
    waiting for events. *)
Inductive WSub : Type :=
| WAsking (opts : SubscribeOpts)
| WLive (opts : SubscribeOpts).

(** The loop of [Listener]: at the [select], in [runBlockQuery] with the ranges
    to come, or at its end. *)
Inductive WPhase : Type :=
| WSelecting
| WScanning (todo : list HeightRange) (toHeight : Z)
| WReturned (err : string).

Record WListening := mkWListening {
  wl_heights : Wasm.ListenerState;
  wl_phase : WPhase;
  wl_subs : list WSub;
  wl_client : WasmClient.Context;
  wl_out : list (BlockInfoOf Z) }.

Section Listener.
Context {Builder Key Any : Type}.
Abbreviation SDK := (WasmClient.Sdk Wasm.Factory Builder Key Any).
Context (cfg : Wasm.Config) (contracts : list Wasm.Contract) (eventList : list Event).

Inductive wevent : Type :=
| WTick
| WRange (node : Wasm.WasmNode)
| WScanned
| WPoll (node : Wasm.WasmNode) (lastSaved : Z)
| WCancelled (err : string)
| WAnswer (i : nat) (sdk : SDK)
| WEvent (i : nat) (e : TxResultResponse + string)
| WIdle (i : nat) (sdk : SDK)
| WSubCancelled (i : nat)
(** The connection of the client breaks. *)
| WStopped.

(** * The loop *)

Definition Listener_begin (x : WasmClient.Context) (node : Wasm.WasmNode) (lastSavedHeight : Z) : res WListening :=
  heights ← Wasm.Listener_init node cfg lastSavedHeight;
  Ok (mkWListening heights WSelecting [] x []).

(** A goroutine for every contract and type of its messages. *)
Definition subscriptions (height : Z) : list WSub :=
  c ← contracts; (λ sig, WAsking (mkSubscribeOpts height (Wasm.ct_Address c) sig.1)) <$> Wasm.ct_SigType c.

(** [case <-subscribeStarter.C] *)
Definition on_subscribe (s : WListening) : option WListening :=
  match s with
  | mkWListening (Wasm.mkListenerState start latest true poll) WSelecting subs x out =>
      let phase := if start <? latest then
          WScanning (Wasm.getHeightStream cfg (S (Z.to_nat (latest - start))) start latest) latest
        else WSelecting in
      Some (mkWListening (Wasm.mkListenerState start latest false poll) phase (subs ++ subscriptions latest) x out)
  | _ => None
  end.

(** A range that cannot be fetched is passed over. *)
Definition on_range (node : Wasm.WasmNode) (s : WListening) : option WListening :=
  match s with
  | mkWListening heights (WScanning (h :: todo) to) subs x out =>
      match Wasm.query_range node cfg eventList h with
      | Ok b => Some (mkWListening heights (WScanning todo to) subs x (out ++ option_list b))
      | _ => None
      end
  | _ => None
  end.

(** [startHeight = p.runBlockQuery(...)] *)
Definition on_scanned (s : WListening) : option WListening :=
  match s with
  | mkWListening (Wasm.mkListenerState _ latest sub poll) (WScanning [] to) subs x out =>
      Some (mkWListening (Wasm.mkListenerState (u64 (to + 1)) latest sub poll) WSelecting subs x out)
  | _ => None
  end.

(** [case <-pollHeightTicker.C]: when the height cannot be queried the latest
    height is 0 and the ticker goes on. *)
Definition on_poll (node : Wasm.WasmNode) (lastSaved : Z) (s : WListening) : option WListening :=
  match s with
  | mkWListening (Wasm.mkListenerState _ latest sub true) WSelecting subs x out =>
      let start := if lastSaved =? 0 then latest else lastSaved in
      match Wasm.QueryLatestHeight_ node with
      | Panic => None
      | Err _ => Some (mkWListening (Wasm.mkListenerState start 0 sub true) WSelecting subs x out)
      | Ok latest => Some (mkWListening (Wasm.mkListenerState start latest sub false) WSelecting subs x out)
      end
  | _ => None
  end.

Definition on_cancelled (err : string) (s : WListening) : option WListening :=
  match wl_phase s with
  | WSelecting => Some (mkWListening (wl_heights s) (WReturned err) (wl_subs s) (wl_client s) (wl_out s))
  | _ => None
  end.

(** [resetFunc]: both tickers start again. *)
Definition resetFunc (h : Wasm.ListenerState) : Wasm.ListenerState :=
  Wasm.mkListenerState (Wasm.ls_start h) (Wasm.ls_latest h) true true.

(** * The goroutines *)

Definition in_sub (i : nat) (sub : WSub) (s : WListening) : WListening :=
  mkWListening (wl_heights s) (wl_phase s) (<[i := sub]> (wl_subs s)) (wl_client s) (wl_out s).

(** The goroutine resets the listener and ends. *)
Definition end_sub (i : nat) (x : WasmClient.Context) (s : WListening) : WListening :=
  mkWListening (resetFunc (wl_heights s)) (wl_phase s) (delete i (wl_subs s)) x (wl_out s).

(** The answer to [p.client.Subscribe]. *)
Definition on_answer (i : nat) (sdk : SDK) (s : WListening) : option WListening :=
  match wl_subs s !! i with
  | Some (WAsking opts) =>
      match WasmClient.Subscribe (H := sdk) (wl_client s) (Wasm.subscribe_query opts) with
      | Ok _ => Some (in_sub i (WLive opts) s)
      | Err _ => Some (end_sub i (wl_client s) s)
      | Panic => None
      end
  | _ => None
  end.

(** [case e := <-resultEventChan] *)
Definition on_event (i : nat) (e : TxResultResponse + string) (s : WListening) : option WListening :=
  match wl_subs s !! i with
  | Some (WLive opts) =>
      let '(opts, b, panics) := Wasm.SubscribeMessageEvents_event cfg opts e in
      if panics : bool then None
      else let s := in_sub i (WLive opts) s in
        Some (mkWListening (wl_heights s) (wl_phase s) (wl_subs s) (wl_client s) (wl_out s ++ option_list b))
  | _ => None
  end.

(** [case <-time.After(2 * time.Minute)]: a client that has stopped is replaced,
    and the goroutine ends. *)
Definition on_idle (i : nat) (sdk : SDK) (s : WListening) : option WListening :=
  match wl_subs s !! i with
  | Some (WLive _) =>
      if WasmClient.IsConnected (wl_client s) then Some s
      else match WasmClient.Reconnect (H := sdk) (wl_client s) with
           | None => None
           | Some (x, Some _) => Some s
           | Some (x, None) => Some (end_sub i x s)
           end
  | _ => None
  end.

(** [case <-ctx.Done()] of a goroutine. *)
Definition on_sub_cancelled (i : nat) (s : WListening) : option WListening :=
  match wl_subs s !! i with
  | Some (WLive _) =>
      Some (mkWListening (wl_heights s) (wl_phase s) (delete i (wl_subs s)) (wl_client s) (wl_out s))
  | _ => None
  end.

Definition on_stopped (s : WListening) : option WListening :=
  let x := wl_client s in
  Some (mkWListening (wl_heights s) (wl_phase s) (wl_subs s)
    (WasmClient.with_client (WasmClient.mkHTTP (WasmClient.h_remote (WasmClient.x_Client x)) false) x) (wl_out s)).

Definition wrun (e : wevent) : WListening → option WListening :=
  match e with
  | WTick => on_subscribe
  | WRange node => on_range node
  | WScanned => on_scanned
  | WPoll node lastSaved => on_poll node lastSaved
  | WCancelled err => on_cancelled err
  | WAnswer i sdk => on_answer i sdk
  | WEvent i e => on_event i e
  | WIdle i sdk => on_idle i sdk
  | WSubCancelled i => on_sub_cancelled i
  | WStopped => on_stopped
  end.

Fixpoint wrun_all (l : list wevent) (s : WListening) : option WListening :=
  match l with
  | [] => Some s
  | e :: l => s ← wrun e s; wrun_all l s
  end.

(** * The client never runs again *)

Definition is_asking (sub : WSub) : bool := match sub with WAsking _ => true | WLive _ => false end.

(** The client has stopped, and no goroutine waits for events. *)
Definition deaf (s : WListening) : Prop :=
  WasmClient.IsConnected (wl_client s) = false ∧ Forall (λ sub, is_asking sub = true) (wl_subs s).

(** A block that a scan of the range makes. *)
Definition scanned (b : BlockInfoOf Z) : Prop :=
  ∃ node h, Wasm.query_range node cfg eventList h = Ok (Some b).

Lemma subscriptions_asking h : Forall (λ sub, is_asking sub = true) (subscriptions h).
Proof. apply Forall_forall. intros sub (c & (sig & -> & _)%list_elem_of_fmap & _)%list_elem_of_bind. done. Qed.

Lemma deaf_step e s s' :
  deaf s → wrun e s = Some s' →
  deaf s' ∧ ∃ new, wl_out s' = wl_out s ++ new ∧ Forall scanned new.
Proof.
  intros [Hx Hsubs] Hrun.
  assert (∀ i opts, wl_subs s !! i ≠ Some (WLive opts)) as Hno.
  { intros i opts Hi. rewrite Forall_lookup in Hsubs. by specialize (Hsubs _ _ Hi). }
  assert (∀ s1, wl_client s1 = wl_client s → wl_out s1 = wl_out s → Forall (λ sub, is_asking sub = true) (wl_subs s1) →
    deaf s1 ∧ ∃ new, wl_out s1 = wl_out s ++ new ∧ Forall scanned new) as Hquiet.
  { intros s1 Hc Ho Hs1. split; [split; [by rewrite Hc|done]|]. exists []. by rewrite app_nil_r. }
  destruct e; cbn [wrun] in Hrun.
  - unfold on_subscribe in Hrun. destruct s as [[start latest [] poll] [] subs x out]; try done.
    injection Hrun as <-. apply Hquiet; [done..|]. cbn in *. apply Forall_app. split; [done|apply subscriptions_asking].
  - unfold on_range in Hrun. repeat case_match; simplify_eq. split; [done|]. eexists. split; [done|].
    apply Forall_forall. intros b. match goal with H : Wasm.query_range _ _ _ _ = Ok ?o |- _ => destruct o end; cbn;
      [|by intros ?%elem_of_nil]. intros ->%list_elem_of_singleton. by eexists _, _.
  - unfold on_scanned in Hrun. repeat case_match; simplify_eq. by apply Hquiet.
  - unfold on_poll in Hrun. repeat case_match; simplify_eq; by apply Hquiet.
  - unfold on_cancelled in Hrun. repeat case_match; simplify_eq. by apply Hquiet.
  - unfold on_answer, WasmClient.Subscribe in Hrun. unfold WasmClient.IsConnected in Hx. rewrite Hx in Hrun.
    destruct (wl_subs s !! i) as [[opts|opts]|]; [|done..]. cbn in Hrun. injection Hrun as <-.
    apply Hquiet; [done..|]. cbn. by apply Forall_delete.
  - unfold on_event in Hrun. destruct (wl_subs s !! i) as [[opts|opts]|] eqn:Hi; [done|by destruct (Hno i opts)|done].
  - unfold on_idle in Hrun. destruct (wl_subs s !! i) as [[opts|opts]|] eqn:Hi; [done|by destruct (Hno i opts)|done].
  - unfold on_sub_cancelled in Hrun. destruct (wl_subs s !! i) as [[opts|opts]|] eqn:Hi; [done|by destruct (Hno i opts)|done].
  - injection Hrun as <-. split; [by split|]. exists []. by rewrite app_nil_r.
Qed.

Lemma deaf_run l s s' :
  deaf s → wrun_all l s = Some s' → deaf s' ∧ ∃ new, wl_out s' = wl_out s ++ new ∧ Forall scanned new.
Proof.
  revert s. induction l as [|e l IH]; intros s Hd; cbn [wrun_all].
  { intros [= <-]. split; [done|]. exists []. by rewrite app_nil_r. }
  destruct (wrun e s) as [s1|] eqn:He; [|done]. cbn. intros Hrun.
  destruct (deaf_step e s s1 Hd He) as [Hd1 (new1 & Ho1 & Hn1)].
  destruct (IH s1 Hd1 Hrun) as [Hd' (new & Ho & Hn)]. split; [done|]. exists (new1 ++ new).
  rewrite Ho, Ho1, app_assoc. split; [done|]. by apply Forall_app.
Qed.

(** * What is left is polling *)

Lemma scan_ranges node ranges blocks heights to subs x out :
  res_mapM (Wasm.query_range node cfg eventList) ranges = Ok blocks →
  wrun_all (replicate (length ranges) (WRange node)) (mkWListening heights (WScanning ranges to) subs x out) =
  Some (mkWListening heights (WScanning [] to) subs x (out ++ omap (M:=list) id blocks)).
Proof.
  revert blocks out. induction ranges as [|h ranges IH]; intros blocks out; cbn.
  { intros [= <-]. cbn. by rewrite app_nil_r. }
  intros (b & Hb & (bs & Hbs & [= <-])%res_bind_Ok)%res_bind_Ok. rewrite Hb. cbn.
  rewrite (IH bs) by done. rewrite <-app_assoc. by destruct b.
Qed.

Lemma wrun_all_app l1 l2 s : wrun_all (l1 ++ l2) s = (s' ← wrun_all l1 s; wrun_all l2 s').
Proof.
  revert s. induction l1 as [|e l1 IH]; intros s; cbn; [done|]. destruct (wrun e s); cbn; [apply IH|done].
Qed.

(** The events of one round. *)
Definition round (sdk : SDK) (node : Wasm.WasmNode) (saved latest : Z) : list wevent :=
  let fuel := S (Z.to_nat (latest - saved)) in
  [WAnswer 0 sdk; WPoll node saved; WTick] ++
  replicate (length (Wasm.getHeightStream cfg fuel saved latest)) (WRange node) ++ [WScanned].

(** C29: when the connection of a CosmWasm client has broken and the goroutines
    have noticed, the listener is deaf for ever: whatever happens, and however
    often it reconnects, no subscription brings a block again, every block sent
    is made by a scan, and every request for a subscription fails and has the
    listener start again.  But it goes on polling: from every such state it can
    scan from the saved height to the latest and be ready for the next round. *)
Theorem deaf_only_polls l s s' (Hdeaf : deaf s) (Hrun : wrun_all l s = Some s') :
  (deaf s' ∧ ∃ new, wl_out s' = wl_out s ++ new ∧ Forall scanned new) ∧
  ∀ sdk node saved latest blocks next opts subs,
    wl_phase s' = WSelecting → wl_subs s' = WAsking opts :: subs →
    Wasm.GetLatestBlockHeight node = Ok latest → 0 < saved < latest →
    Wasm.runBlockQuery node cfg eventList (S (Z.to_nat (latest - saved))) saved latest = Ok (blocks, next) →
    ∃ s'', wrun_all (round sdk node saved latest) s' = Some s'' ∧ wl_out s'' = wl_out s' ++ blocks ∧
      wl_phase s'' = WSelecting ∧ wl_subs s'' = subs ++ subscriptions latest.
Proof.
  split; [by eapply deaf_run|]. intros sdk node saved latest blocks next opts subs Hp Hs Hl Hlt Hq.
  destruct (deaf_run l s s' Hdeaf Hrun) as [[Hx _] _]. destruct s' as [[start lat sub poll] phase subs' x out].
  cbn in Hp, Hs, Hx. subst. unfold Wasm.runBlockQuery in Hq. apply res_bind_Ok in Hq as (bs & Hbs & [= <- <-]).
  unfold round. set (ranges := Wasm.getHeightStream _ _ _ _) in *.
  assert (wrun_all [WAnswer 0 sdk; WPoll node saved; WTick]
    (mkWListening (Wasm.mkListenerState start lat sub poll) WSelecting (WAsking opts :: subs) x out) =
    Some (mkWListening (Wasm.mkListenerState saved latest false false) (WScanning ranges latest)
      (subs ++ subscriptions latest) x out)) as Hstart.
  { cbn [wrun_all wrun]. unfold on_answer, WasmClient.Subscribe. cbn [wl_subs lookup list_lookup wl_client].
    unfold WasmClient.IsConnected in Hx. rewrite Hx. cbn. unfold Wasm.QueryLatestHeight_. rewrite Hl.
    replace (saved =? 0) with false by lia. cbn. replace (saved <? latest) with true by lia. done. }
  rewrite wrun_all_app, Hstart. cbn [mbind option_bind]. rewrite wrun_all_app, (scan_ranges _ _ bs) by done.
  cbn. eexists. split; [done|]. by cbn.
Qed.

(** * It never sleeps *)

(** While the context lives the listener has something to wait for: the
    ticker, a goroutine, or the end of a scan. *)
Definition waits (s : WListening) : Prop := Wasm.ls_subscribe (wl_heights s) = true ∨ wl_subs s ≠ [].

Definition is_wcancel (e : wevent) : bool :=
  match e with WCancelled _ | WSubCancelled _ => true | _ => false end.

Lemma waits_step e s s' :
  (∀ h, subscriptions h ≠ []) → is_wcancel e = false → waits s → wrun e s = Some s' → waits s'.
Proof.
  intros Hc He Hw Hrun. unfold waits in *.
  assert (∀ i sub, wl_subs (in_sub i sub s) ≠ [] ↔ wl_subs s ≠ []) as Hin.
  { intros i sub. unfold in_sub; cbn. by rewrite <-!length_zero_iff_nil, length_insert. }
  destruct e; try done; cbn [wrun] in Hrun.
  - destruct s as [[start latest [] poll] [] subs x out]; try done. injection Hrun as <-. right. cbn.
    intros [_ ?]%app_nil. by eapply Hc.
  - destruct s as [h [|[|r todo] to|] subs x out]; try done. cbn in Hrun.
    destruct (Wasm.query_range _ _ _ _); [|done..]. by injection Hrun as <-.
  - destruct s as [[start latest sub poll] [|[|r todo] to|] subs x out]; try done. by injection Hrun as <-.
  - destruct s as [[start latest sub []] [] subs x out]; try done. cbn in Hrun.
    destruct (Wasm.QueryLatestHeight_ node); simplify_eq; done.
  - unfold on_answer in Hrun. destruct (wl_subs s !! i) as [[]|] eqn:Hi; try done.
    destruct (WasmClient.Subscribe _ _); simplify_eq; [|by left].
    right. apply Hin. by intros E; rewrite E in Hi.
  - unfold on_event in Hrun. destruct (wl_subs s !! i) as [[]|] eqn:Hi; try done.
    destruct (Wasm.SubscribeMessageEvents_event cfg _ _) as [[o b] []]; simplify_eq.
    right. cbn. apply (Hin i (WLive o)). by intros E; rewrite E in Hi.
  - unfold on_idle in Hrun. destruct (wl_subs s !! i) as [[]|] eqn:Hi; try done.
    destruct (WasmClient.IsConnected _); simplify_eq; [done|].
    destruct (WasmClient.Reconnect _) as [[x [e'|]]|]; simplify_eq; [done|by left].
  - by injection Hrun as <-.
Qed.

(** While the context lives the listener never falls asleep: whatever the
    node and the SDK answer, its ticker runs or a goroutine is left that will
    start it again. *)
Theorem wasm_listener_awake x node lastSaved l s s'
  (Hc : ∀ h, subscriptions h ≠ []) (Hbegin : Listener_begin x node lastSaved = Ok s)
  (Hlive : Forall (λ e, is_wcancel e = false) l) (Hrun : wrun_all l s = Some s') : waits s'.
Proof.
  assert (waits s) as Hw.
  { unfold Listener_begin, Wasm.Listener_init in Hbegin.
    apply res_bind_Ok in Hbegin as (h & (lat & _ & (st & _ & [= <-])%res_bind_Ok)%res_bind_Ok & [= <-]). by left. }
  clear Hbegin. revert s Hw Hrun. induction Hlive as [|e l He _ IH]; intros s Hw; cbn [wrun_all]; [by intros [= <-]|].
  destruct (wrun e s) as [s1|] eqn:Hs1; [|done]. cbn. apply IH. by eapply waits_step.
Qed.
End Listener.
End WasmListener.

(** * relayer/chains/wasm: the stream of blocks over a stream of heights
    ([getBlockInfoStream] of provider.go), which nothing calls.

    One goroutine takes ranges of heights, fetches the messages of each until
    that succeeds, and sends its blocks. *)

Module WasmStream.
Import WasmTypes.

Inductive phase : Type :=
| Selecting
| Fetching (h : HeightRange)
| Sending (blocks : list (BlockInfoOf Z))
| Closed.

Record Stream := mkStream { ws_phase : phase; ws_taken : list HeightRange; ws_sent : list (BlockInfoOf Z) }.

Inductive event : Type :=
| Done
(* from the channel of heights: a range, or that it is closed *)
| Height (h : HeightRange)
| NoHeight
| Fetched (r : res (list (BlockInfoOf Z)))
| Sent.

(** A range that cannot be fetched is tried again; meanwhile [done] is not looked
    at. *)
Definition step (e : event) (s : Stream) : option Stream :=
  match e, ws_phase s with
  | Done, Selecting => Some (mkStream Closed (ws_taken s) (ws_sent s))
  | Height h, Selecting => Some (mkStream (Fetching h) (ws_taken s ++ [h]) (ws_sent s))
  | NoHeight, Selecting => Some s
  | Fetched (Ok blocks), Fetching _ => Some (mkStream (match blocks with [] => Selecting | _ => Sending blocks end) (ws_taken s) (ws_sent s))
  | Fetched (Err _), Fetching _ => Some s
  | Sent, Sending (b :: blocks) =>
      Some (mkStream (match blocks with [] => Selecting | _ => Sending blocks end) (ws_taken s) (ws_sent s ++ [b]))
  | _, _ => None
  end.
Definition start : Stream := mkStream Selecting [] [].
Fixpoint run (l : list event) (s : Stream) : option Stream :=
  match l with [] => Some s | e :: l => s ← step e s; run l s end.

(** ** What is sent *)

Definition pending (p : phase) : list (BlockInfoOf Z) := match p with Sending blocks => blocks | _ => [] end.
Definition fetched (l : list event) : list (BlockInfoOf Z) :=
  l ≫= λ e, match e with Fetched (Ok blocks) => blocks | _ => [] end.

(** Every block that was fetched is sent, in order, or still waits. *)
Lemma run_sent l s s' : run l s = Some s' →
  ws_sent s' ++ pending (ws_phase s') = ws_sent s ++ pending (ws_phase s) ++ fetched l.
Proof.
  revert s. induction l as [|e l IH]; intros s; cbn [run].
  { intros [= <-]. by rewrite app_nil_r. }
  destruct (step e s) as [s1|] eqn:Hs; [|done]. cbn [mbind option_bind]. intros Hr. rewrite (IH s1 Hr).
  change (fetched (e :: l)) with (match e with Fetched (Ok blocks) => blocks | _ => [] end ++ fetched l).
  destruct s as [p tk se]. destruct e as [|h| |[blocks|err|]|], p as [|h'|[|b bs]|]; cbn in Hs; try done; injection Hs as <-; cbn.
  - done.
  - done.
  - done.
  - by destruct blocks.
  - done.
  - rewrite <-app_assoc. by destruct bs.
Qed.

(** While a range cannot be fetched nothing ends the goroutine. *)
Lemma fetching_stays h tk se l s :
  (∀ e, e ∈ l → ∀ blocks, e ≠ Fetched (Ok blocks)) → run l (mkStream (Fetching h) tk se) = Some s → s = mkStream (Fetching h) tk se.
Proof.
  induction l as [|e l IH]; intros Hl; cbn [run]; [by intros [= <-]|].
  destruct e as [|h'| |[blocks|err|]|]; cbn; try done.
  - by destruct (Hl (Fetched (Ok blocks)) ltac:(by left) blocks).
  - apply IH. intros e He. apply Hl. by right.
Qed.
End WasmStream.
