(* ===== verification/WasmListenerWitness.v ===== *)
(** The CosmWasm client and listener on concrete runs. *)
From stdpp Require Import gmap strings list.
From Stdlib Require Import ZArith Lia.
From S2P Require Import Prelude GoStd Types Provider WasmTypes Wasm WasmCorrect WasmWitness WasmClient WasmListener.
Import WasmTypes WasmClient WasmListener.
Open Scope Z_scope.

(** An SDK whose requests all succeed, the chain at height [h]. *)
Definition sdk_at (h : Z) (subscribes : bool) : Sdk Wasm.Factory string string string := {|
  http_New _ := Ok tt; http_Start _ := Ok tt; http_Status _ := Ok (mkStatus "archway" h);
  http_Subscribe _ _ := if subscribes then Ok tt else Err "max_subscriptions_per_client reached";
  errNotRunning := "client is not running. Use .Start() method to start";
  http_TxSearch _ _ _ page _ _ := paged (replicate 1 tx1) page;
  grpc_NewClient _ := Ok tt; keyring_New _ _ _ := Ok tt;
  keyring_Key _ := Ok "key"; keyring_KeyByAddress a := if decide (a = "arch1w") then Ok "relay" else Err "no key";
  keyring_Import _ _ _ := Ok tt; keyring_Export _ _ := Ok "armor"; key_Name k := k; key_Address _ := Ok "arch1w";
  NewEntropy _ := Ok "seed"; NewMnemonic _ := Ok "words"; NewSigningAlgo _ := Ok tt; HDPath := "m/44'";
  NewAccount _ _ _ _ := Ok "key"; ExportNew _ _ _ := Ok "armor";
  tx_NewFactoryCLI _ := Ok (Wasm.mkFactory false 0 "" 0 0 0);
  tx_WithSimulateAndExecute b f := Wasm.mkFactory b (Wasm.f_Gas f) (Wasm.f_GasPrices f) (Wasm.f_GasAdjustment f)
    (Wasm.f_AccountNumber f) (Wasm.f_Sequence f);
  tx_CalculateGas _ _ _ := Ok ("", 500);
  tx_BuildUnsignedTx _ _ := Ok "unsigned"; tx_Sign _ name b := Ok (b +:+ " by " +:+ name); tx_Encode b := Ok b;
  ctx_BroadcastTx _ _ := Ok (Wasm.mkSdkTxResponse "AB" 0 "");
  q_GetTx _ := Ok (120, 0); q_Balance _ d := Ok (d, 5); q_Account a := Ok a;
  UnpackAny a := Ok (Wasm.mkAccount a 3 7); q_SmartContractState _ _ := Ok "12"; json_string s := Ok s |}.
Definition sdk : Sdk Wasm.Factory string string string := sdk_at 120 true.

Definition context0 : Context :=
  mkContext "archway" (mkHTTP "http://node" true) "http://node" "" "/home" "sync" "" true "arch1w" "arch1w" "arch1w"
    "relay" "arch1w".
Definition context1 : Context := with_client (mkHTTP "http://node" false) context0.

(** A reconnected client broadcasts the message and is told of a failure. *)
Lemma reconnected_route_fails_witness :
  let node := client_node (Sdk0 := sdk) context1 true (λ _, None) (WasmWitness.node 7) in
  let s := Wasm.mkWasmState (Some (Wasm.mkAccount "arch1w" 3 7)) [] in
  wp (Wasm.Route node env cfg fs msg) (λ r s', length (Wasm.w_sent s') = 1%nat ∧
    ∃ calls e, r = Some (calls, Err e)) s.
Proof.
  cbn zeta. set (s := Wasm.mkWasmState _ _). set (node := client_node _ _ _ _).
  assert (answers node env cfg fs) as Han by by split.
  pose proof (reconnected_route_fails (Sdk0 := sdk) context0 context1 (λ _, None) (WasmWitness.node 7) env cfg fs msg s
    eq_refl Han ltac:(by eexists)) as Hw.
  unfold wpx in *. fold node in Hw. destruct (Wasm.Route node env cfg fs msg s) as [[s' r]|] eqn:E; [|done].
  assert (length (Wasm.w_sent s') = 1%nat) as Hlen by (vm_compute in E; by injection E as <- _).
  split; [done|]. destruct Hw as [[_ (e & ->)]|(sent & hash & _ & ->)]; eauto.
Defined.

(** * The listener *)

Definition wcontracts : list Wasm.Contract :=
  [Wasm.mkContract "arch1x" XcallContract (Wasm.sig_types XcallContract)].
Abbreviation run_w := (wrun_all (Builder := string) (Key := string) (Any := string) cfg wcontracts [filter1]).

Lemma wcontracts_subscribe h : subscriptions wcontracts h ≠ [].
Proof. discriminate. Qed.

Definition begun_w (x : Context) : WListening :=
  mkWListening (Wasm.mkListenerState 100 120 true false) WSelecting [] x [].

Lemma wasm_listener_awake_witness : ∃ s,
  run_w [WTick; WRange (node 1); WScanned; WAnswer 0 sdk; WStopped; WIdle 0 sdk] (begun_w context0) = Some s ∧
  waits s.
Proof.
  eexists. split; [vm_compute; reflexivity|].
  apply (wasm_listener_awake cfg wcontracts [filter1] context0 (node 1) 100
    [WTick; WRange (node 1); WScanned; WAnswer 0 sdk; WStopped; WIdle 0 sdk] (begun_w context0)).
  - apply wcontracts_subscribe.
  - vm_compute. reflexivity.
  - by repeat constructor.
  - vm_compute. reflexivity.
Defined.

(** The listener is started, its connection is lost and renewed: two goroutines
    ask in vain, and a scan brings the message of height 120. *)
Definition lost_w : WListening :=
  mkWListening (Wasm.mkListenerState 121 120 true true) WSelecting [WAsking (mkSubscribeOpts 120 "arch1x" "m")] context1 [].

Lemma deaf_only_polls_witness : ∃ s'',
  run_w (round cfg sdk (node 1) 100 120) lost_w = Some s'' ∧ bi_Height <$> wl_out s'' = [149] ∧ deaf lost_w.
Proof.
  assert (deaf lost_w) as Hd by (split; [reflexivity|by repeat constructor]).
  destruct (deaf_only_polls (Builder := string) (Key := string) (Any := string) cfg wcontracts [filter1] [] lost_w lost_w Hd eq_refl) as [_ Hround].
  destruct (Hround sdk (node 1) 100 120 [mkBlockInfo 149 [mkMessage "0x2.icon" "archway" (Some 5) "data" 120 EmitMessage None]]
    121 (mkSubscribeOpts 120 "arch1x" "m") [])
    as (s'' & Hs & Ho & _); [reflexivity|reflexivity|reflexivity|lia|vm_compute; reflexivity|].
  exists s''. split; [exact Hs|]. split; [by rewrite Ho|exact Hd].
Defined.

(** * Goroutines pile up *)

(** The chain five blocks later. *)
Definition node125 : Wasm.WasmNode :=
  client_node (Sdk0 := sdk_at 125 true) context0 true (λ _, None) (node 1).

(** Only the second of the first two requests is refused. *)
Definition piling : list (wevent (Builder := string) (Key := string) (Any := string)) :=
  [WTick; WRange (node 1); WScanned; WAnswer 0 sdk; WAnswer 1 (sdk_at 120 false); WPoll node125 119; WTick;
   WRange node125; WScanned; WAnswer 1 sdk; WAnswer 2 sdk].
Definition piled : WListening := default (begun_w context0) (run_w piling (begun_w context0)).
Definition event_w : TxResultResponse + string :=
  inl (mkTxResultResponse 130 0 "" "" "" [called "arch1x" "0x2.icon" "more" 6 9]).

(** One request for a subscription that fails has the listener subscribe to
    everything again, and nobody ends the subscriptions there are: the same
    events are waited for by two goroutines, and the block of each of them is
    sent twice. *)
Theorem subscriptions_pile_up :
  run_w piling (begun_w context0) = Some piled ∧
  wl_subs piled =
    [WLive (mkSubscribeOpts 120 "arch1x" Wasm.EventTypeWasmCallMessage);
     WLive (mkSubscribeOpts 125 "arch1x" Wasm.EventTypeWasmCallMessage);
     WLive (mkSubscribeOpts 125 "arch1x" Wasm.EventTypeWasmRollbackMessage)] ∧
  ∃ s' b, run_w [WEvent 0 event_w; WEvent 1 event_w] piled = Some s' ∧ bi_Messages b ≠ [] ∧
    wl_out s' = wl_out piled ++ [b; b].
Proof.
  split; [vm_compute; reflexivity|]. split; [vm_compute; reflexivity|].
  eexists _, (mkBlockInfo 130 [mkMessage "archway" "0x2.icon" (Some 6) "more" 0 CallMessage (Some 9)]).
  split; [vm_compute; reflexivity|]. split; [discriminate|]. vm_compute. reflexivity.
Qed.
