(* ===== verification/WasmScan.v ===== *)
(** What a scan of the CosmWasm provider hands on (relayer/chains/wasm/provider.go:
    [fetchBlockMessages], [getMessagesFromTxList], [runBlockQuery]), and the
    listener as a feeder of the relayer (Feed.v), by itself ([wasm_feeder]) and
    beside the chain it listens to ([wasm_watcher]): what it sends was emitted
    there. *)
From stdpp Require Import gmap strings list.
From Stdlib Require Import ZArith Lia.
From S2P Require Import Prelude GoStd Types Store Provider Relay RelaySystem RelayCorrect RelayFrame Custody Feed.
From S2P Require Import IconTypes WasmTypes Wasm WasmCorrect WasmClient WasmListener.
Import BlockStore MessageStore FinalityStore WasmTypes Wasm.
Open Scope Z_scope.

(** * A range *)

(** The first element that gives no value decides. *)
Lemma res_mapM_before {A B} (f : A → res B) l x k ys :
  res_mapM f l = Ok ys → (∀ y, f x ≠ Ok y) →
  res_mapM f (l ++ x :: k) = match f x with Ok _ => Ok [] | Err e => Err e | Panic => Panic end.
Proof.
  revert ys. induction l as [|y l IH]; intros ys Hl Hx; cbn [app res_mapM] in *.
  { destruct (f x) as [z| |]; [by destruct (Hx z)|done|done]. }
  apply res_bind_Ok in Hl as (z & -> & (zs & Hzs & _)%res_bind_Ok). cbn. rewrite (IH zs Hzs Hx).
  destruct (f x) as [z'| |]; [by destruct (Hx z')|done|done].
Qed.

Section Range.
Context (node : WasmNode) (cfg : Config) (eventList : list Event).
Abbreviation NID := (cc_NID (c_Common cfg)).

(** The node answers the searches of the range [h] with the transactions
    [matched], whose number is not one that loses a page. *)
Definition finds (h : HeightRange) (matched : Event → list ResultTx) : Prop :=
  ∀ event, event ∈ eventList →
    (∀ page, TxSearch node (search_param (hr_Start h) (hr_End h) event page) = paged (matched event) page) ∧
    ¬ (25 < Z.of_nat (length (matched event)) ∧ Z.of_nat (length (matched event)) mod 25 = 0).

(** The transactions of the range, in the order they are read. *)
Definition found (matched : Event → list ResultTx) : list ResultTx := eventList ≫= matched.

(** What the search for one type of event finds: nothing, when it fails. *)
Definition answers (h : HeightRange) (event : Event) : list ResultTx :=
  match search_event node h event with Ok txs => txs | _ => [] end.

Lemma search_events_found events h :
  (∀ event, event ∈ events → search_event node h event ≠ Panic) →
  search_events node h events = Ok (events ≫= answers h).
Proof.
  induction events as [|event events IH]; intros Hs; cbn [search_events]; [done|].
  assert (search_event node h event ≠ Panic) as He by (apply Hs; by left).
  assert (∀ e, e ∈ events → search_event node h e ≠ Panic) as Hrest by (intros e Hin; apply Hs; by right).
  cbn [mbind list_bind]. unfold answers at 1. destruct (search_event node h event) as [txs|e|]; [|by apply IH|done].
  by rewrite (IH Hrest).
Qed.

Lemma fetch_answers h :
  (∀ event, event ∈ eventList → search_event node h event ≠ Panic) →
  fetchBlockMessages node cfg eventList h = res_mapM (tx_messages cfg) (found (answers h)).
Proof. intros Hs. unfold fetchBlockMessages. by rewrite search_events_found. Qed.

Lemma finds_answers h matched event :
  finds h matched → event ∈ eventList → search_event node h event = Ok (matched event).
Proof.
  intros Hf He. destruct (Hf event He) as [Hn Hp]. rewrite (search_event_result _ h event (matched event)) by done.
  destruct (Z.ltb_spec 25 (Z.of_nat (length (matched event)))); [|done].
  destruct (Z.eqb_spec (Z.of_nat (length (matched event)) mod 25) 0); [|done]. by destruct Hp.
Qed.

Lemma finds_found h matched : finds h matched → found (answers h) = found matched.
Proof.
  intros Hf. unfold found. assert (∀ event, event ∈ eventList → answers h event = matched event) as Ha.
  { intros event He. unfold answers. by rewrite (finds_answers h matched). }
  clear Hf. induction eventList as [|event events IH]; [done|]. cbn. rewrite (Ha event) by left. f_equal.
  apply IH. intros e He. apply Ha. by right.
Qed.

Lemma fetch_found h matched :
  finds h matched → fetchBlockMessages node cfg eventList h = res_mapM (tx_messages cfg) (found matched).
Proof.
  intros Hf. rewrite <-(finds_found h matched) by done. apply fetch_answers. intros event He.
  by rewrite (finds_answers h matched).
Qed.

(** A transaction is readable when its events parse and their messages have
    serial numbers; [read] are then its messages. *)
Definition readable (tx : ResultTx) : Prop :=
  ∃ msgs, ParseMessageFromEvents NID (rt_Events tx) = Ok msgs ∧ Forall (λ m, m_Sn m ≠ None) msgs.
Definition read (tx : ResultTx) : list (MessageOf Z) :=
  set_Height (u64 (rt_Height tx)) <$>
    match ParseMessageFromEvents NID (rt_Events tx) with Ok msgs => msgs | _ => [] end.

Lemma tx_messages_readable tx : readable tx → tx_messages cfg tx = Ok (mkBlockInfo (u64 (rt_Height tx)) (read tx)).
Proof.
  intros (msgs & Hm & Hsn). unfold tx_messages, read. rewrite Hm. cbn. rewrite decide_False; [done|].
  rewrite Exists_fmap, Exists_exists. intros (m & Hin & Hn). rewrite Forall_forall in Hsn. by apply (Hsn m).
Qed.

Lemma range_read txs :
  Forall readable txs →
  res_mapM (tx_messages cfg) txs = Ok ((λ tx, mkBlockInfo (u64 (rt_Height tx)) (read tx)) <$> txs).
Proof.
  intros Ht. apply res_mapM_all. intros tx Hin. rewrite Forall_forall in Ht. by apply tx_messages_readable, Ht.
Qed.

Lemma bind_read txs : ((λ tx, mkBlockInfo (u64 (rt_Height tx)) (read tx)) <$> txs) ≫= bi_Messages = txs ≫= read.
Proof. induction txs as [|tx l IH]; cbn; [done|]. by rewrite IH. Qed.

Lemma range_sent h matched :
  finds h matched → Forall readable (found matched) →
  query_range node cfg eventList h = Ok (Some (mkBlockInfo (hr_End h) (found matched ≫= read))).
Proof. intros Hf Ht. unfold query_range. by rewrite (fetch_found h matched), range_read, bind_read. Qed.

(** C34: the messages that the searches of a range find are handed on all or not
    at all.  A search for one type of event that fails is only logged, and finds
    nothing; one that is answered finds every transaction it matches, unless
    their number is above 25 and a multiple of 25.  When every transaction found
    is readable, one block is sent, with all their messages, in order.  When one
    is not, nothing is sent for the whole range, although the scan goes on past
    it; and when a message has no serial number the process dies, in the log
    line. *)
Theorem range_all_or_nothing h (Hsearch : ∀ event, event ∈ eventList → search_event node h event ≠ Panic) :
  let txs := found (answers h) in
  (Forall readable txs →
     query_range node cfg eventList h = Ok (Some (mkBlockInfo (hr_End h) (txs ≫= read)))) ∧
  (∀ before bad after, txs = before ++ bad :: after → Forall readable before →
     ((∃ e, ParseMessageFromEvents NID (rt_Events bad) = Err e) → query_range node cfg eventList h = Ok None) ∧
     ((∃ msgs m, ParseMessageFromEvents NID (rt_Events bad) = Ok msgs ∧ m ∈ msgs ∧ m_Sn m = None) →
        query_range node cfg eventList h = Panic)) ∧
  (∀ event matched,
     (∀ page, TxSearch node (search_param (hr_Start h) (hr_End h) event page) = paged matched page) →
     answers h event = if (25 <? Z.of_nat (length matched)) && (Z.of_nat (length matched) mod 25 =? 0) then [] else matched).
Proof.
  cbn zeta. unfold query_range. rewrite (fetch_answers h) by done. split_and!.
  - intros Ht. by rewrite range_read, bind_read.
  - intros before bad after -> Hb. split.
    + intros [e He]. assert (tx_messages cfg bad = Err e) as Hbad by (unfold tx_messages; by rewrite He).
      by rewrite (res_mapM_before _ _ _ _ _ (range_read before Hb)), Hbad by (by rewrite Hbad).
    + intros (msgs & m & Hm & Hin & Hsn). assert (tx_messages cfg bad = Panic) as Hbad.
      { unfold tx_messages. rewrite Hm. cbn. rewrite decide_True; [done|]. rewrite Exists_fmap. apply Exists_exists. by exists m. }
      by rewrite (res_mapM_before _ _ _ _ _ (range_read before Hb)), Hbad by (by rewrite Hbad).
  - intros event matched Hm. unfold answers. rewrite (search_event_result _ h event matched) by done. by destruct (_ && _).
Qed.
End Range.

(** * What a scan of a range can find *)

Section Found.
Context (node : WasmNode) (cfg : Config) (eventList : list Event).

(** What holds of all transactions that the searches of a range answer with. *)
Definition answered (h : HeightRange) (P : ResultTx → Prop) : Prop :=
  ∀ param txs total, TxSearch node param = Ok (txs, total) →
    sp_StartHeight param = hr_Start h → sp_EndHeight param = hr_End h → ∀ tx, tx ∈ txs → P tx.

Lemma search_event_answered h P event txs tx :
  answered h P → search_event node h event = Ok txs → tx ∈ txs → P tx.
Proof.
  intros HP ([first total] & Hfirst & Hrest)%res_bind_Ok Htx. cbn in Hrest.
  pose proof (HP _ _ _ Hfirst eq_refl eq_refl) as Hin. destruct (_ <? _); [|injection Hrest as <-; by apply Hin].
  apply res_bind_Ok in Hrest as (more & Hmore & [= <-]). apply elem_of_app in Htx as [Htx|Htx]; [by apply Hin|].
  apply list_elem_of_In, in_concat in Htx as (page & Hpage & Htx%list_elem_of_In).
  apply list_elem_of_In, list_elem_of_fmap in Hpage as ([page' n] & -> & Hpage).
  apply res_mapM_Ok in Hmore. apply list_elem_of_lookup in Hpage as [i Hi].
  destruct (Forall2_lookup_r _ _ _ _ _ Hmore Hi) as (p & _ & Hp). by apply (HP _ _ _ Hp eq_refl eq_refl).
Qed.

Lemma search_events_answered h P events txs tx :
  answered h P → search_events node h events = Ok txs → tx ∈ txs → P tx.
Proof.
  intros HP. revert txs. induction events as [|event events IH]; intros txs; cbn [search_events].
  { intros [= <-] []%elem_of_nil. }
  destruct (search_event node h event) as [found| |] eqn:He; [|by apply IH|done].
  intros (rest & Hrest & [= <-])%res_bind_Ok [Htx|Htx]%elem_of_app; [by eapply search_event_answered|by eapply IH].
Qed.

(** A search answers with transactions of the heights asked for. *)
Definition honest : Prop :=
  ∀ param txs total, TxSearch node param = Ok (txs, total) →
    ∀ tx, tx ∈ txs → sp_StartHeight param ≤ rt_Height tx ≤ sp_EndHeight param.

Lemma honest_answered h : honest → answered h (λ tx, hr_Start h ≤ rt_Height tx ≤ hr_End h).
Proof. intros Hh param txs total Hs Hst Hend tx Htx. pose proof (Hh _ _ _ Hs tx Htx). lia. Qed.

Lemma tx_messages_height tx b m :
  tx_messages cfg tx = Ok b → m ∈ bi_Messages b → m_MessageHeight m = u64 (rt_Height tx).
Proof.
  intros (msgs & _ & Hb)%res_bind_Ok Hm. cbv zeta in Hb. case_decide; [done|]. injection Hb as <-. cbn in Hm.
  by apply list_elem_of_fmap in Hm as (m' & -> & _).
Qed.

(** Every message of a block that a scan sends is of a height of its range. *)
Lemma range_heights h b m :
  honest → 0 ≤ hr_Start h → hr_End h < 2 ^ 64 → query_range node cfg eventList h = Ok (Some b) → m ∈ bi_Messages b →
  hr_Start h ≤ m_MessageHeight m ≤ hr_End h.
Proof.
  intros Hnode H0 Hend Hq Hm. unfold query_range in Hq. destruct (fetchBlockMessages _ _ _ _) as [blocks| |] eqn:Hf; [|done..].
  injection Hq as <-. cbn in Hm. apply res_bind_Ok in Hf as (txs & Htxs & Hblocks).
  apply list_elem_of_bind in Hm as (b & Hm & Hb). apply res_mapM_Ok in Hblocks.
  apply list_elem_of_lookup in Hb as [i Hi]. destruct (Forall2_lookup_r _ _ _ _ _ Hblocks Hi) as (tx & Htx & Hread).
  rewrite (tx_messages_height tx b m Hread Hm). apply list_elem_of_lookup_2 in Htx.
  pose proof (search_events_answered h _ _ txs tx (honest_answered h Hnode) Htxs Htx) as Hin. cbn in Hin. rewrite u64_small; lia.
Qed.

(** ** Height 0 *)

(** The searches answer, or fail, and no transaction is of height 0. *)
Definition above_genesis : Prop :=
  honest ∧ ∀ param, TxSearch node param ≠ Panic ∧
    ∀ txs total tx, TxSearch node param = Ok (txs, total) → tx ∈ txs → 0 < rt_Height tx.

Lemma search_event_answers h event : (∀ param, TxSearch node param ≠ Panic) → search_event node h event ≠ Panic.
Proof.
  intros Hp [Hfirst|([first total] & _ & Hrest)]%res_bind_Panic; [by eapply Hp|]. cbn in Hrest.
  destruct (_ <? _); [|done]. apply res_bind_Panic in Hrest as [Hmore|(? & _ & ?)]; [|done].
  revert Hmore. generalize (seqZ 2 (Z.quot total perPage)). intros l. induction l as [|i l IH]; cbn; [done|].
  intros [Hi|(y & _ & [Hl|(? & _ & ?)]%res_bind_Panic)]%res_bind_Panic; [by eapply Hp|by apply IH|done].
Qed.

Lemma genesis_empty : above_genesis → fetchBlockMessages node cfg eventList (mkHeightRange 0 0) = Ok [].
Proof.
  intros [Hhonest Hreal]. set (h := mkHeightRange 0 0).
  assert (∀ event txs, search_event node h event = Ok txs → txs = []) as Hnone.
  { intros event [|tx txs] He; [done|]. assert (answered h (λ tx, 0 < rt_Height tx)) as Hpos
      by (intros param l total Hs _ _ tx' Htx'; by apply (proj2 (Hreal param) l total)).
    pose proof (search_event_answered h _ event _ tx Hpos He ltac:(by left)) as H1.
    pose proof (search_event_answered h _ event _ tx (honest_answered h Hhonest) He ltac:(by left)) as H2. cbn in H1, H2. lia. }
  unfold fetchBlockMessages. assert (search_events node h eventList = Ok []) as ->; [|done].
  induction eventList as [|event events IH]; cbn [search_events]; [done|].
  pose proof (search_event_answers h event (λ param, proj1 (Hreal param))).
  destruct (search_event node h event) as [txs| |] eqn:He; [|done..]. by rewrite (Hnone _ _ He), IH.
Qed.
End Found.

(** * The listener beside the relayer *)

Section Pipeline.
Context {St : Type} `{StoreSpec St} `{CodecSpec Z}.
Context `{CodecSpec (RouteMessageOf Z)} `{CodecSpec (TransactionObjectOf Z)}.
Context {Builder Key Any : Type}.
Implicit Types (s : Relayer St) (w : WasmListener.WListening).
Context (nid : string) (cfg : Config) (contracts : list Contract) (eventList : list Event).
Abbreviation wrun := (WasmListener.wrun (Builder := Builder) (Key := Key) (Any := Any) cfg contracts eventList).

Lemma wrun_out e w w' :
  wrun e w = Some w' → ∃ new, WasmListener.wl_out w' = WasmListener.wl_out w ++ new.
Proof.
  intros Hrun. destruct e; cbn [WasmListener.wrun] in Hrun;
    unfold WasmListener.on_subscribe, WasmListener.on_range, WasmListener.on_scanned, WasmListener.on_poll,
      WasmListener.on_cancelled, WasmListener.on_answer, WasmListener.on_event, WasmListener.on_idle,
      WasmListener.on_sub_cancelled, WasmListener.on_stopped in Hrun;
    repeat case_match; simplify_eq; cbn; first [by exists []; rewrite app_nil_r|by eexists].
Qed.

(** The listener starts from the height that the relayer holds, and polls it. *)
Definition wasm_begin s w : Prop :=
  ∃ x node, WasmListener.Listener_begin cfg x node (last_saved nid s) = Ok w.
Definition wasm_step s w w' : Prop :=
  ∃ e, match e with WasmListener.WPoll _ saved => saved = last_saved nid s | _ => True end ∧ wrun e w = Some w'.

Lemma wasm_begin_empty s w : wasm_begin s w → WasmListener.wl_out w = [].
Proof. by intros (x & node & (h & _ & [= <-])%res_bind_Ok). Qed.

Lemma wasm_step_grows s w w' : wasm_step s w w' → ∃ new, WasmListener.wl_out w' = WasmListener.wl_out w ++ new.
Proof. intros (e & _ & Hrun). by eapply wrun_out. Qed.

Definition wasm_feeder : Feeder (St := St) WasmListener.WListening :=
  mkFeeder WasmListener.WListening WasmListener.wl_out wasm_begin wasm_step wasm_begin_empty wasm_step_grows.

(** The listener came to [w] after its loop had scanned the range [h] with
    [node]. *)
Definition range_scanned (node : WasmNode) (h : HeightRange) w : Prop :=
  ∃ w0 w1 todo to, WasmListener.wl_phase w0 = WasmListener.WScanning (h :: todo) to ∧
    wrun (WasmListener.WRange node) w0 = Some w1 ∧ rtc (λ w w', ∃ e, wrun e w = Some w') w1 w.

Lemma range_scanned_out node h b w :
  range_scanned node h w → query_range node cfg eventList h = Ok (Some b) → b ∈ WasmListener.wl_out w.
Proof.
  intros (w0 & w1 & todo & to & Hp & Hrun & Hrtc) Hb. destruct w0 as [hs phase subs x out]. cbn in Hp, Hrun. subst.
  rewrite Hb in Hrun. injection Hrun as <-.
  assert (∀ w1 w, rtc (λ w w', ∃ e, wrun e w = Some w') w1 w → b ∈ WasmListener.wl_out w1 → b ∈ WasmListener.wl_out w) as Hmono.
  { induction 1 as [|w2 w3 w4 [e He] _ IH]; [done|]. intros Hin. apply IH.
    destruct (wrun_out e w2 w3 He) as [new ->]. set_solver. }
  eapply Hmono; [exact Hrtc|]. cbn. set_solver.
Qed.

(** C28: what a scan finds on a CosmWasm chain is not lost.  Run the listener and the
    relayer, in any interleaving: when a range has been scanned with a node that
    answers its searches, none of which matches a number of transactions above
    25 that is a multiple of 25 ([full_pages_lost] in WasmCorrect.v), all the
    transactions found are readable, and the queue is empty, every message of
    every transaction of the range is in the message store, unless an action of
    the relayer released it. *)
Theorem scan_kept w s hist c node h matched
  (Hrun : fed nid wasm_feeder w s hist) (Hscan : range_scanned node h w)
  (Hfinds : finds node eventList h matched) (Hread : Forall (readable cfg) (found eventList matched))
  (Hc : rl_chains s !! nid = Some c) (Hempty : listenerChan c = []) :
  ∀ event tx m, event ∈ eventList → tx ∈ matched event → m ∈ read cfg tx →
    is_Some (contents (rl_db s) !! wire_row m) ∨ ∃ a s0, (a, s0) ∈ hist ∧ releases a s0 (wire_row m).
Proof.
  intros event tx m He Htx Hm.
  apply (fed_secured nid wasm_feeder w s hist c (mkBlockInfo (hr_End h) (found eventList matched ≫= read cfg))); [done..| |].
  - eapply range_scanned_out; [done|]. by apply range_sent.
  - cbn. apply list_elem_of_bind. exists tx. split; [done|]. apply list_elem_of_bind. by exists event.
Qed.
End Pipeline.

(** * What was emitted *)

(** The value that the attribute [key] of an event has: its last one. *)
Definition attribute (key : string) (attrs : list (string * string)) : option string :=
  last (omap (M := list) (λ a, if decide (a.1 = key) then Some a.2 else None) attrs).

Lemma attribute_snoc key attrs k v :
  attribute key (attrs ++ [(k, v)]) = if decide (k = key) then Some v else attribute key attrs.
Proof. unfold attribute. rewrite omap_app. cbn. case_decide; [apply last_snoc|by rewrite app_nil_r]. Qed.

(** The event [ev] of a chain [nid] stands for the message [m]: what the
    contracts of the protocol mean by the types and attributes of their events.
    Which contract it is of does not count. *)
Definition announces (nid : string) (ev : Event) (m : MessageOf Z) : Prop :=
  let value key := attribute key (ev_Attributes ev) in
  let number key := value key ≫= SetString10 in
  (ev_Type ev = "wasm-Message" ∧ m_EventType m = EmitMessage ∧
     m_Dst m = default "" (value "targetNetwork") ∧ m_Src m = default nid (value "from") ∧
     m_Sn m = number "connSn" ∧ m_ReqID m = None ∧
     match value "msg" with
     | Some hex => HexStr.ToByte (HexStr.NewFromString hex) = Ok (m_Data m)
     | None => m_Data m = ""
     end) ∨
  (ev_Type ev = "wasm-CallMessage" ∧ m_EventType m = CallMessage ∧
     m_Dst m = nid ∧ m_Src m = default "" (value "from") ∧
     m_Sn m = number "sn" ∧ m_ReqID m = number "reqId" ∧ m_Data m = default "" (value "data")) ∨
  (ev_Type ev = "wasm-RollbackMessage" ∧ m_EventType m = RollbackMessage ∧
     m_Dst m = nid ∧ m_Src m = nid ∧ m_Sn m = number "sn" ∧ m_ReqID m = None ∧ m_Data m = "").

Lemma fold_attrs_snoc f (m m' : MessageOf Z) attrs a :
  fold_attrs f m (attrs ++ [a]) = Ok m' → ∃ m1, fold_attrs f m attrs = Ok m1 ∧ f m1 a = Ok m'.
Proof.
  revert m. induction attrs as [|b attrs IH]; intros m; cbn [app fold_attrs].
  - intros (m1 & Hm1 & [= <-])%res_bind_Ok. by exists m.
  - intros (m1 & -> & Hrest)%res_bind_Ok. apply IH in Hrest as (m2 & ? & ?). by exists m2.
Qed.

(** A property of the attributes read so far and the message made of them. *)
Lemma fold_attrs_ind (P : list (string * string) → MessageOf Z → Prop) f m0 attrs m :
  P [] m0 → (∀ before m a m', P before m → f m a = Ok m' → P (before ++ [a]) m') →
  fold_attrs f m0 attrs = Ok m → P attrs m.
Proof.
  intros H0 Hstep. revert m. induction attrs as [|a attrs IH] using rev_ind; intros m; [by intros [= <-]|].
  intros (m1 & Hm1 & Ha)%fold_attrs_snoc. eapply Hstep; [by apply IH|done].
Qed.

Lemma parse_number_Ok v f (m : MessageOf Z) : parse_number v f = Ok m → ∃ n, SetString10 v = Some n ∧ m = f n.
Proof. unfold parse_number. destruct (SetString10 v) as [n|]; [|done]. intros [= <-]. by exists n. Qed.

(** What the attributes mean to the parser of each type of event. *)
Definition emit_fields nid attrs (m : MessageOf Z) : Prop :=
  m_EventType m = EmitMessage ∧ m_Dst m = default "" (attribute EventAttrKeyTargetNetwork attrs) ∧
  m_Src m = default nid (attribute EventAttrKeyFrom attrs) ∧
  m_Sn m = attribute EventAttrKeyConnSn attrs ≫= SetString10 ∧ m_ReqID m = None ∧
  match attribute EventAttrKeyMsg attrs with
  | Some hex => HexStr.ToByte (HexStr.NewFromString hex) = Ok (m_Data m)
  | None => m_Data m = ""
  end.
Definition call_fields nid attrs (m : MessageOf Z) : Prop :=
  m_EventType m = CallMessage ∧ m_Dst m = nid ∧ m_Src m = default "" (attribute EventAttrKeyFrom attrs) ∧
  m_Sn m = attribute EventAttrKeySn attrs ≫= SetString10 ∧ m_ReqID m = attribute EventAttrKeyReqID attrs ≫= SetString10 ∧
  m_Data m = default "" (attribute EventAttrKeyData attrs).
Definition rollback_fields nid attrs (m : MessageOf Z) : Prop :=
  m_EventType m = RollbackMessage ∧ m_Dst m = nid ∧ m_Src m = nid ∧
  m_Sn m = attribute EventAttrKeySn attrs ≫= SetString10 ∧ m_ReqID m = None ∧ m_Data m = "".

Ltac read_attribute :=
  rewrite ?attribute_snoc; repeat case_decide; subst; try discriminate; try congruence;
  repeat match goal with
  | Hp : parse_number _ _ = Ok _ |- _ => apply parse_number_Ok in Hp as (? & Hp & ->)
  | Hp : Ok _ = Ok _ |- _ => injection Hp as <-
  end; cbn; auto.

Lemma emit_attr_fields nid attrs m a m' : emit_fields nid attrs m → emit_attr m a = Ok m' → emit_fields nid (attrs ++ [a]) m'.
Proof.
  destruct m as [dst src sn data h et rq], a as [k v]. unfold emit_fields, emit_attr. cbn [m_EventType m_Dst m_Src m_Sn m_ReqID m_Data].
  intros (-> & -> & -> & -> & -> & Hd). repeat case_decide; subst; intros Hm.
  1: { apply res_bind_Ok in Hm as (data' & Hdata & [= <-]). cbn. unfold wrapErr in Hdata. destruct (HexStr.ToByte _) as [d| |] eqn:E; [|done..]. injection Hdata as <-. read_attribute; split_and!; read_attribute. }
  all: read_attribute; split_and!; read_attribute.
Qed.
Lemma call_attr_fields nid attrs m a m' : call_fields nid attrs m → call_attr m a = Ok m' → call_fields nid (attrs ++ [a]) m'.
Proof.
  destruct m as [dst src sn data h et rq], a as [k v]. unfold call_fields, call_attr. cbn [m_EventType m_Dst m_Src m_Sn m_ReqID m_Data].
  intros (-> & -> & -> & -> & -> & ->). repeat case_decide; subst; intros Hm; read_attribute; split_and!; read_attribute.
Qed.
Lemma rollback_attr_fields nid attrs m a m' : rollback_fields nid attrs m → rollback_attr m a = Ok m' → rollback_fields nid (attrs ++ [a]) m'.
Proof.
  destruct m as [dst src sn data h et rq], a as [k v]. unfold rollback_fields, rollback_attr. cbn [m_EventType m_Dst m_Src m_Sn m_ReqID m_Data].
  intros (-> & -> & -> & -> & -> & ->). repeat case_decide; subst; intros Hm; read_attribute; split_and!; read_attribute.
Qed.

(** Every message that the parser makes of an event is the one it stands for. *)
Lemma parse_event_announces nid ev m : parse_event nid ev = Ok (Some m) → announces nid ev m.
Proof.
  unfold parse_event, announces. cbv zeta.
  repeat case_decide; [..|done]; intros Hf%res_fmap_Some; [left|right; left|right; right]; (split; [done|]).
  - revert Hf. by apply (fold_attrs_ind (emit_fields nid)); [|intros ????; apply emit_attr_fields].
  - revert Hf. by apply (fold_attrs_ind (call_fields nid)); [|intros ????; apply call_attr_fields].
  - revert Hf. by apply (fold_attrs_ind (rollback_fields nid)); [|intros ????; apply rollback_attr_fields].
Qed.
Lemma parsed_announces nid evs msgs m :
  ParseMessageFromEvents nid evs = Ok msgs → m ∈ msgs → ∃ ev, ev ∈ evs ∧ announces nid ev m.
Proof.
  intros (found & Hfound & [= <-])%res_bind_Ok Hm. apply res_mapM_Ok in Hfound.
  apply list_elem_of_omap in Hm as (o & Ho & Hid). cbn in Hid. subst o.
  apply list_elem_of_lookup in Ho as [i Hi]. destruct (Forall2_lookup_r _ _ _ _ _ Hfound Hi) as (ev & Hev & Hp).
  exists ev. split; [by eapply list_elem_of_lookup_2|by apply parse_event_announces].
Qed.

Lemma fold_attrs_height f m attrs m' :
  (∀ m a m', f m a = Ok m' → m_MessageHeight m' = m_MessageHeight m) →
  Wasm.fold_attrs f m attrs = Ok m' → m_MessageHeight m' = m_MessageHeight m.
Proof.
  intros Hf. revert m. induction attrs as [|a attrs IH]; intros m; cbn [Wasm.fold_attrs]; [by intros [= ->]|].
  intros (m1 & Hm1 & Hrest)%res_bind_Ok. rewrite (IH m1 Hrest). by eapply Hf.
Qed.

Lemma parse_number_height v f (m m' : MessageOf Z) :
  (∀ n, m_MessageHeight (f n) = m_MessageHeight m) → Wasm.parse_number v f = Ok m' → m_MessageHeight m' = m_MessageHeight m.
Proof. intros Hf. unfold Wasm.parse_number. destruct (SetString10 v); [|done]. by intros [= <-]. Qed.

(** The events of a contract do not tell their height. *)
Lemma parse_height NID evs msgs m :
  Wasm.ParseMessageFromEvents NID evs = Ok msgs → m ∈ msgs → m_MessageHeight m = 0.
Proof.
  intros (found & Hfound & [= <-])%res_bind_Ok Hm. apply res_mapM_Ok in Hfound.
  apply list_elem_of_omap in Hm as (o & Ho & Hid). cbn in Hid. subst o.
  apply list_elem_of_lookup in Ho as [i Hi]. destruct (Forall2_lookup_r _ _ _ _ _ Hfound Hi) as (ev & _ & Hev).
  unfold Wasm.parse_event in Hev. repeat case_decide; [..|done];
    apply res_fmap_Some in Hev; eapply fold_attrs_height in Hev; try (exact Hev);
    intros m1 [key value] m2; unfold Wasm.emit_attr, Wasm.call_attr, Wasm.rollback_attr; repeat case_decide;
    try (by intros [= <-]); try (by apply parse_number_height).
  by intros (data & _ & [= <-])%res_bind_Ok.
Qed.

(** The listener beside its chain: the transactions that the chain has so far. *)
Record WasmWorld := mkWasmWorld { ww_txs : list ResultTx; ww_l : WasmListener.WListening }.

Section Chain.
Context {St : Type} `{StoreSpec St} `{CodecSpec Z}.
Context `{CodecSpec (RouteMessageOf Z)} `{CodecSpec (TransactionObjectOf Z)}.
Context {Builder Key Any : Type}.
Context (nid : string) (cfg : Config) (contracts : list Contract) (eventList : list Event).
Abbreviation NID := (cc_NID (c_Common cfg)).
Implicit Types (s : Relayer St) (w : WasmWorld).
Abbreviation wevent := (WasmListener.wevent (Builder := Builder) (Key := Key) (Any := Any)).
Abbreviation wrun := (WasmListener.wrun (Builder := Builder) (Key := Key) (Any := Any) cfg contracts eventList).

(** An honest node: its searches find, and its subscriptions bring, transactions
    of the chain; it may leave out any of them, and fail. *)
Definition true_answers (e : wevent) w : Prop :=
  match e with
  | WasmListener.WRange node => ∀ param txs total, TxSearch node param = Ok (txs, total) → txs ⊆ ww_txs w
  | WasmListener.WEvent _ (inl r) => ∃ tx, tx ∈ ww_txs w ∧ tr_Events r = rt_Events tx ∧ tr_Height r = rt_Height tx
  | _ => True
  end.

(** The chain has more transactions, or the listener does a step. *)
Inductive wasm_watch_step s w : WasmWorld → Prop :=
| watch_commit txs : wasm_watch_step s w (mkWasmWorld (ww_txs w ++ txs) (ww_l w))
| watch_run e l :
    true_answers e w →
    match e with WasmListener.WPoll _ saved => saved = last_saved nid s | _ => True end →
    wrun e (ww_l w) = Some l → wasm_watch_step s w (mkWasmWorld (ww_txs w) l).

Definition wasm_watch_begin s w : Prop := wasm_begin nid cfg s (ww_l w).

Lemma wasm_watch_empty s w : wasm_watch_begin s w → WasmListener.wl_out (ww_l w) = [].
Proof. apply wasm_begin_empty. Qed.

Lemma wasm_watch_grows s w w' :
  wasm_watch_step s w w' → ∃ new, WasmListener.wl_out (ww_l w') = WasmListener.wl_out (ww_l w) ++ new.
Proof. intros [txs|e l _ _ Hrun]; [exists []; by rewrite app_nil_r|by eapply wrun_out]. Qed.

Definition wasm_watcher : Feeder (St := St) WasmWorld :=
  mkFeeder WasmWorld (λ w, WasmListener.wl_out (ww_l w)) wasm_watch_begin wasm_watch_step wasm_watch_empty wasm_watch_grows.

(** A transaction of the chain has an event that stands for the message; a
    message that a subscription brought has height 0. *)
Definition wasm_emitted w (m : MessageOf Z) : Prop :=
  ∃ tx ev, tx ∈ ww_txs w ∧ ev ∈ rt_Events tx ∧ announces NID ev m ∧
    (m_MessageHeight m = u64 (rt_Height tx) ∨ m_MessageHeight m = 0).

Lemma announces_height ev (m : MessageOf Z) h : announces NID ev m → announces NID ev (set_Height h m).
Proof. done. Qed.

Lemma range_emitted node h b (m : MessageOf Z) w :
  (∀ param txs total, TxSearch node param = Ok (txs, total) → txs ⊆ ww_txs w) →
  query_range node cfg eventList h = Ok (Some b) → m ∈ bi_Messages b → wasm_emitted w m.
Proof.
  intros Hnode Hq Hm. unfold query_range in Hq. destruct (fetchBlockMessages _ _ _ _) as [blocks| |] eqn:Hf; [|done..].
  injection Hq as <-. cbn in Hm. apply res_bind_Ok in Hf as (txs & Htxs & Hblocks).
  apply list_elem_of_bind in Hm as (b & Hm & Hb). apply res_mapM_Ok in Hblocks.
  apply list_elem_of_lookup in Hb as [i Hi]. destruct (Forall2_lookup_r _ _ _ _ _ Hblocks Hi) as (tx & Htx & Hread).
  apply list_elem_of_lookup_2 in Htx. apply res_bind_Ok in Hread as (msgs & Hmsgs & Hread). cbv zeta in Hread.
  case_decide; [done|]. injection Hread as <-. cbn in Hm. apply list_elem_of_fmap in Hm as (m0 & -> & Hm0).
  destruct (parsed_announces _ _ _ _ Hmsgs Hm0) as (ev & Hev & Ha). exists tx, ev. split_and!; [|done| |by left].
  - apply (search_events_answered node h (λ tx, tx ∈ ww_txs w) eventList txs tx); [|done..].
    intros param l total Hl _ _ tx' Htx'. by apply (Hnode param l total Hl).
  - by apply announces_height.
Qed.

Lemma event_emitted i r opts opts' blk panics (m : MessageOf Z) w :
  true_answers (WasmListener.WEvent i (inl r)) w →
  SubscribeMessageEvents_event cfg opts (inl r) = (opts', Some blk, panics) → m ∈ bi_Messages blk → wasm_emitted w m.
Proof.
  intros (tx & Htx & Hev & _) Hs Hm. unfold SubscribeMessageEvents_event in Hs.
  destruct (ParseMessageFromEvents _ _) as [msgs| |] eqn:Hp; [|done..]. injection Hs as <- <- <-. cbn in Hm.
  pose proof (parse_height _ _ _ _ Hp Hm) as Hheight. rewrite Hev in Hp.
  destruct (parsed_announces _ _ _ _ Hp Hm) as (ev & ? & ?). exists tx, ev. split_and!; auto.
Qed.

Lemma wasm_run_emitted e w l :
  true_answers e w → wrun e (ww_l w) = Some l →
  ∀ b m, b ∈ WasmListener.wl_out l → m ∈ bi_Messages b →
    b ∈ WasmListener.wl_out (ww_l w) ∨ wasm_emitted w m.
Proof.
  intros He Hrun b m Hb Hm. destruct e; cbn [WasmListener.wrun] in Hrun;
    try (left; unfold WasmListener.on_subscribe, WasmListener.on_scanned, WasmListener.on_poll,
      WasmListener.on_cancelled, WasmListener.on_answer, WasmListener.on_idle,
      WasmListener.on_sub_cancelled, WasmListener.on_stopped in Hrun;
      repeat case_match; simplify_eq; exact Hb).
  - unfold WasmListener.on_range in Hrun. destruct (ww_l w) as [hs [|[|h todo] to|] subs x out]; [done|done| |done].
    destruct (query_range _ _ _ _) as [[b'|]| |] eqn:Hq; [..|done|done]; injection Hrun as <-; cbn in Hb |- *.
    + apply elem_of_app in Hb as [?| ->%list_elem_of_singleton]; [by left|right]. by eapply range_emitted.
    + left. by rewrite app_nil_r in Hb.
  - unfold WasmListener.on_event in Hrun. destruct (WasmListener.wl_subs (ww_l w) !! i) as [[|opts]|]; [done| |done].
    destruct e as [r|]; [|injection Hrun as <-; left; cbn in Hb; by rewrite app_nil_r in Hb].
    destruct (SubscribeMessageEvents_event _ _ _) as [[opts' [blk|]] []] eqn:Hs; [done| |done|];
      injection Hrun as <-; cbn in Hb; [|left; by rewrite app_nil_r in Hb].
    apply elem_of_app in Hb as [?| ->%list_elem_of_singleton]; [by left|right]. by eapply event_emitted.
Qed.

Lemma wasm_emitted_more w txs l m : wasm_emitted w m → wasm_emitted (mkWasmWorld (ww_txs w ++ txs) l) m.
Proof. intros (tx & ev & ? & ?). exists tx, ev. cbn. set_solver. Qed.

(** What the listener sends was emitted. *)
Lemma wasm_sent_emitted w s hist b m :
  fed nid wasm_watcher w s hist → b ∈ WasmListener.wl_out (ww_l w) → m ∈ bi_Messages b → wasm_emitted w m.
Proof.
  intros Hf. revert b m. induction Hf as [w s Hb|w s hist w' s' _ IH [txs|e l He _ Hrun] _|]; [| | |done]; intros b m Hin Hm.
  - rewrite (wasm_watch_empty s w Hb) in Hin. by apply elem_of_nil in Hin.
  - apply wasm_emitted_more. by eapply IH.
  - destruct (wasm_run_emitted e w l He Hrun b m Hin Hm) as [?|(tx & ev & ?)]; [by eapply (IH b)|by exists tx, ev].
Qed.
End Chain.
