(* ===== verification/WasmPolling.v ===== *)
(** What a CosmWasm listener that only polls passes over
    (relayer/chains/wasm/provider.go: [Listener]; relayer/relay.go:
    [SaveChainsBlockHeight]).

    The listener resumes from the height that the relayer saved, and the relayer
    saves the height of the chain, not the one that was scanned. *)
From stdpp Require Import gmap strings list.
From Stdlib Require Import ZArith Lia.
From S2P Require Import Prelude GoStd Types Store Provider Relay RelaySystem RelayCorrect RelayFrame Custody Feed.
From S2P Require Import WasmTypes Wasm WasmCorrect WasmClient WasmListener WasmScan.
Import BlockStore MessageStore FinalityStore WasmTypes Wasm.
Open Scope Z_scope.

(** * The heights that a listener will look at *)

Section Polling.
Context {Builder Key Any : Type}.
Context (cfg : Config) (contracts : list Contract) (eventList : list Event).
Abbreviation wevent := (WasmListener.wevent (Builder := Builder) (Key := Key) (Any := Any)).
Abbreviation wrun := (WasmListener.wrun (Builder := Builder) (Key := Key) (Any := Any) cfg contracts eventList).
Abbreviation batch := (c_BlockBatchSize cfg).
Implicit Types (w : WasmListener.WListening) (e : wevent).
Context (Hbatch : 0 < batch).

(** What the node answers to the loop: transactions of the heights asked for, and
    a height within bounds. *)
Definition sound e : Prop :=
  match e with
  | WasmListener.WRange node => honest node
  | WasmListener.WPoll node _ => ∀ h, GetLatestBlockHeight node = Ok h → 0 ≤ h ∧ h + batch < 2 ^ 64
  | _ => True
  end.

(** From here on the loop looks at no height below [S], if it resumes from none:
    it has scanned up to the latest height that it knows, or resumes from [S]
    or later. *)
Definition resumes (S : Z) (heights : ListenerState) (start : Z) : Prop := S ≤ start ∨ ls_latest heights ≤ start.
Definition past (S : Z) w : Prop :=
  0 ≤ S ∧ 0 ≤ ls_latest (WasmListener.wl_heights w) ∧ ls_latest (WasmListener.wl_heights w) + batch < 2 ^ 64 ∧
  match WasmListener.wl_phase w with
  | WasmListener.WSelecting => resumes S (WasmListener.wl_heights w) (ls_start (WasmListener.wl_heights w))
  | WasmListener.WScanning todo to =>
      ls_latest (WasmListener.wl_heights w) = to ∧ Forall (λ h, S ≤ hr_Start h ∧ hr_End h < 2 ^ 64) todo
  | WasmListener.WReturned _ => True
  end.

(** The ranges of a scan begin where it begins or later, without wrapping. *)
Lemma stream_from fuel from to :
  0 ≤ from → to + batch < 2 ^ 64 →
  Forall (λ h, from ≤ hr_Start h ∧ hr_End h < 2 ^ 64) (getHeightStream cfg fuel from to).
Proof.
  revert from. induction fuel as [|fuel IH]; intros from H0 Hto; cbn [getHeightStream]; [constructor|].
  destruct (Z.leb_spec from to); [|constructor]. rewrite !u64_small by lia. constructor; [cbn; lia|].
  eapply Forall_impl; [apply IH; lia|]. cbn. lia.
Qed.

(** A block from a scan at or past [S]. *)
Definition scanned_past (S : Z) (b : BlockInfoOf Z) : Prop :=
  ∃ node h, query_range node cfg eventList h = Ok (Some b) ∧ S ≤ hr_Start h ∧
    ∀ m, m ∈ bi_Messages b → S ≤ m_MessageHeight m.

(** Goroutines that ask in vain leave the loop's heights alone. *)
Lemma deaf_sub_step e w w' :
  match e with
  | WasmListener.WAnswer _ _ | WasmListener.WEvent _ _ | WasmListener.WIdle _ _
  | WasmListener.WSubCancelled _ | WasmListener.WStopped => True
  | _ => False
  end → WasmListener.deaf w → wrun e w = Some w' →
  WasmListener.wl_phase w' = WasmListener.wl_phase w ∧ WasmListener.wl_out w' = WasmListener.wl_out w ∧
  ls_start (WasmListener.wl_heights w') = ls_start (WasmListener.wl_heights w) ∧
  ls_latest (WasmListener.wl_heights w') = ls_latest (WasmListener.wl_heights w).
Proof.
  intros He [_ Hsubs] Hrun. rewrite Forall_lookup in Hsubs.
  destruct e; try done; cbn [WasmListener.wrun] in Hrun;
    unfold WasmListener.on_answer, WasmListener.on_event, WasmListener.on_idle,
      WasmListener.on_sub_cancelled, WasmListener.on_stopped in Hrun;
    repeat match type of Hrun with context [WasmListener.wl_subs w !! ?j] =>
      let E := fresh in destruct (WasmListener.wl_subs w !! j) as [[]|] eqn:E; try done;
      try (by specialize (Hsubs _ _ E)) end;
    repeat case_match; simplify_eq; done.
Qed.

Lemma past_step S e w w' :
  sound e → match e with WasmListener.WPoll _ saved => S ≤ saved ∧ 0 < saved | _ => True end →
  WasmListener.deaf w → past S w → wrun e w = Some w' →
  past S w' ∧ ∃ new, WasmListener.wl_out w' = WasmListener.wl_out w ++ new ∧ Forall (scanned_past S) new.
Proof.
  intros Hsound Hpoll Hdeaf Hpast Hrun.
  assert (past S w' → WasmListener.wl_out w' = WasmListener.wl_out w →
    past S w' ∧ ∃ new, WasmListener.wl_out w' = WasmListener.wl_out w ++ new ∧ Forall (scanned_past S) new) as Hquiet.
  { intros Hp Ho. split; [done|]. exists []. by rewrite app_nil_r. }
  assert (match e with
    | WasmListener.WAnswer _ _ | WasmListener.WEvent _ _ | WasmListener.WIdle _ _
    | WasmListener.WSubCancelled _ | WasmListener.WStopped => True
    | _ => False end → past S w' ∧ ∃ new, WasmListener.wl_out w' = WasmListener.wl_out w ++ new ∧ Forall (scanned_past S) new) as Hsub.
  { intros He. destruct (deaf_sub_step e w w' He Hdeaf Hrun) as (Hp & Ho & Hst & Hla). apply Hquiet; [|done].
    unfold past, resumes in *. by rewrite Hp, Hst, Hla. }
  destruct w as [[start latest sub poll] phase subs x out]. destruct Hpast as (HS & Hl0 & Hl & Hphase). cbn in Hl0, Hl, Hphase.
  destruct e as [|node| |node saved|err| | | | |]; try (by apply Hsub); clear Hsub; cbn [WasmListener.wrun] in Hrun.
  - destruct sub, phase; try done. injection Hrun as <-. apply Hquiet; [|done]. unfold past. cbn. split_and!; [done..|].
    destruct (Z.ltb_spec start latest) as [Hlt|Hge]; [|exact Hphase]. split; [done|]. destruct Hphase as [Hs|Hs]; cbn in Hs; [|lia].
    eapply Forall_impl; [exact (stream_from (Datatypes.S (Z.to_nat (latest - start))) start latest ltac:(lia) Hl)|]. intros h. cbn. lia.
  - destruct phase as [|[|h todo] to|]; try done. cbn in Hrun. destruct (query_range node cfg eventList h) as [b| |] eqn:Hq; try done.
    injection Hrun as <-. destruct Hphase as [-> [[Hstart Hend] Htodo]%Forall_cons]. split; [by split_and!|].
    eexists. split; [done|]. destruct b as [b|]; cbn; [|constructor]. repeat constructor. exists node, h. split_and!; [done..|].
    intros m Hm. pose proof (range_heights node cfg eventList h b m Hsound ltac:(lia) Hend Hq Hm). lia.
  - destruct phase as [|[|h todo] to|]; try done. injection Hrun as <-. destruct Hphase as [<- _]. apply Hquiet; [|done].
    unfold past, resumes. cbn. rewrite u64_small by lia. split_and!; [done..|]. right. lia.
  - destruct poll, phase; try done. cbn in Hrun. unfold QueryLatestHeight_ in Hrun.
    replace (saved =? 0) with false in Hrun by lia. cbn in Hsound.
    destruct (GetLatestBlockHeight node) as [h| |] eqn:Hh; simplify_eq; apply Hquiet; try done;
      unfold past, resumes; cbn [WasmListener.wl_heights WasmListener.wl_phase ls_start ls_latest]; try specialize (Hsound _ eq_refl); lia.
  - destruct phase; try done. injection Hrun as <-. apply Hquiet; [|done]. by split_and!.
Qed.
End Polling.

(** * Beside the relayer *)

Section Saved.
Context {St : Type} `{StoreSpec St} `{CodecSpec Z}.
Context `{CodecSpec (RouteMessageOf Z)} `{CodecSpec (TransactionObjectOf Z)}.
Implicit Types (s : Relayer St).
Context (nid : string) (S : Z).

(** The saved height of a chain changes only when the timer saves one. *)
Abbreviation saved_up := (λ s, S ≤ last_saved nid s).

Lemma saved_on_chain n f :
  (∀ c, LastSavedHeight (f c) = LastSavedHeight c) → keeps saved_up (on_chain (St := St) n f).
Proof.
  intros Hf. apply keeps_modify. intros s Hs. unfold last_saved in *; cbn.
  destruct (decide (n = nid)) as [->|]; [|by rewrite lookup_alter_ne].
  rewrite lookup_alter_eq. destruct (rl_chains s !! nid); cbn; [by rewrite Hf|done].
Qed.

#[export] Instance saved_frame : Frame saved_up (λ _, True) (λ n h, n = nid → S ≤ h).
Proof.
  split.
  - intros n f _. apply saved_on_chain.
  - intros n h Hh. apply keeps_modify. intros s Hs. unfold last_saved in *; cbn.
    destruct (decide (n = nid)) as [->|]; [|by rewrite lookup_alter_ne].
    rewrite lookup_alter_eq. destruct (rl_chains s !! nid); cbn; [by apply Hh|done].
  - intros s s' _ Hc. unfold last_saved. by rewrite Hc.
  - intros k v s Hs. unfold wpx, with_db. by destruct (SetByKey (rl_db s) k v).
  - intros k _ s Hs. unfold wpx, with_db. by destruct (DeleteByKey (rl_db s) k).
Qed.

Lemma saved_action a :
  (∀ h, saves_height a nid h → S ≤ h) → keeps saved_up (run (St := St) a).
Proof.
  intros Ha.
  assert (match a with Listen _ _ _ | ProcessBlock _ => False | _ => True end → keeps saved_up (run a)) as Hframe.
  { intros Hk. apply (frame_action _ (λ _, True) (λ n h, n = nid → S ≤ h)); [done| |done|].
    - intros s Hs. unfold wpx, PruneDB, with_db. by destruct (ClearStore (rl_db s)).
    - intros n h Hh ->. by apply Ha. }
  destruct a as [n h msgs|n| | | | | | | | | |]; try (by apply Hframe).
  - intros s Hs. cbn [run]. unfold wpx, listen, mbind, proc_bind.
    destruct (new_messages_wire msgs s) as (ms & next & -> & _).
    apply (saved_on_chain n (λ c, cr_with_chan (listenerChan c ++ [mkBlockInfo h ms]) c)); [done|]. exact Hs.
  - apply keeps_bind; [auto with keeps|]. intros c.
    destruct (listenerChan <$> c) as [[|b l]|]; [auto with keeps| |auto with keeps].
    apply keeps_bind; [by apply saved_on_chain|]. intros _.
    apply (frame_processBlockInfo saved_up (λ _, True) (λ n h, n = nid → S ≤ h)).
Qed.

Lemma saved_exec l s s' :
  (∀ a, a ∈ l → ∀ h, saves_height a nid h → S ≤ h) → saved_up s → exec true l s = Some s' → saved_up s'.
Proof.
  revert s. induction l as [|a l IH]; intros s Hl Hs; cbn [exec]; [by intros [= <-]|].
  case_decide; [|done]. destruct (run a s) as [[s1 []]|] eqn:Hrun; [|done]. apply IH; [intros a' Ha'; apply Hl; by right|].
  exact (keeps_run _ _ s s1 tt (saved_action a (Hl a ltac:(by left))) Hs Hrun).
Qed.
End Saved.

Section Pipeline.
Context {St : Type} `{StoreSpec St} `{CodecSpec Z}.
Context `{CodecSpec (RouteMessageOf Z)} `{CodecSpec (TransactionObjectOf Z)}.
Context {Builder Key Any : Type}.
Implicit Types (s : Relayer St) (w : WasmListener.WListening).
Context (nid : string) (cfg : Config) (contracts : list Contract) (eventList : list Event).
Abbreviation wrun := (WasmListener.wrun (Builder := Builder) (Key := Key) (Any := Any) cfg contracts eventList).
Abbreviation feeder := (wasm_feeder (St := St) (Builder := Builder) (Key := Key) (Any := Any) nid cfg contracts eventList).

(** One step of the listener or of the relayer; the chain's height does not go
    back below [S]. *)
Inductive polls (S : Z) : WasmListener.WListening * Relayer St → WasmListener.WListening * Relayer St → Prop :=
| polls_listener w s e w' s' :
    match e with WasmListener.WPoll _ saved => saved = last_saved nid s | _ => True end →
    sound cfg e → wrun e w = Some w' → exec true (sends nid feeder w w') s = Some s' →
    polls S (w, s) (w', s')
| polls_relayer w s a s' :
    is_listener nid a = false → (∀ h, saves_height a nid h → S ≤ h) → exec true [a] s = Some s' →
    polls S (w, s) (w, s').

Lemma polls_past S c c' :
  0 < c_BlockBatchSize cfg → 0 < S → polls S c c' →
  WasmListener.deaf c.1 ∧ past cfg S c.1 ∧ S ≤ last_saved nid c.2 →
  (WasmListener.deaf c'.1 ∧ past cfg S c'.1 ∧ S ≤ last_saved nid c'.2) ∧
  ∃ new, WasmListener.wl_out c'.1 = WasmListener.wl_out c.1 ++ new ∧ Forall (scanned_past cfg eventList S) new.
Proof.
  intros Hb HS Hstep (Hdeaf & Hpast & Hsaved). destruct Hstep as [w s e w' s' Hpoll Hsound Hrun Hex|w s a s' Ha Hsave Hex]; cbn in *.
  - destruct (past_step cfg contracts eventList Hb S e w w' Hsound) as [Hp Hnew]; [|done..|].
    { destruct e; try done. subst. lia. }
    destruct (WasmListener.deaf_step cfg contracts eventList e w w' Hdeaf Hrun) as [Hd _].
    split; [|done]. split_and!; [done..|]. apply (saved_exec nid S _ s s') in Hex; [done| |done].
    intros a (b & -> & _)%list_elem_of_fmap h [].
  - split.
    + split_and!; [done..|]. apply (saved_exec nid S [a] s s'); [|done..]. by intros a' ->%list_elem_of_singleton.
    + exists []. by rewrite app_nil_r.
Qed.

(** C30: a CosmWasm listener that only polls misses what it was too late for.
    The height that it resumes from is the one that the relayer saved, and the
    relayer saves the height of the chain, whatever was scanned of it.  So let
    the listener be deaf, and done with a scan up to the latest height that it
    knows, when the relayer has saved [S]: in every run from there, in which the
    chain does not fall back below [S], every message that is ever sent is of a
    height from [S] on.  What the chain emitted between the two is lost. *)
Theorem polling_skips S w s w' s'
  (Hbatch : 0 < c_BlockBatchSize cfg) (HS : 0 < S)
  (Hdeaf : WasmListener.deaf w) (Hphase : WasmListener.wl_phase w = WasmListener.WSelecting)
  (Hdone : 0 ≤ ls_latest (WasmListener.wl_heights w) ≤ ls_start (WasmListener.wl_heights w))
  (Hheight : ls_latest (WasmListener.wl_heights w) + c_BlockBatchSize cfg < 2 ^ 64)
  (Hsaved : last_saved nid s = S) (Hrun : rtc (polls S) (w, s) (w', s')) :
  ∃ new, WasmListener.wl_out w' = WasmListener.wl_out w ++ new ∧
    ∀ b m, b ∈ new → m ∈ bi_Messages b → S ≤ m_MessageHeight m.
Proof.
  assert (WasmListener.deaf w ∧ past cfg S w ∧ S ≤ last_saved nid s) as Hinv.
  { split_and!; [done| |lia]. unfold past. rewrite Hphase. split_and!; [lia..|]. right. lia. }
  cut (∃ new, WasmListener.wl_out w' = WasmListener.wl_out w ++ new ∧ Forall (scanned_past cfg eventList S) new).
  { intros (new & Hout & Hnew). exists new. split; [done|]. intros b m Hb Hm. rewrite Forall_forall in Hnew.
    destruct (Hnew b Hb) as (_ & _ & _ & _ & Hall). by apply Hall. }
  clear Hdeaf Hphase Hdone Hheight Hsaved. remember (w, s) as c eqn:Hc. remember (w', s') as c' eqn:Hc'.
  revert w s Hc Hinv. induction Hrun as [c|c [w1 s1] c' Hstep _ IH]; intros w s -> Hinv; subst.
  { injection Hc' as -> ->. exists []. split; [by rewrite app_nil_r|done]. }
  destruct (polls_past S (w, s) (w1, s1) Hbatch HS Hstep Hinv) as [Hinv1 (new1 & Ho1 & Hn1)]. cbn in *.
  destruct (IH eq_refl w1 s1 eq_refl Hinv1) as (new & Ho & Hn). exists (new1 ++ new).
  rewrite Ho, Ho1, app_assoc. split; [done|]. by apply Forall_app.
Qed.
End Pipeline.
