(* ===== verification/WasmScanWitness.v ===== *)
(** Concrete scans of the CosmWasm provider, and one beside the relayer. *)
From stdpp Require Import gmap strings list.
From Stdlib Require Import ZArith Lia.
From S2P Require Import Prelude GoStd Types Store LvlDB Concrete Provider Relay RelaySystem RelayCorrect Custody Feed RelayWitness.
From S2P Require Import WasmTypes Wasm WasmCorrect WasmWitness WasmClient WasmListener WasmListenerWitness WasmScan WasmPolling.
Import WasmTypes WasmListener.
Open Scope Z_scope.

(** A node whose searches match [txs]. *)
Definition node_of (txs : list Wasm.ResultTx) : Wasm.WasmNode := {|
  Wasm.GetLatestBlockHeight := Ok 120; Wasm.GetTransactionReceipt _ := Ok (120, 0); Wasm.GetBalance _ d := Ok (d, 5);
  Wasm.GetAccountInfo a := Ok (Wasm.mkAccount a 3 7); Wasm.NewFactoryCLI := Ok 0; Wasm.EstimateGas _ _ _ := Ok 500;
  Wasm.PrepareTx _ _ _ := Ok "tx"; Wasm.BroadcastTx _ _ := Ok (Wasm.mkSdkTxResponse "AB" 0 "");
  Wasm.SubscribeTx _ := Ok None; Wasm.TxSearch p := paged txs (sp_Page p); Wasm.QuerySmartContract _ _ := Ok "false";
  Wasm.Marshal _ := Ok "json"; Wasm.UnmarshalInts _ := Ok [1]; Wasm.UnmarshalBool _ := Ok false;
  Wasm.UnmarshalString s := Ok s; Wasm.ErrWrongSequence := "incorrect account sequence" |}.

Lemma finds_node_of txs h : (length txs ≤ 25)%nat → finds (node_of txs) [filter1] h (λ _, txs).
Proof. intros Hl event _. split; [done|]. lia. Qed.

(** A stranger's event in a transaction of the connection contract: with a
    serial number that is no number, or without one. *)
Definition garbled : Event := mkEvent Wasm.EventTypeWasmMessage [(Wasm.EventAttrKeyConnSn, "x")].
Definition unnumbered : Event := mkEvent Wasm.EventTypeWasmMessage [(Wasm.EventAttrKeyTargetNetwork, "0x2.icon")].
Definition good (sn : Z) : Event := emitted "arch1c" "0x2.icon" "data" sn.
Definition range : HeightRange := mkHeightRange 100 149.

Lemma readable_good h sn : is_ok (Wasm.ParseMessageFromEvents "archway" [good sn]) = true →
  (∀ msgs, Wasm.ParseMessageFromEvents "archway" [good sn] = Ok msgs → Forall (λ m, m_Sn m ≠ None) msgs) →
  readable cfg (Wasm.mkResultTx h [good sn]).
Proof.
  intros Hok Hsn. unfold readable. change (cc_NID _) with "archway". cbn [Wasm.rt_Events].
  destruct (Wasm.ParseMessageFromEvents "archway" [good sn]) as [msgs| |]; [|done..]. exists msgs. auto.
Qed.

Lemma good_readable sn : sn ∈ [5; 6] → readable cfg (Wasm.mkResultTx 120 [good sn]).
Proof.
  intros Hs. apply readable_good; rewrite !elem_of_cons in Hs; destruct Hs as [->|[->|[]%elem_of_nil]];
    try (vm_compute; reflexivity); intros msgs E; vm_compute in E; injection E as <-; by repeat constructor.
Qed.

Lemma range_all_or_nothing_witness :
  Wasm.query_range (node_of [Wasm.mkResultTx 120 [good 5]; Wasm.mkResultTx 120 [good 6]]) cfg [filter1] range =
    Ok (Some (mkBlockInfo 149 [mkMessage "0x2.icon" "archway" (Some 5) "data" 120 EmitMessage None;
                               mkMessage "0x2.icon" "archway" (Some 6) "data" 120 EmitMessage None])) ∧
  Wasm.query_range (node_of [Wasm.mkResultTx 120 [good 5]; Wasm.mkResultTx 121 [good 6; garbled]]) cfg [filter1] range = Ok None ∧
  Wasm.query_range (node_of [Wasm.mkResultTx 120 [good 5]; Wasm.mkResultTx 121 [unnumbered]]) cfg [filter1] range = Panic.
Proof.
  split_and!.
  - destruct (range_all_or_nothing (node_of [Wasm.mkResultTx 120 [good 5]; Wasm.mkResultTx 120 [good 6]]) cfg [filter1] range)
      as [H _]; [by intros e ->%list_elem_of_singleton|].
    refine (eq_trans (H _) _); [|vm_compute; reflexivity].
    rewrite (finds_found _ _ _ (λ _, [Wasm.mkResultTx 120 [good 5]; Wasm.mkResultTx 120 [good 6]])) by (apply finds_node_of; cbn; lia).
    repeat constructor; apply good_readable; set_solver.
  - destruct (range_all_or_nothing (node_of [Wasm.mkResultTx 120 [good 5]; Wasm.mkResultTx 121 [good 6; garbled]]) cfg [filter1] range)
      as (_ & H & _); [by intros e ->%list_elem_of_singleton|].
    apply (H [Wasm.mkResultTx 120 [good 5]] (Wasm.mkResultTx 121 [good 6; garbled]) []); [vm_compute; reflexivity| |].
    + repeat constructor. apply good_readable. set_solver.
    + eexists. vm_compute. reflexivity.
  - destruct (range_all_or_nothing (node_of [Wasm.mkResultTx 120 [good 5]; Wasm.mkResultTx 121 [unnumbered]]) cfg [filter1] range)
      as (_ & H & _); [by intros e ->%list_elem_of_singleton|].
    apply (H [Wasm.mkResultTx 120 [good 5]] (Wasm.mkResultTx 121 [unnumbered]) []); [vm_compute; reflexivity| |].
    + repeat constructor. apply good_readable. set_solver.
    + eexists _, (mkMessage "0x2.icon" "archway" None "" 0 EmitMessage None). split; [vm_compute; reflexivity|]. split; [by left|done].
Defined.

(** * Beside the relayer *)

(** The chain is saved at height 100 and has reached 120. *)
Definition wrly : Relayer MemDB :=
  mkRelayer ∅ {[ "archway" := mkChainRuntime [] 0 100 ∅; "0x2.icon" := mkChainRuntime [] 0 0 ∅ ]} ∅ 1 [].
Definition wnode : Wasm.WasmNode := node_of [Wasm.mkResultTx 120 [good 5]].
Abbreviation wfeeder := (wasm_feeder (St := MemDB) (Builder := string) (Key := string) (Any := string) "archway" cfg wcontracts [filter1]).

Definition w1 : WListening := default (begun_w context0) (run_w [WTick] (begun_w context0)).
Definition w2 : WListening := default w1 (run_w [WRange wnode] w1).
Definition s2 : Relayer MemDB := default wrly (RelaySystem.exec true (sends "archway" wfeeder w1 w2) wrly).
Definition s3 : Relayer MemDB := default s2 (RelaySystem.exec true [ProcessBlock "archway"] s2).

Lemma default_runs {A} (o : option A) x : is_ok (deref o) = true → o = Some (default x o).
Proof. by destruct o. Qed.

Lemma w1_runs : run_w [WTick] (begun_w context0) = Some w1 ∧ run_w [WRange wnode] w1 = Some w2.
Proof. split; vm_compute; reflexivity. Qed.
Lemma s2_runs : RelaySystem.exec true (sends "archway" wfeeder w1 w2) wrly = Some s2.
Proof. apply default_runs. vm_compute. reflexivity. Qed.
Lemma s3_runs : RelaySystem.exec true [ProcessBlock "archway"] s2 = Some s3.
Proof. apply default_runs. vm_compute. reflexivity. Qed.

Lemma one_step e w w' : run_w [e] w = Some w' → wrun cfg wcontracts [filter1] e w = Some w'.
Proof. cbn [wrun_all]. by destruct (wrun cfg wcontracts [filter1] e w). Qed.

Lemma scan_fed : fed "archway" wfeeder w2 s3 [(ProcessBlock "archway", s2)].
Proof.
  apply (fed_relayer "archway" wfeeder w2 s2 [] (ProcessBlock "archway") s3); [|done|exact s3_runs].
  apply (fed_listener "archway" wfeeder w1 wrly [] w2 s2); [|exists (WRange wnode); split; [done|by apply one_step, w1_runs]|exact s2_runs].
  apply (fed_listener "archway" wfeeder (begun_w context0) wrly [] w1 wrly);
    [|exists WTick; split; [done|by apply one_step, w1_runs]|vm_compute; reflexivity].
  apply fed_begin.
  - exists context0, wnode. vm_compute. reflexivity.
  - split_and!; [done..|]. intros n c. unfold wrly. cbn [rl_chains].
    intros [[_ <-]|[_ [_ <-]%lookup_singleton_Some]]%lookup_insert_Some; done.
  - apply mem_healthy.
Qed.

Definition wchain : ChainRuntime := default (mkChainRuntime [] 0 0 ∅) (rl_chains s3 !! "archway").
Lemma wchain_idle : rl_chains s3 !! "archway" = Some wchain ∧ listenerChan wchain = [].
Proof. split; vm_compute; reflexivity. Qed.

Lemma scan_done : range_scanned (Builder := string) (Key := string) (Any := string) cfg wcontracts [filter1] wnode range w2.
Proof.
  exists w1, w2, [], 120. split; [vm_compute; reflexivity|]. split; [by apply one_step, w1_runs|]. by apply rtc_refl.
Qed.

Definition wsent : MessageOf Z := mkMessage "0x2.icon" "archway" (Some 5) "data" 120 EmitMessage None.

Lemma scan_kept_witness :
  is_ok (deref (contents (rl_db s3) !! wire_row wsent)) = true ∧
  (is_Some (contents (rl_db s3) !! wire_row wsent) ∨
   ∃ a s0, (a, s0) ∈ [(ProcessBlock "archway", s2)] ∧ releases a s0 (wire_row wsent)).
Proof.
  split; [vm_compute; reflexivity|].
  exact (scan_kept "archway" cfg wcontracts [filter1] w2 s3 [(ProcessBlock "archway", s2)] wchain wnode range
    (λ _, [Wasm.mkResultTx 120 [good 5]]) scan_fed scan_done (finds_node_of [Wasm.mkResultTx 120 [good 5]] range ltac:(cbn; lia))
    ltac:(repeat constructor; apply good_readable; set_solver) (proj1 wchain_idle) (proj2 wchain_idle)
    filter1 (Wasm.mkResultTx 120 [good 5]) wsent ltac:(by left) ltac:(by left) ltac:(vm_compute; by left)).
Defined.

(** * A listener that only polls *)

(** An honest node: its searches find the transactions of the heights asked
    for. *)
Definition chain_node (latest : Z) (txs : list Wasm.ResultTx) : Wasm.WasmNode := {|
  Wasm.GetLatestBlockHeight := Ok latest; Wasm.GetTransactionReceipt _ := Ok (latest, 0); Wasm.GetBalance _ d := Ok (d, 5);
  Wasm.GetAccountInfo a := Ok (Wasm.mkAccount a 3 7); Wasm.NewFactoryCLI := Ok 0; Wasm.EstimateGas _ _ _ := Ok 500;
  Wasm.PrepareTx _ _ _ := Ok "tx"; Wasm.BroadcastTx _ _ := Ok (Wasm.mkSdkTxResponse "AB" 0 "");
  Wasm.SubscribeTx _ := Ok None;
  Wasm.TxSearch p := paged (filter (λ tx, sp_StartHeight p ≤ Wasm.rt_Height tx ≤ sp_EndHeight p) txs) (sp_Page p);
  Wasm.QuerySmartContract _ _ := Ok "false";
  Wasm.Marshal _ := Ok "json"; Wasm.UnmarshalInts _ := Ok [1]; Wasm.UnmarshalBool _ := Ok false;
  Wasm.UnmarshalString s := Ok s; Wasm.ErrWrongSequence := "incorrect account sequence" |}.

Lemma chain_node_honest latest txs : honest (chain_node latest txs).
Proof.
  intros param found total. cbn. unfold paged. destruct (_ && _); [|done]. intros [= <- _] tx Htx.
  apply elem_of_take in Htx as (i & Hi & _). rewrite lookup_drop in Hi. apply list_elem_of_lookup_2 in Hi.
  by apply list_elem_of_filter in Hi as [? _].
Qed.

(** The chain has emitted messages at 125 and 135.  The listener, deaf, has
    scanned up to 120; then the relayer saves the height 130, and the next scan,
    up to 140, begins there. *)
Definition missed_node : Wasm.WasmNode := chain_node 140 [Wasm.mkResultTx 125 [good 5]; Wasm.mkResultTx 135 [good 6]].
Definition provider_at (h : Z) (nid : string) : ChainProvider := {|
  QueryLatestHeight := Ok h;
  QueryTransactionReceipt _ := Err "no"; Route _ := ([], Ok tt);
  ShouldReceiveMessage _ := Ok true; ShouldSendMessage _ := Ok true; MessageReceived _ := Ok false;
  FinalityBlock := 0; GenerateMessages _ := Err "no"; p_RevertMessage _ := Ok tt; p_GetFee _ _ := Ok 0;
  p_SetFee _ _ _ := Ok tt; p_ClaimFee := Ok tt |}.
Definition saving : action :=
  Router (provider_at 130) 9 ["archway"; "0x2.icon"] [("archway", []); ("0x2.icon", [])] heightTimer.
Definition saved_130 : Relayer MemDB := default wrly (RelaySystem.exec true [saving] wrly).

Definition polling : list (wevent (Builder := string) (Key := string) (Any := string)) :=
  [WPoll missed_node 130; WTick; WRange missed_node].
Definition polled (n : nat) : WListening := default lost_w (run_w (take n polling) lost_w).
Definition sent_after (n : nat) : Relayer MemDB :=
  match n with 3%nat => default saved_130 (RelaySystem.exec true (sends "archway" wfeeder (polled 2) (polled 3)) saved_130)
  | _ => saved_130 end.

Abbreviation wpolls := (polls (Builder := string) (Key := string) (Any := string) "archway" cfg wcontracts [filter1] 130).

Lemma polling_step n e :
  polling !! n = Some e → sound cfg e → last_saved "archway" (sent_after n) = 130 →
  wrun cfg wcontracts [filter1] e (polled n) = Some (polled (S n)) →
  RelaySystem.exec true (sends "archway" wfeeder (polled n) (polled (S n))) (sent_after n) = Some (sent_after (S n)) →
  wpolls (polled n, sent_after n) (polled (S n), sent_after (S n)).
Proof.
  intros He Hs Hsaved Hrun Hex. apply (polls_listener _ _ _ _ _ _ _ e); [|exact Hs|exact Hrun|exact Hex].
  clear Hs Hrun Hex. rewrite Hsaved. destruct n as [|[|[|n]]]; [injection He as <-; exact eq_refl|injection He as <-; exact I..|discriminate He].
Qed.

Lemma saved_at_130 : last_saved "archway" saved_130 = 130.
Proof. vm_compute. reflexivity. Qed.
Lemma polled_quiet n : (n < 2)%nat → sends "archway" wfeeder (polled n) (polled (S n)) = [].
Proof. intros Hn. destruct n as [|[|n]]; [vm_compute; reflexivity..|lia]. Qed.

Lemma polling_runs : rtc wpolls (lost_w, saved_130) (polled 3, sent_after 3).
Proof.
  assert (sound cfg (WPoll (Builder := string) (Key := string) (Any := string) missed_node 130)) as Hpoll
    by (intros h [= <-]; cbn; lia).
  eapply rtc_l; [apply (polling_step 0 (WPoll missed_node 130)); [done|exact Hpoll|exact saved_at_130|vm_compute; reflexivity|]|].
  { by rewrite polled_quiet by lia. }
  eapply rtc_l; [apply (polling_step 1 WTick); [done|exact I|exact saved_at_130|vm_compute; reflexivity|]|].
  { by rewrite polled_quiet by lia. }
  eapply rtc_l; [apply (polling_step 2 (WRange missed_node)); [done|apply chain_node_honest|exact saved_at_130|vm_compute; reflexivity|]|].
  { apply default_runs. vm_compute. reflexivity. }
  apply rtc_refl.
Qed.

(** The message of height 135 is sent, and that of 125 never. *)
Lemma polling_skips_witness :
  RelaySystem.exec true [saving] wrly = Some saved_130 ∧
  (bi_Messages <$> wl_out (polled 3)) = [[mkMessage "0x2.icon" "archway" (Some 6) "data" 135 EmitMessage None]] ∧
  ∃ new, wl_out (polled 3) = wl_out lost_w ++ new ∧ ∀ b m, b ∈ new → m ∈ bi_Messages b → 130 ≤ m_MessageHeight m.
Proof.
  split; [apply default_runs; vm_compute; reflexivity|]. split; [vm_compute; reflexivity|].
  apply (polling_skips (Builder := string) (Key := string) (Any := string) "archway" cfg wcontracts [filter1] 130
    lost_w saved_130 (polled 3) (sent_after 3)).
  - cbn. lia.
  - lia.
  - split; [reflexivity|by repeat constructor].
  - reflexivity.
  - cbn. lia.
  - cbn. lia.
  - vm_compute. reflexivity.
  - exact polling_runs.
Defined.
