(* ===== verification/Delivery.v ===== *)
(** The relayer over the chain providers: each provider as the relayer sees it,
    the laws its [Route] keeps, and what the routing goroutine does with a
    cached message on any provider that keeps them.

    [RouteLaws] (Provider.v) is the interface between the two sides: the
    relayer's theorem is proved from the laws alone, and the providers'
    instances discharge them. *)
From stdpp Require Import gmap strings list.
From Stdlib Require Import ZArith Lia.
From S2P Require Import Prelude GoStd Types Store Provider Relay RelaySystem RelayCorrect.
From S2P Require Import Mock EvmNonce Evm EvmCorrect IconTypes Icon WasmTypes Wasm.
Import BlockStore MessageStore FinalityStore.
Open Scope Z_scope.

(** * Providers as the relayer sees them *)

(** What a call of a provider in state [s] returns. *)
Definition run_route {S} (m : proc S (list CallbackCall * res unit)) (s : S) :
    list CallbackCall * res unit :=
  match m s with Some (_, out) => out | None => ([], Panic) end.
Definition run_call {S A} (m : proc S (A + string)) (s : S) : res A :=
  match m s with Some (_, inl a) => Ok a | Some (_, inr e) => Err e | None => Panic end.

Definition evm_provider cl cfg contracts q (now : Z) (s : Evm.EvmState) : ChainProvider := {|
  QueryLatestHeight := Evm.QueryLatestHeight_ cl;
  QueryTransactionReceipt := Evm.QueryTransactionReceipt_ cl;
  Route m := run_route (Evm.Route cl cfg now m) s;
  ShouldReceiveMessage := Evm.ShouldReceiveMessage_;
  ShouldSendMessage := Evm.ShouldSendMessage_;
  MessageReceived := Evm.MessageReceived_ cl;
  FinalityBlock := cc_FinalityBlock (Evm.c_Common cfg);
  GenerateMessages := Evm.GenerateMessages_ cl cfg contracts q;
  p_RevertMessage sn := run_call (Evm.RevertMessage_ cl cfg now sn) s;
  p_GetFee := Evm.GetFee_ cl;
  p_SetFee nid msg response := run_call (Evm.SetFee_ cl cfg now nid msg response) s;
  p_ClaimFee := run_call (Evm.ClaimFee_ cl cfg now) s |}.

Definition icon_provider node cfg networkID contracts (now : Z) (s : Icon.IconState) : ChainProvider := {|
  QueryLatestHeight := Icon.QueryLatestHeight_ node;
  QueryTransactionReceipt := Icon.QueryTransactionReceipt_ node;
  Route m := run_route (Icon.Route node cfg networkID contracts now m) s;
  ShouldReceiveMessage _ := Ok true;
  ShouldSendMessage _ := Ok true;
  MessageReceived := Icon.MessageReceived_ node cfg;
  FinalityBlock := cc_FinalityBlock (Icon.c_Common cfg);
  GenerateMessages k := Icon.GenerateMessages_ node cfg contracts (Some k);
  p_RevertMessage sn := run_call (Icon.RevertMessage_ node cfg networkID now sn) s;
  p_GetFee := Icon.GetFee_ node cfg;
  p_SetFee nid msg response := run_call (Icon.SetFee_ node cfg networkID now nid msg response) s;
  p_ClaimFee := run_call (Icon.ClaimFee_ node cfg networkID now) s |}.

(** * The laws *)

Lemma wlp_any {S A} (m : proc S A) s : wlp m (λ _ _, True) s.
Proof. unfold wpx. by destruct (m s) as [[]|]. Qed.

Lemma run_route_lawful {S} (m : proc S (list CallbackCall * res unit)) msg s :
  wlp m (λ out _, route_law msg out) s → route_law msg (run_route m s).
Proof. unfold wpx, run_route. destruct (m s) as [[s' out]|]; [done|]. by split; cbn. Qed.

Lemma route_law_error m e : route_law m ([], Err e).
Proof. by split; cbn. Qed.

Lemma route_law_success m c :
  cb_key c = Message_MessageKey m → tr_Code (cb_response c) = Success → route_law m ([c], Ok tt).
Proof. intros Hk Hc. split; cbn; [by repeat constructor|]. exists [], c. by split_and!. Qed.

Lemma route_law_failure m c r :
  cb_key c = Message_MessageKey m → tr_Code (cb_response c) = Failed → r ≠ Ok tt → route_law m ([c], r).
Proof.
  intros Hk Hc Hr. split; cbn; [by repeat constructor|].
  destruct r as [[]|e|]; [done| |done]. repeat constructor. unfold reports. by rewrite Hc.
Qed.

Lemma evm_wait_lawful cl tx m : route_law m (Evm.WaitForTxResult cl tx (Message_MessageKey m) true).
Proof.
  unfold Evm.WaitForTxResult. destruct (Evm.WaitForResults cl (Some tx)) as [rc|e|].
  - destruct (Evm.er_Status rc =? 1); [by apply route_law_success|].
    apply route_law_failure; [done..|by destruct (k_Sn _)].
  - by apply route_law_failure.
  - by split; cbn.
Qed.

Lemma evm_WaitForResults_no_panic cl tx : Evm.WaitForResults cl (Some tx) ≠ Panic.
Proof.
  unfold Evm.WaitForResults. generalize 0 at 1. induction (Evm.polls cl tx) as [|p l IH]; intros c; cbn; [done|].
  destruct p; try done; by case_match.
Qed.

(** The two ends of the wait for a transaction. *)
Lemma evm_wait_cases cl tx key (b : BigInt) : k_Sn key = Some b →
  (∃ rc, (Evm.WaitForResults cl (Some tx) = Ok rc ∧ Evm.er_Status rc = 1) ∧
     Evm.WaitForTxResult cl tx key true =
     ([mkCallbackCall key (mkTxResponse (big_Int64 (Evm.er_BlockNumber rc)) tx "" Success "") None], Ok tt)) ∨
  (∃ c e, (∀ rc, ¬ (Evm.WaitForResults cl (Some tx) = Ok rc ∧ Evm.er_Status rc = 1)) ∧
     Evm.WaitForTxResult cl tx key true = ([c], Err e)).
Proof.
  intros Hk. unfold Evm.WaitForTxResult. rewrite Hk. pose proof (evm_WaitForResults_no_panic cl tx).
  destruct (Evm.WaitForResults cl (Some tx)) as [rc|e|]; [|by right; eexists _, _; split; [intros ? []|]|done].
  destruct (Z.eqb_spec (Evm.er_Status rc) 1); [left; by exists rc|].
  right. eexists _, _. split; [|done]. by intros rc' [[= <-] ?].
Qed.

#[export] Instance evm_route_laws cl cfg contracts q now s :
  RouteLaws (Route (evm_provider cl cfg contracts q now s)).
Proof.
  constructor. intros m. cbn. apply run_route_lawful. eapply wpx_mono; [apply wlp_Route|].
  intros [calls r] s' [(_ & Hc & e & Hr)|(call & z & g & msg & w & tx & _ & _ & _ & _ & _ & _ & ->)];
    [|apply evm_wait_lawful].
  cbn in Hc, Hr. subst. apply route_law_error.
Qed.

(** A height that does not parse makes ICON report a failure before the
    outcome. *)
Lemma icon_wait_lawful node hash m :
  route_law m (Icon.WaitForTxResult node hash (Message_MessageKey m) true).
Proof.
  unfold Icon.WaitForTxResult. destruct (Icon.WaitForResults node _) as [t|e|]; [|by apply route_law_failure|by split; cbn].
  destruct (HexInt_Value _) as [h herr]. destruct (HexInt_Int _) as [st serr].
  set (first := match herr with Some e => _ | None => _ end).
  assert (Forall (λ c, cb_key c = Message_MessageKey m) first ∧ Forall reports_failure first) as [Hk Hf].
  { unfold first. by destruct herr; split; repeat constructor. }
  destruct (negb (st =? 1) || _); split; cbn.
  - apply Forall_app. split; [done|by repeat constructor].
  - apply Forall_app. split; [done|by repeat constructor].
  - apply Forall_app. split; [done|by repeat constructor].
  - by eexists _, _.
Qed.

Lemma wlp_icon_Route_law node cfg networkID contracts now m s :
  wlp (Icon.Route node cfg networkID contracts now m) (λ out _, route_law m out) s.
Proof.
  apply wpx_bind, wlp_liftRes; [|intros e _; apply route_law_error]. intros msg _.
  apply wpx_bind. eapply wpx_mono; [apply wlp_any|]. intros [hash|e] s' _; [|apply route_law_error].
  apply icon_wait_lawful.
Qed.

#[export] Instance icon_route_laws node cfg networkID contracts now s :
  RouteLaws (Route (icon_provider node cfg networkID contracts now s)).
Proof. constructor. intros m. cbn. apply run_route_lawful, wlp_icon_Route_law. Qed.

#[export] Instance mock_route_laws order p : RouteLaws (Route (Mock.mock_provider order p)).
Proof.
  constructor. intros m. cbn. unfold Mock.Route, Mock.DeleteMessage.
  destruct (Mock.DeleteMessage_key _ _); cbn; [|by split; cbn..]. by apply route_law_success.
Qed.

(** A CosmWasm [Route] that returns keeps the laws; one that waits for ever is
    a goroutine that stays in flight. *)
Lemma wasm_route_lawful node env cfg fs m s :
  wlp (Wasm.Route node env cfg fs m) (λ out _, ∀ o, out = Some o → route_law m o) s.
Proof.
  apply wpx_bind. eapply wpx_mono; [apply wlp_any|].
  intros [r|e] s1 _; [|apply wpx_ret; intros o [= <-]; apply route_law_error].
  apply wpx_bind, wpx_gets. destruct (Wasm.w_wallet s1) as [w|]; [|done].
  apply wpx_bind, wpx_modify, wpx_ret. intros o. unfold Wasm.waitForTxResult, Wasm.subscribeTxResult.
  destruct (Wasm.SubscribeTx _ _) as [[[e|[t|e]]|]|e|]; cbn; try (by intros [= <-]; apply route_law_failure);
    [|by intros [= <-]; split; cbn].
  destruct (_ =? _); intros [= <-]; [by apply route_law_success|by apply route_law_failure].
Qed.

(** * Routing on a lawful provider *)

Section Delivery.
Context {St : Type} `{StoreSpec St} `{CodecSpec Z}.
Context `{CodecSpec (RouteMessageOf Z)} `{CodecSpec (TransactionObjectOf Z)}.
Implicit Types (s : Relayer St) (prov : string → ChainProvider).

(** [s'] is [s] without the cached message [r] and its row, with the
    transaction recorded when the destination has a finality period. *)
Definition delivered_outcome prov src dst (r : Types.RouteMessage) (response : TxResponse) s s' : Prop :=
  let key := rm_key r in
  ∃ rows, only_cleared src (delete key (chain_cache s src)) (delete (row_of key) rows) s s' ∧
    (if 0 <? FinalityBlock (prov dst) then ∃ v,
       rows = <[tx_key prefixFinalityStore (k_Dst key) (sn_val (k_Sn key)) := v]> (contents (rl_db s)) ∧
       Unmarshal v = Ok (tx_wire (delivered_tx key r response))
     else rows = contents (rl_db s)).

(** Failures reported about a cached message pass without effect. *)
Lemma callbacks_ignored prov src dst calls key p s :
  Forall reports_failure calls → Forall (λ c, cb_key c = key) calls →
  chain_cache s src !! key = Some p → is_Some (rl_heap s !! p) →
  for_each calls (λ c, callback prov src dst (cb_key c) (cb_response c) (cb_err c)) s = Some (s, tt).
Proof.
  intros Hf Hkeys Hc Hl. induction Hkeys as [|c calls Hk Hkeys IH]; [done|].
  apply Forall_cons in Hf as [Hfc Hf]. cbn. unfold mbind, proc_bind. rewrite callback_ignored; [by apply IH|done|].
  rewrite Hk, Hc. by intros q [= <-].
Qed.

(** What the routing goroutine makes of [out], the outcome of [Route]. *)
Definition routing_outcome prov now p dst src (r : Types.RouteMessage)
    (out : list CallbackCall * res unit) s s' : Prop :=
  let r1 := IncrementRetry now r in
  match out.2 with
  | Ok _ => ∃ c, last out.1 = Some c ∧ tr_Code (cb_response c) = Success ∧
      delivered_outcome prov src dst r1 (cb_response c) (with_route p r1 s) s'
  | Err _ => failed_outcome p src r1 (with_route p r1 s) s'
  | Panic => False
  end.

Lemma wp_RouteMessage prov now p dst src (b : BigInt) r s
  (Hlaws : RouteLaws (Route (prov dst))) (Hdb : healthy (rl_db s))
  (Hr : rl_heap s !! p = Some r) (Hc : chain_cache s src !! rm_key r = Some p)
  (Hsn : m_Sn (rm_Message r) = Some b) (Hrun : (Route (prov dst) (rm_Message r)).2 ≠ Panic) :
  wp (RouteMessage prov now p dst src) (λ _ s',
    routing_outcome prov now p dst src r (Route (prov dst) (rm_Message r)) s s') s.
Proof.
  unfold routing_outcome. set (r1 := IncrementRetry now r). set (s1 := with_route p r1 s).
  assert (rl_heap s1 !! p = Some r1) as Hr1 by apply lookup_insert_eq.
  apply wpx_bind. eapply wpx_on_route; [done|]. fold r1 s1.
  apply wpx_bind, (wpx_load _ _ r1); [done|]. change (rm_Message r1) with (rm_Message r).
  pose proof (route_lawful (rm_Message r)) as [Hkeys Hlaw].
  destruct (Route (prov dst) (rm_Message r)) as [calls [[]|e|]]; cbn [fst snd] in *; [| |done].
  - destruct Hlaw as (failures & c & -> & Hf & Hok). apply Forall_app in Hkeys as [Hkf [Hkc _]%Forall_cons].
    apply wpx_bind. unfold wpx at 1.
    erewrite for_each_app by (eapply (callbacks_ignored _ _ _ _ _ p); [done..|by eexists]).
    cbn [for_each]. apply wpx_bind. rewrite Hkc. eapply wpx_mono.
    { apply (wp_callback_success prov src dst (rm_key r) b _ _ p r1 s1); done. }
    intros [] s' (rows & Hcl & Hrows). apply wpx_ret, wpx_ret. exists c. split; [by rewrite last_snoc|].
    split; [done|]. exists rows. split; [done|]. unfold r1. rewrite IncrementRetry_key.
    change (k_Sn (rm_key r)) with (m_Sn (rm_Message r)). by rewrite Hsn.
  - apply wpx_bind. unfold wpx at 1.
    erewrite callbacks_ignored by (first [done|by eexists]). by eapply wp_HandleMessageFailed.
Qed.

(** The same with the outcome of [Route] at hand. *)
Lemma wp_RouteMessage_to prov now p dst src (b : BigInt) r s out :
  RouteLaws (Route (prov dst)) → Route (prov dst) (rm_Message r) = out → healthy (rl_db s) →
  rl_heap s !! p = Some r → chain_cache s src !! rm_key r = Some p → m_Sn (rm_Message r) = Some b → out.2 ≠ Panic →
  wp (RouteMessage prov now p dst src) (λ _ s', routing_outcome prov now p dst src r out s s') s.
Proof. intros Hlaws <- ? ? ? ? ?. by eapply wp_RouteMessage. Qed.

(** C19: the routing goroutine, from its first statement to its end, on any
    provider that keeps the laws of [Route].  The attempt is counted.  When
    [Route] returns no error the message leaves the source's cache and the
    message store, and nothing else changes but the record of the transaction
    last reported; when it returns an error the message is unmarked, and from
    the fifth attempt on stored and taken from the cache. *)
Theorem RouteMessage_outcome prov now p dst src (b : BigInt) r s
  (Hlaws : RouteLaws (Route (prov dst))) (Hdb : healthy (rl_db s))
  (Hr : rl_heap s !! p = Some r) (Hc : chain_cache s src !! rm_key r = Some p)
  (Hsn : m_Sn (rm_Message r) = Some b) (Hrun : (Route (prov dst) (rm_Message r)).2 ≠ Panic) :
  wp (RouteMessage prov now p dst src) (λ _ s',
    let r1 := IncrementRetry now r in
    match Route (prov dst) (rm_Message r) with
    | (calls, Ok _) => ∃ c, last calls = Some c ∧ tr_Code (cb_response c) = Success ∧
        delivered_outcome prov src dst r1 (cb_response c) (with_route p r1 s) s'
    | (_, Err _) => failed_outcome p src r1 (with_route p r1 s) s'
    | (_, Panic) => False
    end) s.
Proof.
  eapply wpx_mono; [by eapply wp_RouteMessage|]. unfold routing_outcome.
  by intros [] s'; destruct (Route _ _) as [calls [| |]].
Qed.

(** From [es] to [es'] the EVM provider handed the node the call that [m] stands
    for, and nothing else; the node accepted it as [tx]. *)
Definition evm_sends cl (m : Message) (tx : string) (es es' : Evm.EvmState) : Prop :=
  ∃ call nonce, Evm.call_of cl (message_wire m) = Some call ∧ Evm.transact cl call nonce = Ok tx ∧
    Evm.e_sent es' = Evm.e_sent es ++ [(call, nonce)].

(** The transaction was found within the polls, with status 1. *)
Definition evm_succeeds cl (tx : string) (rc : Evm.EthReceipt) : Prop :=
  Evm.WaitForResults cl (Some tx) = Ok rc ∧ Evm.er_Status rc = 1.

(** C20: a message routed by the relayer to an EVM chain whose node answers and
    gives a gas tip.  Either the node was handed exactly the call that the
    message's event type stands for and a receipt with status 1 was found, and
    the message is gone from the source's cache and the message store, its
    transaction recorded until the chain's finality; or the node was handed
    nothing, or a call without such a receipt, and the message is unmarked to be
    tried again, and from the fifth attempt on stored. *)
Theorem evm_delivers prov cl cfg contracts q es now p dst src (b : BigInt) r s
  (Hprov : prov dst = evm_provider cl cfg contracts q now es)
  (Han : answers cl) (Hnonce : nonce_ok es) (Htip : is_ok (Evm.SuggestGasTip cl) = true)
  (Hdb : healthy (rl_db s)) (Hr : rl_heap s !! p = Some r)
  (Hc : chain_cache s src !! rm_key r = Some p) (Hsn : m_Sn (rm_Message r) = Some b) :
  let m := rm_Message r in let r1 := IncrementRetry now r in let s1 := with_route p r1 s in
  ∃ es' out, Evm.Route cl cfg now m es = Some (es', out) ∧
  wp (RouteMessage prov now p dst src) (λ _ s',
    (∃ tx rc, evm_sends cl m tx es es' ∧ evm_succeeds cl tx rc ∧
       delivered_outcome prov src dst r1
         (mkTxResponse (big_Int64 (Evm.er_BlockNumber rc)) tx "" Success "") s1 s') ∨
    ((Evm.e_sent es' = Evm.e_sent es ∨
        ∃ tx, evm_sends cl m tx es es' ∧ ∀ rc, ¬ evm_succeeds cl tx rc) ∧
     failed_outcome p src r1 s1 s')) s.
Proof.
  cbn zeta. set (m := rm_Message r).
  pose proof (wp_Route cl cfg now m es Han Hnonce Htip ltac:(by eexists)) as Hout. unfold wpx in Hout.
  destruct (Evm.Route cl cfg now m es) as [[es' [calls res]]|] eqn:Hroute; [|done].
  exists es', (calls, res). split; [done|].
  assert (Route (prov dst) m = (calls, res)) as Hrt by (rewrite Hprov; cbn; unfold run_route; by rewrite Hroute).
  assert (res ≠ Panic → wp (RouteMessage prov now p dst src)
    (λ _ s', routing_outcome prov now p dst src r (calls, res) s s') s) as Hrun.
  { intros Hp. eapply wp_RouteMessage_to; [rewrite Hprov; apply _|exact Hrt|..]; done. }
  destruct Hout as [(Hsent & Hcalls & e & He)|(call & nonce & g & msg & w & tx & Hsent & Hcall & Htx & _ & _ & _ & Hw)].
  - cbn in Hcalls, He. subst. eapply wpx_mono; [by apply Hrun|].
    intros [] s' Hf. right. split; [by left|done].
  - assert (evm_sends cl m tx es es') as Hsends by (by exists call, nonce).
    assert (k_Sn (Message_MessageKey m) = Some b) as Hk by done.
    destruct (evm_wait_cases cl tx (Message_MessageKey m) b Hk) as [(rc & Hsucc & Hcase)|(c & e & Hno & Hcase)];
      rewrite Hcase in Hw; injection Hw as -> ->.
    + eapply wpx_mono; [by apply Hrun|].
      intros [] s' (c & [= <-] & _ & Hd). left. by exists tx, rc.
    + eapply wpx_mono; [by apply Hrun|].
      intros [] s' Hf. right. split; [|done]. right. by exists tx.
Qed.
End Delivery.
