(* ===== verification/DeliveryWitness.v ===== *)
(** Concrete deliveries: the relayer between two chains, over the mock chain and
    over the EVM provider. *)
From stdpp Require Import gmap strings list.
From Stdlib Require Import ZArith Lia.
From S2P Require Import Prelude GoStd Types Store LvlDB Concrete Provider Relay RelaySystem RelayCorrect.
From S2P Require Import RelayWitness Mock EvmNonce Evm EvmCorrect EvmWitness Delivery.
Import BlockStore MessageStore FinalityStore.
Open Scope Z_scope.

(** * A mock chain *)

Definition mock7 : Mock.MockProvider := Mock.mkMockProvider (Mock.mkMockConfig "b" {[ key7 := msg7 ]} {[ key7 := msg7 ]} 4 "mock") 4.

Lemma Listener_emits_once_witness : ∃ b,
  Mock.Listener [[key7]; [key7]] mock7 !! 1%nat = Some b ∧ msg7 ∈ bi_Messages b.
Proof.
  destruct (Mock.Listener [[key7]; [key7]] mock7 !! 1%nat) as [b|] eqn:E; [|vm_compute in E; discriminate].
  exists b. split; [done|].
  destruct (Mock.Listener_emits_once [[key7]; [key7]] mock7 key7 msg7 1 b) as [Hh Hm];
    [cbn; lia|cbn; lia|repeat constructor|reflexivity|exact E|].
  apply Hm. rewrite Hh. reflexivity.
Defined.

(** * Deliveries *)

(** The message is delivered to the mock chain: cache and store are empty. *)
Lemma RouteMessage_outcome_witness :
  wp (RouteMessage (λ nid, Mock.mock_provider [key7] mock7) 9 2 "b" "a")
    (λ _ s', chain_cache s' "a" = ∅ ∧ contents (rl_db s') = ∅) (rly7 true 0).
Proof.
  eapply wpx_mono.
  - apply (RouteMessage_outcome (λ nid, Mock.mock_provider [key7] mock7) 9 2 "b" "a" sn7 (route7 true 0)
      (rly7 true 0)); first [reflexivity|apply mem_healthy|apply mock_route_laws|done].
  - intros [] s' (c & _ & _ & rows & Hcl & Hrows).
    rewrite (oc_cache _ _ _ _ _ Hcl), (oc_rows _ _ _ _ _ Hcl), Hrows. split; vm_compute; reflexivity.
Defined.

(** The same message to an EVM chain that accepts it with nonce 7 and finds its
    receipt at the second poll. *)
Definition evm_b (nid : string) : ChainProvider :=
  evm_provider (EvmWitness.node 100) EvmWitness.cfg [] (Evm.mkFilterQuery 0 0 [] []) 9 EvmWitness.state0.

Lemma evm_delivers_witness :
  wp (RouteMessage evm_b 9 2 "b" "a") (λ _ s', chain_cache s' "a" = ∅) (rly7 true 0).
Proof.
  assert (EvmCorrect.answers (EvmWitness.node 100)) as Han by by split.
  destruct (evm_delivers evm_b (EvmWitness.node 100) EvmWitness.cfg [] (Evm.mkFilterQuery 0 0 [] [])
    EvmWitness.state0 9 2 "b" "a" sn7 (route7 true 0) (rly7 true 0) eq_refl Han ltac:(by intros w) eq_refl
    (mem_healthy _) eq_refl eq_refl eq_refl) as (es' & out & Hroute & Hwp).
  eapply wpx_mono; [exact Hwp|]. intros [] s' [(tx & rc & _ & _ & rows & Hcl & _)|[[Hs|(tx & _ & Hno)] _]].
  - rewrite (oc_cache _ _ _ _ _ Hcl). vm_compute. reflexivity.
  - exfalso. vm_compute in Hroute. injection Hroute as <- <-. vm_compute in Hs. discriminate.
  - exfalso. apply (Hno (Evm.mkEthReceipt 120 1)). by split.
Defined.
