(* ===== verification/IconDelivery.v ===== *)
(** Delivery over the ICON provider: the routing goroutine of the relayer down to
    what the destination's node is handed and what it answers. *)
From stdpp Require Import gmap strings list.
From Stdlib Require Import ZArith Lia.
From S2P Require Import Prelude GoStd Types Store Provider Relay RelaySystem RelayCorrect.
From S2P Require Import IconTypes Icon IconCorrect Delivery.
Import BlockStore MessageStore FinalityStore.
Open Scope Z_scope.

(** From [ist] to [ist'] the ICON provider handed the node one transaction, the
    call that [m] stands for, and nothing else; its hash is [hash]. *)
Definition icon_sends contracts (m : Message) (hash : string) (ist ist' : Icon.IconState) : Prop :=
  ∃ msg p, Icon.MakeIconMessage contracts (message_wire m) = Ok msg ∧
    tp_ToAddress p = Icon.im_Address msg ∧ tp_Data p = mkCallData (Icon.im_Method msg) (Icon.im_Params msg) ∧
    tp_TxHash p = NewHexBytes hash ∧ Icon.i_sent ist' = Icon.i_sent ist ++ [p].

(** The result was found within the tries, with status 1. *)
Definition icon_succeeds node (hash : string) (t : TransactionResult) : Prop :=
  Icon.WaitForResults node (NewHexBytes hash) = Ok t ∧ HexInt_Int (tres_Status t) = (1, None).

(** What is reported of it. *)
Definition icon_response (hash : string) (t : TransactionResult) : TxResponse :=
  mkTxResponse (HexInt_Value (tres_BlockHeight t)).1 (NewHexBytes hash) "" Success "".

Lemma icon_WaitForResults_no_panic node hash : Icon.WaitForResults node hash ≠ Panic.
Proof.
  unfold Icon.WaitForResults. generalize 0 at 1. induction (Icon.polls node hash) as [|p l IH]; intros c; cbn; [done|].
  destruct p; try done; by case_match.
Qed.

(** The two ends of the wait for a transaction. *)
Lemma icon_wait_cases node hash key :
  (∃ t calls c, icon_succeeds node hash t ∧
     Icon.WaitForTxResult node hash key true = (calls, Ok tt) ∧ last calls = Some c ∧
     cb_response c = icon_response hash t) ∨
  (∃ calls e, (∀ t, ¬ icon_succeeds node hash t) ∧ Icon.WaitForTxResult node hash key true = (calls, Err e)).
Proof.
  unfold Icon.WaitForTxResult, icon_succeeds, icon_response. pose proof (icon_WaitForResults_no_panic node (NewHexBytes hash)).
  destruct (Icon.WaitForResults node (NewHexBytes hash)) as [t|e|]; [|by right; eexists _, _; split; [intros ? []|]|done].
  destruct (HexInt_Value (tres_BlockHeight t)) as [h herr] eqn:Hh.
  destruct (HexInt_Int (tres_Status t)) as [st serr] eqn:Hst.
  set (first := match herr with Some e => _ | None => _ end).
  destruct (Z.eqb_spec st 1) as [->|Hne]; [destruct serr as [e|]|]; cbn.
  - right. eexists _, _. split; [|done]. intros t' [[= <-] Hs]. congruence.
  - left. eexists t, _, _. rewrite last_snoc, Hh. by split_and!.
  - right. eexists _, _. split; [|done]. intros t' [[= <-] Hs]. congruence.
Qed.

Section Delivery.
Context {St : Type} `{StoreSpec St} `{CodecSpec Z}.
Context `{CodecSpec (RouteMessageOf Z)} `{CodecSpec (TransactionObjectOf Z)}.
Implicit Types (s : Relayer St) (prov : string → ChainProvider).

(** C21: a message routed by the relayer to an ICON chain whose node answers.
    Either the node was handed exactly the call that the message's event type
    stands for and a result with status 1 was found, and the message is gone
    from the source's cache and the message store, its transaction recorded
    until the chain's finality; or the node was handed nothing, or a call
    without such a result, and the message is unmarked to be tried again, and
    from the fifth attempt on stored. *)
Theorem icon_delivers prov node cfg networkID contracts ist now p dst src (b : BigInt) r s
  (Hprov : prov dst = icon_provider node cfg networkID contracts now ist)
  (Han : IconCorrect.answers node)
  (Hm : Icon.MakeIconMessage contracts (message_wire (rm_Message r)) ≠ Panic)
  (Hdb : healthy (rl_db s)) (Hr : rl_heap s !! p = Some r)
  (Hc : chain_cache s src !! rm_key r = Some p) (Hsn : m_Sn (rm_Message r) = Some b) :
  let m := rm_Message r in let r1 := IncrementRetry now r in let s1 := with_route p r1 s in
  ∃ ist' out, Icon.Route node cfg networkID contracts now m ist = Some (ist', out) ∧
  wp (RouteMessage prov now p dst src) (λ _ s',
    (∃ hash t, icon_sends contracts m hash ist ist' ∧ icon_succeeds node hash t ∧
       delivered_outcome prov src dst r1 (icon_response hash t) s1 s') ∨
    ((Icon.i_sent ist' = Icon.i_sent ist ∨
        ∃ hash, icon_sends contracts m hash ist ist' ∧ ∀ t, ¬ icon_succeeds node hash t) ∧
     failed_outcome p src r1 s1 s')) s.
Proof.
  cbn zeta. set (m := rm_Message r).
  pose proof (icon_Route_runs node cfg networkID contracts now m ist Han Hm) as Hout. unfold wpx in Hout.
  destruct (Icon.Route node cfg networkID contracts now m ist) as [[ist' [calls res]]|] eqn:Hroute; [|done].
  exists ist', (calls, res). split; [done|].
  assert (Route (prov dst) m = (calls, res)) as Hrt by (rewrite Hprov; cbn; unfold run_route; by rewrite Hroute).
  assert (res ≠ Panic → wp (RouteMessage prov now p dst src)
    (λ _ s', routing_outcome prov now p dst src r (calls, res) s s') s) as Hrun.
  { intros Hp. eapply wp_RouteMessage_to; [rewrite Hprov; apply _|exact Hrt|..]; done. }
  destruct Hout as [(Hsent & -> & e & ->)|(msg & hash & Hmsg & (tp & w & step & steps & bs & Htp & Ha & Hd & _ & _ & _ & _ & _ & Hh) & Hw)].
  - eapply wpx_mono; [by apply Hrun|]. intros [] s' Hf. right. split; [by left|done].
  - assert (icon_sends contracts m hash ist ist') as Hsends by (by exists msg, tp).
    destruct (icon_wait_cases node hash (Message_MessageKey m)) as
      [(t & calls' & c & Hsucc & Hcase & Hlast & Hresp)|(calls' & e & Hno & Hcase)]; rewrite Hcase in Hw; injection Hw as -> ->.
    + eapply wpx_mono; [by apply Hrun|]. intros [] s' (c' & Hlast' & _ & Hdel). left. exists hash, t.
      cbn in Hlast'. rewrite Hlast in Hlast'. injection Hlast' as <-. by rewrite <-Hresp.
    + eapply wpx_mono; [by apply Hrun|]. intros [] s' Hf. right. split; [|done]. right. by exists hash.
Qed.
End Delivery.
