(* ===== verification/WasmDelivery.v ===== *)
(** Delivery over the CosmWasm provider: the routing goroutine of the relayer down
    to what the destination's node is handed and what it answers, and what
    becomes of it once the client has reconnected. *)
From stdpp Require Import gmap strings list.
From Stdlib Require Import ZArith Lia.
From S2P Require Import Prelude GoStd Types Store Provider Relay RelaySystem RelayCorrect.
From S2P Require Import IconTypes WasmTypes Wasm WasmCorrect WasmClient WasmScan Delivery.
Import BlockStore MessageStore FinalityStore WasmTypes.
Open Scope Z_scope.

(** [Route] where it returns: a wait for an event that never comes has no
    outcome ([events_come] excludes it). *)
Definition wasm_provider node env cfg fs eventList (s : Wasm.WasmState) : ChainProvider := {|
  QueryLatestHeight := Wasm.QueryLatestHeight_ node;
  QueryTransactionReceipt := Wasm.QueryTransactionReceipt_ node;
  Route m := default ([], Panic) ('(_, out) ← Wasm.Route node env cfg fs m s; out);
  ShouldReceiveMessage := Wasm.ShouldReceiveMessage_;
  ShouldSendMessage := Wasm.ShouldSendMessage_;
  MessageReceived := Wasm.MessageReceived_ node cfg;
  FinalityBlock := cc_FinalityBlock (Wasm.c_Common cfg);
  GenerateMessages := Wasm.GenerateMessages_ node cfg eventList;
  p_RevertMessage sn := run_call (Wasm.RevertMessage_ node env cfg fs sn) s;
  p_GetFee := Wasm.GetFee_ node cfg;
  p_SetFee nid msg response := run_call (Wasm.SetFee_ node env cfg fs nid msg response) s;
  p_ClaimFee := run_call (Wasm.ClaimFee_ node env cfg fs) s |}.

#[export] Instance wasm_route_laws node env cfg fs eventList s :
  RouteLaws (Route (wasm_provider node env cfg fs eventList s)).
Proof.
  constructor. intros m. cbn. pose proof (wasm_route_lawful node env cfg fs m s) as Hlaw. unfold wpx in Hlaw.
  destruct (Wasm.Route node env cfg fs m s) as [[s' [out|]]|]; [by apply Hlaw|by split; cbn..].
Qed.

(** Every wait for a result ends, with an event or an error. *)
Definition events_come (node : Wasm.WasmNode) : Prop :=
  ∀ hash, Wasm.SubscribeTx node hash ≠ Ok None ∧ Wasm.SubscribeTx node hash ≠ Panic.

(** From [ws] to [ws'] the node accepted one transaction, [tx], with the call that
    [m] stands for, and nothing else; the wallet holds the next sequence
    number. *)
Definition wasm_sends node cfg (m : Message) (tx : Wasm.SdkTxResponse) (ws ws' : Wasm.WasmState) : Prop :=
  ∃ seq sender contract raw w, Wasm.w_sent ws' = Wasm.w_sent ws ++ [(seq, [Wasm.mkMsgExecuteContract sender contract raw])] ∧
    Wasm.contract_of cfg (m_EventType m) = Some contract ∧
    Wasm.getRawContractMessage node (message_wire m) = Ok raw ∧
    accepted node cfg seq [Wasm.mkMsgExecuteContract sender contract raw] tx ∧
    Wasm.w_wallet ws' = Some w ∧ Wasm.a_Sequence w = u64 (seq + 1).

(** The event of the transaction came, with code 0. *)
Definition wasm_succeeds node (tx : Wasm.SdkTxResponse) (t : TxResultResponse) : Prop :=
  Wasm.SubscribeTx node (Wasm.sr_TxHash tx) = Ok (Some (Wasm.SubEventData (inl t))) ∧
  tr_ResultCode t mod 2 ^ 32 = CodeTypeOK.

Definition wasm_response (tx : Wasm.SdkTxResponse) (t : TxResultResponse) : TxResponse :=
  mkTxResponse (tr_Height t) (Wasm.sr_TxHash tx) (tr_ResultCodespace t) Success (tr_ResultData t).

(** The two ends of the wait for a transaction. *)
Lemma wasm_wait_cases node cfg key tx : events_come node →
  (∃ t c, wasm_succeeds node tx t ∧ Wasm.waitForTxResult node cfg key tx = Some ([c], Ok tt) ∧
     cb_response c = wasm_response tx t) ∨
  (∃ calls e, (∀ t, ¬ wasm_succeeds node tx t) ∧ Wasm.waitForTxResult node cfg key tx = Some (calls, Err e)).
Proof.
  intros Hev. destruct (Hev (Wasm.sr_TxHash tx)) as [Hcome Hp].
  unfold Wasm.waitForTxResult, Wasm.subscribeTxResult, wasm_succeeds, wasm_response.
  destruct (Wasm.SubscribeTx node (Wasm.sr_TxHash tx)) as [[[e|[t|e]]|]|e|]; try done; cbn;
    try (right; by eexists _, _; split; [intros t [? _]|]).
  destruct (Z.eqb_spec (tr_ResultCode t mod 2 ^ 32) CodeTypeOK); cbn.
  - left. by eexists t, _.
  - right. eexists _, _. split; [|done]. by intros t' [[= <-] ?].
Qed.

Section Delivery.
Context {St : Type} `{StoreSpec St} `{CodecSpec Z}.
Context `{CodecSpec (RouteMessageOf Z)} `{CodecSpec (TransactionObjectOf Z)}.
Implicit Types (s : Relayer St) (prov : string → ChainProvider).

Lemma wp_wasm_delivery prov node env cfg fs eventList ws now p dst src (b : BigInt) r s :
  prov dst = wasm_provider node env cfg fs eventList ws → WasmCorrect.answers node env cfg fs →
  events_come node → has_wallet ws → healthy (rl_db s) → rl_heap s !! p = Some r →
  chain_cache s src !! rm_key r = Some p → m_Sn (rm_Message r) = Some b →
  let m := rm_Message r in let r1 := IncrementRetry now r in let s1 := with_route p r1 s in
  ∃ ws' out, Wasm.Route node env cfg fs m ws = Some (ws', Some out) ∧
  wp (RouteMessage prov now p dst src) (λ _ s',
    (∃ tx t, wasm_sends node cfg m tx ws ws' ∧ wasm_succeeds node tx t ∧
       delivered_outcome prov src dst r1 (wasm_response tx t) s1 s') ∨
    ((Wasm.w_sent ws' = Wasm.w_sent ws ∨
        ∃ tx, wasm_sends node cfg m tx ws ws' ∧ ∀ t, ¬ wasm_succeeds node tx t) ∧
     failed_outcome p src r1 s1 s')) s.
Proof.
  intros Hprov Han Hev Hw Hdb Hr Hc Hsn. cbn zeta. set (m := rm_Message r).
  pose proof (wasm_Route_runs node env cfg fs m ws Han Hw) as Hout. unfold wpx in Hout.
  destruct (Wasm.Route node env cfg fs m ws) as [[ws' o]|] eqn:Hroute; [|done].
  assert (∀ out, o = Some out → out.2 ≠ Panic → wp (RouteMessage prov now p dst src)
    (λ _ s', routing_outcome prov now p dst src r out s s') s) as Hrun.
  { intros out -> Hp. eapply wp_RouteMessage_to; [rewrite Hprov; apply _| |try done..].
    rewrite Hprov. cbn. fold m. by rewrite Hroute. }
  destruct Hout as [(Hsent & e & ->)|(seq & sender & contract & raw & tx & w & Hs & Hcon & Hraw & Hw' & Hseq & Hacc & ->)].
  - exists ws', ([], Err e). split; [done|]. eapply wpx_mono; [by apply Hrun|]. intros [] s' Hf. right. split; [by left|done].
  - assert (wasm_sends node cfg m tx ws ws') as Hsends by (by exists seq, sender, contract, raw, w).
    destruct (wasm_wait_cases node cfg (Message_MessageKey m) tx Hev) as [(t & c & Hsucc & Hcase & Hresp)|(calls & e & Hno & Hcase)].
    + exists ws', ([c], Ok tt). rewrite <-Hcase. split; [done|]. eapply wpx_mono; [by apply (Hrun ([c], Ok tt))|].
      intros [] s' (c' & [= <-] & _ & Hdel). left. exists tx, t. by rewrite <-Hresp.
    + exists ws', (calls, Err e). rewrite <-Hcase. split; [done|]. eapply wpx_mono; [by apply (Hrun (calls, Err e))|].
      intros [] s' Hf. right. split; [|done]. right. by exists tx.
Qed.

(** A client that reconnected never delivers: the node may accept the message, but
    the relayer counts every attempt as failed. *)
Theorem reconnected_never_delivers {Builder Key Any : Type} {sdk : WasmClient.Sdk Wasm.Factory Builder Key Any}
    prov x0 x events other env cfg fs eventList ws now p dst src (b : BigInt) r s
  (Hre : WasmClient.Reconnect x0 = Some (x, None))
  (Hprov : prov dst = wasm_provider (WasmClient.client_node x true events other) env cfg fs eventList ws)
  (Han : WasmCorrect.answers (WasmClient.client_node x true events other) env cfg fs) (Hw : has_wallet ws)
  (Hdb : healthy (rl_db s)) (Hr : rl_heap s !! p = Some r)
  (Hc : chain_cache s src !! rm_key r = Some p) (Hsn : m_Sn (rm_Message r) = Some b) :
  wp (RouteMessage prov now p dst src) (λ _ s',
    failed_outcome p src (IncrementRetry now r) (with_route p (IncrementRetry now r) s) s') s.
Proof.
  destruct (WasmClient.Reconnect_stopped x0 x Hre) as [Hx _].
  assert (∀ hash, ∃ e, Wasm.SubscribeTx (WasmClient.client_node x true events other) hash = Err e) as Hsub.
  { intros hash. cbn. unfold WasmClient.Subscribe. unfold WasmClient.IsConnected in Hx. rewrite Hx. by eexists. }
  destruct (wp_wasm_delivery prov _ env cfg fs eventList ws now p dst src b r s Hprov Han) as (ws' & out & _ & Hwp); try done.
  { intros hash. by destruct (Hsub hash) as [e ->]. }
  eapply wpx_mono; [exact Hwp|]. intros [] s' [(tx & t & _ & [Ht _] & _)|[_ Hf]]; [|done].
  destruct (Hsub (Wasm.sr_TxHash tx)) as [e He]. by rewrite He in Ht.
Qed.

(** C22: a message routed by the relayer to a CosmWasm chain whose node answers and
    whose events come.  Either the node accepted exactly one transaction, the
    call that the message's event type stands for with gas within the bounds,
    and its event came with code 0, and the message is gone from the source's
    cache and the message store, its transaction recorded until the chain's
    finality; or nothing was accepted, or a transaction without such an event,
    and the message is unmarked to be tried again, and from the fifth attempt
    on stored. *)
Theorem wasm_delivers prov node env cfg fs eventList ws now p dst src (b : BigInt) r s
  (Hprov : prov dst = wasm_provider node env cfg fs eventList ws) (Han : WasmCorrect.answers node env cfg fs)
  (Hev : events_come node) (Hw : has_wallet ws)
  (Hdb : healthy (rl_db s)) (Hr : rl_heap s !! p = Some r)
  (Hc : chain_cache s src !! rm_key r = Some p) (Hsn : m_Sn (rm_Message r) = Some b) :
  let m := rm_Message r in let r1 := IncrementRetry now r in let s1 := with_route p r1 s in
  ∃ ws' out, Wasm.Route node env cfg fs m ws = Some (ws', Some out) ∧
  wp (RouteMessage prov now p dst src) (λ _ s',
    (∃ tx t, wasm_sends node cfg m tx ws ws' ∧ wasm_succeeds node tx t ∧
       delivered_outcome prov src dst r1 (wasm_response tx t) s1 s') ∨
    ((Wasm.w_sent ws' = Wasm.w_sent ws ∨
        ∃ tx, wasm_sends node cfg m tx ws ws' ∧ ∀ t, ¬ wasm_succeeds node tx t) ∧
     failed_outcome p src r1 s1 s')) s.
Proof. by eapply wp_wasm_delivery. Qed.

(** ** What a live message leaves for the finality check *)

(** C31: a message that a CosmWasm subscription brought is not generated again
    when its delivery turns out to have failed.  The goroutine passes it on
    without the height of its transaction, so that the record of its delivery
    names the height 0; and when the receipt shows a failure once the block is
    final, the check searches the source at height 0, where nothing is.  The
    record goes, and no message takes its place. *)
Theorem live_message_not_regenerated prov node cfg eventList opts ev opts' blk panics m
    nid f h key (rm : Types.RouteMessage) response rc s
  (Hlive : Wasm.SubscribeMessageEvents_event cfg opts (inl ev) = (opts', Some blk, panics))
  (Hm : m ∈ bi_Messages blk) (Hrm : message_wire (rm_Message rm) = m)
  (Hnode : above_genesis node)
  (Hsrc : GenerateMessages (prov (k_Src key)) = Wasm.GenerateMessages_ node cfg eventList)
  (Hdb : healthy (rl_db s)) (Hchain : is_Some (rl_chains s !! k_Src key))
  (Hh0 : to_TxHeight (delivered_tx key rm response) ≠ 0)
  (Hfin : u64 (to_TxHeight (delivered_tx key rm response) + f) ≤ h)
  (Hrc : QueryTransactionReceipt (prov nid) (tr_TxHash response) = Ok (Some rc)) (Hfailed : rc_Status rc = false) :
  wp (CheckFinality_tx prov nid f h (delivered_tx key rm response)) (λ _ s',
    contents (rl_db s') = delete (tx_key prefixFinalityStore (k_Dst key) (sn_val (k_Sn key))) (contents (rl_db s)) ∧
    rl_chains s' = rl_chains s ∧ rl_heap s' = rl_heap s ∧ rl_tasks s' = rl_tasks s) s.
Proof.
  assert (m_MessageHeight (rm_Message rm) = 0) as H0m.
  { transitivity (m_MessageHeight (message_wire (rm_Message rm))); [done|]. rewrite Hrm. cbn in Hlive.
    destruct (Wasm.ParseMessageFromEvents _ _) as [msgs| |] eqn:Hp; simplify_eq. by eapply parse_height. }
  assert (GenerateMessages (prov (k_Src key)) (to_Key (delivered_tx key rm response)) = Ok []) as Hgen.
  { rewrite Hsrc. unfold Wasm.GenerateMessages_, delivered_tx. cbn. by rewrite H0m, genesis_empty. }
  destruct (delete_spec (rl_db s) (tx_key prefixFinalityStore (k_Dst key) (sn_val (k_Sn key))) Hdb)
    as (db' & Hd & Hh & Hrows).
  unfold CheckFinality_tx. destruct (Z.eqb_spec (to_TxHeight (delivered_tx key rm response)) 0); [done|].
  destruct (Z.ltb_spec h (u64 (to_TxHeight (delivered_tx key rm response) + f))); [lia|].
  change (to_TxHash _) with (tr_TxHash response). rewrite Hrc. apply wpx_bind, wpx_ret. rewrite Hfailed.
  change (kh_Key (to_Key (delivered_tx key rm response))) with key in *.
  apply wpx_bind, wpx_gets. destruct Hchain as [c ->]. apply wpx_bind. eapply wpx_with_db; [exact Hd|].
  rewrite Hgen. apply wpx_bind, wpx_ret. cbn. done.
Qed.
End Delivery.
