(* ===== verification/ChainDeliveryWitness.v ===== *)
(** Concrete deliveries over the ICON and the CosmWasm provider. *)
From stdpp Require Import gmap strings list.
From Stdlib Require Import ZArith Lia.
From S2P Require Import Prelude GoStd Types Store LvlDB Concrete Provider Relay RelaySystem RelayCorrect RelayWitness.
From S2P Require Import IconTypes Icon IconCorrect IconWitness WasmTypes Wasm WasmCorrect WasmWitness.
From S2P Require Import WasmClient WasmListenerWitness WasmScan WasmScanWitness Delivery IconDelivery WasmDelivery.
Import BlockStore MessageStore FinalityStore WasmTypes.
Open Scope Z_scope.

(** Message 7 to an ICON chain that says "pending" once and then executes it. *)
Definition icon_b (nid : string) : ChainProvider :=
  icon_provider IconWitness.node IconWitness.cfg "0x1" IconWitness.contracts 9 IconWitness.state0.

Lemma icon_delivers_witness :
  wp (RouteMessage icon_b 9 2 "b" "a") (λ _ s', chain_cache s' "a" = ∅) (rly7 true 0).
Proof.
  assert (IconCorrect.answers IconWitness.node) as Han by by split.
  destruct (icon_delivers icon_b IconWitness.node IconWitness.cfg "0x1" IconWitness.contracts IconWitness.state0 9 2
    "b" "a" sn7 (route7 true 0) (rly7 true 0) eq_refl Han ltac:(by vm_compute) (mem_healthy _) eq_refl eq_refl eq_refl)
    as (ist' & out & Hroute & Hwp).
  eapply wpx_mono; [exact Hwp|]. intros [] s' [(hash & t & _ & _ & rows & Hcl & _)|[[Hs|(hash & (im & p & _ & _ & _ & Hh & Hs) & Hno)] _]].
  - rewrite (oc_cache _ _ _ _ _ Hcl). vm_compute. reflexivity.
  - exfalso. vm_compute in Hroute. injection Hroute as <- <-. vm_compute in Hs. discriminate.
  - exfalso. vm_compute in Hroute. injection Hroute as <- _. injection Hs as <-.
    assert (hash = IconWitness.hash32) as ->.
    { apply (f_equal HexBytes_Value) in Hh. rewrite HexBytes_Value_NewHexBytes in Hh. vm_compute in Hh. by injection Hh. }
    apply (Hno (IconWitness.result (NewHexInt 1))). by split; vm_compute.
Defined.

(** To a CosmWasm chain, from a wallet with the right sequence number. *)
Definition ws7 : Wasm.WasmState := Wasm.mkWasmState (Some (Wasm.mkAccount "arch1w" 3 7)) [].
Definition wasm_node : Wasm.WasmNode :=
  WasmClient.client_node (Sdk0 := sdk) context0 true
    (λ _, Some (Wasm.SubEventData (inl (mkTxResultResponse 121 0 "" "" "" [])))) (WasmWitness.node 7).
Definition wasm_b (node : Wasm.WasmNode) (nid : string) : ChainProvider :=
  wasm_provider node WasmWitness.env WasmWitness.cfg WasmWitness.fs [] ws7.

Lemma wasm_delivers_witness :
  wp (RouteMessage (wasm_b wasm_node) 9 2 "b" "a") (λ _ s', chain_cache s' "a" = ∅) (rly7 true 0).
Proof.
  assert (WasmCorrect.answers wasm_node WasmWitness.env WasmWitness.cfg WasmWitness.fs) as Han by by split.
  destruct (wasm_delivers (wasm_b wasm_node) wasm_node WasmWitness.env WasmWitness.cfg WasmWitness.fs [] ws7 9 2 "b" "a" sn7
    (route7 true 0) (rly7 true 0) eq_refl Han ltac:(by intros h) ltac:(by eexists) (mem_healthy _) eq_refl eq_refl eq_refl)
    as (ws' & out & Hroute & Hwp).
  eapply wpx_mono; [exact Hwp|]. intros [] s' [(tx & t & _ & _ & rows & Hcl & _)|[[Hs|(tx & _ & Hno)] _]].
  - rewrite (oc_cache _ _ _ _ _ Hcl). vm_compute. reflexivity.
  - exfalso. vm_compute in Hroute. injection Hroute as <- <-. vm_compute in Hs. discriminate.
  - exfalso. by apply (Hno (mkTxResultResponse 121 0 "" "" "" [])).
Defined.

(** The same chain behind a client that reconnected: the message stays. *)
Lemma reconnected_never_delivers_witness :
  let node := WasmClient.client_node (Sdk0 := sdk) context1 true (λ _, None) (WasmWitness.node 7) in
  wp (RouteMessage (wasm_b node) 9 2 "b" "a") (λ _ s',
    failed_outcome 2 "a" (IncrementRetry 9 (route7 true 0)) (with_route 2 (IncrementRetry 9 (route7 true 0)) (rly7 true 0)) s')
    (rly7 true 0).
Proof.
  cbn zeta. set (node := WasmClient.client_node _ _ _ _).
  assert (WasmCorrect.answers node WasmWitness.env WasmWitness.cfg WasmWitness.fs) as Han by by split.
  by apply (reconnected_never_delivers (sdk := sdk) (wasm_b node) context0 context1 (λ _, None) (WasmWitness.node 7)
    WasmWitness.env WasmWitness.cfg WasmWitness.fs [] ws7 9 2 "b" "a" sn7 (route7 true 0) (rly7 true 0) eq_refl eq_refl Han
    ltac:(by eexists) (mem_healthy _)).
Defined.

(** * A live message whose delivery fails later *)

Lemma chain_node_above latest txs : Forall (λ tx, 0 < Wasm.rt_Height tx) txs → above_genesis (chain_node latest txs).
Proof.
  intros Hpos. split; [apply chain_node_honest|]. intros param. split.
  - cbn. unfold paged. by destruct (_ && _).
  - intros found total tx Hs Htx. pose proof (chain_node_honest latest txs param found total Hs tx Htx).
    cbn in Hs. unfold paged in Hs. destruct (_ && _); [|done]. injection Hs as <- _.
    apply elem_of_take in Htx as (i & Hi & _). rewrite lookup_drop in Hi. apply list_elem_of_lookup_2 in Hi.
    apply list_elem_of_filter in Hi as [_ Hi]. rewrite Forall_forall in Hpos. by apply Hpos.
Qed.

(** The transaction of height 125 emitted message 5, which a subscription
    brought; its delivery at height 200 was undone. *)
Definition live_msg : MessageOf Z := mkMessage "0x2.icon" "archway" (Some 5) "data" 0 EmitMessage None.
Definition live_key : MessageKey := mkMessageKey (Some (mkBigInt 9 5)) "archway" "0x2.icon" EmitMessage.
Definition live_route : Types.RouteMessage := NewRouteMessage (message_alloc 9 live_msg).
Definition live_response : TxResponse := mkTxResponse 200 "0xdd" "" Success "".
Definition live_chain : Wasm.WasmNode := chain_node 140 [Wasm.mkResultTx 125 [good 5]].
Definition undone (nid : string) : ChainProvider := {|
  QueryLatestHeight := Ok 210; QueryTransactionReceipt _ := Ok (Some (mkReceipt "0xdd" 200 false)); Route _ := ([], Ok tt);
  ShouldReceiveMessage _ := Ok true; ShouldSendMessage _ := Ok true; MessageReceived _ := Ok false;
  FinalityBlock := 10; GenerateMessages := Wasm.GenerateMessages_ live_chain WasmWitness.cfg [filter1];
  p_RevertMessage _ := Ok tt; p_GetFee _ _ := Ok 0; p_SetFee _ _ _ := Ok tt; p_ClaimFee := Ok tt |}.
Definition recorded : Relayer MemDB :=
  mkRelayer (StoreTxObject prefixFinalityStore (rl_db wrly) (Some (delivered_tx live_key live_route live_response))).1
    (rl_chains wrly) ∅ 1 [].
Abbreviation live_row := (tx_key prefixFinalityStore "0x2.icon" (Some 5)).

Lemma live_message_not_regenerated_witness :
  is_ok (deref (contents (rl_db recorded) !! live_row)) = true ∧
  wp (CheckFinality_tx undone "0x2.icon" 10 210 (delivered_tx live_key live_route live_response))
    (λ _ s', contents (rl_db s') !! live_row = None ∧ chain_cache s' "archway" = ∅) recorded.
Proof.
  split; [vm_compute; reflexivity|].
  eapply wpx_mono; [apply (live_message_not_regenerated undone live_chain WasmWitness.cfg [filter1] (mkSubscribeOpts 120 "arch1c" "m")
    (mkTxResultResponse 125 0 "" "" "" [good 5]) (mkSubscribeOpts 125 "arch1c" "m") (mkBlockInfo 125 [live_msg]) false live_msg
    "0x2.icon" 10 210 live_key live_route live_response (mkReceipt "0xdd" 200 false) recorded)|].
  - vm_compute. reflexivity.
  - by left.
  - reflexivity.
  - apply chain_node_above. by repeat constructor.
  - reflexivity.
  - apply mem_healthy.
  - by eexists.
  - discriminate.
  - vm_compute. discriminate.
  - reflexivity.
  - reflexivity.
  - intros [] s' (Hrows & Hch & _). split.
    + rewrite Hrows. apply lookup_delete_eq.
    + unfold chain_cache. rewrite Hch. vm_compute. reflexivity.
Defined.
