(* ===== verification/Chains.v ===== *)
(** The whole system: EVM, ICON and CosmWasm chains around one relayer.

    [Chain] puts together what the other files say of each kind of chain: its
    listener as a feeder of the relayer (Pipeline.v, IconPipeline.v, WasmScan.v)
    and its provider as a destination (Delivery.v, IconDelivery.v,
    WasmDelivery.v).  The theorems are about any number of them. *)
From stdpp Require Import gmap strings list relations.
From Stdlib Require Import ZArith Lia.
From S2P Require Import Prelude GoStd Types Store Provider Relay RelaySystem RelayCorrect RelayFrame Provenance Custody Feed Network Marks Lives.
From S2P Require Import EvmNonce Evm EvmCorrect EvmListener Pipeline IconTypes Icon IconCorrect IconMonitor IconPipeline Genuine.
From S2P Require Import WasmTypes Wasm WasmCorrect WasmListener WasmScan Delivery IconDelivery WasmDelivery.
Import BlockStore MessageStore FinalityStore WasmTypes.
Open Scope Z_scope.

(** * Destinations *)

(** The runs of [Route] so far: the answers the node gave, the message, and the
    provider's state before and after.  Between two runs the operator's own
    transactions may have changed that state. *)
Section Logged.
Context {A S : Type} (route : A → Message → S → option (S * (list CallbackCall * res unit))).
Context (evidence : A → Message → S → S → Prop).
Context (Hkeys : ∀ a m s s' out, route a m s = Some (s', out) → Forall (λ c, cb_key c = Message_MessageKey m) out.1).
Context (Hevidence : ∀ a m s s' out c, route a m s = Some (s', out) → c ∈ out.1 →
  tr_Code (cb_response c) = Success → evidence a m s s').
Abbreviation Log := (list (A * Message * S * S)).

Definition logged_routes (n : Log) (m : Message) out (n' : Log) : Prop :=
  ∃ a s s', route a m s = Some (s', out) ∧ n' = n ++ [(a, m, s, s')].
Definition logged_executed (n : Log) (x : MessageOf Z) : Prop :=
  ∃ a m s s', (a, m, s, s') ∈ n ∧ message_wire m = x ∧ evidence a m s s'.

Program Definition logged_destination : Destination Log :=
  mkDestination Log logged_routes logged_executed _ _ _ _.
Next Obligation. intros n m out n' (a & s & s' & Hr & _). by eapply Hkeys. Qed.
Next Obligation.
  intros n m out n' c (a & s & s' & Hr & ->) Hc Hs. exists a, m, s, s'. split_and!; [set_solver|done|by eapply Hevidence].
Qed.
Next Obligation.
  intros n m out n' x (a & s & s' & Hr & ->) (a' & m' & s1 & s2 & Hin & ? & ?). exists a', m', s1, s2. set_solver.
Qed.
Next Obligation.
  intros n m out n' x (a & s & s' & Hr & ->) (a' & m' & s1 & s2 & Hin & ? & ?).
  apply elem_of_app in Hin as [Hin|[= -> -> -> ->]%list_elem_of_singleton]; [left|by right]. by exists a', m', s1, s2.
Qed.
End Logged.

(** ** EVM *)

Definition evm_route cfg (a : Evm.IClient * Z) (m : Message) (s : Evm.EvmState) := Evm.Route a.1 cfg a.2 m s.
(** The node was handed the call that the message stands for and nothing else,
    and gave a receipt with status 1 for it. *)
Definition evm_evidence (a : Evm.IClient * Z) (m : Message) (s s' : Evm.EvmState) : Prop :=
  ∃ tx rc, evm_sends a.1 m tx s s' ∧ evm_succeeds a.1 tx rc.

Lemma evm_wait_success cl tx key c :
  c ∈ (Evm.WaitForTxResult cl tx key true).1 → tr_Code (cb_response c) = Success → ∃ rc, evm_succeeds cl tx rc.
Proof.
  unfold Evm.WaitForTxResult, evm_succeeds. destruct (Evm.WaitForResults cl (Some tx)) as [rc|e|]; cbn;
    [|by intros ->%list_elem_of_singleton|by intros ?%elem_of_nil].
  destruct (Z.eqb_spec (Evm.er_Status rc) 1); cbn; [by exists rc|by intros ->%list_elem_of_singleton].
Qed.

Lemma evm_route_keys cfg a m s s' out :
  evm_route cfg a m s = Some (s', out) → Forall (λ c, cb_key c = Message_MessageKey m) out.1.
Proof.
  intros Hr. pose proof (wlp_Route a.1 cfg a.2 m s) as Hw. unfold wpx, evm_route in *. rewrite Hr in Hw.
  destruct Hw as [(_ & -> & _)|(call & z & g & msg & w & tx & _ & _ & _ & _ & _ & _ & ->)]; [done|].
  apply (evm_wait_lawful a.1 tx m).
Qed.

Lemma evm_route_evidence cfg a m s s' out c :
  evm_route cfg a m s = Some (s', out) → c ∈ out.1 → tr_Code (cb_response c) = Success → evm_evidence a m s s'.
Proof.
  intros Hr. pose proof (wlp_Route a.1 cfg a.2 m s) as Hw. unfold wpx, evm_route in *. rewrite Hr in Hw.
  destruct Hw as [(_ & -> & _)|(call & z & g & msg & w & tx & Hs & Hc & Htx & _ & _ & _ & ->)]; [by intros ?%elem_of_nil|].
  intros Hin Hsu. destruct (evm_wait_success _ _ _ _ Hin Hsu) as [rc Hrc]. exists tx, rc. split; [|done]. by exists call, z.
Qed.

Lemma evm_route_lawful cfg a m s s' out : evm_route cfg a m s = Some (s', out) → route_law m out.
Proof.
  intros Hr. pose proof (wlp_Route a.1 cfg a.2 m s) as Hw. unfold wpx, evm_route in *. rewrite Hr in Hw.
  destruct Hw as [(_ & Hc & e & He)|(call & z & g & msg & w & tx & _ & _ & _ & _ & _ & _ & ->)]; [|apply evm_wait_lawful].
  destruct out as [calls r]. cbn in Hc, He. subst. apply route_law_error.
Qed.

Definition evm_destination cfg := logged_destination (evm_route cfg) evm_evidence (evm_route_keys cfg) (evm_route_evidence cfg).

(** ** ICON *)

Definition icon_route cfg networkID contracts (a : Icon.IconNode * Z) (m : Message) (s : Icon.IconState) :=
  Icon.Route a.1 cfg networkID contracts a.2 m s.
Definition icon_evidence contracts (a : Icon.IconNode * Z) (m : Message) (s s' : Icon.IconState) : Prop :=
  ∃ hash t, icon_sends contracts m hash s s' ∧ icon_succeeds a.1 hash t.

Lemma icon_wait_success node hash key c :
  c ∈ (Icon.WaitForTxResult node hash key true).1 → tr_Code (cb_response c) = Success → ∃ t, icon_succeeds node hash t.
Proof.
  unfold Icon.WaitForTxResult, icon_succeeds.
  destruct (Icon.WaitForResults node (NewHexBytes hash)) as [t|e|]; cbn;
    [|by intros ->%list_elem_of_singleton|by intros ?%elem_of_nil].
  destruct (HexInt_Value _) as [h herr]. destruct (HexInt_Int _) as [st serr] eqn:Hst.
  set (first := match herr with Some e => _ | None => _ end).
  assert (c ∈ first → tr_Code (cb_response c) ≠ Success) as Hf.
  { unfold first. destruct herr; [by intros ->%list_elem_of_singleton|by intros ?%elem_of_nil]. }
  destruct (Z.eqb_spec st 1) as [->|]; [destruct serr as [e|]|]; cbn;
    (intros [Hin| ->%list_elem_of_singleton]%elem_of_app; [by intros ?%(Hf Hin)|]); [done| |done].
  by exists t.
Qed.

Lemma wlp_icon_Route node cfg networkID contracts now (m : Message) s :
  wlp (Icon.Route node cfg networkID contracts now m) (λ out s',
    out.1 = [] ∨ ∃ hash, icon_sends contracts m hash s s' ∧
      out = Icon.WaitForTxResult node hash (Message_MessageKey m) true) s.
Proof.
  apply wpx_bind, wlp_liftRes; [|intros e _; by left]. intros msg Hmsg.
  apply wpx_bind. eapply wpx_mono; [apply SendTransaction_sends_one|]. intros [hash|e] s' Hs; [|by left]. right.
  destruct Hs as (p & w & step & steps & bs & ? & ? & ? & _ & _ & _ & _ & _ & ?). exists hash. split; [|done]. by exists msg, p.
Qed.

Lemma icon_route_keys cfg networkID contracts a m s s' out :
  icon_route cfg networkID contracts a m s = Some (s', out) → Forall (λ c, cb_key c = Message_MessageKey m) out.1.
Proof.
  intros Hr. pose proof (wlp_icon_Route a.1 cfg networkID contracts a.2 m s) as Hw. unfold wpx, icon_route in *. rewrite Hr in Hw.
  destruct Hw as [->|(hash & _ & ->)]; [done|]. apply (icon_wait_lawful a.1 hash m).
Qed.

Lemma icon_route_evidence cfg networkID contracts a m s s' out c :
  icon_route cfg networkID contracts a m s = Some (s', out) → c ∈ out.1 → tr_Code (cb_response c) = Success →
  icon_evidence contracts a m s s'.
Proof.
  intros Hr. pose proof (wlp_icon_Route a.1 cfg networkID contracts a.2 m s) as Hw. unfold wpx, icon_route in *. rewrite Hr in Hw.
  destruct Hw as [->|(hash & Hs & ->)]; [by intros ?%elem_of_nil|]. intros Hin Hsu.
  destruct (icon_wait_success _ _ _ _ Hin Hsu) as [t Ht]. by exists hash, t.
Qed.

Lemma icon_route_lawful cfg networkID contracts a m s s' out :
  icon_route cfg networkID contracts a m s = Some (s', out) → route_law m out.
Proof.
  intros Hr. pose proof (wlp_icon_Route_law a.1 cfg networkID contracts a.2 m s) as Hw. unfold wpx, icon_route in *.
  by rewrite Hr in Hw.
Qed.

Definition icon_destination cfg networkID contracts :=
  logged_destination (icon_route cfg networkID contracts) (icon_evidence contracts)
    (icon_route_keys cfg networkID contracts) (icon_route_evidence cfg networkID contracts).

(** ** CosmWasm *)

(** A wait for an event that never comes does not return. *)
Definition wasm_route cfg (a : Wasm.WasmNode * Wasm.KeyEnv * gmap string string) (m : Message) (s : Wasm.WasmState) :=
  '(s', out) ← Wasm.Route a.1.1 a.1.2 cfg a.2 m s; Some (s', default ([], Panic) out).
Definition wasm_evidence cfg (a : Wasm.WasmNode * Wasm.KeyEnv * gmap string string) (m : Message) (s s' : Wasm.WasmState) : Prop :=
  ∃ tx t, wasm_sends a.1.1 cfg m tx s s' ∧ wasm_succeeds a.1.1 tx t.

Lemma wasm_wait_success node cfg key tx out c :
  Wasm.waitForTxResult node cfg key tx = Some out → c ∈ out.1 → tr_Code (cb_response c) = Success →
  ∃ t, wasm_succeeds node tx t.
Proof.
  unfold Wasm.waitForTxResult, Wasm.subscribeTxResult, wasm_succeeds.
  destruct (Wasm.SubscribeTx node (Wasm.sr_TxHash tx)) as [[[e|[t|e]]|]|e|]; try done; cbn;
    try (intros [= <-]; cbn; by intros ->%list_elem_of_singleton); [|by intros [= <-] ?%elem_of_nil].
  destruct (Z.eqb_spec (tr_ResultCode t mod 2 ^ 32) CodeTypeOK); intros [= <-]; [by exists t|].
  by intros ->%list_elem_of_singleton.
Qed.

Lemma wlp_wasm_Route node env cfg fs (m : Message) s :
  wlp (Wasm.Route node env cfg fs m) (λ out s',
    (∃ e, out = Some ([], Err e)) ∨ ∃ tx, wasm_sends node cfg m tx s s' ∧
      out = Wasm.waitForTxResult node cfg (Message_MessageKey m) tx) s.
Proof.
  apply wpx_bind. eapply wpx_mono; [apply call_spec|]. intros [tx|e] s1 Hs1; [|left; by exists e].
  destruct Hs1 as (w & sender & contract & raw & Hw1 & Hc & Hraw & Hs1 & Hacc).
  apply wpx_bind, wpx_gets. rewrite Hw1. apply wpx_bind, wpx_modify. right. exists tx. split; [|done].
  eexists _, _, _, _, _. split_and!; [exact Hs1|exact Hc|exact Hraw|exact Hacc|done|done].
Qed.

Lemma wasm_route_Some cfg a m s s' out : wasm_route cfg a m s = Some (s', out) →
  out.1 = [] ∨ ∃ tx, wasm_sends a.1.1 cfg m tx s s' ∧ Wasm.waitForTxResult a.1.1 cfg (Message_MessageKey m) tx = Some out.
Proof.
  intros Hr. pose proof (wlp_wasm_Route a.1.1 a.1.2 cfg a.2 m s) as Hw. unfold wpx, wasm_route in *.
  destruct (Wasm.Route a.1.1 a.1.2 cfg a.2 m s) as [[s1 o]|]; [|done]. injection Hr as <- <-.
  destruct Hw as [[e ->]|(tx & Hs & ->)]; [by left|].
  destruct (Wasm.waitForTxResult _ _ _ _) as [out|] eqn:E; [right; by exists tx|by left].
Qed.

Lemma wasm_route_keys cfg a m s s' out :
  wasm_route cfg a m s = Some (s', out) → Forall (λ c, cb_key c = Message_MessageKey m) out.1.
Proof.
  intros [->|(tx & _ & Hw)]%wasm_route_Some; [done|]. unfold Wasm.waitForTxResult in Hw.
  destruct (Wasm.subscribeTxResult _ _ _) as [[[r e]|e|]|]; [injection Hw as <-..|done]; by repeat constructor.
Qed.

Lemma wasm_route_evidence cfg a m s s' out c :
  wasm_route cfg a m s = Some (s', out) → c ∈ out.1 → tr_Code (cb_response c) = Success → wasm_evidence cfg a m s s'.
Proof.
  intros [->|(tx & Hs & Hw)]%wasm_route_Some; [by intros ?%elem_of_nil|]. intros Hin Hsu.
  destruct (wasm_wait_success _ _ _ _ _ _ Hw Hin Hsu) as [t Ht]. by exists tx, t.
Qed.

Lemma wasm_route_lawful_log cfg a m s s' out : wasm_route cfg a m s = Some (s', out) → route_law m out.
Proof.
  intros Hr. pose proof (wasm_route_lawful a.1.1 a.1.2 cfg a.2 m s) as Hw. unfold wpx, wasm_route in *.
  destruct (Wasm.Route a.1.1 a.1.2 cfg a.2 m s) as [[s1 o]|]; [|done]. injection Hr as <- <-.
  destruct o as [out|]; [by apply Hw|by split].
Qed.

Definition wasm_destination cfg :=
  logged_destination (wasm_route cfg) (wasm_evidence cfg) (wasm_route_keys cfg) (wasm_route_evidence cfg).

(** * Chains *)

(** A configured chain, with its provider. *)
Inductive Chain : Type :=
| EvmChain (nid : string) (cfg : Evm.Config) (contracts : list EventMap) (addresses topics : list string)
    (bindings : Evm.IClient)
| IconChain (nid : string) (cfg : Icon.Config) (networkID : HexInt) (contracts : list Icon.Contract)
| WasmChain (nid : string) (cfg : Wasm.Config) (contracts : list Wasm.Contract) (eventList : list Event).

Definition chain_nid (c : Chain) : string :=
  match c with EvmChain nid _ _ _ _ _ | IconChain nid _ _ _ | WasmChain nid _ _ _ => nid end.

Definition chain_node (c : Chain) : Type :=
  match c with
  | EvmChain _ _ _ _ _ _ => list ((Evm.IClient * Z) * Message * Evm.EvmState * Evm.EvmState)
  | IconChain _ _ _ _ => list ((Icon.IconNode * Z) * Message * Icon.IconState * Icon.IconState)
  | WasmChain _ _ _ _ => list ((Wasm.WasmNode * Wasm.KeyEnv * gmap string string) * Message * Wasm.WasmState * Wasm.WasmState)
  end.

Definition chain_destination (c : Chain) : Destination (chain_node c) :=
  match c return Destination (chain_node c) with
  | EvmChain _ cfg _ _ _ _ => evm_destination cfg
  | IconChain _ cfg networkID contracts => icon_destination cfg networkID contracts
  | WasmChain _ cfg _ _ => wasm_destination cfg
  end.

Lemma chain_lawful c n m out n' : routes (chain_destination c) n m out n' → route_law m out.
Proof.
  destruct c; intros (a & s & s' & Hr & _);
    [by eapply evm_route_lawful|by eapply icon_route_lawful|by eapply wasm_route_lawful_log].
Qed.

Section System.
Context {St : Type} `{StoreSpec St} `{CodecSpec Z}.
Context `{CodecSpec (RouteMessageOf Z)} `{CodecSpec (TransactionObjectOf Z)}.
Context {Builder Key Any : Type}.

Definition chain_side (c : Chain) : Type :=
  match c with
  | EvmChain _ _ _ _ _ _ => (World * bool)%type
  | IconChain _ _ _ _ => INode
  | WasmChain _ _ _ _ => WasmWorld
  end.

(** The listener of the chain beside an honest node; one of an EVM or ICON chain
    starts from [h0].  Of the hazards of EvmListener.v, of failing searches and
    subscriptions and of broken connections there may be any number. *)
Definition chain_feeder (c : Chain) (h0 : Z) : Feeder (St := St) (chain_side c) :=
  match c return Feeder (chain_side c) with
  | EvmChain nid cfg contracts addresses topics bindings => evm_watcher nid cfg contracts addresses topics bindings h0
  | IconChain nid cfg _ contracts => icon_feeder nid cfg contracts h0
  | WasmChain nid cfg contracts eventList => wasm_watcher (Builder := Builder) (Key := Key) (Any := Any) nid cfg contracts eventList
  end.

(** The message [m] was emitted on the chain, and its listener has come past it:
    it is up to date, and has met none of the hazards of EvmListener.v since it
    started (EVM); its connection has streamed the whole chain and was read
    (ICON); or it has scanned the range of heights the message is in, with a node
    that answers its searches, of which none matches a number of transactions
    above 25 that is a multiple of 25, and transactions that are all readable
    (CosmWasm). *)
Definition overtaken (c : Chain) (h0 : Z) : chain_side c → MessageOf Z → Prop :=
  match c return chain_side c → MessageOf Z → Prop with
  | EvmChain _ cfg contracts _ _ bindings => λ x m, let w := x.1 in
      x.2 = true ∧
      0 < Evm.c_BlockBatchSize cfg ∧ w_head w + Evm.c_BlockBatchSize cfg < 2 ^ 64 ∧ up_to_date (w_l w) ∧
      ∃ log b, log ∈ w_logs w ∧ h0 ≤ Evm.l_BlockNumber log ∧
        Evm.log_block bindings cfg contracts log = Some b ∧ m ∈ bi_Messages b
  | IconChain _ cfg _ contracts => λ w m,
      in_head w < 2 ^ 62 ∧ il_monitors (in_l w) = [MReading []] ∧ in_head w < in_pos w ∧
      ∃ h n msgs, (h, n) ∈ in_events w ∧ h0 ≤ h ∧ Icon.parseMessageEvent cfg contracts n = Ok msgs ∧ m ∈ msgs
  | WasmChain _ cfg contracts eventList => λ w m,
      ∃ node h matched event tx, range_scanned (Builder := Builder) (Key := Key) (Any := Any) cfg contracts eventList node h (ww_l w) ∧
        finds node eventList h matched ∧
        Forall (readable cfg) (found eventList matched) ∧
        event ∈ eventList ∧ tx ∈ matched event ∧ m ∈ read cfg tx
  end.

Lemma overtaken_sent c h0 w s hist m :
  fed (chain_nid c) (chain_feeder c h0) w s hist → overtaken c h0 w m →
  ∃ b, b ∈ feeds (chain_feeder c h0) w ∧ m ∈ bi_Messages b.
Proof.
  destruct c as [nid cfg contracts addresses topics bindings|nid cfg networkID contracts|nid cfg contracts eventList];
    cbn [chain_nid chain_feeder chain_side overtaken].
  - intros [_ Hr]%watched_reached (Hclear & ? & ? & ? & log & b & ? & ? & ? & ?). exists b. split; [|done].
    by eapply up_to_date_out; [| |by apply Hr| | | |].
  - intros Hf (? & ? & ? & h & n & msgs & ? & ? & ? & ?). exists (mkBlockInfo (m_MessageHeight m) [m]). split; [|by left].
    by eapply (iopen_out cfg contracts h0); [|eapply fed_ireached| | | | | |].
  - intros _ (node & h & matched & event & tx & ? & ? & ? & ? & ? & ?).
    exists (mkBlockInfo (hr_End h) (found eventList matched ≫= read cfg)). split.
    + eapply range_scanned_out; [done|]. by apply range_sent.
    + cbn. apply list_elem_of_bind. exists tx. split; [done|]. apply list_elem_of_bind. by exists event.
Qed.

(** The message [m] was emitted on the chain: it is what a log stands for, or an
    event of a transaction.  On a CosmWasm chain any contract can emit it: the
    code does not look at the address. *)
Definition emitted (c : Chain) : chain_side c → MessageOf Z → Prop :=
  match c return chain_side c → MessageOf Z → Prop with
  | EvmChain _ cfg contracts _ _ bindings => λ x m,
      ∃ log b, log ∈ w_logs x.1 ∧ Evm.log_block bindings cfg contracts log = Some b ∧ m ∈ bi_Messages b
  | IconChain _ cfg _ contracts => λ w m,
      ∃ h n msgs, (h, n) ∈ in_events w ∧ Icon.parseMessageEvent cfg contracts n = Ok msgs ∧ m ∈ msgs
  | WasmChain _ cfg _ _ => λ w m, wasm_emitted cfg w m
  end.

Lemma sent_emitted c h0 w s hist b m :
  fed (chain_nid c) (chain_feeder c h0) w s hist → b ∈ feeds (chain_feeder c h0) w → m ∈ bi_Messages b → emitted c w m.
Proof.
  destruct c as [nid cfg contracts addresses topics bindings|nid cfg networkID contracts|nid cfg contracts eventList];
    cbn [chain_nid chain_feeder chain_side emitted feeds evm_watcher icon_feeder wasm_watcher].
  - intros Hf Hb Hm. destruct (evm_sent_emitted cfg contracts addresses topics bindings (EvmListener.honest addresses topics) h0 w.1 b)
      as (log & ? & ?); [done|by eapply watched_reached|done|]. by exists log, b.
  - intros Hf Hb Hm. destruct (icon_sent_emitted cfg contracts h0 w b) as (h & n & msgs & m' & ? & ? & ? & ->);
      [by eapply fed_ireached|done|]. apply list_elem_of_singleton in Hm as ->. by exists h, n, msgs.
  - intros Hf Hb Hm. by eapply wasm_sent_emitted.
Qed.

(** Any number of them. *)
Context {I : Type} `{!EqDecision I} (chain : I → Chain).
Definition nid_of (i : I) : string := chain_nid (chain i).
Context `{!Inj (=) (=) nid_of}.
Abbreviation System := (Net (St := St) (L := λ i, chain_side (chain i)) (N := λ i, chain_node (chain i))).
Implicit Types (w : System).
(** The listeners of one life, which start from the heights [h0]. *)
Definition side_of (h0 : I → Z) i := chain_feeder (chain i) (h0 i).
Definition dest_of i := chain_destination (chain i).

(** C1: no message vanishes between the chains.  Run any number of EVM, ICON and
    CosmWasm chains with honest nodes around one relayer, with every interleaving
    of their listeners, the relayer's goroutines and timers, the parts of
    [Route], and the operators; end the relayer's process at any points, or have
    it die after any of its writes to the database, and start it again.  Take a
    message that the listener of its chain has come past in one of these lives,
    with an empty queue: an EVM listener that is up to date and has met none of
    the hazards of EvmListener.v (a subscription that opens late, an unknown
    height, a batch not fetched, a restart with no saved height or one beyond
    the blocks sent) since it started; an ICON listener whose one connection has
    streamed the whole chain and was read; a CosmWasm listener that has scanned
    the range the message is in, with searches that are answered and lose no
    page, and transactions that are readable.  It is accounted for from then on,
    in this life and all later ones: its row waits in the message store; or the
    chain that it names has executed it, or a message with the same source and
    serial number, which means that the node was handed exactly the call it
    stands for and confirmed it; or it was released by its expiry, by a router
    that finds its destination not configured or holding it already, or by an
    operator. *)
Theorem no_message_vanishes h0 w0 x x' i c m
  (Hlives : lives nid_of side_of dest_of h0 w0 x)
  (Hc : rl_chains (n_relayer x.2.2) !! nid_of i = Some c) (Hempty : listenerChan c = [])
  (Hm : overtaken (chain i) (x.2.1 i) (n_sides x.2.2 i) m)
  (Hlater : rtc (life_step nid_of side_of dest_of) x x') :
  is_Some (contents (rl_db (n_relayer x'.2.2)) !! wire_row m) ∨
  (∃ j m', m_Dst m' = nid_of j ∧ executed (dest_of j) (n_nodes x'.2.2 j) m' ∧ wire_row m' = wire_row m) ∨
  (∃ a s0, happened x' a s0 ∧ spontaneous a = true ∧ releases a s0 (wire_row m)).
Proof.
  destruct (lives_run nid_of side_of dest_of h0 w0 x Hlives) as [w1 Hrun].
  destruct (net_fed nid_of (side_of x.2.1) dest_of w1 x.2.2 i Hrun) as (hist & Hf & _).
  destruct (overtaken_sent _ _ _ _ _ _ Hf Hm) as (b & Hb & Hin). by eapply (lives_accounted nid_of side_of dest_of).
Qed.

(** C2: nothing is forged.  In the same runs, with any of these hazards, a chain
    only ever executes, through the relayer, messages that name it and that have
    an origin: they are what a log (EVM), an event notification (ICON) or an
    event of a transaction (CosmWasm) of one of the chains stands for, field by
    field, an operator or the finality check handed them to the relayer, in
    whatever life, or they were in the message store when the first one began.
    On a CosmWasm chain the event may be of any contract: the code does not look
    at its address. *)
Theorem nothing_forged h0 w0 x j m
  (Hlives : lives nid_of side_of dest_of h0 w0 x) (Hstart : ∀ m, ¬ executed (dest_of j) (n_nodes w0 j) m)
  (Hex : executed (dest_of j) (n_nodes x.2.2 j) m) :
  m_Dst m = nid_of j ∧
  ((∃ e i, e ∈ epochs x ∧ emitted (chain i) (n_sides e.2 i) m) ∨
   (∃ a s0, happened x a s0 ∧ given a m) ∨
   (∃ k v (r : RouteMessageOf Z), contents (rl_db (n_relayer w0)) !! k = Some v ∧ Unmarshal v = Ok r ∧ rm_Message r = m)).
Proof.
  destruct (lives_genuine nid_of side_of dest_of h0 w0 x Hlives) as [w1 Hg].
  destruct (genuine_executed _ _ _ _ _ _ _ _ Hg Hex) as [?|[Ho Hd]]; [by edestruct Hstart|].
  split; [done|]. destruct Ho as [e i b He ? ?|a s0 ? ?|k v r ? _ ? ?]; [left|right; left; by exists a, s0|right; right; by exists k, v, r].
  destruct (lives_runs nid_of side_of dest_of h0 w0 x Hlives e He) as [w2 Hrun].
  destruct (net_fed nid_of (side_of e.1) dest_of w2 e.2 i Hrun) as (hist & Hf & _). exists e, i. split; [done|]. by eapply sent_emitted.
Qed.


(** C4: an idle message can always be delivered.  From every state of such a run,
    with the same conditions on the rows, whatever has happened before and
    whatever else is in flight: when a message waits in a cache, its backoff is
    over, its chains want it, the destination does not have it, and the
    destination's [Route] would succeed, there is a way on to a state where the
    destination has executed it and it has left the cache and the message
    store. *)
Theorem idle_can_deliver h0 w0 x n k p r prov now j (b : BigInt) out n'
  (Hlives : lives nid_of side_of dest_of h0 w0 x)
  (Hrows : rows_idle (rl_db (n_relayer w0)))
  (Hput : always_stored x)
  (Hc : chain_cache (n_relayer x.2.2) n !! k = Some p)
  (Hp : rl_heap (n_relayer x.2.2) !! p = Some r)
  (Hidle : rm_Processing r = false)
  (Hsn : m_Sn (rm_Message r) = Some b)
  (Hdst : m_Dst (rm_Message r) = nid_of j)
  (Hready : ready prov now n r (n_relayer x.2.2) = true)
  (Hnew : MessageReceived (prov (nid_of j)) k = Ok false)
  (Hroute : routes (dest_of j) (n_nodes x.2.2 j) (rm_Message r) out n')
  (Hok : out.2 = Ok tt) :
  ∃ w', rtc (net_step nid_of (side_of x.2.1) dest_of) x.2.2 w' ∧
    executed (dest_of j) (n_nodes w' j) (message_wire (rm_Message r)) ∧
    (∀ nid' k', chain_cache (n_relayer w') nid' !! k' ≠ Some p) ∧
    contents (rl_db (n_relayer w')) !! row_of k = None.
Proof.
  eapply (lives_deliver nid_of side_of dest_of); [|done..]. intros i. apply chain_lawful.
Qed.

(** C5: a restart brings back what was stored.  When a life of such a run begins,
    with the same conditions on the rows, after an orderly end or a crash, with
    listeners that start from wherever they do: a message whose row the flush
    reads, one of the first [maxFlushMessage] rows of its source that is not
    stale, can be delivered by the new process, when its backoff is over, its
    chains want it, and the destination does not have it and would execute it:
    the destination executes it and its row leaves the store. *)
Theorem restart_can_deliver h0 w0 past h w n l m prov now j (b : Z)
  (Hlives : lives nid_of side_of dest_of h0 w0 (past, (h, w)))
  (Hrows : rows_idle (rl_db (n_relayer w0)))
  (Hput : always_stored (past, (h, w)))
  (Hbegins : net_initial (side_of h) w)
  (Hloads : ∀ x, is_Some (rl_chains (n_relayer w) !! x) → loads (rl_db (n_relayer w)) x)
  (Hn : is_Some (rl_chains (n_relayer w) !! n))
  (Hread : getActiveMessagesFromStore (rl_db (n_relayer w)) n maxFlushMessage = Ok l)
  (Hm : m ∈ l) (Hsn : m_Sn (rm_Message m) = Some b)
  (Hdst : m_Dst (rm_Message m) = nid_of j)
  (Hgo : ∀ r, route_wire r = m →
     ready prov now n r (n_relayer w) = true ∧ MessageReceived (prov (nid_of j)) (rm_key r) = Ok false ∧
     ∃ out n', routes (dest_of j) (n_nodes w j) (rm_Message r) out n' ∧ out.2 = Ok tt) :
  ∃ w', rtc (net_step nid_of (side_of h) dest_of) w w' ∧
    executed (dest_of j) (n_nodes w' j) (rm_Message m) ∧
    contents (rl_db (n_relayer w')) !! wire_row (rm_Message m) = None.
Proof.
  eapply (restart_delivers nid_of side_of dest_of); [|done..]. intros i. apply chain_lawful.
Qed.
End System.
