(* ===== verification/ChainsWitness.v ===== *)
(** An EVM and an ICON chain around one relayer, whose database records its
    writes: a message of the first is executed on the second, another one waits
    in the message store, and the relayer is restarted, or dies. *)
From stdpp Require Import gmap strings list relations.
From Stdlib Require Import ZArith Lia.
From S2P Require Import Prelude GoStd Types Store LvlDB Concrete Provider Relay RelaySystem RelayCorrect RelayFrame Custody Feed Network Marks Lives RelayWitness.
From S2P Require Import EvmNonce Evm EvmCorrect EvmWitness EvmListener EvmListenerWitness Pipeline.
From S2P Require Import IconTypes Icon IconWitness IconMonitor IconMonitorWitness IconPipeline PipelineWitness Chains.
Import BlockStore MessageStore.
Open Scope Z_scope.

Abbreviation JDB := (Journal MemDB).
Lemma jdb_healthy (db : JDB) : healthy db.
Proof. exact I. Defined.

Definition chain (b : bool) : Chain :=
  if b then EvmChain "0x1.eth" EvmWitness.cfg map_of addresses topics binds
  else IconChain "0x2.icon" IconWitness.cfg "0x1" IconWitness.contracts.

#[export] Instance chain_inj : Inj (=) (=) (nid_of chain).
Proof. by intros [|] [|]. Qed.

(** The heights that the listeners start from. *)
Definition start2 (b : bool) : Z := if b then 5 else 2.

Abbreviation sides2 := (side_of (St := JDB) (Builder := string) (Key := string) (Any := string) chain).
Abbreviation steps2 := (net_step (nid_of chain) (sides2 start2) (dest_of chain)).
Abbreviation run2 := (net_run (nid_of chain) (sides2 start2) (dest_of chain)).
Abbreviation lives2 := (lives (nid_of chain) sides2 (dest_of chain)).
Abbreviation life_step2 := (life_step (nid_of chain) sides2 (dest_of chain)).

(** A run is the first life. *)
Lemma run_lives w0 w : run2 w0 w → lives2 start2 w0 ([], (start2, w)).
Proof.
  intros [Hi Hr]. split; [done|]. revert Hr. apply (rtc_ind_r (λ w, rtc life_step2 ([], (start2, w0)) ([], (start2, w)))); [apply rtc_refl|].
  intros y z _ Hs IH. eapply rtc_r; [exact IH|by constructor].
Qed.
Lemma first_stored (w : Net (St := JDB) (L := λ b, chain_side (chain b)) (N := λ b, chain_node (chain b))) : puts_back_stored w → always_stored ([], (start2, w)).
Proof. by intros Hw e ->%list_elem_of_singleton. Qed.

(** * Running it *)

Record Sys := mkSys {
  y_evm : World;
  y_icon : INode;
  y_rly : Relayer JDB;
  y_ran : list ((Icon.IconNode * Z) * Message * Icon.IconState * Icon.IconState);
  y_routing : gmap positive (list CallbackCall * res unit);
  y_hist : list (action * Relayer JDB) }.

Definition to_net (y : Sys) : Net (L := λ b, chain_side (chain b)) (N := λ b, chain_node (chain b)) :=
  mkNet (λ b, match b return chain_side (chain b) with true => (y_evm y, true) | false => y_icon y end) (y_rly y)
    (λ b, match b return chain_node (chain b) with true => [] | false => y_ran y end) (y_routing y) (y_hist y).

Inductive yact : Type :=
| YEvm (a : act)
| YRelays (a : action)
| YRoute (k : nat) (a : Icon.IconNode * Z) (s : Icon.IconState)
| YCallback (k : nat) (prov : string → ChainProvider)
| YReturn (k : nat).

Definition ystep (a : yact) (y : Sys) : option Sys :=
  let s := y_rly y in
  match a with
  | YEvm a =>
      w ← evm_src a s (y_evm y); s' ← RelaySystem.exec true (Feed.sends "0x1.eth" (evm5_on JDB) (y_evm y) w) s;
      Some (mkSys w (y_icon y) s' (y_ran y) (y_routing y) (y_hist y))
  | YRelays a =>
      if spontaneous a then
        s' ← RelaySystem.exec true [a] s; Some (mkSys (y_evm y) (y_icon y) s' (y_ran y) (y_routing y) (y_hist y ++ [(a, s)]))
      else None
  | YRoute k a st =>
      match rl_tasks s !! k with
      | Some (mkTask p dst src true) =>
          match bool_decide (dst = "0x2.icon"), y_routing y !! p, rl_heap s !! p with
          | true, None, Some r =>
              '(st', out) ← icon_route IconWitness.cfg "0x1" IconWitness.contracts a (rm_Message r) st;
              Some (mkSys (y_evm y) (y_icon y) s (y_ran y ++ [(a, rm_Message r, st, st')]) (<[p := out]> (y_routing y)) (y_hist y))
          | _, _, _ => None
          end
      | _ => None
      end
  | YCallback k prov =>
      match rl_tasks s !! k with
      | Some (mkTask p dst src true) =>
          match y_routing y !! p with
          | Some (c :: calls, r) =>
              let a := TaskCallback prov src dst (cb_key c) (cb_response c) (cb_err c) in
              s' ← RelaySystem.exec true [a] s;
              Some (mkSys (y_evm y) (y_icon y) s' (y_ran y) (<[p := (calls, r)]> (y_routing y)) (y_hist y ++ [(a, s)]))
          | _ => None
          end
      | _ => None
      end
  | YReturn k =>
      match rl_tasks s !! k with
      | Some (mkTask p dst src true) =>
          match y_routing y !! p with
          | Some ([], Ok _) =>
              let a := TaskReturn k None in
              s' ← RelaySystem.exec true [a] s;
              Some (mkSys (y_evm y) (y_icon y) s' (y_ran y) (delete p (y_routing y)) (y_hist y ++ [(a, s)]))
          | _ => None
          end
      | _ => None
      end
  end.

Fixpoint yrun (l : list yact) (y : Sys) : option Sys :=
  match l with [] => Some y | a :: l => y ← ystep a y; yrun l y end.

Lemma ystep_net a y y' : ystep a y = Some y' → steps2 (to_net y) (to_net y').
Proof.
  destruct y as [w i s ran routing hist]. destruct a as [a|a|k a st|k prov|k]; cbn -[RelaySystem.exec icon_route spontaneous].
  - destruct (evm_src a s w) as [w'|] eqn:Ha; [|done]. cbn -[RelaySystem.exec].
    destruct (RelaySystem.exec _ _ s) as [s'|] eqn:He; [|done]. intros [= <-].
    apply (net_source _ _ _ (to_net (mkSys w i s ran routing hist)) true
      (λ b, match b return chain_side (chain b) with true => (w', true) | false => i end)); [by apply evm_step_watched, (evm_src_steps a)|by intros [|]|done].
  - destruct (spontaneous a) eqn:Hs; [|done]. destruct (RelaySystem.exec true [a] s) as [s'|] eqn:He; [|done]. intros [= <-].
    by apply (net_acts _ _ _ (to_net (mkSys w i s ran routing hist))).
  - destruct (rl_tasks s !! k) as [[p dst src [|]]|] eqn:Hk; [|done..].
    destruct (decide (dst = "0x2.icon")) as [->|]; [rewrite bool_decide_true by done|by rewrite bool_decide_false].
    destruct (routing !! p) eqn:Hp; [done|]. destruct (rl_heap s !! p) as [r|] eqn:Hr; [|done].
    destruct (icon_route _ _ _ _ _ _) as [[st' out]|] eqn:Ho; [|done]. intros [= <-].
    apply (net_route _ _ _ (to_net (mkSys w i s ran routing hist)) false k p src r out
      (λ b, match b return chain_node (chain b) with true => [] | false => ran ++ [(a, rm_Message r, st, st')] end)); [done..| |by intros [|]].
    by exists a, st, st'.
  - destruct (rl_tasks s !! k) as [[p dst src [|]]|] eqn:Hk; [|done..].
    destruct (routing !! p) as [[[|c calls] r]|] eqn:Hp; [done| |done].
    destruct (RelaySystem.exec _ _ s) as [s'|] eqn:He; [|done]. intros [= <-].
    by apply (net_callback _ _ _ (to_net (mkSys w i s ran routing hist)) k p dst src c calls r prov s').
  - destruct (rl_tasks s !! k) as [[p dst src [|]]|] eqn:Hk; [|done..].
    destruct (routing !! p) as [[[|c calls] [[]| |]]|] eqn:Hp; try done.
    destruct (RelaySystem.exec _ _ s) as [s'|] eqn:He; [|done]. intros [= <-].
    by apply (net_return _ _ _ (to_net (mkSys w i s ran routing hist)) k p dst src (Ok tt) s').
Qed.

Lemma yrun_net l y y' : yrun l y = Some y' → rtc steps2 (to_net y) (to_net y').
Proof.
  revert y. induction l as [|a l IH]; intros y; cbn [yrun]; [by intros [= <-]|].
  destruct (ystep a y) as [y1|] eqn:Ha; [|done]. intros Hl. eapply rtc_l; [by eapply ystep_net|by apply IH].
Qed.

(** * A run *)

(** The message of block 6 is taken, routed and executed; that of block 8 is
    taken and waits. *)
Definition yrly : Relayer JDB :=
  mkRelayer (mkJournal ∅ []) {[ "0x1.eth" := mkChainRuntime [] 0 5 ∅; "0x2.icon" := mkChainRuntime [] 0 2 ∅ ]} ∅ 1 [].
Definition begun2 : Sys := mkSys EvmListenerWitness.begun IconMonitorWitness.begun yrly [] ∅ [].
Definition story2 : list yact :=
  [YEvm (Do Tick); YEvm (Do (Opened 0 (Ok tt))); YEvm (AskHeight true); YEvm (AskBatch true); YEvm (Do Send);
   YRelays (ProcessBlock "0x1.eth"); YEvm (Do ScanDone); YEvm (Mine [log_at 8]); YEvm (Do (SubLog 0));
   YRelays (ProcessBlock "0x1.eth");
   YRelays (Router (at_height 9) (10 ^ 12) both [("0x1.eth", [key6]); ("0x2.icon", [])] routeTimer);
   YRelays (TaskStart (10 ^ 12) 0); YRoute 0 (IconWitness.node, 10 ^ 12) IconWitness.state0;
   YCallback 0 (at_height 9); YReturn 0].
Definition ended2 : Sys := default begun2 (yrun story2 begun2).

Lemma begun2_initial : net_initial (sides2 start2) (to_net begun2).
Proof.
  split; [| |apply jdb_healthy|done..].
  - intros [|]; cbn.
    + split; [|done]. split; [|by exists (EvmListenerWitness.chain_node (Ok 7) (Err ""))].
      split_and!; [cbn; lia..| |done]. intros log [->|?%elem_of_nil]%elem_of_cons; [cbn; lia|done].
    + split; [split_and!; [cbn; lia..|done|by repeat constructor]|]. exists (icon_node 4). vm_compute. reflexivity.
  - split_and!; [done..|]. intros n c. cbn [to_net begun2 n_relayer y_rly yrly rl_chains].
    intros [[_ <-]|[_ [_ <-]%lookup_singleton_Some]]%lookup_insert_Some; done.
Qed.

Lemma story2_runs : is_ok (deref (yrun story2 begun2)) = true.
Proof. vm_compute. reflexivity. Qed.

Lemma ended2_run : run2 (to_net begun2) (to_net ended2).
Proof.
  split; [exact begun2_initial|]. apply (yrun_net story2). unfold ended2. pose proof story2_runs as Hr.
  by destruct (yrun story2 begun2).
Qed.

Definition waits (h : Z) : bool := is_ok (deref (contents (rl_db (y_rly ended2)) !! wire_row (sent_message h))).
Lemma ended2_rows : waits 6 = false ∧ waits 8 = true.
Proof. vm_compute. auto. Qed.
Definition chain2 : ChainRuntime := default (mkChainRuntime [] 0 0 ∅) (rl_chains (y_rly ended2) !! "0x1.eth").
Lemma ended2_queue : rl_chains (y_rly ended2) !! "0x1.eth" = Some chain2 ∧ listenerChan chain2 = [].
Proof. split; vm_compute; reflexivity. Qed.
Lemma ended2_evm : up_to_date (w_l (y_evm ended2)) ∧ w_head (y_evm ended2) + Evm.c_BlockBatchSize EvmWitness.cfg < 2 ^ 64 ∧
  log_at 6 ∈ w_logs (y_evm ended2).
Proof. split_and!; [split; vm_compute; reflexivity|vm_compute; reflexivity|vm_compute; repeat (constructor; try reflexivity)]. Qed.

Lemma ended2_overtaken : overtaken (Builder := string) (Key := string) (Any := string) (chain true) (start2 true) (y_evm ended2, true) (sent_message 6).
Proof.
  destruct ended2_evm as (? & ? & ?). split_and!; [done..|]. exists (log_at 6), (mkBlockInfo 6 [sent_message 6]).
  split_and!; [done|cbn; lia|vm_compute; reflexivity|by left].
Qed.

(** * A restart *)

(** The relayer is ended and starts again, when the EVM chain has ten blocks more
    and the ICON chain two: no height was saved, so that the listeners start
    from the last final ones. *)
Definition start3 (b : bool) : Z := if b then 8 else 4.
Definition reopened (db : gmap string string) : JDB := mkJournal db [].
Definition reborn_on (db : JDB) : Relayer JDB :=
  match NewRelayer db (Some <$> both) false with Ok s => s | _ => yrly end.
Definition disk2 : gmap string string := contents (rl_db (y_rly ended2)).
Definition reborn_rly : Relayer JDB := reborn_on (reopened disk2).
Definition again (s : Relayer JDB) (ran : list ((Icon.IconNode * Z) * Message * Icon.IconState * Icon.IconState)) : Sys :=
  mkSys (mkWorld 18 (w_logs (y_evm ended2)) (Listener_begin 8))
    (mkINode 4 [(2, IconMonitorWitness.note 2 7)] 0 (IListener_begin IconWitness.contracts 4)) s ran ∅ [].
Definition reborn2 : Sys := again reborn_rly (y_ran ended2).

Lemma reborn_on_new db : is_ok (NewRelayer db (Some <$> both) false) = true → NewRelayer db (Some <$> both) false = Ok (reborn_on db).
Proof. unfold reborn_on. by destruct (NewRelayer _ _ _). Qed.
Lemma reborn_new : NewRelayer (reopened disk2) (Some <$> both) false = Ok reborn_rly.
Proof. apply (reborn_on_new (reopened disk2)). vm_compute. reflexivity. Qed.

Definition is_Panic {A} (r : res A) : bool := match r with Panic => true | _ => false end.

(** A relayer started again on two networks is at its beginning, with these
    networks. *)
Lemma resumed db a b (s : Relayer JDB) : NewRelayer db (Some <$> [a; b]) false = Ok s →
  is_Panic (GetLastStoredBlock prefixBlockStore db a) = false → is_Panic (GetLastStoredBlock prefixBlockStore db b) = false →
  initial s ∧ ∀ n, is_Some (rl_chains s !! n) → n = a ∨ n = b.
Proof.
  intros Hn Ha Hb. destruct (NewRelayer_resumes db [a; b] false (jdb_healthy _)) as (s' & Hs & Hi & Hk & _).
  - intros n Hin Hp. rewrite !elem_of_cons in Hin. destruct Hin as [->|[->|[]%elem_of_nil]]; [by rewrite Hp in Ha|by rewrite Hp in Hb].
  - rewrite Hn in Hs. injection Hs as <-. split; [done|]. intros n [c Hc]. specialize (Hk n). unfold saved_height in Hk.
    rewrite Hc in Hk. case_decide as Hin; [|done]. rewrite !elem_of_cons in Hin. destruct Hin as [->|[->|[]%elem_of_nil]]; auto.
Qed.
Lemma reborn_heights : is_Panic (GetLastStoredBlock prefixBlockStore (reopened disk2) "0x1.eth") = false ∧
  is_Panic (GetLastStoredBlock prefixBlockStore (reopened disk2) "0x2.icon") = false.
Proof. vm_compute. auto. Qed.
Lemma reborn_resumed : initial reborn_rly ∧ ∀ n, is_Some (rl_chains reborn_rly !! n) → n = "0x1.eth" ∨ n = "0x2.icon".
Proof. exact (resumed _ _ _ _ reborn_new (proj1 reborn_heights) (proj2 reborn_heights)). Qed.

Lemma again_initial s ran : initial s → versions (rl_db s) = [] →
  last_saved "0x1.eth" s = 0 → last_saved "0x2.icon" s = 0 → net_initial (sides2 start3) (to_net (again s ran)).
Proof.
  intros Hi Hv He Hic. split; [|exact Hi|apply jdb_healthy|exact Hv|done..]. intros [|]; cbn -[ended2 last_saved].
  - split; [|done]. split; [|exists (EvmListenerWitness.chain_node (Ok 18) (Err "")); rewrite He; vm_compute; reflexivity].
    split_and!; [cbn; lia..| |done]. apply (Forall_forall (λ log, Evm.l_BlockNumber log ≤ 18)). vm_compute. repeat (constructor; try discriminate).
  - split; [split_and!; [cbn; lia..|done|by repeat constructor]|]. exists (icon_node 4). rewrite Hic. vm_compute. reflexivity.
Qed.
Lemma reborn_initial : net_initial (sides2 start3) (to_net reborn2).
Proof. apply again_initial; [exact (proj1 reborn_resumed)|vm_compute; reflexivity..]. Qed.

Lemma reborn_restarts : restarts sides2 (to_net ended2) start3 (to_net reborn2).
Proof. split; [exact reborn_initial|]. split; [exists (reopened disk2), both; split; [reflexivity|exact reborn_new]|reflexivity]. Qed.

(** The first life and the second. *)
Abbreviation Life2 := ((bool → Z) * Net (St := JDB) (L := λ b, chain_side (chain b)) (N := λ b, chain_node (chain b)))%type.
Definition first2 : list Life2 * Life2 := ([], (start2, to_net ended2)).
Definition second2 : list Life2 * Life2 := ([(start2, to_net ended2)], (start3, to_net reborn2)).
Lemma first_second : rtc life_step2 first2 second2.
Proof. apply rtc_once. exact (life_restarts (nid_of chain) sides2 (dest_of chain) [] start2 (to_net ended2) start3 (to_net reborn2) reborn_restarts). Qed.

(** After the restart too: the message of block 6 is not in the store. *)
Lemma no_message_vanishes_witness :
  is_ok (deref (contents (rl_db reborn_rly) !! wire_row (sent_message 6))) = false ∧
  (is_Some (contents (rl_db reborn_rly) !! wire_row (sent_message 6)) ∨
   (∃ j m', m_Dst m' = nid_of chain j ∧ executed (dest_of chain j) (n_nodes (to_net reborn2) j) m' ∧
      wire_row m' = wire_row (sent_message 6)) ∨
   (∃ a s0, happened second2 a s0 ∧ spontaneous a = true ∧ releases a s0 (wire_row (sent_message 6)))).
Proof.
  split; [vm_compute; reflexivity|].
  exact (no_message_vanishes (Builder := string) (Key := string) (Any := string) chain start2 (to_net begun2) first2 second2 true chain2
    (sent_message 6) (run_lives _ _ ended2_run) (proj1 ended2_queue) (proj2 ended2_queue) ended2_overtaken first_second).
Defined.

(** The node was handed the call and confirmed it. *)
Definition confirmed (y : Sys) : bool :=
  match y_ran y with
  | [(a, m, s, s')] =>
      match icon_route IconWitness.cfg "0x1" IconWitness.contracts a m s with
      | Some (_, ([c], _)) => tr_Code (cb_response c) =? Success
      | _ => false
      end
  | _ => false
  end.
Definition recorded (y : Sys) : Prop :=
  match y_ran y with
  | [(a, m, s, s')] => fst <$> icon_route IconWitness.cfg "0x1" IconWitness.contracts a m s = Some s' ∧ message_wire m = sent_message 6
  | _ => False
  end.
Lemma confirmed_executed y : confirmed y = true → recorded y → executed (dest_of chain false) (n_nodes (to_net y) false) (sent_message 6).
Proof.
  intros Hc Hr. change (logged_executed (icon_evidence IconWitness.contracts) (y_ran y) (sent_message 6)). unfold confirmed, recorded in *.
  destruct (y_ran y) as [|[[[a m] s] s'] [|]]; [done| |done]. destruct Hr as [Hr Hm].
  destruct (icon_route _ _ _ a m s) as [[s1 [[|c [|]] r]]|] eqn:E; try done. injection Hr as ->. apply Z.eqb_eq in Hc.
  eexists a, m, s, s'. split_and!; [by left|done|]. eapply icon_route_evidence; [exact E|by left|done].
Qed.
Lemma ended2_recorded : confirmed ended2 = true ∧ recorded ended2.
Proof. vm_compute. auto. Qed.
Lemma ended2_executed : executed (dest_of chain false) (n_nodes (to_net ended2) false) (sent_message 6).
Proof. exact (confirmed_executed _ (proj1 ended2_recorded) (proj2 ended2_recorded)). Qed.

Lemma begun2_executed m : ¬ executed (dest_of chain false) (n_nodes (to_net begun2) false) m.
Proof. intros (a & m' & s & s' & Hin & _). cbn in Hin. by apply elem_of_nil in Hin. Qed.

Lemma second_lives : lives2 start2 (to_net begun2) second2.
Proof. split; [exact begun2_initial|]. etrans; [exact (proj2 (run_lives _ _ ended2_run))|exact first_second]. Qed.

Lemma nothing_forged_witness :
  m_Dst (sent_message 6) = "0x2.icon" ∧
  ((∃ e i, e ∈ epochs second2 ∧ emitted (chain i) (n_sides e.2 i) (sent_message 6)) ∨
   (∃ a s0, happened second2 a s0 ∧ given a (sent_message 6)) ∨
   (∃ k v (r : RouteMessageOf Z), contents (rl_db (n_relayer (to_net begun2))) !! k = Some v ∧ Unmarshal v = Ok r ∧
      rm_Message r = sent_message 6)).
Proof.
  exact (nothing_forged (Builder := string) (Key := string) (Any := string) chain start2 (to_net begun2) second2 false (sent_message 6)
    second_lives begun2_executed ended2_executed).
Defined.

(** * On the way *)

Lemma yrun_run l y : yrun l begun2 = Some y → run2 (to_net begun2) (to_net y).
Proof. intros Hl. split; [exact begun2_initial|]. by eapply yrun_net. Qed.

Lemma begun2_rows : rows_idle (rl_db (n_relayer (to_net begun2))).
Proof. apply rows_ok_opened; [apply jdb_healthy|done|]. intros k v m. cbn. by rewrite lookup_empty. Qed.

Lemma no_rows_back y : forallb (λ x, negb (is_RelayRow x.1)) (y_hist y) = true → puts_back_stored (to_net y).
Proof.
  intros Hall%Is_true_true_2 a s0 Hin. apply forallb_True in Hall. rewrite Forall_forall in Hall.
  specialize (Hall (a, s0) Hin). by destruct a.
Qed.

(** Both messages are taken, and neither is routed. *)
Definition taken2 : Sys := default begun2 (yrun (take 10 story2) begun2).
(** The goroutine of the first has called [Route]. *)
Definition routing2 : Sys := default begun2 (yrun (take 13 story2) begun2).

Lemma taken2_runs : is_ok (deref (yrun (take 10 story2) begun2)) = true.
Proof. vm_compute. reflexivity. Qed.
Lemma taken2_run : run2 (to_net begun2) (to_net taken2).
Proof. apply (yrun_run (take 10 story2)). unfold taken2. pose proof taken2_runs. by destruct (yrun (take 10 story2) begun2). Qed.
Lemma taken2_stored : puts_back_stored (to_net taken2).
Proof. apply no_rows_back. vm_compute. reflexivity. Qed.

Definition pointer6 (y : Sys) : positive := default 1%positive (chain_cache (y_rly y) "0x1.eth" !! key6).
Definition route6 (y : Sys) : Types.RouteMessage :=
  default (NewRouteMessage (message_alloc 1 (sent_message 6))) (rl_heap (y_rly y) !! pointer6 y).
Lemma taken2_cached : chain_cache (y_rly taken2) "0x1.eth" !! key6 = Some (pointer6 taken2) ∧
  rl_heap (y_rly taken2) !! pointer6 taken2 = Some (route6 taken2).
Proof. vm_compute. auto. Qed.


Lemma taken2_ready : rm_Processing (route6 taken2) = false ∧ m_Dst (rm_Message (route6 taken2)) = "0x2.icon" ∧
  ready (at_height 9) (10 ^ 12) "0x1.eth" (route6 taken2) (y_rly taken2) = true ∧
  MessageReceived (at_height 9 "0x2.icon") key6 = Ok false.
Proof. vm_compute. auto. Qed.
Definition sn6 : BigInt := default (mkBigInt 1 0) (m_Sn (rm_Message (route6 taken2))).
Lemma taken2_sn : m_Sn (rm_Message (route6 taken2)) = Some sn6.
Proof. vm_compute. reflexivity. Qed.

Definition routed6 : option (Icon.IconState * (list CallbackCall * res unit)) :=
  icon_route IconWitness.cfg "0x1" IconWitness.contracts (IconWitness.node, 10 ^ 12) (rm_Message (route6 taken2)) IconWitness.state0.
Definition state6 : Icon.IconState := from_option fst IconWitness.state0 routed6.
Definition out6 : list CallbackCall * res unit := from_option snd ([], Panic) routed6.
Lemma routed6_ok : is_ok (deref routed6) = true ∧ out6.2 = Ok tt.
Proof. vm_compute. auto. Qed.
Lemma routed6_routes : routes (dest_of chain false) (n_nodes (to_net taken2) false) (rm_Message (route6 taken2)) out6
  (y_ran taken2 ++ [((IconWitness.node, 10 ^ 12), rm_Message (route6 taken2), IconWitness.state0, state6)]).
Proof.
  exists (IconWitness.node, 10 ^ 12), IconWitness.state0, state6. split; [|done]. change (routed6 = Some (state6, out6)).
  pose proof (proj1 routed6_ok) as Hok. unfold state6, out6. destruct routed6 as [[]|]; [done|discriminate].
Qed.

Lemma idle_can_deliver_witness :
  ∃ w', rtc steps2 (to_net taken2) w' ∧
    executed (dest_of chain false) (n_nodes w' false) (message_wire (rm_Message (route6 taken2))) ∧
    (∀ nid' k', chain_cache (n_relayer w') nid' !! k' ≠ Some (pointer6 taken2)) ∧
    contents (rl_db (n_relayer w')) !! row_of key6 = None.
Proof.
  destruct taken2_ready as (Hidle & Hdst & Hready & Hnew).
  exact (idle_can_deliver (Builder := string) (Key := string) (Any := string) chain start2 (to_net begun2)
    ([], (start2, to_net taken2)) "0x1.eth" key6 (pointer6 taken2) (route6 taken2) (at_height 9) (10 ^ 12) false sn6 out6 _
    (run_lives _ _ taken2_run) begun2_rows (first_stored _ taken2_stored)
    (proj1 taken2_cached) (proj2 taken2_cached) Hidle taken2_sn Hdst Hready Hnew routed6_routes (proj2 routed6_ok)).
Defined.

(** * After the restart *)

Lemma ended2_stored : puts_back_stored (to_net ended2).
Proof. apply no_rows_back. vm_compute. reflexivity. Qed.

Lemma second_stored : always_stored second2.
Proof. intros e [->| ->%list_elem_of_singleton]%elem_of_cons; [exact ended2_stored|]. by intros a s0 ?%elem_of_nil. Qed.

(** What the flush of the second life reads. *)
Definition read8 : list (RouteMessageOf Z) :=
  match getActiveMessagesFromStore (rl_db reborn_rly) "0x1.eth" maxFlushMessage with Ok l => l | _ => [] end.
Definition row8 : RouteMessageOf Z := mkRouteMessage (sent_message 8) 0 false 0.
Lemma read8_row : read8 = [row8].
Proof. vm_compute. reflexivity. Qed.
Lemma reborn_rows : loads (rl_db reborn_rly) "0x1.eth" ∧ loads (rl_db reborn_rly) "0x2.icon".
Proof. split; eexists; (split; [vm_compute; reflexivity|by repeat constructor]). Qed.
Lemma reborn_loads n : is_Some (rl_chains (n_relayer (to_net reborn2)) !! n) → loads (rl_db (n_relayer (to_net reborn2))) n.
Proof. intros Hn. destruct (proj2 reborn_resumed n Hn) as [->| ->]; [exact (proj1 reborn_rows)|exact (proj2 reborn_rows)]. Qed.

(** The route of the message to the ICON node, wherever its serial number
    lies. *)
Lemma routes8 a : ∃ out n', routes (dest_of chain false) (n_nodes (to_net reborn2) false) (message_alloc a (sent_message 8)) out n' ∧
  out.2 = Ok tt.
Proof.
  assert (match icon_route IconWitness.cfg "0x1" IconWitness.contracts (IconWitness.node, 10 ^ 12) (message_alloc a (sent_message 8))
    IconWitness.state0 with Some (_, (_, Ok _)) => True | _ => False end) as Hr by (vm_compute; exact I).
  destruct (icon_route _ _ _ _ _ _) as [[st [calls [[]| |]]]|] eqn:E; try done.
  exists (calls, Ok tt), (y_ran ended2 ++ [((IconWitness.node, 10 ^ 12), message_alloc a (sent_message 8), IconWitness.state0, st)]).
  split; [|done]. by exists (IconWitness.node, 10 ^ 12), IconWitness.state0, st.
Qed.

Lemma restart_can_deliver_witness :
  ∃ w', rtc (net_step (nid_of chain) (sides2 start3) (dest_of chain)) (to_net reborn2) w' ∧
    executed (dest_of chain false) (n_nodes w' false) (sent_message 8) ∧
    contents (rl_db (n_relayer w')) !! wire_row (sent_message 8) = None.
Proof.
  apply (restart_can_deliver (Builder := string) (Key := string) (Any := string) chain start2 (to_net begun2)
    [(start2, to_net ended2)] start3 (to_net reborn2) "0x1.eth" read8 row8 (at_height 9) (10 ^ 12) false 8).
  - exact second_lives.
  - exact begun2_rows.
  - exact second_stored.
  - exact reborn_initial.
  - exact reborn_loads.
  - vm_compute. by eexists.
  - vm_compute. reflexivity.
  - rewrite read8_row. by left.
  - reflexivity.
  - reflexivity.
  - intros [[dst src [[a z]|] data mh et rq] retry pr lt]; [|discriminate]. intros [= -> -> -> -> -> -> -> -> -> ->].
    split; [vm_compute; reflexivity|]. split; [reflexivity|]. exact (routes8 a).
Defined.

(** * A crash *)

(** The chains have a finality period, so that a success is two writes: the
    transaction is recorded, then the row of the message goes.  The process
    dies between the two. *)
Definition at_final (h : Z) (nid : string) : ChainProvider := {|
  QueryLatestHeight := Ok h;
  QueryTransactionReceipt _ := Err "no"; Route _ := ([], Ok tt);
  ShouldReceiveMessage _ := Ok true; ShouldSendMessage _ := Ok true; MessageReceived _ := Ok false;
  FinalityBlock := 3; GenerateMessages _ := Err "no"; p_RevertMessage _ := Ok tt; p_GetFee _ _ := Ok 0;
  p_SetFee _ _ _ := Ok tt; p_ClaimFee := Ok tt |}.
Definition called2 : Sys := default routing2 (ystep (YCallback 0 (at_final 9)) routing2).
Definition writes6 : list (gmap string string) :=
  drop (length (versions (rl_db (y_rly routing2)))) (versions (rl_db (y_rly called2))).
Definition disk6 : gmap string string := default ∅ (head writes6).
Definition reborn6 : Relayer JDB := reborn_on (reopened disk6).
Definition died2 : Sys := again reborn6 (y_ran called2).

Lemma called2_runs : is_ok (deref (ystep (YCallback 0 (at_final 9)) routing2)) = true.
Proof. vm_compute. reflexivity. Qed.
Lemma called2_step : steps2 (to_net routing2) (to_net called2).
Proof.
  apply (ystep_net (YCallback 0 (at_final 9))). unfold called2. pose proof called2_runs.
  by destruct (ystep (YCallback 0 (at_final 9)) routing2).
Qed.
Lemma writes6_two : length writes6 = 2%nat.
Proof. vm_compute. reflexivity. Qed.
Lemma disk6_written : disk6 ∈ written (to_net routing2) (to_net called2).
Proof. change (disk6 ∈ writes6). unfold disk6. pose proof writes6_two. destruct writes6 as [|c l]; [done|by left]. Qed.
Lemma reborn6_new : NewRelayer (reopened disk6) (Some <$> both) false = Ok reborn6.
Proof. apply (reborn_on_new (reopened disk6)). vm_compute. reflexivity. Qed.
Lemma reborn6_heights : is_Panic (GetLastStoredBlock prefixBlockStore (reopened disk6) "0x1.eth") = false ∧
  is_Panic (GetLastStoredBlock prefixBlockStore (reopened disk6) "0x2.icon") = false.
Proof. vm_compute. auto. Qed.

Lemma dies_in_callback : life_step2 ([], (start2, to_net routing2)) ([(start2, to_net called2)], (start3, to_net died2)).
Proof.
  refine (life_dies (nid_of chain) sides2 (dest_of chain) [] start2 _ _ disk6 start3 (to_net died2) called2_step disk6_written _).
  split; [|split; [exists (reopened disk6), both; split; [reflexivity|exact reborn6_new]|reflexivity]].
  apply again_initial; [|vm_compute; reflexivity..].
  exact (proj1 (resumed _ _ _ _ reborn6_new (proj1 reborn6_heights) (proj2 reborn6_heights))).
Qed.

Lemma called2_recorded : confirmed called2 = true ∧ recorded called2.
Proof. vm_compute. auto. Qed.
Definition has_row6 (db : JDB) : bool := is_ok (deref (contents db !! wire_row (sent_message 6))).
Lemma has_row6_Some db : has_row6 db = true → is_Some (contents db !! wire_row (sent_message 6)).
Proof. unfold has_row6. by destruct (contents db !! _). Qed.
Lemma reborn6_row : has_row6 (rl_db reborn6) = true.
Proof. vm_compute. reflexivity. Qed.
Lemma called2_row : has_row6 (rl_db (y_rly called2)) = false.
Proof. vm_compute. reflexivity. Qed.

(** The message was executed, and its row waits to be routed again; had the
    process lived on, the row would be gone. *)
Lemma routed_again :
  executed (dest_of chain false) (n_nodes (to_net died2) false) (sent_message 6) ∧
  is_Some (contents (rl_db reborn6) !! wire_row (sent_message 6)) ∧ has_row6 (rl_db (y_rly called2)) = false.
Proof.
  split; [exact (confirmed_executed called2 (proj1 called2_recorded) (proj2 called2_recorded))|].
  split; [exact (has_row6_Some _ reborn6_row)|exact called2_row].
Qed.
