(* ===== verification/Cmd.v ===== *)
(** Package cmd: the application state, its configuration file, the chain
    registry, and the [config] and [chains] commands (appstate.go, config.go,
    chains.go).

    A command is a function of the application state: the file system, the
    heap of global settings (the configuration and the key service share one),
    the loaded configuration, what was printed.  YAML, JSON, AWS, the chains'
    nodes and the key libraries are parameters.  A range over a map takes the
    order of its keys as an argument. *)
From stdpp Require Import gmap strings list.
From Stdlib Require Import ZArith Lia Ascii.
From S2P Require Import Prelude GoStd GoOs Types Store Provider Relay.
From S2P Require Import Evm IconTypes Icon WasmTypes Wasm.
Open Scope Z_scope.

(** * Data *)

(** [provider.Config]: the three types that implement it. *)
Inductive ProviderConfig : Type :=
| PCIcon (c : Icon.Config)
| PCEvm (c : Evm.Config)
| PCCosmos (c : Wasm.Config).

Record GlobalConfig := mkGlobalConfig { g_Timeout : string; g_KMSKeyID : string }.
Definition newDefaultGlobalConfig : GlobalConfig := mkGlobalConfig "10s" "".

(** A chain is its provider, and of a provider only the configuration it points
    to matters here. *)
Abbreviation Chain := ProviderConfig.
Abbreviation Chains := (gmap string Chain).

(** [Global] is a pointer. *)
Record Config := mkConfig { c_Global : option positive; c_Chains : Chains }.

Record ProviderConfigWrapper := mkWrapper { pw_Type : string; pw_Value : ProviderConfig }.
Record ConfigOutputWrapper := mkOutput {
  co_Global : option GlobalConfig;
  co_ProviderConfigs : gmap string ProviderConfigWrapper }.

(** What is read from disk; a null entry is a nil pointer. *)
Record ProviderConfigYAMLWrapper := mkYAMLWrapper { py_Type : string; py_Value : ProviderConfig }.
Record ConfigInputWrapper := mkInput {
  ci_Global : option GlobalConfig;
  ci_ProviderConfigs : gmap string (option ProviderConfigYAMLWrapper) }.

(** ** The methods of [provider.Config] *)

Definition pc_common (c : ProviderConfig) : CommonConfig :=
  match c with PCIcon c => Icon.c_Common c | PCEvm c => Evm.c_Common c | PCCosmos c => Wasm.c_Common c end.

Definition pc_on_common (f : CommonConfig → CommonConfig) (c : ProviderConfig) : ProviderConfig :=
  match c with
  | PCIcon c => PCIcon (Icon.mkConfig (f (Icon.c_Common c)) (Icon.c_StepMin c) (Icon.c_StepLimit c)
      (Icon.c_StepAdjustment c))
  | PCEvm c => PCEvm (Evm.mkConfig (f (Evm.c_Common c)) (Evm.c_WebsocketUrl c) (Evm.c_GasMin c)
      (Evm.c_GasLimit c) (Evm.c_GasAdjustment c) (Evm.c_BlockBatchSize c))
  | PCCosmos c => PCCosmos (Wasm.mkConfig (f (Wasm.c_Common c)) (Wasm.c_GrpcUrl c)
      (Wasm.c_KeyringBackend c) (Wasm.c_KeyringDir c) (Wasm.c_AccountPrefix c) (Wasm.c_Denomination c)
      (Wasm.c_GasPrices c) (Wasm.c_GasAdjustment c) (Wasm.c_MinGasAmount c) (Wasm.c_MaxGasAmount c)
      (Wasm.c_TxConfirmationInterval c) (Wasm.c_BroadcastMode c) (Wasm.c_SignModeStr c)
      (Wasm.c_Simulate c) (Wasm.c_ExtraCodec c) (Wasm.c_BlockBatchSize c))
  end.

Definition pc_Enabled (c : ProviderConfig) : bool := Enabled (pc_common c).
Definition pc_GetWallet (c : ProviderConfig) : string := GetWallet (pc_common c).
Definition pc_SetWallet (addr : string) (c : ProviderConfig) : ProviderConfig :=
  pc_on_common (SetWallet addr) c.
Definition pc_NID (c : ProviderConfig) : string := cc_NID (pc_common c).
Definition pc_Name (c : ProviderConfig) : string := cc_ChainName (pc_common c).

(** [Type] of the three providers. *)
Definition pc_Type (c : ProviderConfig) : string :=
  match c with PCIcon _ => "icon" | PCEvm _ => "evm" | PCCosmos _ => WasmTypes.ChainType end.

(** * Third parties *)

(** The YAML library.  The names of the fields are those of the struct tags:
    [ChainName] and [HomeDir] are not written.  A document is its global
    settings and its chain entries, each with its node; a null entry has none. *)
Class Yaml := {
  yaml_Marshal : ConfigOutputWrapper → string + string;
  yaml_MarshalConfig : GlobalConfig → string + string;
  yaml_Document : string → res (option GlobalConfig * list (string * option string));
  yaml_T : string → res (string * string);
  yaml_icon : string → res Icon.Config;
  yaml_evm : string → res Evm.Config;
  yaml_cosmos : string → res Wasm.Config }.

(** A configuration without the two fields. *)
Definition on_disk (c : ProviderConfig) : ProviderConfig := pc_on_common (Evm.set_names "" "") c.

(** The value under a node, decoded as the type [ty] names. *)
Definition yaml_value `{Yaml} (ty node : string) : res ProviderConfig :=
  if decide (ty = "icon") then PCIcon <$> yaml_icon node
  else if decide (ty = "evm") then PCEvm <$> yaml_evm node
  else if decide (ty = "cosmos") then PCCosmos <$> yaml_cosmos node
  else Err (ty +:+ " is an invalid chain type, check your config file").

(** What was written is read back. *)
Class YamlSpec `{Yaml} : Prop := {
  yaml_output w s : yaml_Marshal w = inl s → ∃ nodes,
    yaml_Document s = Ok (co_Global w, nodes) ∧ NoDup nodes.*1 ∧
    (∀ name, name ∈ nodes.*1 ↔ is_Some (co_ProviderConfigs w !! name)) ∧
    ∀ name node pw, (name, node) ∈ nodes → co_ProviderConfigs w !! name = Some pw →
      ∃ n value, node = Some n ∧ yaml_T n = Ok (pw_Type pw, value) ∧
        (pw_Type pw = pc_Type (pw_Value pw) → yaml_value (pw_Type pw) value = Ok (on_disk (pw_Value pw)));
  yaml_writes w : ∃ s, yaml_Marshal w = inl s;
  yaml_default g s : yaml_MarshalConfig g = inl s → yaml_Document s = Ok (Some g, []) }.

(** jsoniter, for the file of [chains add]: the [type] member when it is a
    string, and the [value] member, marshalled again.  [json_nil] is the error
    of decoding into a nil configuration; there is none for null. *)
Class Json := {
  json_Object : string → res (option string * string);
  json_icon : string → res Icon.Config;
  json_evm : string → res Evm.Config;
  json_cosmos : string → res Wasm.Config;
  json_nil : string → error;
  json_report : string → string → string }.

(** What the rest of the world answers during a command. *)
Record World := mkWorld {
  w_deny : string → error;
  w_icon_info : Icon.Config → res NetworkInfo;
  w_evm_dial : Evm.Config → res unit;
  w_cosmos_context : Wasm.Config → res unit;
  w_LoadDefaultConfig : res unit;
  w_CreateKey : res string;
  w_QueryBalance : ProviderConfig → string → res Coin;
  w_SetAdmin : ProviderConfig → string → res unit;
  w_icon_keys : Icon.KeyEnv;
  w_evm_keys : Evm.KeyEnv;
  w_cosmos_keys : Wasm.KeyEnv;
  w_TryLock : res bool }.

(** * State *)

(** [a_kms] is the address of the settings whose key the key service uses;
    [a_admin] lists the [SetAdmin] calls made. *)
Record App := mkApp {
  a_homePath : string;
  a_configPath : string;
  a_dbPath : string;
  a_fs : FS;
  a_heap : gmap positive GlobalConfig;
  a_next : positive;
  a_config : option Config;
  a_kms : option positive;
  a_admin : list (string * string);
  a_out : list string }.

Abbreviation Run := (proc App).

Definition with_fs (f : FS → FS * error) : Run (unit + string) := λ a,
  let '(fs, e) := f (a_fs a) in
  Some (mkApp (a_homePath a) (a_configPath a) (a_dbPath a) fs (a_heap a) (a_next a) (a_config a)
          (a_kms a) (a_admin a) (a_out a), match e with Some e => inr e | None => inl tt end).
Definition set_config (c : Config) : Run unit := modify (λ a,
  mkApp (a_homePath a) (a_configPath a) (a_dbPath a) (a_fs a) (a_heap a) (a_next a) (Some c)
    (a_kms a) (a_admin a) (a_out a)).
Definition set_kms (p : positive) : Run unit := modify (λ a,
  mkApp (a_homePath a) (a_configPath a) (a_dbPath a) (a_fs a) (a_heap a) (a_next a) (a_config a)
    (Some p) (a_admin a) (a_out a)).
Definition set_heap (f : gmap positive GlobalConfig → gmap positive GlobalConfig) : Run unit := modify (λ a,
  mkApp (a_homePath a) (a_configPath a) (a_dbPath a) (a_fs a) (f (a_heap a)) (a_next a) (a_config a)
    (a_kms a) (a_admin a) (a_out a)).
Definition new_global (g : option GlobalConfig) : Run (option positive) := λ a,
  match g with
  | None => Some (a, None)
  | Some g => Some (mkApp (a_homePath a) (a_configPath a) (a_dbPath a) (a_fs a)
      (<[a_next a := g]> (a_heap a)) (Pos.succ (a_next a)) (a_config a) (a_kms a) (a_admin a) (a_out a),
      Some (a_next a))
  end.
Definition call_SetAdmin (nid addr : string) : Run unit := modify (λ a,
  mkApp (a_homePath a) (a_configPath a) (a_dbPath a) (a_fs a) (a_heap a) (a_next a) (a_config a)
    (a_kms a) (a_admin a ++ [(nid, addr)]) (a_out a)).
Definition print (line : string) : Run unit := modify (λ a,
  mkApp (a_homePath a) (a_configPath a) (a_dbPath a) (a_fs a) (a_heap a) (a_next a) (a_config a)
    (a_kms a) (a_admin a) (a_out a ++ [line])).

(** [if err := m; err != nil { return fmt.Errorf("<p>%w", err) }] *)
Definition wrapE {A} (p : string) (m : Run (A + string)) : Run (A + string) :=
  r ← m; mret (match r with inl a => inl a | inr e => inr (p +:+ e) end).

(** The configuration, dereferenced. *)
Definition the_config : Run Config := c ← gets a_config; match c with Some c => mret c | None => panic end.

Section Cmd.
Context `{Yaml} `{Json} (w : World).

(** * Reading the file (config.go) *)

(** [UnmarshalYAML] of one entry. *)
Definition UnmarshalYAML (node : string) : res ProviderConfigYAMLWrapper :=
  obj ← yaml_T node;
  value ← yaml_value obj.1 obj.2;
  Ok (mkYAMLWrapper obj.1 value).

Definition UnmarshalYAML_entry (e : string * option string) :
    res (string * option ProviderConfigYAMLWrapper) :=
  match e.2 with
  | None => Ok (e.1, None)
  | Some node => p ← UnmarshalYAML node; Ok (e.1, Some p)
  end.

(** [yaml.Unmarshal(file, cfgWrapper)] *)
Definition yaml_Unmarshal (file : string) : res ConfigInputWrapper :=
  doc ← yaml_Document file;
  entries ← res_mapM UnmarshalYAML_entry doc.2;
  Ok (mkInput doc.1 (list_to_map entries)).

(** [NewProvider] of the three configurations; it fills in the configuration it
    is called on. *)
Definition pc_NewProvider (homePath chainName : string) (c : ProviderConfig) : res Chain :=
  match c with
  | PCIcon c => p ← Icon.NewProvider c (w_icon_info w c) homePath chainName; Ok (PCIcon p.1)
  | PCEvm c => p ← Evm.NewProvider c (w_evm_dial w c) homePath chainName; Ok (PCEvm p)
  | PCCosmos c => p ← Wasm.NewProvider_config c homePath chainName; _ ← w_cosmos_context w p; Ok (PCCosmos p)
  end.

(** [Init] of the three providers. *)
Definition pc_Init (c : Chain) : res unit :=
  match c with
  | PCCosmos c =>
      match ContractConfigMap_Validate (cc_Contracts (Wasm.c_Common c)) with
      | Some e => Err e
      | None => Ok tt
      end
  | _ => Ok tt
  end.

Fixpoint RuntimeConfig_loop (c : ConfigInputWrapper) (global : option positive) (order : list string)
    (chains : Chains) : Run (Chains + string) :=
  match order with
  | [] => okE chains
  | chainName :: order =>
      match ci_ProviderConfigs c !! chainName with
      | None => RuntimeConfig_loop c global order chains
      | Some None => panic
      | Some (Some pcfg) =>
          if negb (pc_Enabled (py_Value pcfg)) then RuntimeConfig_loop c global order chains
          else
            homePath ← gets a_homePath;
            prov ←? liftRes (wrapErr "failed to build ChainProviders: "
                      (pc_NewProvider homePath chainName (py_Value pcfg)));
            match global with
            | None => panic
            | Some g =>
                _ ←? liftRes (w_LoadDefaultConfig w);
                _ ← set_kms g;
                _ ←? liftRes (wrapErr "failed to initialize provider: " (pc_Init prov));
                RuntimeConfig_loop c global order (<[pc_NID prov := prov]> chains)
            end
      end
  end.

Definition RuntimeConfig (order : list string) (c : ConfigInputWrapper) : Run (Config + string) :=
  global ← new_global (ci_Global c);
  chains ←? RuntimeConfig_loop c global order ∅;
  okE (mkConfig global chains).

Definition validateConfig (c : option Config) : error := None.

(** [loadConfigFile]: no file, or a file that cannot be looked at, is no error. *)
Definition loadConfigFile (order : list string) : Run (unit + string) :=
  fs ← gets a_fs;
  configPath ← gets a_configPath;
  match os_Stat (w_deny w) fs configPath with
  | Panic => panic
  | Err _ => okE tt
  | Ok _ =>
      file ←? liftRes (wrapErr "error reading file: " (os_ReadFile (w_deny w) fs configPath));
      cfgWrapper ←? liftRes (wrapErr "error unmarshalling config: " (yaml_Unmarshal file));
      newCfg ←? RuntimeConfig order cfgWrapper;
      match validateConfig (Some newCfg) with
      | Some e => mret (inr ("error parsing chain config: " +:+ e))
      | None => _ ← set_config newCfg; okE tt
      end
  end.

(** * Writing the file *)

(** [Wrapped], over the chains in the order visited: the last of two chains of
    one name is kept. *)
Definition Wrapped_chains (order : list string) (chains : Chains) : gmap string ProviderConfigWrapper :=
  insert_all (λ key, (λ chain, (pc_Name chain, mkWrapper (pc_Type chain) chain)) <$> chains !! key) order ∅.

Definition Wrapped (order : list string) (heap : gmap positive GlobalConfig) (c : Config) :
    ConfigOutputWrapper :=
  mkOutput (c_Global c ≫= λ p, heap !! p) (Wrapped_chains order (c_Chains c)).

(** [Save] *)
Definition Save (order : list string) (c : Config) (cfgPath : string) : Run (unit + string) :=
  heap ← gets a_heap;
  match yaml_Marshal (Wrapped order heap c) with
  | inr err => mret (inr err)
  | inl out => with_fs (os_WriteFile (w_deny w) cfgPath out)
  end.

(** [performConfigLockingOperation], up to the end of the operation: the answer
    of [TryLock] is not looked at. *)
Definition locking_begin (order : list string) (operation : Run (unit + string)) : Run (unit + string) :=
  _ ←? liftRes (wrapErr "failed to acquire config lock: " (w_TryLock w));
  _ ←? wrapE "failed to initialize config from file: " (loadConfigFile order);
  operation.

(** The rest: the file is overwritten.  Another process may have changed it
    in between. *)
Definition locking_end (order : list string) : Run (unit + string) :=
  config ← gets a_config;
  match validateConfig config with
  | Some e => mret (inr ("error parsing chain config: " +:+ e))
  | None =>
      config ← the_config;
      heap ← gets a_heap;
      cfgPath ← gets a_configPath;
      match yaml_Marshal (Wrapped order heap config) with
      | inr err => mret (inr err)
      | inl out =>
          wrapE ("failed to write config file at " +:+ cfgPath +:+ ": ")
            (with_fs (os_WriteFile (w_deny w) cfgPath out))
      end
  end.

Definition performConfigLockingOperation (order order' : list string) (operation : Run (unit + string)) :
    Run (unit + string) :=
  _ ←? locking_begin order operation;
  locking_end order'.

(** * The chain registry (config.go, chains.go) *)

(** The names and NIDs that a range over the registry visits. *)
Definition entries (order : list string) (chains : Chains) : list (string * string) :=
  omap (λ k, (λ c, (k, pc_NID c)) <$> chains !! k) order.

(** [Chains.Get], with the chain's key. *)
Definition Get (order : list string) (nid : string) (chains : Chains) : res (string * Chain) :=
  e ← Chains_Get (entries order chains) nid;
  c ← deref (chains !! e.1);
  Ok (e.1, c).

Definition errChainNotFound (chainName : string) : string :=
  let q := String (Ascii.ascii_of_nat 34) "" in
  "chain with name " +:+ q +:+ chainName +:+ q +:+
  " not found in config. consider running `rly chains add " +:+ chainName +:+ "`".

Definition AddChain (order : list string) (chain : Chain) (c : Config) : res Config :=
  let nId := pc_NID chain in
  if decide (nId = "") then Err "chain ID cannot be empty"
  else match Get order nId (c_Chains c) with
       | Ok _ => Err ("chain with NID " +:+ nId +:+ " already exists in config")
       | Panic => Panic
       | Err _ => Ok (mkConfig (c_Global c) (<[pc_Name chain := chain]> (c_Chains c)))
       end.

Definition DeleteChain (chain : string) (c : Config) : Config :=
  mkConfig (c_Global c) (delete chain (c_Chains c)).

(** A type that is not known leaves the configuration nil. *)
Definition UnmarshalJSONProviderConfig (data : string) : res (option ProviderConfig) :=
  m ← json_Object data;
  typeName ← deref m.1;
  if decide (typeName = "icon") then Some ∘ PCIcon <$> json_icon m.2
  else if decide (typeName = "evm") then Some ∘ PCEvm <$> json_evm m.2
  else if decide (typeName = "cosmos") then Some ∘ PCCosmos <$> json_cosmos m.2
  else match json_nil m.2 with Some e => Err e | None => Ok None end.

(** The assertion that it is a configuration. *)
Definition UnmarshalJSON (data : string) : res ProviderConfig := val ← UnmarshalJSONProviderConfig data; deref val.

Definition addChainFromFile (order : list string) (chainName file : string) : Run (unit + string) :=
  fs ← gets a_fs;
  _ ←? liftRes (os_Stat (w_deny w) fs file);
  byt ←? liftRes (os_ReadFile (w_deny w) fs file);
  pcw ←? liftRes (match UnmarshalJSON byt with
                   | Err e => Err (json_report byt e) | r => r end);
  homePath ← gets a_homePath;
  prov ←? liftRes (wrapErr ("failed to build ChainProvider for " +:+ file +:+ ": ")
                    (pc_NewProvider homePath chainName pcw));
  config ← the_config;
  config ←? liftRes (AddChain order prov config);
  _ ← set_config config;
  okE tt.

(** * Commands *)

(** [MustYAML], of a configuration without chains, the only one it is called
    on: the default one. *)
Definition MustYAML (global : GlobalConfig) : res string :=
  match yaml_MarshalConfig global with inl out => Ok out | inr _ => Panic end.
Definition defaultConfigYAML : res string := MustYAML newDefaultGlobalConfig.

(** [config init] *)
Definition configInit : Run (unit + string) :=
  homePath ← gets a_homePath;
  configPath ← gets a_configPath;
  _ ←? with_fs (os_MkdirAll (w_deny w) homePath);
  fs ← gets a_fs;
  match os_Stat (w_deny w) fs configPath with
  | Panic => panic
  | Ok _ => mret (inr ("config already exists: " +:+ configPath))
  | Err _ =>
      _ ←? with_fs (os_WriteFile (w_deny w) configPath "");
      out ←? liftRes defaultConfigYAML;
      with_fs (os_WriteFile (w_deny w) configPath out)
  end.

(** [config show]; the output formats are the YAML and JSON libraries'. *)
Definition configShow (order : list string) (jsn yml : bool)
    (json : ConfigOutputWrapper → string + string) : Run (unit + string) :=
  fs ← gets a_fs;
  home ← gets a_homePath;
  cfgPath ← gets a_configPath;
  let missing p := match os_Stat (w_deny w) fs p with Err e => IsNotExist e | _ => false end in
  if missing cfgPath then
    mret (inr (if missing home then "home path does not exist: " +:+ home
               else "config does not exist: " +:+ cfgPath))
  else if yml && jsn then mret (inr "can't pass both --json and --yaml, must pick one")
  else
    config ← the_config;
    heap ← gets a_heap;
    match (if jsn : bool then json else yaml_Marshal) (Wrapped order heap config) with
    | inr err => mret (inr err)
    | inl out => _ ← print out; okE tt
    end.

(** A line of [chains list]: [%-20s] pads the NID. *)
Definition chain_line (i : Z) (c : Chain) : string :=
  FormatInt i 10 +:+ ": " +:+ pc_NID c +:+ Repeat " " (20 - String.length (pc_NID c)) +:+
  " -> type(" +:+ pc_Type c +:+ ")".

Fixpoint chain_lines (i : Z) (order : list string) (chains : Chains) : list string :=
  match order with
  | [] => []
  | k :: order =>
      match chains !! k with
      | Some c => chain_line (i + 1) c :: chain_lines (i + 1) order chains
      | None => chain_lines i order chains
      end
  end.

(** [chains list] without a format flag; the warning goes to standard error. *)
Definition chainsList (order : list string) : Run (unit + string) :=
  config ← the_config;
  _ ← for_each (chain_lines 0 order (c_Chains config)) print;
  okE tt.

(** The name under which [chains add] files a chain. *)
Definition chain_name_of (args : list string) (file : string) : res string :=
  match args with
  | [] => index (Split (Base file) ".") 0
  | [name] => Ok name
  | _ => Err "one chain name is required"
  end.

(** [chains add]; whether a chain has the NID does not depend on the order in
    which [Get] looks. *)
Definition chainsAdd (order order' : list string) (args : list string) (file : string) :
    Run (unit + string) :=
  config ← gets a_config;
  match config with
  | None => mret (inr "config not initialized, consider running `rly config init`")
  | Some _ =>
      performConfigLockingOperation order order'
        (if decide (file = "") then mret (inr "file not present")
         else chainName ←? liftRes (chain_name_of args file);
              config ← the_config;
              addChainFromFile (elements (dom (c_Chains config))) chainName file)
  end.

(** [chains delete] *)
Definition delete_chain (chain : string) : Run (unit + string) :=
  config ← the_config;
  match c_Chains config !! chain with
  | None => mret (inr (errChainNotFound chain))
  | Some _ => _ ← set_config (DeleteChain chain config); okE tt
  end.

Definition chainsDelete (order order' : list string) (chain : string) : Run (unit + string) :=
  performConfigLockingOperation order order' (delete_chain chain).
End Cmd.
