(* ===== verification/CmdKeystore.v ===== *)
(** Package cmd: the [keystore] and [start] commands, the root command's paths
    (keystore.go, start.go, root.go), and the key service (relayer/kms). *)
From stdpp Require Import gmap strings list.
From Stdlib Require Import ZArith Lia Ascii.
From S2P Require Import Prelude GoStd GoOs GoFloat Types Store Provider Relay.
From S2P Require Import Evm IconTypes Icon WasmTypes Wasm Cmd.
Open Scope Z_scope.

(** * The key service (kms.go) *)

Definition ErrKeyAlreadyExists : string := "kms key already exists".

(** [KMSConfig.Init], with the key that its pointer refers to. *)
Definition Kms_Init (key : string) (CreateKey : res string) : res string :=
  if (1 <? String.length key)%nat then Err ErrKeyAlreadyExists else CreateKey.

Section Keystore.
Context `{Yaml} `{Json} (w : World).

(** * The keystore commands (keystore.go) *)

(** A provider's operation on the files. *)
Definition with_files {A} (f : gmap string string → gmap string string * res A) : Run (A + string) := λ a,
  let '(files, r) := f (fs_files (a_fs a)) in
  liftRes r (mkApp (a_homePath a) (a_configPath a) (a_dbPath a) (mkFS files (fs_dirs (a_fs a)))
    (a_heap a) (a_next a) (a_config a) (a_kms a) (a_admin a) (a_out a)).

Definition pc_NewKeystore (c : Chain) (password : string) (files : gmap string string) :
    gmap string string * res string :=
  match c with
  | PCIcon c => Icon.NewKeystore (w_icon_keys w) c password files
  | PCEvm c => Evm.NewKeystore (w_evm_keys w) c password files
  | PCCosmos c => Wasm.NewKeystore (w_cosmos_keys w) c password files
  end.

(** The three providers read the key file first. *)
Definition pc_ImportKeystore (c : Chain) (keystore passphrase : string) (files : gmap string string) :
    gmap string string * res string :=
  match c with
  | PCIcon c => Icon.ImportKeystore (w_icon_keys w) c keystore passphrase files
  | PCEvm c => Evm.ImportKeystore (w_evm_keys w) c keystore passphrase files
  | PCCosmos c => Wasm.ImportKeystore (w_cosmos_keys w) c keystore passphrase files
  end.

(** [keystore init] *)
Definition keystore_init (order : list string) : Run (unit + string) :=
  kms ← gets a_kms;
  match kms with
  | None => panic
  | Some p =>
      heap ← gets a_heap;
      match heap !! p with
      | None => panic
      | Some g =>
          keyID ←? liftRes (Kms_Init (g_KMSKeyID g) (w_CreateKey w));
          config ← the_config;
          match c_Global config with
          | None => panic
          | Some q =>
              _ ← set_heap (alter (λ g, mkGlobalConfig (g_Timeout g) keyID) q);
              configPath ← gets a_configPath;
              _ ←? Save w order config configPath;
              _ ← print ("KMS key created: " +:+ keyID);
              okE tt
          end
      end
  end.

Definition keystore_dir (homePath chain : string) : string := pathJoin [homePath; "keystore"; chain].

(** [keystore new] *)
Definition keystore_new (order : list string) (chain password : string) : Run (unit + string) :=
  config ← the_config;
  match Get order chain (c_Chains config) with
  | Panic => panic
  | Err _ => mret (inr "chain not found")
  | Ok (_, c) =>
      homePath ← gets a_homePath;
      _ ←? with_fs (os_MkdirAll (w_deny w) (keystore_dir homePath chain));
      addr ←? with_files (pc_NewKeystore c password);
      _ ← print ("Created and encrypted: " +:+ addr);
      okE tt
  end.

(** The balances of the wallets whose password file is there; a failed query
    leaves a nil coin. *)
Fixpoint wallets_of (c : Chain) (files : list string) (wallets : gmap string (option Coin)) :
    res (gmap string (option Coin)) :=
  match files with
  | [] => Ok wallets
  | name :: files =>
      if HasSuffix name ".pass" then
        let wallet := TrimSuffix name ".pass" in
        match w_QueryBalance w c wallet with
        | Ok balance => wallets_of c files (<[wallet := Some balance]> wallets)
        | Err _ => wallets_of c files (<[wallet := None]> wallets)
        | Panic => Panic
        end
      else wallets_of c files wallets
  end.

(** [printLabels] and [printValues] for two strings. *)
Definition two_cells (a b : string) : string := Sprintf_cells [Verb_s; Verb_s] [VString a; VString b].

(** [keystore list]; [names] is the order in which the map of wallets is
    visited. *)
Definition keystore_list (order names : list string) (chain : string) : Run (unit + string) :=
  homePath ← gets a_homePath;
  fs ← gets a_fs;
  files ←? liftRes (os_ReadDir (w_deny w) fs (keystore_dir homePath chain));
  config ← the_config;
  c ←? liftRes (Get order chain (c_Chains config));
  wallets ←? liftRes (wallets_of c.2 files ∅);
  _ ← print (two_cells "Wallet" "Balance");
  _ ← print (two_cells (Repeat "-" 10) (Repeat "-" 10));
  _ ← for_each names (λ wallet,
        match wallets !! wallet with
        | None => mret tt
        | Some None => panic
        | Some (Some balance) =>
            let name := if decide (wallet = pc_GetWallet c.2) then "* -> " +:+ wallet else wallet in
            print (two_cells name (Coin_Calculate balance))
        end);
  okE tt.

(** [keystore import] *)
Definition keystore_import (order : list string) (chain path password : string) : Run (unit + string) :=
  config ← the_config;
  c ←? liftRes (Get order chain (c_Chains config));
  homePath ← gets a_homePath;
  _ ←? with_fs (os_MkdirAll (w_deny w) (keystore_dir homePath chain));
  fs ← gets a_fs;
  if match os_Stat (w_deny w) fs path with Err e => IsNotExist e | _ => false end then
    mret (inr "file not found")
  else
    keystore ←? liftRes (os_ReadFile (w_deny w) fs path);
    addr ←? with_files (pc_ImportKeystore c.2 keystore password);
    _ ← print ("Key imported and Encrypted: " +:+ addr);
    okE tt.

(** [keystore use]: the configuration is saved to the home directory's path. *)
Definition keystore_use (order order' : list string) (chain address : string) : Run (unit + string) :=
  config ← the_config;
  c ←? liftRes (Get order chain (c_Chains config));
  homePath ← gets a_homePath;
  fs ← gets a_fs;
  let kestorePath := pathJoin [homePath; "keystore"; chain; address] in
  let missing p := match os_Stat (w_deny w) fs p with Err e => IsNotExist e | _ => false end in
  if missing kestorePath then mret (inr "keystore not found")
  else if missing (kestorePath +:+ ".pass") then mret (inr "password not found")
  else if decide (pc_GetWallet c.2 = address) then
    _ ← print ("Wallet already configured: " +:+ address); okE tt
  else
    let config := Cmd.mkConfig (c_Global config) (alter (pc_SetWallet address) c.1 (c_Chains config)) in
    _ ← set_config config;
    _ ←? Save w order' config homePath;
    _ ← call_SetAdmin (pc_NID c.2) address;
    _ ←? liftRes (w_SetAdmin w (pc_SetWallet address c.2) address);
    _ ← print ("Wallet configured: " +:+ address);
    okE tt.

(** [change-password], which the command line does not offer. *)
Definition changePassword (password confirmPassword : string) : res unit :=
  if decide (password = confirmPassword) then Err "not implemented"
  else Err "password and confirm password does not match".
End Keystore.

(** * Starting the relayer (start.go) *)

Section Start.
Context {St : Type} `{Store St} `{Codec Z}.
Context `{Codec (RouteMessageOf Z)} `{Codec (TransactionObjectOf Z)}.

(** [start] up to the point where it waits: the chains of the configuration by
    NID, the database at the path, the relayer, and its start.  [order] is the
    order in which the chains are visited, [nids] that of the runtimes. *)
Definition start (db : res St) (fresh : bool) (order nids : list string) (config : option Cmd.Config) :
    res (Relayer St) :=
  config ← deref config;
  let chains := Chains_GetAll (entries order (c_Chains config)) ∅ in
  db ← db;
  rly ← wrapErr "error creating new relayer "
          (NewRelayer db ((λ nid, (λ _, nid) <$> chains !! nid) <$> nids) fresh);
  match Start fresh nids rly with
  | Some (rly, _) => Ok rly
  | None => Panic
  end.
End Start.

(** * The root command (root.go) *)

Definition appName : string := "centralized-relay".
Definition defaultDBName : string := "data".
Definition defaultConfig : string := "config.yaml".

(** The default home: RELAY_HOME when it names a directory. *)
Definition homePath (RELAY_HOME : string) (fs : FS) (deny : string → error) (UserHomeDir : res string) : string :=
  if bool_decide (RELAY_HOME ≠ "") && is_ok (os_Stat deny fs RELAY_HOME) &&
     bool_decide (RELAY_HOME ∈ fs_dirs fs) then RELAY_HOME
  else
    let home := match UserHomeDir with Ok home => home | _ => "." end in
    pathJoin [home; ".centralized-relay"].

(** The three paths, given the flags that are set.  The defaults of [--config]
    and [--db] are made when the flags are registered, before the command line
    is read. *)
Definition flag_paths (default_home : string) (home config db : option string) : string * string * string :=
  (default default_home home,
   default (default_home +:+ "/" +:+ defaultConfig) config,
   default (pathJoin [default_home; defaultDBName]) db).

(** [newRootLogger]: the encoders it knows. *)
Definition newRootLogger (format : string) : res unit :=
  if decide (format ∈ ["json"; "auto"; "console"; "logfmt"]) then Ok tt
  else let q := String (ascii_of_nat 34) "" in Err ("unrecognized log format " +:+ q +:+ format +:+ q).

(** * relayer/kms: the key service over AWS KMS (kms.go).

    AWS is third-party: [AwsClient] holds what it answers.  The service keeps a
    pointer to the key's name, which is a field of the configuration: what the
    field holds at the moment of a call is what counts. *)

Module Kms.

Record AwsClient := mkAwsClient {
  CreateKey : res string;
  aws_Encrypt : string → string → res string;
  aws_Decrypt : string → string → res string }.

(** [key] points to the settings whose [KMSKeyID] it is. *)
Record KMSConfig := mkKMSConfig { kc_client : AwsClient; kc_key : positive }.

(** The interface. *)
Record KMS := mkKMS { kms_Init : res string; kms_Encrypt : string → res string; kms_Decrypt : string → res string }.

(** [config.LoadDefaultConfig], with the client made of its result. *)
Definition NewKMSConfig (cfg : res AwsClient) (key : positive) : res KMSConfig :=
  client ← cfg; Ok (mkKMSConfig client key).

Section Heap.
Context (heap : gmap positive GlobalConfig).

(** The name that the pointer leads to. *)
Definition the_key (k : KMSConfig) : res string := g ← deref (heap !! kc_key k); Ok (g_KMSKeyID g).

Definition Init (k : KMSConfig) : res string := key ← the_key k; Kms_Init key (CreateKey (kc_client k)).
Definition Encrypt (k : KMSConfig) (data : string) : res string := key ← the_key k; aws_Encrypt (kc_client k) key data.
Definition Decrypt (k : KMSConfig) (data : string) : res string := key ← the_key k; aws_Decrypt (kc_client k) key data.

Definition service (k : KMSConfig) : KMS := mkKMS (Init k) (Encrypt k) (Decrypt k).
End Heap.

(** What AWS encrypts under a key it decrypts under that key. *)
Definition decrypts (c : AwsClient) : Prop :=
  ∀ key data blob, aws_Encrypt c key data = Ok blob → aws_Decrypt c key blob = Ok data.

(** ** Facts *)

Lemma Encrypt_Decrypt heap k data blob :
  decrypts (kc_client k) → Encrypt heap k data = Ok blob → Decrypt heap k blob = Ok data.
Proof.
  intros Hd. unfold Encrypt, Decrypt. destruct (the_key heap k) as [key| |]; cbn; [|done..]. apply Hd.
Qed.

(** Only the key's name matters of the settings, and only while it stays the
    same is what was encrypted read back. *)
Lemma Decrypt_heap heap heap' k :
  g_KMSKeyID <$> heap !! kc_key k = g_KMSKeyID <$> heap' !! kc_key k → Decrypt heap k = Decrypt heap' k.
Proof.
  intros Hk. unfold Decrypt, the_key. destruct (heap !! kc_key k), (heap' !! kc_key k); cbn in *; try done.
  by injection Hk as ->.
Qed.

(** A key is made only while the name has at most one character. *)
Lemma Init_once heap k g :
  heap !! kc_key k = Some g → (1 < String.length (g_KMSKeyID g))%nat → Init heap k = Err ErrKeyAlreadyExists.
Proof.
  intros Hg Hl. unfold Init, the_key. rewrite Hg. cbn. unfold Kms_Init.
  by replace (1 <? String.length (g_KMSKeyID g))%nat with true by (symmetry; by apply Nat.ltb_lt).
Qed.
End Kms.
