(* ===== verification/CmdDb.v ===== *)
(** Package cmd: the [database] and [contract] commands (db.go, contracts.go).

    A command talks to the relayer behind the socket.  When nothing listens
    there it builds a relayer of its own over the database and serves the
    socket itself, for as long as the command runs. *)
From stdpp Require Import gmap strings list.
From Stdlib Require Import ZArith Lia Ascii.
From S2P Require Import Prelude GoStd GoOs Types Store Provider Relay Socket Cmd.
Open Scope Z_scope.

(** * Output *)

(** The labels and a line of dashes under them. *)
Definition printLabels (labels : list string) : list string :=
  let verbs := (λ _, Verb_s) <$> labels in
  [Sprintf_cells verbs (VString <$> labels);
   Sprintf_cells verbs ((λ _, VString (Repeat "-" 10)) <$> labels)].

(** The verb that [printValues] adds for a value; it knows no others. *)
Definition verb_of (v : Value) : option Verb :=
  match v with
  | VString _ => Some Verb_s
  | VInt _ | VUint _ | VUint64 _ => Some Verb_d
  | VUint8 _ | VBig _ => None
  end.

Definition printValues (values : list Value) : string := Sprintf_cells (omap verb_of values) values.

(** The line of [messages list]. *)
Definition message_line (msg : RouteMessageOf Z) : string :=
  let m := rm_Message msg in
  Sprintf_cells [Verb_d; Verb_s; Verb_s; Verb_d; Verb_s; Verb_d]
    [VBig (m_Sn m); VString (m_Src m); VString (m_Dst m); VUint64 (m_MessageHeight m);
     VString (m_EventType m); VUint8 (rm_Retry msg)].

Definition message_labels : list string := ["Sn"; "Src"; "Dst"; "Height"; "Event"; "Retry"].

(** The values that [messages relay] prints. *)
Definition relay_values (msg : RouteMessageOf Z) : list Value :=
  let m := rm_Message msg in
  [VBig (m_Sn m); VString (m_Src m); VString (m_Dst m); VUint64 (m_MessageHeight m);
   VString (m_EventType m); VUint8 (rm_Retry msg)].

Section Db.
Context {St : Type} `{Store St} `{Codec Z}.
Context `{Codec (RouteMessageOf Z)} `{Codec (TransactionObjectOf Z)} `{SocketJson}.
Context (prov : string → ChainProvider).
Abbreviation Rly := (proc (Relayer St)).

(** * The socket *)

(** [getRelayer]: over the chains in the order visited. *)
Definition getRelayer (db : res St) (order nids : list string) (config : option Cmd.Config) :
    res (Relayer St) :=
  db ← db;
  config ← deref config;
  let chains := Chains_GetAll (entries order (c_Chains config)) ∅ in
  NewRelayer db ((λ nid, (λ _, nid) <$> chains !! nid) <$> nids) false.

(** [getSocket]: the relayer behind the socket, and whether it is the
    command's own.  [daemon] is the one that listens already. *)
Definition getSocket (daemon : option (Relayer St)) (db : res St) (Listen : res unit)
    (order nids : list string) (config : option Cmd.Config) : res (Relayer St * bool) :=
  match daemon with
  | Some rly => Ok (rly, false)
  | None =>
      rly ← getRelayer db order nids config;
      _ ← Listen;
      Ok (rly, true)
  end.

(** A command: the relayer afterwards, and what is printed.  A server that
    panics takes the process with it. *)
Definition with_client {A} (sock : res (Relayer St * bool)) (call : Rly (A + string))
    (show : A → list string) : res (Relayer St * (list string + string)) :=
  rly ← sock;
  match call rly.1 with
  | None => Panic
  | Some (rly, inr err) => Ok (rly, inr err)
  | Some (rly, inl a) => Ok (rly, inl (show a))
  end.

(** * database *)

Definition db_prune sock order :=
  with_client sock (client_PruneDB prov order)
    (λ result, printLabels ["Status"] ++ [printValues [VString (spd_Status result)]]).

Definition db_messagesList sock order (chain : string) (page limit : Z) :=
  with_client sock (client_GetMessageList prov order chain (Some (WithPage page limit NewPagination)))
    (λ messages, printLabels message_labels ++ (message_line <$> sml_Messages messages)).

Definition db_messagesRelay sock order (chain : string) (height sn : Z) :=
  with_client sock (client_RelayMessage prov order chain height (Some sn))
    (λ result, printLabels message_labels ++ [printValues (relay_values (srm_Message result))]).

Definition db_messagesRm sock order (chain : string) (sn : Z) :=
  with_client sock (client_MessageRemove prov order chain (Some sn))
    (λ result, printLabels ["Sn"; "Src"; "Dst"; "Height"; "Event"] ++
       [printValues [VBig (smr_Sn result); VString (smr_Chain result); VString (smr_Dst result);
                     VUint64 (smr_Height result); VString (smr_Event result)]]).

Definition db_blockInfo sock order (chain : string) :=
  with_client sock (client_GetBlock prov order chain)
    (λ blocks, printLabels ["NID"; "Height"] ++
       ((λ block, printValues [VString (sgb_Chain block); VUint64 (sgb_Height block)]) <$> blocks)).

(** [Fprintln] of a pointer to a struct. *)
Definition db_revertMessage sock order (chain : string) (sn : Z) :=
  with_client sock (client_RevertMessage prov order chain sn)
    (λ result, ["&{" +:+ FormatInt (srv_Sn result) 10 +:+ "}" +:+ newline]).

(** * contract fee *)

Definition fee_get sock order (chain network : string) :=
  with_client sock (client_GetFee prov order chain network true)
    (λ res, printLabels ["Chain"; "Fee"] ++ [printValues [VString network; VUint64 (sgf_Fee res)]]).

Definition fee_set sock order (chain network : string) (msgFee resFee : Z) :=
  with_client sock (client_SetFee prov order chain network (Some msgFee) (Some resFee))
    (λ res, printLabels ["Status"] ++ [printValues [VString (ssf_Status res)]]).

Definition fee_claim sock order (chain : string) :=
  with_client sock (client_ClaimFee prov order chain)
    (λ res, printLabels ["Status"] ++ [printValues [VString (scf_Status res)]]).
End Db.

(** * Facts *)

(** Every value has a cell of its own verb when all are strings or
    integers of the three widths that [printValues] knows. *)
Lemma printValues_aligned values :
  Forall (λ v, is_Some (verb_of v)) values →
  printValues values = foldr (λ v s, pad10 (text v) +:+ " " +:+ s) newline values.
Proof.
  intros Hall. unfold printValues, Sprintf_cells.
  assert (cells (omap verb_of values) values =
    (foldr (λ v s, pad10 (text v) +:+ " " +:+ s) "" values, [])) as ->.
  { induction Hall as [|v values [verb Hv] Hall IH]; [done|]. cbn [omap list_omap foldr].
    rewrite Hv. cbn [cells]. rewrite IH. f_equal. unfold cell.
    destruct v; cbn in Hv; simplify_eq; cbn [suits]; by rewrite string_app_assoc. }
  rewrite string_app_nil_r. clear Hall. induction values as [|v values IH]; [done|]. cbn [foldr].
  by rewrite !string_app_assoc, IH.
Qed.

(** The line of [messages relay]: there is no cell for the serial number and
    none for the retry count, so every value is one column to the right of its
    label and formatted by its neighbour's verb. *)
Example relay_line :
  printValues (relay_values (mkRouteMessage (mkMessage "b" "a" (Some 7) "" 120 EmitMessage None) 1 false 0)) =
  "7          a          %!d(string=b         ) %!s(uint64=120       ) " +:+ newline +:+
  "%!(EXTRA string=emitMessage, uint8=1)".
Proof. vm_compute. reflexivity. Qed.
