(* ===== verification/CmdCorrect.v ===== *)
(** The command line: what the configuration commands do to the file and to the
    chain registry. *)
From stdpp Require Import gmap strings list.
From Stdlib Require Import ZArith Lia Ascii.
From S2P Require Import Prelude GoStd GoOs Types Store Provider Relay.
From S2P Require Import Evm IconTypes Icon WasmTypes Wasm Cmd CmdKeystore.
Open Scope Z_scope.

Section CmdCorrect.
Context `{YamlSpec} `{Json} (w : World).
Implicit Types (a : App) (c : ProviderConfig).

(** * Configurations *)

(** The nodes answer, and the key service can be reached. *)
Definition answering : Prop :=
  (∀ cfg, is_ok (w_icon_info w cfg) = true) ∧ (∀ cfg, w_evm_dial w cfg = Ok tt) ∧
  (∀ cfg, w_cosmos_context w cfg = Ok tt) ∧ w_LoadDefaultConfig w = Ok tt.

Lemma on_common_common f c : pc_common (pc_on_common f c) = f (pc_common c).
Proof. by destruct c. Qed.

Lemma on_disk_enabled c : pc_Enabled (on_disk c) = pc_Enabled c.
Proof. by destruct c. Qed.

(** What a provider's configuration keeps of the one it was made from. *)
Lemma NewProvider_keeps home name c p :
  pc_NewProvider w home name c = Ok p →
  pc_Name p = name ∧ cc_HomeDir (pc_common p) = home ∧ pc_NID p = pc_NID c ∧
  pc_Type p = pc_Type c ∧ pc_Enabled p = pc_Enabled c ∧
  cc_Contracts (pc_common p) = cc_Contracts (pc_common c).
Proof.
  destruct c as [c|c|c]; cbn.
  - unfold Icon.NewProvider. destruct (Icon.Validate c); [done|].
    rewrite res_bind_Ok. intros ([p' id] & (i & _ & [= <- <-])%res_bind_Ok & [= <-]). done.
  - unfold Evm.NewProvider. destruct (Evm.Validate c); [done|].
    rewrite res_bind_Ok. intros (p' & ([] & _ & [= <-])%res_bind_Ok & [= <-]).
    unfold pc_Name, pc_NID, pc_Enabled; cbn. by destruct (_ =? 0).
  - unfold Wasm.NewProvider_config. destruct (Wasm.Validate _); [done|].
    rewrite res_bind_Ok. intros (p' & [= <-] & (u & _ & [= <-])%res_bind_Ok).
    unfold Wasm.sanitize, pc_Name, pc_NID, pc_Enabled. by destruct (_ =? 0).
Qed.

#[local] Arguments ContractConfigMap_Validate : simpl never.
#[local] Arguments pathJoin : simpl never.

Lemma contracts_valid m : ContractConfigMap_Validate m = None.
Proof. unfold ContractConfigMap_Validate, SupportedContracts. cbn. by repeat case_match. Qed.

Lemma pathJoin_nonempty home nid : home ≠ "" → pathJoin [home; nid] ≠ "".
Proof.
  intros Hh. unfold pathJoin. rewrite filter_cons_True by done. destruct home as [|ch home]; [done|].
  rewrite filter_cons. by case_decide.
Qed.

(** Filling in the defaults once more changes nothing. *)
Lemma NewProvider_settled home name c p :
  answering → pc_NewProvider w home name c = Ok p →
  pc_NewProvider w home name (on_disk p) = Ok p.
Proof.
  intros (Hi & He & Hc & _). destruct c as [c|c|c]; cbn.
  - unfold Icon.NewProvider. destruct (Icon.Validate c) eqn:Hv; [done|].
    rewrite res_bind_Ok. intros ([p' id] & (i & _ & [= <- <-])%res_bind_Ok & [= <-]). cbn.
    match goal with |- context [w_icon_info w ?x] => specialize (Hi x); destruct (w_icon_info w x); try done end.
    unfold Icon.NewProvider, Icon.Validate in *. cbn. rewrite contracts_valid in *.
    case_decide; [done|]; rewrite ?decide_False by done. cbn.
    unfold Icon.sanitize; cbn. destruct (Z.eqb_spec (Icon.c_StepAdjustment c) 0) as [|Hs]; [done|].
    apply Z.eqb_neq in Hs. by rewrite Hs.
  - unfold Evm.NewProvider, Evm.Validate. cbn. rewrite !contracts_valid, !He. cbn.
    intros [= <-]. cbn. rewrite He. cbn. unfold Evm.sanitize, Evm.set_names, Evm.set_FinalityBlock; cbn.
    destruct (Z.eqb_spec (Evm.c_GasAdjustment c) 0) as [|Hg], (Z.eqb_spec (Evm.c_BlockBatchSize c) 0) as [|Hb],
      (Z.eqb_spec (cc_FinalityBlock (Evm.c_Common c)) 0) as [|Hf]; cbn;
      repeat match goal with Hn : _ ≠ 0 |- _ => apply Z.eqb_neq in Hn end;
      unfold Evm.NewProvider, Evm.Validate, Evm.sanitize; cbn; rewrite contracts_valid; cbn;
      repeat match goal with Hn : (_ =? 0) = false |- _ => rewrite Hn; clear Hn end; done.
  - unfold Wasm.NewProvider_config, Wasm.Validate. cbn. case_decide as Hn; [done|].
    case_decide as Hh; [done|]. cbn. rewrite Hc. intros [= <-].
    pose proof (pathJoin_nonempty home (cc_NID (Wasm.c_Common c)) Hh) as Hj.
    unfold Wasm.sanitize, Wasm.with_batch; cbn.
    destruct (Z.eqb_spec (Wasm.c_BlockBatchSize c) 0) as [|Hb]; cbn; try (apply Z.eqb_neq in Hb);
      unfold Wasm.NewProvider_config, Wasm.Validate; cbn; rewrite !decide_False by done; cbn;
      unfold Wasm.sanitize; cbn; rewrite ?Hb; cbn; rewrite Hc; cbn; do 3 f_equal;
      destruct (decide (Wasm.c_KeyringDir c = "")); by rewrite decide_False.
Qed.

Lemma pc_Init_ok c : pc_Init c = Ok tt.
Proof. destruct c; [done..|]. cbn. by rewrite contracts_valid. Qed.

(** * Reading the file *)

(** The chain an entry of the file becomes. *)
Definition built home (ci : ConfigInputWrapper) (name : string) : option Chain :=
  match ci_ProviderConfigs ci !! name with
  | Some (Some p) =>
      if pc_Enabled (py_Value p) then
        match pc_NewProvider w home name (py_Value p) with Ok c => Some c | _ => None end
      else None
  | _ => None
  end.

Definition runtime_chains home ci (order : list string) (chains : Chains) : Chains :=
  insert_all (λ name, (λ c, (pc_NID c, c)) <$> built home ci name) order chains.

Definition with_kms k a : App :=
  mkApp (a_homePath a) (a_configPath a) (a_dbPath a) (a_fs a) (a_heap a) (a_next a) (a_config a)
    k (a_admin a) (a_out a).

(** Every enabled entry was made a chain, and there were settings to make it
    with. *)
Definition all_built home ci (global : option positive) (order : list string) : Prop :=
  ∀ name p, name ∈ order → ci_ProviderConfigs ci !! name = Some (Some p) → pc_Enabled (py_Value p) = true →
    is_Some (built home ci name) ∧ is_Some global.

Lemma wlp_RuntimeConfig_loop ci global order chains a :
  wlp (RuntimeConfig_loop w ci global order chains) (λ r a',
    (∃ k, a' = with_kms k a) ∧
    ∀ chains', r = inl chains' → chains' = runtime_chains (a_homePath a) ci order chains ∧
      all_built (a_homePath a) ci global order) a.
Proof.
  revert chains a. induction order as [|name order IH]; intros chains a.
  { apply wpx_ret. split; [exists (a_kms a); by destruct a|]. intros ? [= ->]. split; [done|]. by intros n q ?%elem_of_nil. }
  assert (∀ p, ci_ProviderConfigs ci !! name = p → (∀ q, p = Some (Some q) → pc_Enabled (py_Value q) = false) →
    all_built (a_homePath a) ci global order → all_built (a_homePath a) ci global (name :: order)) as Hskip.
  { intros p Hp Hq Hb n q Hn Hl He. assert (n = name ∨ n ∈ order) as [->|?] by set_solver; [|by eapply Hb].
    rewrite Hp in Hl. specialize (Hq q Hl). congruence. }
  cbn [RuntimeConfig_loop]. unfold runtime_chains. cbn [insert_all foldl]. unfold built at 2.
  destruct (ci_ProviderConfigs ci !! name) as [[p|]|] eqn:Ep; [|done|].
  2:{ eapply wpx_mono; [apply IH|]. intros r a' [Hk Hr]. split; [done|]. intros c' [-> Hb]%Hr. split; [done|]. by apply (Hskip _ eq_refl). }
  destruct (pc_Enabled (py_Value p)) eqn:Ee; cbn [negb].
  2:{ eapply wpx_mono; [apply IH|]. intros r a' [Hk Hr]. split; [done|]. intros c' [-> Hb]%Hr. split; [done|].
      apply (Hskip _ eq_refl); [by intros q [= <-]|done]. }
  apply wpx_bind, wpx_gets, wpx_tryE, wlp_liftRes.
  2:{ intros e _. split; [exists (a_kms a); by destruct a|done]. }
  intros c Hc. assert (pc_NewProvider w (a_homePath a) name (py_Value p) = Ok c) as ->.
  { by destruct (pc_NewProvider _ _ _ _); simplify_eq/=. }
  destruct global as [g|]; [|done].
  apply wpx_tryE, wlp_liftRes; [intros _ _|intros e _; split; [exists (a_kms a); by destruct a|done]].
  apply wpx_bind, wpx_modify, wpx_tryE. rewrite pc_Init_ok. apply wlp_liftRes; [intros _ _|done].
  eapply wpx_mono; [apply (IH _ (with_kms (Some g) a))|]. intros r a' [[k ->] Hr]. split; [by exists k|].
  intros c' [-> Hb]%Hr. split; [done|]. intros n q Hn Hl He.
  assert (n = name ∨ n ∈ order) as [->|?] by set_solver; [|by eapply Hb].
  rewrite Ep in Hl. injection Hl as <-. split; [|done]. unfold built. rewrite Ep, Ee.
  destruct (pc_NewProvider w (a_homePath a) name (py_Value p)); done.
Qed.

(** Nothing goes wrong when every entry is a chain that can be made. *)
Lemma RuntimeConfig_loop_ok ci global order chains a :
  answering →
  (∀ name p, name ∈ order → ci_ProviderConfigs ci !! name = Some p → ∃ q, p = Some q ∧
     (pc_Enabled (py_Value q) = true → is_Some global ∧ is_Some (built (a_homePath a) ci name))) →
  wp (RuntimeConfig_loop w ci global order chains) (λ r a',
    r = inl (runtime_chains (a_homePath a) ci order chains) ∧ ∃ k, a' = with_kms k a) a.
Proof.
  intros Ha. revert chains a. induction order as [|name order IH]; intros chains a Hok.
  { apply wpx_ret. split; [done|]. exists (a_kms a). by destruct a. }
  assert (∀ chains k, wp (RuntimeConfig_loop w ci global order chains) (λ r a',
    r = inl (runtime_chains (a_homePath a) ci order chains) ∧ ∃ k, a' = with_kms k a) (with_kms k a)) as IH'.
  { intros chains' k. eapply wpx_mono; [apply IH|].
    - intros n p Hn. apply Hok. set_solver.
    - intros r a' [-> [k' ->]]. split; [done|]. by exists k'. }
  cbn [RuntimeConfig_loop]. unfold runtime_chains. cbn [insert_all foldl].
  specialize (Hok name). unfold built in Hok. unfold built at 2.
  destruct (ci_ProviderConfigs ci !! name) as [p|]; [|specialize (IH' chains (a_kms a)); by destruct a].
  destruct (Hok p) as (q & -> & Hq); [set_solver|done|].
  destruct (pc_Enabled (py_Value q)); cbn [negb]; [|specialize (IH' chains (a_kms a)); by destruct a].
  destruct (Hq eq_refl) as [[g ->] [c Hc]].
  apply wpx_bind, wpx_gets, wpx_tryE. destruct (pc_NewProvider w (a_homePath a) name (py_Value q)) as [c'| |]; [|done..].
  injection Hc as ->. destruct Ha as (_ & _ & _ & ->).
  apply wpx_tryE, wpx_bind, wpx_modify, wpx_tryE. rewrite pc_Init_ok. apply (IH' _ (Some g)).
Qed.

(** What a command leaves alone. *)
Definition same_place a a' : Prop :=
  a_homePath a' = a_homePath a ∧ a_configPath a' = a_configPath a ∧ a_fs a' = a_fs a.

Lemma same_place_refl a : same_place a a.
Proof. done. Qed.

(** The settings a configuration points to. *)
Definition settings a (conf : Cmd.Config) : option GlobalConfig := c_Global conf ≫= λ p, a_heap a !! p.

Lemma wlp_loadConfigFile order a :
  wlp (loadConfigFile w order) (λ r a', same_place a a' ∧ (r = inl tt →
    (is_ok (os_Stat (w_deny w) (a_fs a) (a_configPath a)) = false ∧ a' = a) ∨
    ∃ file ci conf, os_ReadFile (w_deny w) (a_fs a) (a_configPath a) = Ok file ∧
      yaml_Unmarshal file = Ok ci ∧ a_config a' = Some conf ∧ settings a' conf = ci_Global ci ∧
      c_Chains conf = runtime_chains (a_homePath a) ci order ∅ ∧
      all_built (a_homePath a) ci (c_Global conf) order ∧
      (is_Some (c_Global conf) → is_Some (ci_Global ci)))) a.
Proof.
  apply wpx_bind, wpx_gets, wpx_bind, wpx_gets.
  destruct (os_Stat _ _ _) as [[]|e|]; [|by apply wpx_ret; split; [apply same_place_refl|auto]|done].
  apply wpx_tryE, wlp_liftRes; [|by split]. intros file Hfile.
  assert (os_ReadFile (w_deny w) (a_fs a) (a_configPath a) = Ok file) as Hf.
  { by destruct (os_ReadFile _ _ _); simplify_eq/=. }
  apply wpx_tryE, wlp_liftRes; [|by split]. intros ci Hci.
  assert (yaml_Unmarshal file = Ok ci) as Hc by by destruct (yaml_Unmarshal file); simplify_eq/=.
  apply wpx_tryE, wpx_bind. unfold wpx at 1, new_global.
  destruct (ci_Global ci) as [g|] eqn:Hg; (apply wpx_tryE; eapply wpx_mono; [apply wlp_RuntimeConfig_loop|];
    intros r a' [[k ->] Hr]; destruct r as [chains|e]; [|by split]; cbn;
    split; [done|]; intros _; right; eexists file, ci, _; split_and!; [done..| |by apply Hr|by eapply Hr|];
    rewrite Hg; unfold settings; cbn; rewrite ?lookup_insert_eq; done).
Qed.

(** A file that says what it should is loaded. *)
Lemma loadConfigFile_ok order a file ci :
  answering →
  os_Stat (w_deny w) (a_fs a) (a_configPath a) = Ok tt →
  os_ReadFile (w_deny w) (a_fs a) (a_configPath a) = Ok file → yaml_Unmarshal file = Ok ci →
  (∀ name p, ci_ProviderConfigs ci !! name = Some p → ∃ q, p = Some q ∧
     (pc_Enabled (py_Value q) = true → is_Some (ci_Global ci) ∧ is_Some (built (a_homePath a) ci name))) →
  wp (loadConfigFile w order) (λ r a', r = inl tt) a.
Proof.
  intros Ha Hs Hr Hu Hok. apply wpx_bind, wpx_gets, wpx_bind, wpx_gets. rewrite Hs.
  apply wpx_tryE. rewrite Hr. apply wpx_tryE. cbn. rewrite Hu. apply wpx_tryE, wpx_bind.
  unfold wpx at 1, new_global.
  destruct (ci_Global ci) as [g|] eqn:Hg; apply wpx_tryE; (eapply wpx_mono;
    [apply RuntimeConfig_loop_ok; [done|]|by intros r a' [-> _]];
    intros name p _ Hp; destruct (Hok _ _ Hp) as (q & -> & Hq); exists q; split; [done|];
    intros [Hsg Hb]%Hq; by split).
Qed.

(** * Writing the file *)

(** What was marshalled is what will be read, without the names and paths. *)
Lemma Unmarshal_Marshal out s :
  yaml_Marshal out = inl s →
  (∀ name pw, co_ProviderConfigs out !! name = Some pw → pw_Type pw = pc_Type (pw_Value pw)) →
  ∃ ci, yaml_Unmarshal s = Ok ci ∧ ci_Global ci = co_Global out ∧
    ci_ProviderConfigs ci =
    (λ pw, Some (mkYAMLWrapper (pw_Type pw) (on_disk (pw_Value pw)))) <$> co_ProviderConfigs out.
Proof.
  intros (nodes & Hdoc & Hnd & Hdom & Hval)%yaml_output Hty.
  set (g := λ pw, Some (mkYAMLWrapper (pw_Type pw) (on_disk (pw_Value pw)))).
  set (es := omap (λ e : string * option string, (λ pw, (e.1, g pw)) <$> co_ProviderConfigs out !! e.1) nodes).
  assert (∀ l, (∀ e, e ∈ l → e ∈ nodes) → res_mapM UnmarshalYAML_entry l =
    Ok (omap (λ e : string * option string, (λ pw, (e.1, g pw)) <$> co_ProviderConfigs out !! e.1) l)) as Hmap.
  { induction l as [|[name node] l IH]; intros Hl; [done|]. cbn [res_mapM omap list_omap fst].
    assert (is_Some (co_ProviderConfigs out !! name)) as [pw Hpw].
    { apply Hdom. apply list_elem_of_fmap. exists (name, node). split; [done|]. apply Hl. set_solver. }
    destruct (Hval name node pw) as (n & value & -> & Ht & Hv); [apply Hl; set_solver|done|].
    rewrite Hpw, IH by set_solver. unfold UnmarshalYAML_entry, UnmarshalYAML. cbn. rewrite Ht. cbn.
    rewrite Hv by by eapply Hty. done. }
  exists (mkInput (co_Global out) (list_to_map es)). unfold yaml_Unmarshal. rewrite Hdoc. cbn.
  rewrite Hmap by done. split_and!; [done..|]. cbn. fold es.
  assert (NoDup es.*1) as Hes.
  { unfold es. clear -Hnd. induction nodes as [|[name node] nodes IH]; [constructor|]. cbn in *.
    apply NoDup_cons in Hnd as [Hn Hnd]. destruct (co_ProviderConfigs out !! name); cbn; [|by apply IH].
    constructor; [|by apply IH]. intros Hin. apply Hn. apply list_elem_of_fmap in Hin as ([k v] & -> & Hin).
    apply list_elem_of_omap in Hin as ([k' v'] & Hin & Hf). cbn in *.
    destruct (co_ProviderConfigs out !! k'); [|done]. injection Hf as -> _.
    apply list_elem_of_fmap. by exists (k, v'). }
  apply map_eq. intros name. rewrite lookup_fmap. apply option_eq. intros v.
  rewrite <-elem_of_list_to_map by done. unfold es. rewrite list_elem_of_omap. split.
  - intros ([k node] & Hin & Hf). cbn in Hf. destruct (co_ProviderConfigs out !! k) eqn:E; [|done].
    injection Hf as -> <-. by rewrite E.
  - destruct (co_ProviderConfigs out !! name) as [pw|] eqn:E; [|done]. intros [= <-].
    assert (name ∈ nodes.*1) as ([k node] & -> & Hin)%list_elem_of_fmap by by apply Hdom.
    exists (k, node). split; [done|]. cbn in *. by rewrite E.
Qed.

(** * The registry *)

Definition covers (order : list string) (chains : Chains) : Prop :=
  ∀ k, k ∈ order ↔ is_Some (chains !! k).

(** What a loaded registry is: chains under their NIDs, with different names,
    enabled, and complete. *)
Record registered home (chains : Chains) : Prop := {
  reg_NID k c : chains !! k = Some c → pc_NID c = k;
  reg_name k1 k2 c1 c2 : chains !! k1 = Some c1 → chains !! k2 = Some c2 → pc_Name c1 = pc_Name c2 → c1 = c2;
  reg_enabled k c : chains !! k = Some c → pc_Enabled c = true;
  reg_settled k c : chains !! k = Some c → pc_NewProvider w home (pc_Name c) (on_disk c) = Ok c }.

Lemma built_inv home ci name c :
  built home ci name = Some c → ∃ p, ci_ProviderConfigs ci !! name = Some (Some p) ∧
    pc_Enabled (py_Value p) = true ∧ pc_NewProvider w home name (py_Value p) = Ok c.
Proof.
  unfold built. destruct (ci_ProviderConfigs ci !! name) as [[p|]|]; [|done..].
  destruct (pc_Enabled _) eqn:He; [|done].
  destruct (pc_NewProvider _ _ _ _) eqn:Hn; [|done..]. intros [= ->]. eauto.
Qed.

Lemma built_name home ci name c : built home ci name = Some c → pc_Name c = name.
Proof. intros (p & _ & _ & Hn)%built_inv. by apply NewProvider_keeps in Hn as [? _]. Qed.

Lemma runtime_chains_Some home ci order nid c :
  runtime_chains home ci order ∅ !! nid = Some c →
  ∃ name, name ∈ order ∧ built home ci name = Some c ∧ pc_NID c = nid.
Proof.
  intros [?|(name & Hn & Hb)]%insert_all_Some; [by simplify_map_eq|].
  destruct (built home ci name) as [c'|] eqn:E; [|done]. injection Hb as <- <-. eauto.
Qed.

Lemma registered_runtime home ci order :
  answering → registered home (runtime_chains home ci order ∅).
Proof.
  intros Ha. split.
  - by intros k c (name & _ & _ & ?)%runtime_chains_Some.
  - intros k1 k2 c1 c2 (n1 & _ & Hb1 & _)%runtime_chains_Some (n2 & _ & Hb2 & _)%runtime_chains_Some Heq.
    rewrite (built_name _ _ _ _ Hb1), (built_name _ _ _ _ Hb2) in Heq. congruence.
  - intros k c (name & _ & (p & _ & He & (_ & _ & _ & _ & -> & _)%NewProvider_keeps)%built_inv & _)%runtime_chains_Some.
    done.
  - intros k c (name & _ & Hb & _)%runtime_chains_Some. rewrite (built_name _ _ _ _ Hb).
    apply built_inv in Hb as (p & _ & _ & Hn). by eapply NewProvider_settled.
Qed.

(** The chains in the file, by name. *)
Lemma Wrapped_Some order chains name pw :
  Wrapped_chains order chains !! name = Some pw →
  ∃ k c, k ∈ order ∧ chains !! k = Some c ∧ pc_Name c = name ∧ pw = mkWrapper (pc_Type c) c.
Proof.
  intros [?|(k & Hk & Hf)]%insert_all_Some; [by simplify_map_eq|].
  destruct (chains !! k) as [c|] eqn:E; [|done]. injection Hf as <- <-. eauto 6.
Qed.

Lemma Wrapped_elem order (chains : Chains) k c :
  (∀ k1 k2 c1 c2, chains !! k1 = Some c1 → chains !! k2 = Some c2 → pc_Name c1 = pc_Name c2 → c1 = c2) →
  k ∈ order → chains !! k = Some c →
  Wrapped_chains order chains !! pc_Name c = Some (mkWrapper (pc_Type c) c).
Proof.
  intros Hu Hk Hc. apply (insert_all_elem _ _ _ k); [|done|by rewrite Hc].
  intros k' v _ Hf. destruct (chains !! k') as [c'|] eqn:E; [|done]. injection Hf as Hn <-.
  by rewrite (Hu k' k c' c).
Qed.

Lemma wlp_Save order conf path a :
  wlp (Save w order conf path) (λ r a', r = inl tt → ∃ s fs,
    yaml_Marshal (Wrapped order (a_heap a) conf) = inl s ∧
    os_WriteFile (w_deny w) path s (a_fs a) = (fs, None) ∧ a_fs a' = fs ∧ a_homePath a' = a_homePath a ∧
    a_configPath a' = a_configPath a) a.
Proof.
  apply wpx_bind, wpx_gets. destruct (yaml_Marshal _) as [s|e]; [|by apply wpx_ret].
  unfold wpx, with_fs. destruct (os_WriteFile _ _ _ _) as [fs [e|]] eqn:E; [done|]. intros _. by exists s, fs.
Qed.

(** The file that holds a registry, read again. *)
Lemma reload home order order' heap global (chains : Chains) out s :
  registered home chains → covers order chains → (∀ k c, chains !! k = Some c → pc_Name c ∈ order') →
  out = Wrapped order heap (Cmd.mkConfig global chains) → yaml_Marshal out = inl s →
  ∃ ci, yaml_Unmarshal s = Ok ci ∧ ci_Global ci = co_Global out ∧
    runtime_chains home ci order' ∅ = chains ∧
    (∀ name p, ci_ProviderConfigs ci !! name = Some p → ∃ q k c, p = Some q ∧ built home ci name = Some c ∧
       chains !! k = Some c) ∧
    ∀ name, is_Some (ci_ProviderConfigs ci !! name) ↔ ∃ k c, chains !! k = Some c ∧ pc_Name c = name.
Proof.
  intros Hreg Hord Hord' -> Hm. destruct (Unmarshal_Marshal _ _ Hm) as (ci & Hu & Hg & Hci).
  { intros name pw (k & c & _ & _ & _ & ->)%Wrapped_Some. done. }
  assert (∀ k c, chains !! k = Some c → built home ci (pc_Name c) = Some c) as Hbuilt.
  { intros k c Hc. unfold built. rewrite Hci, lookup_fmap. cbn [co_ProviderConfigs Wrapped c_Chains].
    rewrite (Wrapped_elem _ _ k c); [|apply Hreg|apply Hord; by eexists|done]. cbn.
    rewrite on_disk_enabled, (reg_enabled _ _ Hreg k c Hc). by rewrite (reg_settled _ _ Hreg k c Hc). }
  assert (∀ name p, ci_ProviderConfigs ci !! name = Some p →
    ∃ k c, chains !! k = Some c ∧ pc_Name c = name ∧ p = Some (mkYAMLWrapper (pc_Type c) (on_disk c))) as Hin.
  { intros name p. rewrite Hci, lookup_fmap. cbn [co_ProviderConfigs Wrapped c_Chains].
    destruct (_ !! name) as [pw|] eqn:E; [|done]. intros [= <-].
    apply Wrapped_Some in E as (k & c & _ & Hc & Hn & ->). eauto. }
  exists ci. split_and!; [done..| | |].
  - apply map_eq. intros nid. apply option_eq. intros c. split.
    + intros (name & _ & Hb & <-)%runtime_chains_Some. pose proof (built_name _ _ _ _ Hb) as Hn.
      apply built_inv in Hb as (p & Hp & _ & Hnew). apply Hin in Hp as (k & c' & Hc' & Hn' & [= ->]).
      cbn in Hnew. rewrite <-Hn', (reg_settled _ _ Hreg k c' Hc') in Hnew. injection Hnew as ->.
      by rewrite (reg_NID _ _ Hreg k c Hc').
    + intros Hc. pose proof (reg_NID _ _ Hreg _ _ Hc) as Hnid.
      apply (insert_all_elem _ _ _ (pc_Name c)); [|by eapply Hord'|by rewrite (Hbuilt nid c Hc), <-Hnid].
      intros name v _ Hf. destruct (built home ci name) as [c'|] eqn:E; [|done]. injection Hf as Hn' <-.
      apply built_inv in E as (p & Hp & _ & Hnew). apply Hin in Hp as (k & c'' & Hc'' & <- & [= ->]).
      cbn in Hnew. rewrite (reg_settled _ _ Hreg k c'' Hc'') in Hnew. injection Hnew as ->.
      rewrite (reg_NID _ _ Hreg k c' Hc'') in Hn'. subst k. congruence.
  - intros name p Hp. destruct (Hin _ _ Hp) as (k & c & Hc & <- & ->). eauto 8.
  - intros name. split; [by intros [p (k & c & Hc & Hn & _)%Hin]; eauto|].
    intros (k & c & Hc & <-). apply Hbuilt in Hc. apply built_inv in Hc as (p & Hp & _). by eexists.
Qed.

(** * Theorems *)

(** Each of the three types is chosen by the entry's tag, and names itself so. *)
Lemma UnmarshalYAML_type node p : UnmarshalYAML node = Ok p → pc_Type (py_Value p) = py_Type p.
Proof.
  unfold UnmarshalYAML, yaml_value. rewrite res_bind_Ok. intros ([ty value] & _ & Hv). cbn in Hv.
  apply res_bind_Ok in Hv as (c & Hv & [= <-]). cbn.
  repeat case_decide; subst; [destruct (yaml_icon value)|destruct (yaml_evm value)|destruct (yaml_cosmos value)|done];
    by simplify_eq/=.
Qed.

Lemma yaml_Unmarshal_type file ci name p :
  yaml_Unmarshal file = Ok ci → ci_ProviderConfigs ci !! name = Some (Some p) →
  pc_Type (py_Value p) = py_Type p.
Proof.
  unfold yaml_Unmarshal. rewrite res_bind_Ok. intros (doc & _ & Hu).
  apply res_bind_Ok in Hu as (es & Hes%res_mapM_Ok & [= <-]). cbn.
  intros Hl%elem_of_list_to_map_2. apply list_elem_of_lookup in Hl as [i Hi].
  destruct (Forall2_lookup_r _ _ _ _ _ Hes Hi) as ([n [node|]] & _ & Hn); [|done].
  unfold UnmarshalYAML_entry in Hn. cbn in Hn. apply res_bind_Ok in Hn as (q & Hq & [= _ <-]).
  by eapply UnmarshalYAML_type.
Qed.

(** C38: each chain of a loaded configuration is an enabled entry of the file,
    under its own NID, with the name and the home directory filled in and with
    the provider type that the entry's tag asks for. *)
Theorem loadConfigFile_typed order a a1 file ci conf
  (Hstat : os_Stat (w_deny w) (a_fs a) (a_configPath a) = Ok tt)
  (Hread : os_ReadFile (w_deny w) (a_fs a) (a_configPath a) = Ok file)
  (Hci : yaml_Unmarshal file = Ok ci)
  (Hload : loadConfigFile w order a = Some (a1, inl tt)) (Hconf : a_config a1 = Some conf) :
  ∀ nid c, c_Chains conf !! nid = Some c → ∃ name p,
    ci_ProviderConfigs ci !! name = Some (Some p) ∧ pc_Enabled (py_Value p) = true ∧
    pc_Type c = py_Type p ∧ pc_Name c = name ∧ pc_NID c = nid ∧ pc_NID (py_Value p) = nid ∧
    cc_HomeDir (pc_common c) = a_homePath a.
Proof.
  pose proof (wlp_loadConfigFile order a) as Hl. unfold wpx in Hl. rewrite Hload in Hl.
  destruct Hl as [_ [[Hf _]|(file' & ci' & conf' & Hr & Hu & Hc & _ & Hch & _)]]; [done| |].
  { by rewrite Hstat in Hf. }
  simplify_eq. intros nid c. rewrite Hch. intros (name & _ & Hb & Hn)%runtime_chains_Some.
  apply built_inv in Hb as (p & Hp & He & Hnew). exists name, p.
  pose proof (NewProvider_keeps _ _ _ _ Hnew) as (? & ? & Hid & Ht & _).
  assert (pc_Type (py_Value p) = py_Type p) by by eapply yaml_Unmarshal_type. split_and!; congruence.
Qed.

(** C37: what is loaded, saved and loaded again is the same registry with the
    same settings, whatever orders the maps are visited in, when the nodes
    answer: the defaults that providers fill in are not filled in twice. *)
Theorem load_save_load order order1 order2 a a1 a2 conf
  (Hans : answering) (Hstat : os_Stat (w_deny w) (a_fs a) (a_configPath a) = Ok tt)
  (Hload : loadConfigFile w order a = Some (a1, inl tt)) (Hconf : a_config a1 = Some conf)
  (Ho1 : covers order1 (c_Chains conf))
  (Ho2 : ∀ k c, c_Chains conf !! k = Some c → pc_Name c ∈ order2)
  (Hsave : Save w order1 conf (a_configPath a1) a1 = Some (a2, inl tt)) :
  wp (loadConfigFile w order2) (λ r a3, r = inl tt ∧ ∃ conf', a_config a3 = Some conf' ∧
    c_Chains conf' = c_Chains conf ∧ settings a3 conf' = settings a1 conf) a2.
Proof.
  pose proof (wlp_loadConfigFile order a) as Hl. unfold wpx in Hl. rewrite Hload in Hl.
  destruct Hl as [(Hh & Hp & Hfs) [[Hf _]|(file & ci & conf' & _ & _ & Hc & Hg & Hch & Hall & Hgl)]]; [done| |].
  { by rewrite Hstat in Hf. }
  rewrite Hconf in Hc. injection Hc as <-. pose proof (wlp_Save order1 conf (a_configPath a1) a1) as Hs. unfold wpx in Hs. rewrite Hsave in Hs.
  destruct (Hs eq_refl) as (s & fs & Hm & Hw & Hfs2 & Hh2 & Hp2). clear Hs.
  assert (registered (a_homePath a2) (c_Chains conf)) as Hreg.
  { rewrite Hch, Hh2, Hh. by apply registered_runtime. }
  destruct (reload _ order1 order2 (a_heap a1) (c_Global conf) _ _ s Hreg Ho1 Ho2 eq_refl) as (ci2 & Hu2 & Hg2 & Hch2 & Hb2 & _).
  { by destruct conf. }
  assert (os_ReadFile (w_deny w) (a_fs a2) (a_configPath a2) = Ok s) as Hread.
  { rewrite Hfs2, Hp2. by eapply read_written. }
  assert (os_Stat (w_deny w) (a_fs a2) (a_configPath a2) = Ok tt) as Hstat2.
  { rewrite Hfs2, Hp2. apply write_file_ok in Hw as (-> & Hd & _). unfold os_Stat, exists_. rewrite Hd. cbn.
    rewrite lookup_insert_eq. by rewrite bool_decide_eq_true_2 by eauto. }
  assert (∀ k c, c_Chains conf !! k = Some c → is_Some (settings a1 conf)) as Hsome.
  { intros k c. rewrite Hch. intros (name & Hn & Hb & _)%runtime_chains_Some.
    apply built_inv in Hb as (p & Hp' & He & _). rewrite Hg. apply Hgl. by eapply Hall. }
  eapply wpx_mono; [apply wp_wlp; [apply loadConfigFile_ok with s ci2|apply wlp_loadConfigFile]|]; try done.
  - intros name p Hn. destruct (Hb2 _ _ Hn) as (q & k & c & -> & Hbc & Hkc). exists q. split; [done|]. intros _.
    split; [|by eexists]. rewrite Hg2. by eapply Hsome.
  - intros r a3 [-> [_ Hr]]. split; [done|].
    destruct (Hr eq_refl) as [[Hf _]|(file' & ci' & conf' & Hf & Hu & -> & Hset & Hch3 & _)]; [by rewrite Hstat2 in Hf|].
    rewrite Hread in Hf. injection Hf as <-. rewrite Hu2 in Hu. injection Hu as <-. exists conf'. rewrite Hch3, Hset, Hg2. done.
Qed.

(** ** Changing the file *)

Lemma wpx_the_config F conf (Q : Cmd.Config → App → Prop) a :
  a_config a = Some conf → Q conf a → wpx F the_config Q a.
Proof. intros Hc HQ. apply wpx_bind, wpx_gets. by rewrite Hc. Qed.

(** The names in the file that holds [chains]. *)
Lemma Wrapped_names order (chains : Chains) name :
  covers order chains →
  is_Some (Wrapped_chains order chains !! name) ↔ ∃ k c, chains !! k = Some c ∧ pc_Name c = name.
Proof.
  intros Hcov. split.
  - intros [pw (k & c & _ & Hc & Hn & _)%Wrapped_Some]. eauto.
  - intros (k & c & Hc & <-). eapply (insert_all_is_Some _ _ _ k); [apply Hcov; by eexists|by rewrite Hc].
Qed.

(** [op] takes the registry from [chains] to one related by [R]. *)
Definition registry_op (op : Run (unit + string)) (R : Chains → Chains → Prop) : Prop :=
  ∀ a conf, a_config a = Some conf → wlp op (λ r a', r = inl tt →
    same_place a a' ∧ ∃ conf', a_config a' = Some conf' ∧ R (c_Chains conf) (c_Chains conf')) a.

(** Every change starts from the enabled chains of the file, whoever holds the
    lock. *)
Lemma wlp_locking_begin order op R a file ci :
  os_Stat (w_deny w) (a_fs a) (a_configPath a) = Ok tt →
  os_ReadFile (w_deny w) (a_fs a) (a_configPath a) = Ok file → yaml_Unmarshal file = Ok ci →
  registry_op op R →
  wlp (locking_begin w order op) (λ r a', r = inl tt → same_place a a' ∧
    ∃ conf, a_config a' = Some conf ∧ R (runtime_chains (a_homePath a) ci order ∅) (c_Chains conf) ∧
      ∃ global, all_built (a_homePath a) ci global order) a.
Proof.
  intros Hstat Hread Hci Hop. apply wpx_tryE, wlp_liftRes; [intros _ _|done].
  apply wpx_tryE, wpx_bind. eapply wpx_mono; [apply wlp_loadConfigFile|].
  intros [[]|e] a1 [(Hh & Hp & Hf) Hl]; [|by apply wpx_ret]. apply wpx_ret.
  destruct (Hl eq_refl) as [[Hf' _]|(file1 & ci1 & conf & Hr1 & Hu1 & Hconf & _ & Hch & Hall & _)];
    [by rewrite Hstat in Hf'|].
  rewrite Hread in Hr1. injection Hr1 as <-. rewrite Hci in Hu1. injection Hu1 as <-.
  eapply wpx_mono; [by eapply Hop|]. intros r a2 Ho Hr.
  destruct (Ho Hr) as ((Hh2 & Hp2 & Hf2) & conf' & Hconf' & HR). split; [split_and!; congruence|].
  exists conf'. rewrite <-Hch. eauto.
Qed.

(** It replaces the file by what the registry has become, whatever is there. *)
Lemma wlp_locking_end order conf a :
  a_config a = Some conf →
  wlp (locking_end w order) (λ r a', r = inl tt → ∃ file ci,
    os_ReadFile (w_deny w) (a_fs a') (a_configPath a') = Ok file ∧ yaml_Unmarshal file = Ok ci ∧
    ci_ProviderConfigs ci =
      (λ pw, Some (mkYAMLWrapper (pw_Type pw) (on_disk (pw_Value pw)))) <$> Wrapped_chains order (c_Chains conf)) a.
Proof.
  intros Hconf. apply wpx_bind, wpx_gets. cbn [validateConfig]. apply wpx_bind, (wpx_the_config _ conf); [done|].
  apply wpx_bind, wpx_gets, wpx_bind, wpx_gets.
  destruct (yaml_Marshal _) as [s|e] eqn:Hm; [|by apply wpx_ret].
  apply wpx_bind. unfold wpx at 1, with_fs.
  destruct (os_WriteFile _ _ _ _) as [fs [e|]] eqn:Hw; apply wpx_ret; [done|]. intros _.
  destruct (Unmarshal_Marshal _ _ Hm) as (ci' & Hu' & _ & Hpc).
  { intros name pw (k & c & _ & _ & _ & ->)%Wrapped_Some. done. }
  exists s, ci'. split_and!; [|done|done]. by eapply read_written.
Qed.

Lemma wlp_locking order order' op R a file ci :
  os_Stat (w_deny w) (a_fs a) (a_configPath a) = Ok tt →
  os_ReadFile (w_deny w) (a_fs a) (a_configPath a) = Ok file → yaml_Unmarshal file = Ok ci →
  registry_op op R →
  wlp (performConfigLockingOperation w order order' op) (λ r a', r = inl tt →
    ∃ chains' file' ci', R (runtime_chains (a_homePath a) ci order ∅) chains' ∧
      (∃ global, all_built (a_homePath a) ci global order) ∧
      os_ReadFile (w_deny w) (a_fs a') (a_configPath a') = Ok file' ∧ yaml_Unmarshal file' = Ok ci' ∧
      ci_ProviderConfigs ci' =
        (λ pw, Some (mkYAMLWrapper (pw_Type pw) (on_disk (pw_Value pw)))) <$> Wrapped_chains order' chains') a.
Proof.
  intros Hstat Hread Hci Hop. apply wpx_tryE. eapply wpx_mono; [by eapply wlp_locking_begin|].
  intros [[]|e] a1 Hb; [|done]. destruct (Hb eq_refl) as (_ & conf & Hconf & HR & Hall).
  eapply wpx_mono; [by eapply wlp_locking_end|]. intros r a2 He Hr.
  destruct (He Hr) as (file' & ci' & Hr' & Hu' & Hpc). eauto 8.
Qed.

(** What the enabled entries of a file become, by name. *)
Lemma runtime_chains_names home ci order global (P : Chain → Prop) name :
  (∀ name, name ∈ order ↔ is_Some (ci_ProviderConfigs ci !! name)) → all_built home ci global order →
  (∀ n1 n2 p1 p2, ci_ProviderConfigs ci !! n1 = Some (Some p1) → ci_ProviderConfigs ci !! n2 = Some (Some p2) →
     pc_Enabled (py_Value p1) = true → pc_Enabled (py_Value p2) = true →
     pc_NID (py_Value p1) = pc_NID (py_Value p2) → n1 = n2) →
  (∃ k c, runtime_chains home ci order ∅ !! k = Some c ∧ P c ∧ pc_Name c = name) ↔
  ∃ p c, ci_ProviderConfigs ci !! name = Some (Some p) ∧ pc_Enabled (py_Value p) = true ∧
    built home ci name = Some c ∧ P c.
Proof.
  intros Hord Hall Hnid. split.
  - intros (k & c & (n & Hn & Hb & Hk)%runtime_chains_Some & HP & Hname).
    rewrite (built_name _ _ _ _ Hb) in Hname. subst n.
    pose proof Hb as (p & Hp & He & _)%built_inv. eauto 6.
  - intros (p & c & Hp & He & Hb & HP). exists (pc_NID c), c.
    split_and!; [|done|by eapply built_name].
    apply (insert_all_elem _ _ _ name); [|apply Hord; by eexists|by rewrite Hb].
    intros n v _ Hf. destruct (built home ci n) as [c'|] eqn:Hb'; [|done]. injection Hf as Hn <-.
    pose proof Hb as (p1 & Hp1 & He1 & (_ & _ & Hi1 & _)%NewProvider_keeps)%built_inv.
    pose proof Hb' as (p2 & Hp2 & He2 & (_ & _ & Hi2 & _)%NewProvider_keeps)%built_inv.
    assert (n = name) as -> by (eapply Hnid; [done..|congruence]). congruence.
Qed.

Lemma file_names order (chains : Chains) ci name :
  ci_ProviderConfigs ci =
    (λ pw, Some (mkYAMLWrapper (pw_Type pw) (on_disk (pw_Value pw)))) <$> Wrapped_chains order chains →
  covers order chains →
  is_Some (ci_ProviderConfigs ci !! name) ↔ ∃ k c, chains !! k = Some c ∧ pc_Name c = name.
Proof. intros -> ?. by rewrite lookup_fmap, fmap_is_Some, Wrapped_names. Qed.

(** Two enabled entries of the file never have the same NID. *)
Definition distinct_NIDs ci : Prop :=
  ∀ n1 n2 p1 p2, ci_ProviderConfigs ci !! n1 = Some (Some p1) → ci_ProviderConfigs ci !! n2 = Some (Some p2) →
    pc_Enabled (py_Value p1) = true → pc_Enabled (py_Value p2) = true →
    pc_NID (py_Value p1) = pc_NID (py_Value p2) → n1 = n2.

Lemma delete_op chain :
  registry_op (delete_chain chain) (λ chains chains', is_Some (chains !! chain) ∧ chains' = delete chain chains).
Proof.
  intros a conf Hconf. apply wpx_bind, (wpx_the_config _ conf); [done|].
  destruct (c_Chains conf !! chain) eqn:E; [|by apply wpx_ret].
  apply wpx_bind, wpx_modify, wpx_ret. intros _. split; [done|]. eexists. split; [done|]. split; [by eexists|done].
Qed.

(** The names of the enabled chains other than one. *)
Lemma deleted_names home ci order global nid name :
  distinct_NIDs ci → (∀ name, name ∈ order ↔ is_Some (ci_ProviderConfigs ci !! name)) →
  all_built home ci global order →
  (∃ k c, delete nid (runtime_chains home ci order ∅) !! k = Some c ∧ pc_Name c = name) ↔
  ∃ p, ci_ProviderConfigs ci !! name = Some (Some p) ∧ pc_Enabled (py_Value p) = true ∧ pc_NID (py_Value p) ≠ nid.
Proof.
  intros Hnids Hord Hall.
  transitivity (∃ k c, runtime_chains home ci order ∅ !! k = Some c ∧ pc_NID c ≠ nid ∧ pc_Name c = name).
  { split; intros (k & c & Hc & Hn).
    - apply lookup_delete_Some in Hc as [Hk Hc]. exists k, c. split_and!; try done.
      apply runtime_chains_Some in Hc as (_ & _ & _ & ->). congruence.
    - exists k, c. split; [|apply Hn]. apply lookup_delete_Some. split; [|done].
      apply runtime_chains_Some in Hc as (_ & _ & _ & <-). naive_solver. }
  rewrite (runtime_chains_names _ ci order global (λ c, pc_NID c ≠ nid)) by done. split.
  - intros (p & c & Hp & He & Hb & Hn). exists p. split_and!; [done..|].
    apply built_inv in Hb as (p' & Hp' & _ & (_ & _ & Hid & _)%NewProvider_keeps). naive_solver.
  - intros (p & Hp & He & Hn). destruct (Hall name p) as [[c Hb] _]; [apply Hord; by eexists|done..|].
    exists p, c. split_and!; [done..|].
    apply built_inv in Hb as (p' & Hp' & _ & (_ & _ & Hid & _)%NewProvider_keeps). naive_solver.
Qed.

(** [chains delete] leaves in the file the enabled entries whose NID is not
    the one given, and only those: the disabled entries are gone too. *)
Theorem chainsDelete_file order order' nid a a' file ci
  (Hstat : os_Stat (w_deny w) (a_fs a) (a_configPath a) = Ok tt)
  (Hread : os_ReadFile (w_deny w) (a_fs a) (a_configPath a) = Ok file)
  (Hci : yaml_Unmarshal file = Ok ci) (Hnids : distinct_NIDs ci)
  (Hord : ∀ name, name ∈ order ↔ is_Some (ci_ProviderConfigs ci !! name))
  (Hord' : covers order' (delete nid (runtime_chains (a_homePath a) ci order ∅)))
  (Hrun : chainsDelete w order order' nid a = Some (a', inl tt)) :
  ∃ file' ci', os_ReadFile (w_deny w) (a_fs a') (a_configPath a') = Ok file' ∧ yaml_Unmarshal file' = Ok ci' ∧
    ∀ name, is_Some (ci_ProviderConfigs ci' !! name) ↔ ∃ p, ci_ProviderConfigs ci !! name = Some (Some p) ∧
      pc_Enabled (py_Value p) = true ∧ pc_NID (py_Value p) ≠ nid.
Proof.
  pose proof (wlp_locking order order' _ _ a file ci Hstat Hread Hci (delete_op nid)) as Hl.
  unfold wpx in Hl. unfold chainsDelete in Hrun. rewrite Hrun in Hl.
  destruct (Hl eq_refl) as (chains' & file' & ci' & (_ & ->) & (global & Hall) & Hr & Hu & Hpc).
  exists file', ci'. split_and!; [done..|]. intros name.
  rewrite (file_names _ _ _ _ Hpc) by done. by eapply deleted_names.
Qed.

(** [Get] finds the NID that a chain of the registry has. *)
Lemma Chains_Get_Err l nid e : Chains_Get l nid = Err e → ∀ x, x ∈ l → x.2 ≠ nid.
Proof.
  induction l as [|[name n] l IH]; cbn; [by intros _ x ?%elem_of_nil|]. case_decide as Hd; [done|].
  intros He x Hx. assert (x = (name, n) ∨ x ∈ l) as [->|?] by set_solver; [|by apply IH].
  cbn. congruence.
Qed.

Lemma Get_Err order nid (chains : Chains) e :
  Get order nid chains = Err e → ∀ k c, k ∈ order → chains !! k = Some c → pc_NID c ≠ nid.
Proof.
  unfold Get. destruct (Chains_Get _ _) as [x|e'|] eqn:E; cbn; [by destruct (chains !! x.1)| |done].
  intros _ k c Hk Hc. apply (Chains_Get_Err _ _ _ E (k, pc_NID c)).
  unfold entries. apply list_elem_of_omap. exists k. by rewrite Hc.
Qed.

(** [chains add] from the file of a new chain. *)
Lemma add_op order chainName file :
  registry_op (addChainFromFile w order chainName file) (λ chains chains', ∃ c,
    pc_Name c = chainName ∧ pc_NID c ≠ "" ∧ chains' = <[chainName := c]> chains ∧
    ∀ k c', k ∈ order → chains !! k = Some c' → pc_NID c' ≠ pc_NID c).
Proof.
  intros a conf Hconf. apply wpx_bind, wpx_gets.
  apply wpx_tryE, wlp_liftRes; [intros _ _|done]. apply wpx_tryE, wlp_liftRes; [intros byt _|done].
  apply wpx_tryE, wlp_liftRes; [intros pcw _|done]. apply wpx_bind, wpx_gets.
  apply wpx_tryE, wlp_liftRes; [intros c Hc|done].
  assert (pc_Name c = chainName) as Hname.
  { destruct (pc_NewProvider _ _ _ _) eqn:E; simplify_eq/=. by apply NewProvider_keeps in E as [? _]. }
  apply wpx_bind, (wpx_the_config _ conf); [done|].
  apply wpx_tryE, wlp_liftRes; [intros conf' Hadd|done].
  apply wpx_bind, wpx_modify, wpx_ret. intros _. split; [done|]. exists conf'. split; [done|].
  unfold AddChain in Hadd. case_decide as Hn; [done|].
  destruct (Get order (pc_NID c) (c_Chains conf)) as [| |] eqn:Hg; [done| |done].
  injection Hadd as <-. exists c. split_and!; [done..|by rewrite <-Hname|].
  by eapply Get_Err.
Qed.

(** [chains add] leaves in the file the enabled entries and the new chain,
    whose NID none of them has; here too the disabled entries are gone. *)
Theorem chainsAdd_file order order' args file a a' old ci chainName
  (Hstat : os_Stat (w_deny w) (a_fs a) (a_configPath a) = Ok tt)
  (Hread : os_ReadFile (w_deny w) (a_fs a) (a_configPath a) = Ok old)
  (Hci : yaml_Unmarshal old = Ok ci) (Hnids : distinct_NIDs ci)
  (Hord : ∀ name, name ∈ order ↔ is_Some (ci_ProviderConfigs ci !! name))
  (Hname : chain_name_of args file = Ok chainName)
  (Hfresh : runtime_chains (a_homePath a) ci order ∅ !! chainName = None)
  (Hord' : ∀ k, k ∈ order' ↔ k = chainName ∨ is_Some (runtime_chains (a_homePath a) ci order ∅ !! k))
  (Hrun : chainsAdd w order order' args file a = Some (a', inl tt)) :
  ∃ file' ci', os_ReadFile (w_deny w) (a_fs a') (a_configPath a') = Ok file' ∧ yaml_Unmarshal file' = Ok ci' ∧
    ∀ name, is_Some (ci_ProviderConfigs ci' !! name) ↔ name = chainName ∨
      ∃ p, ci_ProviderConfigs ci !! name = Some (Some p) ∧ pc_Enabled (py_Value p) = true.
Proof.
  set (op := if decide (file = "") then mret (inr "file not present")
    else chainName ←? liftRes (chain_name_of args file); config ← the_config;
         addChainFromFile w (elements (dom (c_Chains config))) chainName file : Run (unit + string)).
  assert (registry_op op (λ chains chains', ∃ c, pc_Name c = chainName ∧ chains' = <[chainName := c]> chains)) as Hop.
  { intros b conf Hconf. unfold op. case_decide; [by apply wpx_ret|]. rewrite Hname.
    apply wpx_tryE, wlp_liftRes; [intros n [= <-]|done].
    apply wpx_bind, (wpx_the_config _ conf); [done|]. eapply wpx_mono; [by apply add_op|].
    intros r b' Hr ->. destruct (Hr eq_refl) as (Hp & conf' & Hc & c & Hcn & _ & Hch & _). eauto 8. }
  pose proof (wlp_locking order order' op _ a old ci Hstat Hread Hci Hop) as Hl.
  assert (performConfigLockingOperation w order order' op a = Some (a', inl tt)) as Hrun'.
  { destruct (a_config a) eqn:E; [|by unfold chainsAdd, mbind, proc_bind, gets in Hrun; rewrite E in Hrun].
    rewrite <-Hrun. unfold chainsAdd. unfold mbind at 1, proc_bind at 1, gets at 1. by rewrite E. }
  unfold wpx in Hl. rewrite Hrun' in Hl.
  destruct (Hl eq_refl) as (chains' & file' & ci' & (c & Hcn & ->) & (global & Hall) & Hr & Hu & Hpc).
  exists file', ci'. split_and!; [done..|]. intros name. rewrite (file_names _ _ _ _ Hpc).
  2:{ intros k. rewrite Hord', lookup_insert_is_Some. destruct (decide (k = chainName)); naive_solver. }
  transitivity (name = chainName ∨ ∃ k c, runtime_chains (a_homePath a) ci order ∅ !! k = Some c ∧ True ∧ pc_Name c = name).
  { split.
    - intros (k & c' & [[<- <-]|[Hk Hc]]%lookup_insert_Some & Hn); [left; congruence|right; eauto].
    - intros [->|(k & c' & Hc & _ & Hn)]; [exists chainName, c; split; [apply lookup_insert_eq|done]|].
      exists k, c'. split; [|done]. apply lookup_insert_Some. right. split; [|done]. intros <-. congruence. }
  rewrite (runtime_chains_names _ ci order global (λ _, True)) by done. split; (intros [?|Hn]; [by left|right]).
  - destruct Hn as (p & c' & Hp & He & _). eauto.
  - destruct Hn as (p & Hp & He). destruct (Hall name p) as [[c' Hb] _]; [apply Hord; by eexists|done..|]. eauto 6.
Qed.

(** [keystore use] cannot change the wallet: it saves the configuration to
    the home directory's own path, which is a directory.  Whatever the chain
    and the key, no file is written, the contract's admin is not told, and
    nothing is reported but an error. *)
Theorem keystore_use_fails order order' chain address a conf k c
  (Hconf : a_config a = Some conf) (Hget : Get order chain (c_Chains conf) = Ok (k, c))
  (Hne : pc_GetWallet c ≠ address)
  (Hdir : a_homePath a ∈ fs_dirs (a_fs a)) (Hdeny : w_deny w (a_homePath a) = None) :
  wp (keystore_use w order order' chain address) (λ r a',
    (r = inr "keystore not found" ∨ r = inr "password not found" ∨ r = inr errIsDir) ∧
    a_fs a' = a_fs a ∧ a_admin a' = a_admin a ∧ a_out a' = a_out a) a.
Proof.
  apply wpx_bind, (wpx_the_config _ conf); [done|]. rewrite Hget. apply wpx_tryE.
  apply wpx_bind, wpx_gets, wpx_bind, wpx_gets. cbn zeta.
  set (fails := λ p, match os_Stat (w_deny w) (a_fs a) p with Err e => IsNotExist e | _ => false end).
  fold (fails (pathJoin [a_homePath a; "keystore"; chain; address])).
  fold (fails (pathJoin [a_homePath a; "keystore"; chain; address] +:+ ".pass")).
  destruct (fails (pathJoin _)); [apply wpx_ret; auto|].
  destruct (fails (_ +:+ _)); [apply wpx_ret; auto|].
  cbn [snd fst]. rewrite decide_False by done. apply wpx_bind, wpx_modify, wpx_tryE, wpx_bind, wpx_gets.
  match goal with |- context [yaml_Marshal ?x] => destruct (yaml_writes x) as [s ->] end.
  unfold wpx, with_fs, os_WriteFile. cbn. rewrite Hdeny, decide_True by done. cbn. auto.
Qed.

(** ** Two processes *)

(** The same process when the lock is taken, and when another one has written
    files in the meantime. *)
Definition lock_taken : World :=
  mkWorld (w_deny w) (w_icon_info w) (w_evm_dial w) (w_cosmos_context w) (w_LoadDefaultConfig w)
    (w_CreateKey w) (w_QueryBalance w) (w_SetAdmin w) (w_icon_keys w) (w_evm_keys w) (w_cosmos_keys w) (Ok false).

Definition with_FS (fs : FS) a : App :=
  mkApp (a_homePath a) (a_configPath a) (a_dbPath a) fs (a_heap a) (a_next a) (a_config a)
    (a_kms a) (a_admin a) (a_out a).
End CmdCorrect.

(** The file after the second half of a deletion. *)
Lemma deletion_written `{YamlSpec} `{Json} w order order' nid a a0 a1 a2 ci global :
  distinct_NIDs ci → (∀ name, name ∈ order ↔ is_Some (ci_ProviderConfigs ci !! name)) →
  all_built w (a_homePath a0) ci global order →
  covers order' (delete nid (runtime_chains w (a_homePath a0) ci order ∅)) →
  (∃ conf, a_config a = Some conf ∧ c_Chains conf = delete nid (runtime_chains w (a_homePath a0) ci order ∅)) →
  a1 = with_FS (a_fs a1) a → locking_end w order' a1 = Some (a2, inl tt) →
  ∃ file' ci', os_ReadFile (w_deny w) (a_fs a2) (a_configPath a2) = Ok file' ∧ yaml_Unmarshal file' = Ok ci' ∧
    ∀ name, is_Some (ci_ProviderConfigs ci' !! name) ↔ ∃ p, ci_ProviderConfigs ci !! name = Some (Some p) ∧
      pc_Enabled (py_Value p) = true ∧ pc_NID (py_Value p) ≠ nid.
Proof.
  intros Hnids Hord Hall Hord' (conf & Hconf & Hch) Ha1 He.
  assert (a_config a1 = Some conf) as Hconf1 by by rewrite Ha1.
  pose proof (wlp_locking_end w order' conf a1 Hconf1) as Hl.
  unfold wpx in Hl. rewrite He in Hl. destruct (Hl eq_refl) as (file' & ci' & Hr & Hu & Hpc).
  exists file', ci'. split_and!; [done..|]. intros name. rewrite Hch in Hpc.
  rewrite (file_names _ _ _ _ Hpc) by done. by eapply deleted_names.
Qed.

(** The lock excludes nobody: a process that finds it taken goes on.  When
    two deletions overlap both report success; the first one's chain is gone
    from the file that it writes, and back in the file that the second one
    writes. *)
Theorem delete_lost `{YamlSpec} `{Json} w o1 o1' o2 o2' d1 d2 a b1 b2 c1 c2 file ci
  (Hstat : os_Stat (w_deny w) (a_fs a) (a_configPath a) = Ok tt)
  (Hread : os_ReadFile (w_deny w) (a_fs a) (a_configPath a) = Ok file)
  (Hci : yaml_Unmarshal file = Ok ci) (Hnids : distinct_NIDs ci) (Hne : d1 ≠ d2)
  (Ho1 : ∀ name, name ∈ o1 ↔ is_Some (ci_ProviderConfigs ci !! name))
  (Ho2 : ∀ name, name ∈ o2 ↔ is_Some (ci_ProviderConfigs ci !! name))
  (Ho1' : covers o1' (delete d1 (runtime_chains w (a_homePath a) ci o1 ∅)))
  (Ho2' : covers o2' (delete d2 (runtime_chains w (a_homePath a) ci o2 ∅)))
  (Hb1 : locking_begin w o1 (delete_chain d1) a = Some (b1, inl tt))
  (Hb2 : locking_begin (lock_taken w) o2 (delete_chain d2) a = Some (b2, inl tt))
  (He1 : locking_end w o1' b1 = Some (c1, inl tt))
  (He2 : locking_end w o2' (with_FS (a_fs c1) b2) = Some (c2, inl tt)) :
  ∃ name p file1 ci1 file2 ci2,
    ci_ProviderConfigs ci !! name = Some (Some p) ∧ pc_NID (py_Value p) = d1 ∧
    os_ReadFile (w_deny w) (a_fs c1) (a_configPath c1) = Ok file1 ∧ yaml_Unmarshal file1 = Ok ci1 ∧
    ci_ProviderConfigs ci1 !! name = None ∧
    os_ReadFile (w_deny w) (a_fs c2) (a_configPath c2) = Ok file2 ∧ yaml_Unmarshal file2 = Ok ci2 ∧
    is_Some (ci_ProviderConfigs ci2 !! name).
Proof.
  pose proof (wlp_locking_begin w o1 _ _ a file ci Hstat Hread Hci (delete_op d1)) as Hl1.
  unfold wpx in Hl1. rewrite Hb1 in Hl1.
  destruct (Hl1 eq_refl) as (_ & conf1 & Hconf1 & [[c Hc] Hch1] & global1 & Hall1).
  pose proof (wlp_locking_begin (lock_taken w) o2 _ _ a file ci Hstat Hread Hci (delete_op d2)) as Hl2.
  unfold wpx in Hl2. rewrite Hb2 in Hl2.
  destruct (Hl2 eq_refl) as (_ & conf2 & Hconf2 & [_ Hch2] & global2 & Hall2).
  apply runtime_chains_Some in Hc as (name & _ & (p & Hp & He & (_ & _ & Hid & _)%NewProvider_keeps)%built_inv & Hd1).
  assert (pc_NID (py_Value p) = d1) as Hpd by congruence.
  destruct (deletion_written w o1 o1' d1 b1 a b1 c1 ci global1) as (f1 & ci1 & Hr1 & Hu1 & Hn1);
    [done..|by exists conf1|by destruct b1|done|].
  destruct (deletion_written w o2 o2' d2 b2 a (with_FS (a_fs c1) b2) c2 ci global2) as (f2 & ci2 & Hr2 & Hu2 & Hn2);
    [done..|by exists conf2|done|done|].
  exists name, p, f1, ci1, f2, ci2. split_and!; try done.
  - apply eq_None_not_Some. intros (p' & Hp' & _ & Hnd)%Hn1. rewrite Hp in Hp'. by injection Hp' as <-.
  - apply Hn2. exists p. split_and!; [done..|congruence].
Qed.
