(* ===== verification/CmdWitness.v ===== *)
(** The command line on concrete configurations: a YAML library that encodes
    documents as binary digits, a directory with a configuration of two ICON
    chains, and nodes that answer. *)
From stdpp Require Import gmap strings list countable.
From Stdlib Require Import ZArith Lia Ascii.
From S2P Require Import Prelude GoStd GoOs Types Store Concrete Provider Relay.
From S2P Require Import Evm IconTypes Icon WasmTypes Wasm Cmd CmdKeystore CmdCorrect.
Open Scope Z_scope.

(** * A YAML library *)

(** A list of texts as one text: [;] after each, and [\] before every [;] and [\]
    inside. *)
Definition special (c : ascii) : bool := bool_decide (c ∈ [";"; "\"]%char).

Fixpoint pack1 (s rest : string) : string :=
  match s with
  | "" => String ";" rest
  | String c s =>
      let t := String c (pack1 s rest) in if special c then String "\" t else t
  end.
Definition pack (l : list string) : string := foldr pack1 "" l.

Definition onto (c : ascii) (l : option (list string)) : option (list string) :=
  match l with Some (h :: t) => Some (String c h :: t) | _ => None end.

Fixpoint unpack (s : string) : option (list string) :=
  match s with
  | "" => Some []
  | String c s =>
      if bool_decide (c = ";")%char then cons "" <$> unpack s
      else if bool_decide (c = "\")%char then
        match s with String c s => onto c (unpack s) | "" => None end
      else onto c (unpack s)
  end.

Lemma unpack_pack l : unpack (pack l) = Some l.
Proof.
  induction l as [|s l IH]; [done|]. cbn [pack foldr]. change (foldr pack1 "" l) with (pack l).
  assert (unpack (pack1 s (pack l)) = Some (s :: l)) as ->; [|done].
  induction s as [|c s IHs]; [cbn; by rewrite IH|]. cbn [pack1]. unfold special.
  case_bool_decide as Hc; cbn [unpack]; [by rewrite IHs|].
  rewrite !bool_decide_eq_false_2 by set_solver. by rewrite IHs.
Qed.

(** Data that can be written as text and read back. *)
Class Text (A : Type) := {
  text_of : A → string;
  parse_text : string → option A;
  parse_text_of x : parse_text (text_of x) = Some x }.

#[export, refine] Instance text_string : Text string := { text_of s := s; parse_text := Some }.
Proof. done. Defined.
#[export, refine] Instance text_Z : Text Z := {
  text_of z := bits_of (encode z);
  parse_text s := of_bits s ≫= decode }.
Proof. intros z. rewrite of_bits_of. cbn. apply decode_encode. Defined.
#[export, refine] Instance text_bool : Text bool := {
  text_of b := if b : bool then "1" else "0";
  parse_text s := Some (bool_decide (s = "1")) }.
Proof. by intros []. Defined.
#[export, refine] Instance text_list {A} `{Text A} : Text (list A) := {
  text_of l := pack (text_of <$> l);
  parse_text s := unpack s ≫= mapM parse_text }.
Proof.
  intros l. rewrite unpack_pack. cbn. induction l as [|x l IH]; [done|]. cbn. by rewrite parse_text_of, IH.
Defined.
#[export, refine] Instance text_prod {A B} `{Text A} `{Text B} : Text (A * B) := {
  text_of p := pack [text_of p.1; text_of p.2];
  parse_text s :=
    match unpack s with
    | Some [a; b] => a ← parse_text a; b ← parse_text b; Some (a, b)
    | _ => None
    end }.
Proof. intros [a b]. rewrite unpack_pack. cbn. rewrite parse_text_of. cbn. by rewrite parse_text_of. Defined.
#[export, refine] Instance text_option {A} `{Text A} : Text (option A) := {
  text_of o := match o with Some x => String "s" (text_of x) | None => "" end;
  parse_text s := match s with "" => Some None | String _ s => Some <$> parse_text s end }.
Proof. intros [x|]; [|done]. by rewrite parse_text_of. Defined.

(** A type in bijection with part of another. *)
Definition text_via {A B} `{Text B} (f : A → B) (g : B → A) (Hgf : ∀ x, g (f x) = x) : Text A.
Proof.
  refine {| text_of x := text_of (f x); parse_text s := g <$> parse_text s |}.
  intros x. rewrite parse_text_of. cbn. by rewrite Hgf.
Defined.

#[export] Instance text_common : Text CommonConfig.
Proof.
  apply (text_via (B := list string * (list Z * bool * list (string * string)))
    (λ c, ([cc_ChainName c; cc_RPCUrl c; cc_Address c; cc_NID c; cc_HomeDir c],
           (([cc_StartHeight c; cc_FinalityBlock c], cc_Disabled c), map_to_list (cc_Contracts c))))
    (λ '(l, (z, d, m)), let s i := default "" (l !! i) in let n i := default 0 (z !! i) in
      mkCommonConfig (s 0%nat) (s 1%nat) (n 0%nat) (s 2%nat) (list_to_map m) (n 1%nat) (s 3%nat) (s 4%nat) d)).
  intros []. cbn. by rewrite list_to_map_to_list.
Defined.
#[export] Instance text_icon : Text Icon.Config.
Proof.
  apply (text_via (B := CommonConfig * (Z * (Z * Z))) (λ c, (Icon.c_Common c, (Icon.c_StepMin c, (Icon.c_StepLimit c, Icon.c_StepAdjustment c))))
    (λ '(a, (b, (c, d))), Icon.mkConfig a b c d)).
  by intros [].
Defined.
#[export] Instance text_evm : Text Evm.Config.
Proof.
  apply (text_via (B := CommonConfig * (string * list Z))
    (λ c, (Evm.c_Common c, (Evm.c_WebsocketUrl c,
           [Evm.c_GasMin c; Evm.c_GasLimit c; Evm.c_GasAdjustment c; Evm.c_BlockBatchSize c])))
    (λ '(a, (b, z)), let n i := default 0 (z !! i) in Evm.mkConfig a b (n 0%nat) (n 1%nat) (n 2%nat) (n 3%nat))).
  by intros [].
Defined.
#[export] Instance text_wasm : Text Wasm.Config.
Proof.
  apply (text_via (B := CommonConfig * bool * (list string * list Z))
    (λ c, ((Wasm.c_Common c, Wasm.c_Simulate c),
           ([Wasm.c_GrpcUrl c; Wasm.c_KeyringBackend c; Wasm.c_KeyringDir c; Wasm.c_AccountPrefix c;
             Wasm.c_Denomination c; Wasm.c_GasPrices c; Wasm.c_BroadcastMode c; Wasm.c_SignModeStr c;
             Wasm.c_ExtraCodec c],
            [Wasm.c_GasAdjustment c; Wasm.c_MinGasAmount c; Wasm.c_MaxGasAmount c;
             Wasm.c_TxConfirmationInterval c; Wasm.c_BlockBatchSize c])))
    (λ '(a, b, (l, z)), let s i := default "" (l !! i) in let n i := default 0 (z !! i) in
      Wasm.mkConfig a (s 0%nat) (s 1%nat) (s 2%nat) (s 3%nat) (s 4%nat) (s 5%nat) (n 0%nat) (n 1%nat) (n 2%nat)
        (n 3%nat) (s 6%nat) (s 7%nat) b (s 8%nat) (n 4%nat))).
  by intros [].
Defined.
#[export] Instance text_global : Text GlobalConfig.
Proof.
  apply (text_via (B := string * string) (λ g, (g_Timeout g, g_KMSKeyID g)) (λ '(a, b), mkGlobalConfig a b)). by intros [].
Defined.

Definition read_text {A} `{Text A} (s : string) : res A :=
  match parse_text s with Some x => Ok x | None => Err "yaml: unmarshal errors" end.

Lemma read_text_of {A} `{Text A} (x : A) : read_text (text_of x) = Ok x.
Proof. unfold read_text. by rewrite parse_text_of. Qed.

Definition node_of (p : ProviderConfigWrapper) : string :=
  text_of (pw_Type p, match on_disk (pw_Value p) with
                      | PCIcon c => text_of c | PCEvm c => text_of c | PCCosmos c => text_of c end).

Definition doc_of (w : ConfigOutputWrapper) : option GlobalConfig * list (string * option string) :=
  (co_Global w, (λ kv, (kv.1, Some (node_of kv.2))) <$> map_to_list (co_ProviderConfigs w)).

#[export] Instance yaml : Yaml := {
  yaml_Marshal w := inl (text_of (doc_of w));
  yaml_MarshalConfig g := inl (text_of (Some g, ([] : list (string * option string))));
  yaml_Document := read_text;
  yaml_T := read_text;
  yaml_icon := read_text;
  yaml_evm := read_text;
  yaml_cosmos := read_text }.

#[export] Instance yaml_spec : YamlSpec.
Proof.
  split.
  - intros w s Hs. assert (text_of (doc_of w) = s) as <- by by injection Hs.
    exists (doc_of w).2. split; [exact (read_text_of (doc_of w))|]. cbn [doc_of snd]. split_and!.
    + rewrite <-list_fmap_compose. apply NoDup_fst_map_to_list.
    + intros name. rewrite <-list_fmap_compose, list_elem_of_fmap. split.
      * intros ([n p] & -> & ?%elem_of_map_to_list). by eexists.
      * intros [p ?%elem_of_map_to_list]. by exists (name, p).
    + intros name node pw ([n p] & [= -> ->] & Hp%elem_of_map_to_list)%list_elem_of_fmap Hpw.
      cbn in Hp. rewrite Hp in Hpw. injection Hpw as ->. eexists _, _. split; [done|].
      split; [apply (read_text_of (A := string * string))|].
      intros ->. cbn [yaml_value]. destruct (pw_Value pw); unfold yaml_value; cbn -[read_text text_of on_disk];
        unfold on_disk; cbn -[read_text text_of]; by rewrite read_text_of.
  - intros w. by eexists.
  - intros g s Hs. assert (text_of (Some g, ([] : list (string * option string))) = s) as <- by by injection Hs.
    apply read_text_of.
Qed.

#[export] Instance json : Json := {
  json_Object s := Ok (Some "icon", s);
  json_icon := read_text;
  json_evm := read_text;
  json_cosmos := read_text;
  json_nil _ := None;
  json_report _ e := e }.

(** * A home directory *)

Definition icon_chain (nid : string) : Icon.Config :=
  Icon.mkConfig (mkCommonConfig "" "http://node" 0 "hx1" ∅ 0 nid "" false) 1 100000 0.

Definition two_chains : ConfigOutputWrapper :=
  mkOutput (Some newDefaultGlobalConfig)
    {[ "west" := mkWrapper "icon" (PCIcon (icon_chain "0x1"));
       "east" := mkWrapper "icon" (PCIcon (icon_chain "0x2")) ]}.

Definition config_text (out : ConfigOutputWrapper) : string :=
  match yaml_Marshal out with inl s => s | inr _ => "" end.

Definition home_files : FS :=
  mkFS {[ "/home/config.yaml" := config_text two_chains;
          "/home/south.json" := text_of (icon_chain "0x3");
          "/home/keystore/0x1/hx2" := ""; "/home/keystore/0x1/hx2.pass" := "" ]}
       {[ "/home"; "/home/keystore"; "/home/keystore/0x1" ]}.

Definition calm : World :=
  mkWorld (λ _, None) (λ _, Ok (mkNetworkInfo "" "0x1" "" "")) (λ _, Ok tt) (λ _, Ok tt) (Ok tt) (Ok "key")
    (λ _ _, Err "") (λ _ _, Ok tt)
    (Icon.mkKeyEnv Ok Ok (λ _ _, Err "") Ok) (Evm.mkKeyEnv Ok Ok (λ _ _, Err "") (λ _, Err ""))
    (Wasm.mkKeyEnv Ok Ok (λ _ _, Ok tt) Ok (Err "") (λ _, Err "") (λ _, true)) (Ok true).

Definition fresh : App :=
  mkApp "/home" "/home/config.yaml" "/home/data" home_files ∅ 1 (Some (Cmd.mkConfig None ∅)) None [] [].

(** * The configuration, read and written *)

Definition both : list string := ["west"; "east"].
Definition after {A} (m : Run A) (a : App) : App := match m a with Some (a', _) => a' | None => a end.
Definition registry (a : App) : Cmd.Config := default (Cmd.mkConfig None ∅) (a_config a).
Definition content (a : App) : string :=
  match os_ReadFile (w_deny calm) (a_fs a) (a_configPath a) with Ok s => s | _ => "" end.
Definition document (a : App) : ConfigInputWrapper :=
  match yaml_Unmarshal (content a) with Ok ci => ci | _ => mkInput None ∅ end.

Definition loaded : App := after (loadConfigFile calm both) fresh.

Lemma loadConfigFile_typed_witness :
  ∃ c, c_Chains (registry loaded) !! "0x1" = Some c ∧ ∃ name p,
    ci_ProviderConfigs (document fresh) !! name = Some (Some p) ∧ pc_Enabled (py_Value p) = true ∧
    pc_Type c = py_Type p ∧ pc_Name c = name ∧ pc_NID c = "0x1" ∧ pc_NID (py_Value p) = "0x1" ∧
    cc_HomeDir (pc_common c) = "/home".
Proof.
  eexists. split; [vm_compute; reflexivity|].
  apply (loadConfigFile_typed calm both fresh loaded (content fresh) (document fresh) (registry loaded));
    vm_compute; reflexivity.
Defined.

(** Deciding the hypotheses on the orders of visit and on the file. *)
Lemma keys_check {A} order (m : gmap string A) :
  list_to_set (C := gset string) order = dom m → ∀ k, k ∈ order ↔ is_Some (m !! k).
Proof. intros Hd k. rewrite <-elem_of_dom, <-Hd. by rewrite elem_of_list_to_set. Qed.

Lemma names_check (order : list string) (chains : Chains) :
  forallb (λ kc, bool_decide (pc_Name kc.2 ∈ order)) (map_to_list chains) = true →
  ∀ k c, chains !! k = Some c → pc_Name c ∈ order.
Proof.
  intros Hall k c Hc. rewrite forallb_forall in Hall.
  apply (bool_decide_eq_true_1 _), (Hall (k, c)), list_elem_of_In. by apply elem_of_map_to_list.
Qed.

Lemma calm_answering : answering calm.
Proof. by split_and!. Qed.

Lemma load_save_load_witness :
  wp (loadConfigFile calm (reverse both)) (λ r a3, r = inl tt ∧ ∃ conf', a_config a3 = Some conf' ∧
    c_Chains conf' = c_Chains (registry loaded) ∧ settings a3 conf' = settings loaded (registry loaded))
    (after (Save calm ["0x2"; "0x1"] (registry loaded) "/home/config.yaml") loaded).
Proof.
  apply (load_save_load calm both ["0x2"; "0x1"] (reverse both) fresh loaded).
  - apply calm_answering.
  - vm_compute. reflexivity.
  - vm_compute. reflexivity.
  - vm_compute. reflexivity.
  - refine (keys_check _ _ _); vm_compute; reflexivity.
  - apply names_check. vm_compute. reflexivity.
  - vm_compute. reflexivity.
Defined.

(** * Changes of the file *)

Definition NIDs_differ (ci : ConfigInputWrapper) : bool :=
  let l := map_to_list (ci_ProviderConfigs ci) in
  forallb (λ x, forallb (λ y,
    match x.2, y.2 with
    | Some p, Some q => bool_decide (x.1 = y.1) || bool_decide (pc_NID (py_Value p) ≠ pc_NID (py_Value q))
    | _, _ => true
    end) l) l.

Lemma NIDs_check ci : NIDs_differ ci = true → distinct_NIDs ci.
Proof.
  intros Hall n1 n2 p1 p2 H1 H2 _ _ He. unfold NIDs_differ in Hall.
  rewrite forallb_forall in Hall. setoid_rewrite forallb_forall in Hall.
  assert (∀ n p, ci_ProviderConfigs ci !! n = Some p → In (n, p) (map_to_list (ci_ProviderConfigs ci))) as Hin.
  { intros n p Hp. by apply list_elem_of_In, elem_of_map_to_list. }
  specialize (Hall _ (Hin _ _ H1) _ (Hin _ _ H2)). cbn in Hall.
  apply orb_true_iff in Hall as [Hb%bool_decide_eq_true|Hb%bool_decide_eq_true]; congruence.
Qed.

Definition deleted : App := after (chainsDelete calm both ["0x2"] "0x1") fresh.

Lemma chainsDelete_file_witness :
  ∃ file' ci', os_ReadFile (w_deny calm) (a_fs deleted) (a_configPath deleted) = Ok file' ∧
    yaml_Unmarshal file' = Ok ci' ∧
    ∀ name, is_Some (ci_ProviderConfigs ci' !! name) ↔ ∃ p, ci_ProviderConfigs (document fresh) !! name = Some (Some p) ∧
      pc_Enabled (py_Value p) = true ∧ pc_NID (py_Value p) ≠ "0x1".
Proof.
  apply (chainsDelete_file calm both ["0x2"] "0x1" fresh deleted (content fresh) (document fresh)).
  - vm_compute. reflexivity.
  - vm_compute. reflexivity.
  - vm_compute. reflexivity.
  - apply NIDs_check. vm_compute. reflexivity.
  - refine (keys_check _ _ _). vm_compute. reflexivity.
  - refine (keys_check _ _ _). vm_compute. reflexivity.
  - vm_compute. reflexivity.
Defined.

Definition added : App := after (chainsAdd calm both ["south"; "0x2"; "0x1"] [] "/home/south.json") fresh.

Lemma chainsAdd_file_witness :
  ∃ file' ci', os_ReadFile (w_deny calm) (a_fs added) (a_configPath added) = Ok file' ∧ yaml_Unmarshal file' = Ok ci' ∧
    ∀ name, is_Some (ci_ProviderConfigs ci' !! name) ↔ name = "south" ∨
      ∃ p, ci_ProviderConfigs (document fresh) !! name = Some (Some p) ∧ pc_Enabled (py_Value p) = true.
Proof.
  apply (chainsAdd_file calm both ["south"; "0x2"; "0x1"] [] "/home/south.json" fresh added (content fresh)
    (document fresh) "south").
  - vm_compute. reflexivity.
  - vm_compute. reflexivity.
  - vm_compute. reflexivity.
  - apply NIDs_check. vm_compute. reflexivity.
  - refine (keys_check _ _ _). vm_compute. reflexivity.
  - vm_compute. reflexivity.
  - vm_compute. reflexivity.
  - intros k. rewrite elem_of_cons. apply or_iff_compat_l. refine (keys_check _ _ _ k). vm_compute. reflexivity.
  - vm_compute. reflexivity.
Defined.

Definition half (w : World) (nid : string) : App := after (locking_begin w both (delete_chain nid)) fresh.
Definition first_done : App := after (locking_end calm ["0x2"]) (half calm "0x1").
Definition second_done : App :=
  after (locking_end calm ["0x1"]) (with_FS (a_fs first_done) (half (lock_taken calm) "0x2")).

Lemma delete_lost_witness :
  ∃ name p file1 ci1 file2 ci2,
    ci_ProviderConfigs (document fresh) !! name = Some (Some p) ∧ pc_NID (py_Value p) = "0x1" ∧
    os_ReadFile (w_deny calm) (a_fs first_done) (a_configPath first_done) = Ok file1 ∧ yaml_Unmarshal file1 = Ok ci1 ∧
    ci_ProviderConfigs ci1 !! name = None ∧
    os_ReadFile (w_deny calm) (a_fs second_done) (a_configPath second_done) = Ok file2 ∧ yaml_Unmarshal file2 = Ok ci2 ∧
    is_Some (ci_ProviderConfigs ci2 !! name).
Proof.
  apply (delete_lost calm both ["0x2"] both ["0x1"] "0x1" "0x2" fresh (half calm "0x1")
    (half (lock_taken calm) "0x2") first_done second_done (content fresh) (document fresh)).
  - vm_compute. reflexivity.
  - vm_compute. reflexivity.
  - vm_compute. reflexivity.
  - apply NIDs_check. vm_compute. reflexivity.
  - done.
  - refine (keys_check _ _ _). vm_compute. reflexivity.
  - refine (keys_check _ _ _). vm_compute. reflexivity.
  - refine (keys_check _ _ _). vm_compute. reflexivity.
  - refine (keys_check _ _ _). vm_compute. reflexivity.
  - vm_compute. reflexivity.
  - vm_compute. reflexivity.
  - vm_compute. reflexivity.
  - vm_compute. reflexivity.
Defined.

Lemma keystore_use_fails_witness :
  wp (keystore_use calm ["0x2"; "0x1"] ["0x2"; "0x1"] "0x1" "hx2") (λ r a',
    (r = inr "keystore not found" ∨ r = inr "password not found" ∨ r = inr errIsDir) ∧
    a_fs a' = a_fs loaded ∧ a_admin a' = a_admin loaded ∧ a_out a' = a_out loaded) loaded.
Proof.
  assert (∃ k c, Get ["0x2"; "0x1"] "0x1" (c_Chains (registry loaded)) = Ok (k, c) ∧ pc_GetWallet c ≠ "hx2") as Hget.
  { eexists _, _. split; [vm_compute; reflexivity|vm_compute; discriminate]. }
  destruct Hget as (k & c & Hget & Hne).
  apply (keystore_use_fails calm ["0x2"; "0x1"] ["0x2"; "0x1"] "0x1" "hx2" loaded (registry loaded) k c).
  - vm_compute. reflexivity.
  - exact Hget.
  - exact Hne.
  - apply (bool_decide_unpack _). vm_compute. exact I.
  - vm_compute. reflexivity.
Defined.
