(* ===== verification/CmdSocket.v ===== *)
(** Packages cmd and relayer/socket: the life of the operator socket
    (socket/server.go, socket/client.go, cmd/db.go, cmd/contracts.go,
    cmd/start.go).

    The socket is a file.  [net.Listen] makes it and fails when it is there,
    [Close] of the listener removes it, and a process that ends without [Close]
    leaves it behind with nobody behind it.  A command that finds no relayer
    serves the socket itself while it runs. *)
From stdpp Require Import gmap strings list.
From Stdlib Require Import ZArith Lia.
From S2P Require Import Prelude GoStd GoOs Types Store Provider Relay Socket Cmd CmdKeystore CmdDb.
Open Scope Z_scope.

Module CmdSocket.

(** * The file *)

Inductive Endpoint : Type :=
| Absent
(* the file, without a listener *)
| Stale
| Served.

#[export] Instance Endpoint_eq_dec : EqDecision Endpoint.
Proof. solve_decision. Defined.

Definition network : string := "unix".
Definition SocketPath (TempDir : string) : string := pathJoin [TempDir; "relayer.sock"].
Definition ErrSocketClosed : string := "socket closed".

(** Package net, for a Unix socket. *)
Definition net_Listen (path : string) (e : Endpoint) : res Endpoint :=
  match e with
  | Absent => Ok Served
  | _ => Err ("listen " +:+ network +:+ " " +:+ path +:+ ": bind: address already in use")
  end.
Definition net_Dial (path : string) (e : Endpoint) : res unit :=
  match e with
  | Served => Ok tt
  | Absent => Err ("dial " +:+ network +:+ " " +:+ path +:+ ": connect: no such file or directory")
  | Stale => Err ("dial " +:+ network +:+ " " +:+ path +:+ ": connect: connection refused")
  end.
(** The listener's own end: its [Close], or the end of its process. *)
Definition net_Close (e : Endpoint) : Endpoint := Absent.
Definition net_exit (e : Endpoint) : Endpoint := match e with Served => Stale | e => e end.

(** [NewClient]: whatever the reason, the socket is closed. *)
Definition NewClient (path : string) (e : Endpoint) : res unit :=
  match net_Dial path e with Ok _ => Ok tt | Err _ => Err ErrSocketClosed | Panic => Panic end.

Section Life.
Context {St : Type} `{Store St} `{Codec Z}.
Context `{Codec (RouteMessageOf Z)} `{Codec (TransactionObjectOf Z)} `{SocketJson}.

(** * The server *)

(** [Server]; its listener is nil or not. *)
Record Server := mkServer { sv_listener : option unit; sv_rly : Relayer St }.

Definition NewSocket (path : string) (rly : Relayer St) (e : Endpoint) : res (Server * Endpoint) :=
  e ← net_Listen path e; Ok (mkServer (Some tt) rly, e).
Definition IsClosed (s : Server) : bool := bool_decide (sv_listener s = None).

(** [Listen], with a goroutine [server] for each connection: a client connects,
    one sends what a [Read] takes, one hangs up, the listener is closed. *)
Inductive serving_event : Type :=
| Dialled (c : nat)
| Read (c : nat) (order : list string) (data : string)
| HungUp (c : nat)
| ClosedListener.
Record Serving := mkServing {
  sg_accepting : bool;
  sg_conns : list nat;
  sg_rly : Relayer St;
  sg_written : list (nat * string) }.

Context (prov : string → ChainProvider).

(** [None]: the event cannot happen, or the process has panicked. *)
Definition Listen_step (ev : serving_event) (s : Serving) : option Serving :=
  match ev with
  | Dialled c =>
      if sg_accepting s && bool_decide (c ∉ sg_conns s)
      then Some (mkServing true (c :: sg_conns s) (sg_rly s) (sg_written s)) else None
  | Read c order data =>
      if bool_decide (c ∈ sg_conns s) then
        '(rly, answer) ← server prov order data (sg_rly s);
        Some (mkServing (sg_accepting s) (sg_conns s) rly (sg_written s ++ [(c, answer)]))
      else None
  | HungUp c => Some (mkServing (sg_accepting s) (filter (λ c', c' ≠ c) (sg_conns s)) (sg_rly s) (sg_written s))
  | ClosedListener => Some (mkServing false (sg_conns s) (sg_rly s) (sg_written s))
  end.

(** * A command's view of it (db.go) *)

(** [dbState]: the flags, and the server that the command runs itself. *)
Record dbState := mkDbState {
  d_chain : string;
  d_height : Z;
  d_sn : Z;
  d_page : Z;
  d_limit : Z;
  d_server : option Server }.
Definition newDBState : dbState := mkDbState "" 0 0 0 0 None.

(** [goleveldb]'s [OpenFile], given whether another process has the files open. *)
Context (path : string) (OpenFile : bool → St → res St).

(** The machine between commands: the socket file, the relayer that [start] runs,
    if any, and the database while nobody runs. *)
Record Machine := mkMachine {
  mc_endpoint : Endpoint;
  mc_daemon : option (Relayer St);
  mc_disk : St }.

Context (order nids : list string) (config : option Cmd.Config).

Definition is_running (m : Machine) : bool := bool_decide (is_Some (mc_daemon m)).
Definition open_db (m : Machine) : res St := OpenFile (is_running m) (mc_disk m).

(** [getSocket]: the relayer that answers, and the server when it is the
    command's own.  [Listen] runs beside the command. *)
Definition getSocket (d : dbState) (m : Machine) : res (Relayer St * dbState * Endpoint) :=
  match NewClient path (mc_endpoint m), mc_daemon m with
  | Ok _, Some rly => Ok (rly, d, mc_endpoint m)
  | _, _ =>
      rly ← getRelayer (open_db m) order nids config;
      s ← NewSocket path rly (mc_endpoint m);
      _ ← NewClient path s.2;
      Ok (rly, mkDbState (d_chain d) (d_height d) (d_sn d) (d_page d) (d_limit d) (Some s.1), s.2)
  end.

(** [closeSocket], the [PostRunE] of the database commands. *)
Definition closeSocket (d : dbState) (e : Endpoint) : Endpoint * error :=
  match d_server d with Some _ => (net_Close e, None) | None => (e, None) end.

Inductive Outcome : Type :=
| Printed (out : list string)
| Failed (err : string)
| Crashed.

(** What a command does with the relayer behind its socket. *)
Abbreviation Call := (dbState → res (Relayer St * bool) → res (Relayer St * (list string + string))).

Definition prune : Call := λ d sock, db_prune prov sock order.
Definition messagesList : Call := λ d sock, db_messagesList prov sock order (d_chain d) (d_page d) (d_limit d).
Definition messagesRelay : Call := λ d sock, db_messagesRelay prov sock order (d_chain d) (d_height d) (d_sn d).
Definition messagesRm : Call := λ d sock, db_messagesRm prov sock order (d_chain d) (d_sn d).
Definition blockInfo : Call := λ d sock, db_blockInfo prov sock order (d_chain d).
Definition revertMessage : Call := λ d sock, db_revertMessage prov sock order (d_chain d) (d_sn d).

(** The fee commands: a state of their own, with the flags of the chain. *)
Record contractState := mkContractState {
  ct_dbState : dbState;
  ct_chain : string;
  ct_network : string;
  ct_msgFee : Z;
  ct_resFee : Z }.
Definition newContractState : contractState := mkContractState newDBState "" "" 0 0.
Definition getFee (c : contractState) : Call := λ d sock, fee_get prov sock order (ct_chain c) (ct_network c).
Definition setFee (c : contractState) : Call := λ d sock,
  fee_set prov sock order (ct_chain c) (ct_network c) (ct_msgFee c) (ct_resFee c).
Definition claimFee (c : contractState) : Call := λ d sock, fee_claim prov sock order (ct_chain c).

(** A process that runs the command and ends.  [post]: the command has the
    [PostRunE] above, which is only called when [RunE] returned no error.  A
    request that makes the server panic ends the server's process; none writes
    to the database before it does. *)
Definition run_command (post : bool) (call : Call) (d : dbState) (m : Machine) : Machine * Outcome :=
  match getSocket d m with
  | Err err => (m, Failed err)
  | Panic => (m, Crashed)
  | Ok (rly, d, e) =>
      match d_server d with
      | None =>
          match call d (Ok (rly, false)) with
          | Ok (rly, r) => (mkMachine e (Some rly) (mc_disk m), match r with inl out => Printed out | inr err => Failed err end)
          | _ => (mkMachine (net_exit e) None (rl_db rly), Failed "EOF")
          end
      | Some _ =>
          match call d (Ok (rly, true)) with
          | Ok (rly, inl out) =>
              (mkMachine (net_exit (if post then (closeSocket d e).1 else e)) (mc_daemon m) (rl_db rly), Printed out)
          | Ok (rly, inr err) => (mkMachine (net_exit e) (mc_daemon m) (rl_db rly), Failed err)
          | _ => (mkMachine (net_exit e) (mc_daemon m) (rl_db rly), Crashed)
          end
      end
  end.

(** [start] up to the point where it waits. *)
Definition run_start (fresh : bool) (m : Machine) : Machine * Outcome :=
  let disk := match open_db m with Ok db => if fresh then (ClearStore db).1 else db | _ => mc_disk m end in
  match start (open_db m) fresh order nids config with
  | Ok rly =>
      match NewSocket path rly (mc_endpoint m) with
      | Ok s => (mkMachine s.2 (Some rly) (mc_disk m), Printed [])
      | Err err => (mkMachine (mc_endpoint m) (mc_daemon m) (rl_db rly), Failed err)
      | Panic => (m, Crashed)
      end
  | Err err => (mkMachine (mc_endpoint m) (mc_daemon m) disk, Failed err)
  | Panic => (mkMachine (mc_endpoint m) (mc_daemon m) disk, Crashed)
  end.

(** ** What happens to the machine *)

Inductive action : Type :=
| Command (post : bool) (call : Call) (d : dbState)
| StartRelayer (fresh : bool)
(* the relayer works, ends by itself or on an interrupt, is killed *)
| Works (f : Relayer St → Relayer St)
| Ends
| Killed.

Definition act (a : action) (m : Machine) : Machine * option Outcome :=
  match a with
  | Command post call d => let '(m, o) := run_command post call d m in (m, Some o)
  | StartRelayer fresh => let '(m, o) := run_start fresh m in (m, Some o)
  | Works f => (mkMachine (mc_endpoint m) (f <$> mc_daemon m) (mc_disk m), None)
  | Ends =>
      match mc_daemon m with
      | Some rly => (mkMachine (net_Close (mc_endpoint m)) None (rl_db rly), None)
      | None => (m, None)
      end
  | Killed =>
      match mc_daemon m with
      | Some rly => (mkMachine (net_exit (mc_endpoint m)) None (rl_db rly), None)
      | None => (m, None)
      end
  end.

Fixpoint acts (l : list action) (m : Machine) : Machine * list Outcome :=
  match l with
  | [] => (m, [])
  | a :: l =>
      let '(m, o) := act a m in
      let '(m, os) := acts l m in
      (m, option_list o ++ os)
  end.

(** * Facts *)

(** Somebody listens exactly when the relayer runs. *)
Definition coherent (m : Machine) : Prop := mc_endpoint m = Served ↔ is_Some (mc_daemon m).

Lemma getSocket_daemon d m rly :
  mc_endpoint m = Served → mc_daemon m = Some rly → getSocket d m = Ok (rly, d, Served).
Proof. intros He Hd. unfold getSocket. by rewrite He, Hd. Qed.

Lemma getSocket_own d m rly :
  mc_endpoint m = Absent → getRelayer (open_db m) order nids config = Ok rly →
  getSocket d m = Ok (rly, mkDbState (d_chain d) (d_height d) (d_sn d) (d_page d) (d_limit d)
    (Some (mkServer (Some tt) rly)), Served).
Proof. intros He Hr. unfold getSocket. rewrite He, Hr. by destruct (mc_daemon m). Qed.

Lemma getSocket_stale d m : mc_endpoint m = Stale → ∀ x, getSocket d m ≠ Ok x.
Proof.
  intros He x. unfold getSocket. rewrite He. cbn.
  by destruct (mc_daemon m), (getRelayer (open_db m) order nids config).
Qed.

(** Without a relayer that runs, [getSocket] serves the socket itself or fails. *)
Lemma getSocket_alone d m rly d' e :
  mc_daemon m = None → d_server d = None → getSocket d m = Ok (rly, d', e) →
  mc_endpoint m = Absent ∧ e = Served ∧ is_Some (d_server d').
Proof.
  intros Hd Hs. unfold getSocket. rewrite Hd. destruct (mc_endpoint m); cbn.
  - destruct (getRelayer (open_db m) order nids config); cbn; [|done..]. intros [= <- <- <-]. by split_and!.
  - by destruct (getRelayer (open_db m) order nids config).
  - by destruct (getRelayer (open_db m) order nids config).
Qed.

Lemma coherent_up rly disk : coherent (mkMachine Served (Some rly) disk).
Proof. split; [by eexists|done]. Qed.
Lemma coherent_down e disk : e ≠ Served → coherent (mkMachine e None disk).
Proof. intros He. split; [done|by intros []]. Qed.

Lemma run_command_coherent post call d m :
  d_server d = None → coherent m → coherent (run_command post call d m).1.
Proof.
  intros Hs Hc. unfold run_command. destruct (mc_daemon m) as [rly|] eqn:Hd.
  - assert (mc_endpoint m = Served) as He by (apply Hc; by rewrite Hd).
    rewrite (getSocket_daemon d m rly He Hd), Hs.
    destruct (call d (Ok (rly, false))) as [[rly' r]| |]; cbn; [apply coherent_up|by apply coherent_down..].
  - destruct (getSocket d m) as [[[rly d'] e]| |] eqn:Hg; [|exact Hc..].
    destruct (getSocket_alone d m rly d' e Hd Hs Hg) as (He & -> & [s Hs']). rewrite Hs'.
    destruct (call d' (Ok (rly, true))) as [[rly' [out|err]]| |]; cbn; apply coherent_down; [|done..].
    unfold closeSocket. rewrite Hs'. by destruct post.
Qed.

Lemma run_start_coherent fresh m : coherent m → coherent (run_start fresh m).1.
Proof.
  intros Hc. unfold run_start. destruct (start (open_db m) fresh order nids config) as [rly| |]; [|exact Hc..].
  unfold NewSocket, net_Listen, coherent in *. destruct (mc_endpoint m) eqn:He; cbn; [|exact Hc..].
  split; [by eexists|done].
Qed.

(** A command line starts with no server of its own. *)
Definition begins (a : action) : Prop :=
  match a with Command _ _ d => d_server d = None | _ => True end.

Lemma act_coherent a m : begins a → coherent m → coherent (act a m).1.
Proof.
  intros Hb Hc. destruct a as [post call d|fresh|f| |]; cbn.
  - pose proof (run_command_coherent post call d m Hb Hc). by destruct (run_command post call d m).
  - pose proof (run_start_coherent fresh m Hc). by destruct (run_start fresh m).
  - unfold coherent. cbn. rewrite fmap_is_Some. exact Hc.
  - destruct (mc_daemon m); [|exact Hc]. by apply coherent_down.
  - destruct (mc_daemon m); [|exact Hc]. apply coherent_down. by destruct (mc_endpoint m).
Qed.

(** Whatever happens: the socket is served exactly while the relayer runs. *)
Lemma acts_coherent l m : Forall begins l → coherent m → coherent (acts l m).1.
Proof.
  intros Hl. revert m. induction Hl as [|a l Ha Hl IH]; intros m Hc; cbn; [done|].
  pose proof (act_coherent a m Ha Hc) as Hc1. destruct (act a m) as [m1 o]. cbn in Hc1.
  specialize (IH m1 Hc1). by destruct (acts l m1).
Qed.

(** ** A socket left behind *)

Definition blocked (m : Machine) : Prop := mc_endpoint m = Stale ∧ mc_daemon m = None.
Definition fails (o : Outcome) : Prop := match o with Printed _ => False | _ => True end.

Lemma act_blocked a m : blocked m → blocked (act a m).1 ∧ Forall fails (option_list (act a m).2).
Proof.
  intros [He Hd]. destruct a as [post call d|fresh|f| |]; cbn.
  - unfold run_command. destruct (getSocket d m) as [x| |] eqn:Hg; [by destruct (getSocket_stale d m He x)|..];
      cbn; by repeat constructor.
  - unfold run_start. destruct (start (open_db m) fresh order nids config); cbn; [|by repeat constructor..].
    unfold NewSocket. rewrite He. cbn. split; [done|by repeat constructor].
  - unfold blocked. cbn. rewrite Hd. by repeat constructor.
  - rewrite Hd. by repeat constructor.
  - rewrite Hd. by repeat constructor.
Qed.

Lemma acts_blocked l m : blocked m → blocked (acts l m).1 ∧ Forall fails (acts l m).2.
Proof.
  revert m. induction l as [|a l IH]; intros m Hm; cbn; [done|].
  destruct (act_blocked a m Hm) as [Hm1 Ho]. destruct (act a m) as [m1 o]. cbn in Hm1, Ho.
  destruct (IH m1 Hm1) as [Hm2 Hos]. destruct (acts l m1) as [m2 os]. cbn in *.
  split; [done|]. by apply Forall_app.
Qed.

(** What is left of a command that ran the relayer itself. *)
Lemma run_command_own post call d m rly :
  mc_endpoint m = Absent → mc_daemon m = None → getRelayer (open_db m) order nids config = Ok rly →
  let d' := mkDbState (d_chain d) (d_height d) (d_sn d) (d_page d) (d_limit d) (Some (mkServer (Some tt) rly)) in
  run_command post call d m =
    match call d' (Ok (rly, true)) with
    | Ok (rly, inl out) => (mkMachine (if post then Absent else Stale) None (rl_db rly), Printed out)
    | Ok (rly, inr err) => (mkMachine Stale None (rl_db rly), Failed err)
    | _ => (mkMachine Stale None (rl_db rly), Crashed)
    end.
Proof.
  intros He Hd Hr. cbn zeta. unfold run_command. rewrite (getSocket_own d m rly He Hr). cbn. rewrite Hd.
  destruct (call _ _) as [[r [out|err]]| |]; [|done..]. by destruct post.
Qed.

(** C39: a command that finds no relayer serves the socket itself.  When its
    request fails, or it is a command without [PostRunE], as the fee commands
    are, it ends without closing the listener.  The file that it leaves behind
    keeps everyone out: from then on, whatever is tried and in whatever order,
    no command and no start of the relayer succeeds. *)
Theorem left_socket_blocks post call d m rly l
  (Habsent : mc_endpoint m = Absent)
  (Hnone : mc_daemon m = None)
  (Hrly : getRelayer (open_db m) order nids config = Ok rly)
  (Hleft : post = false ∨ ∀ d' r out, call d' (Ok (rly, true)) ≠ Ok (r, inl out)) :
  let '(m1, o) := run_command post call d m in
  let '(m2, os) := acts l m1 in
  mc_endpoint m1 = Stale ∧ mc_endpoint m2 = Stale ∧ mc_daemon m2 = None ∧ Forall fails os.
Proof.
  rewrite (run_command_own post call d m rly Habsent Hnone Hrly).
  destruct (call _ _) as [[r [out|err]]| |] eqn:Hc.
  1: destruct Hleft as [-> | Hleft]; [|by destruct (Hleft _ _ _ Hc)].
  all: match goal with |- context [acts ?l0 ?m1] => destruct (acts_blocked l0 m1 (conj eq_refl eq_refl)) as [[He Hd] Hf] end;
    destruct (acts _ _); cbn in *; by split_and!.
Qed.

(** A database command that succeeds leaves the machine as it found it but
    for the database: the relayer that runs goes on from the state in which it
    answered, and a relayer that the command ran itself is gone with its caches,
    nothing in them routed. *)
Theorem command_returns_socket call d m rly rly' out
  (Hserver : d_server d = None)
  (Hm : (mc_endpoint m = Served ∧ mc_daemon m = Some rly) ∨
        (mc_endpoint m = Absent ∧ mc_daemon m = None ∧ getRelayer (open_db m) order nids config = Ok rly))
  (Hcall : ∀ d' own, d_chain d' = d_chain d → d_height d' = d_height d → d_sn d' = d_sn d → d_page d' = d_page d →
     d_limit d' = d_limit d → call d' (Ok (rly, own)) = Ok (rly', inl out)) :
  let '(m', o) := run_command true call d m in
  o = Printed out ∧ mc_endpoint m' = mc_endpoint m ∧
  (is_Some (mc_daemon m) → mc_daemon m' = Some rly') ∧
  (mc_daemon m = None → mc_daemon m' = None ∧ mc_disk m' = rl_db rly').
Proof.
  destruct Hm as [(He & Hd)|(He & Hd & Hr)].
  - unfold run_command. rewrite (getSocket_daemon d m rly He Hd), Hserver, (Hcall d false), He, Hd by done. by split_and!.
  - rewrite (run_command_own true call d m rly He Hd Hr), Hcall, He, Hd by done. by split_and!.
Qed.
End Life.
End CmdSocket.
