(* ===== verification/CmdSocketWitness.v ===== *)
(** The operator socket on a concrete machine. *)
From stdpp Require Import gmap strings list.
From Stdlib Require Import ZArith Lia.
From S2P Require Import Prelude GoStd Types Store LvlDB Concrete Provider Relay RelaySystem RelayCorrect RelayWitness.
From S2P Require Import Socket SocketCorrect SocketWitness Evm EvmWitness IconTypes Icon Cmd CmdKeystore CmdDb CmdSocket.
Import CmdSocket.
Open Scope Z_scope.

Module CmdSocketWitness.

(** Two EVM chains, in a configuration without a global section. *)
Definition chain_config (nid name : string) : Evm.Config :=
  Evm.mkConfig (mkCommonConfig name "http://node" 0 "0xw" ∅ 10 nid "/home" false) "" 100 1000 10 50.
Definition config : option Cmd.Config :=
  Some (Cmd.mkConfig None {[ "a" := PCEvm (chain_config "a" "alice"); "b" := PCEvm (chain_config "b" "bob") ]}).
Definition OpenFile (locked : bool) (db : MemDB) : res MemDB :=
  if locked then Err "resource temporarily unavailable" else Ok db.
Definition machine (e : Endpoint) : Machine (St := MemDB) := mkMachine e None db7.
Definition own : Relayer MemDB :=
  mkRelayer db7 {[ "a" := mkChainRuntime [] 0 0 ∅; "b" := mkChainRuntime [] 0 0 ∅ ]} ∅ 1 [].

Lemma own_relayer : getRelayer (open_db OpenFile (machine Absent)) ["a"; "b"] ["a"; "b"] config = Ok own.
Proof. vm_compute. reflexivity. Qed.

(** The fees of a chain are asked for while no relayer runs: the file stays, and
    neither the relayer starts nor does another command get through. *)
Definition asked : contractState (St := MemDB) := mkContractState newDBState "a" "b" 0 0.
Definition later : list (action (St := MemDB)) :=
  [StartRelayer false; Command true (prune prov0 ["a"; "b"]) newDBState; Killed; StartRelayer true].

Lemma left_socket_blocks_witness :
  let '(m1, o) := run_command "/tmp/relayer.sock" OpenFile ["a"; "b"] ["a"; "b"] config false
    (getFee prov0 ["a"; "b"] asked) newDBState (machine Absent) in
  let '(m2, os) := acts "/tmp/relayer.sock" OpenFile ["a"; "b"] ["a"; "b"] config later m1 in
  mc_endpoint m1 = Stale ∧ mc_endpoint m2 = Stale ∧ mc_daemon m2 = None ∧ Forall fails os.
Proof.
  eapply left_socket_blocks.
  - reflexivity.
  - reflexivity.
  - exact own_relayer.
  - left. reflexivity.
Defined.

(** [messages relay] of a stored message while no relayer runs: it is printed,
    and that is all. *)
Definition relay_flags : dbState (St := MemDB) := mkDbState "a" 0 7 1 10 None.
Definition relayed : Relayer MemDB :=
  match messagesRelay prov0 ["a"; "b"] relay_flags (Ok (own, true)) with Ok (r, _) => r | _ => own end.
Definition relay_line : list string :=
  printLabels message_labels ++ [printValues (relay_values (route_wire (NewRouteMessage msg7)))].

Lemma relay_answers own' : messagesRelay prov0 ["a"; "b"] relay_flags (Ok (own, own')) = Ok (relayed, inl relay_line).
Proof. vm_compute. reflexivity. Qed.

Lemma relay_call d' own' : d_chain d' = "a" → d_height d' = 0 → d_sn d' = 7 → d_page d' = 1 → d_limit d' = 10 →
  messagesRelay prov0 ["a"; "b"] d' (Ok (own, own')) = Ok (relayed, inl relay_line).
Proof. destruct d' as [chain height sn page limit srv]. cbn. intros -> -> -> _ _. exact (relay_answers own'). Qed.

Lemma command_returns_socket_witness :
  size (chain_cache relayed "a") = 1%nat ∧
  let '(m', o) := run_command "/tmp/relayer.sock" OpenFile ["a"; "b"] ["a"; "b"] config true
    (messagesRelay prov0 ["a"; "b"]) relay_flags (machine Absent) in
  o = Printed relay_line ∧ mc_endpoint m' = Absent ∧
  (is_Some (mc_daemon (machine Absent)) → mc_daemon m' = Some relayed) ∧
  (mc_daemon (machine Absent) = None → mc_daemon m' = None ∧ mc_disk m' = rl_db relayed).
Proof.
  split; [vm_compute; reflexivity|].
  exact (command_returns_socket "/tmp/relayer.sock" OpenFile ["a"; "b"] ["a"; "b"] config
    (messagesRelay prov0 ["a"; "b"]) relay_flags (machine Absent) own relayed relay_line eq_refl
    (or_intror (conj eq_refl (conj eq_refl own_relayer))) relay_call).
Defined.
End CmdSocketWitness.
