(* ===== verification/CmdTree.v ===== *)
(** Package cmd: the tree of commands and their flags (root.go, flags.go, and the
    constructors of every command).

    pflag and cobra are third-party: [Cobra] is what the constructors ask of
    them, with the behaviour that they document.  A constructor panics when a
    flag cannot be registered, found or bound. *)
From stdpp Require Import gmap strings list.
From Stdlib Require Import ZArith Lia Ascii.
From S2P Require Import Prelude GoStd GoOs Types Store Provider Relay Cmd CmdKeystore.
Open Scope Z_scope.

Module CmdTree.

(** * Data *)

(** The type of a flag, with its default. *)
Inductive FlagKind : Type :=
| FString (d : string)
| FBool (d : bool)
| FUint (d : Z)
| FUint64 (d : Z)
| FDuration (d : Z).

Record Flag := mkFlag { fl_Name : string; fl_Shorthand : string; fl_Kind : FlagKind }.

(** [PositionalArgs]; nil is [AnyArgs]. *)
Inductive ArgsRule : Type :=
| AnyArgs
| NoArgs
| ExactArgs (n : nat)
| MinimumNArgs (n : nat)
| MaximumNArgs (n : nat).
(** [withUsage]: the usage is shown when the rule is broken. *)
Record PositionalArgs := mkArgs { pa_Rule : ArgsRule; pa_Usage : bool }.
Definition withUsage (inner : ArgsRule) : PositionalArgs := mkArgs inner true.

(** The function that a command runs. *)
Inductive Handler : Type :=
| RunStart | RunConfigShow | RunConfigInit | RunChainsList | RunChainsAdd | RunChainsDelete
| RunKeystoreInit | RunKeystoreNew | RunKeystoreList | RunKeystoreImport | RunKeystoreUse | RunChangePassword
| RunPrune | RunMessagesList | RunMessagesRelay | RunMessagesRm | RunMessagesRevert | RunBlockView
| RunFeeGet | RunFeeSet | RunFeeClaim.

#[export] Instance Handler_eq_dec : EqDecision Handler.
Proof. solve_decision. Defined.

Inductive Command : Type := mkCommand {
  Use : string;
  Aliases : list string;
  Args : PositionalArgs;
  RunE : option Handler;
  (* it has the [PostRunE] that closes the socket *)
  PostRunE : bool;
  Flags : list Flag;
  PersistentFlags : list Flag;
  Required : list string;
  RequiredTogether : list (list string);
  Commands : list Command }.

Definition command (use : string) (aliases : list string) (args : PositionalArgs) (run : option Handler) (post : bool) :
    Command := mkCommand use aliases args run post [] [] [] [] [].
Definition any_args : PositionalArgs := mkArgs AnyArgs false.

Definition set_flags (fs : list Flag) (c : Command) : Command :=
  mkCommand (Use c) (Aliases c) (Args c) (RunE c) (PostRunE c) fs (PersistentFlags c) (Required c) (RequiredTogether c) (Commands c).
Definition set_persistent (fs : list Flag) (c : Command) : Command :=
  mkCommand (Use c) (Aliases c) (Args c) (RunE c) (PostRunE c) (Flags c) fs (Required c) (RequiredTogether c) (Commands c).
Definition AddCommand (cs : list Command) (c : Command) : Command :=
  mkCommand (Use c) (Aliases c) (Args c) (RunE c) (PostRunE c) (Flags c) (PersistentFlags c) (Required c)
    (RequiredTogether c) (Commands c ++ cs).

(** * cobra and pflag *)

Definition Lookup (name : string) (fs : list Flag) : option Flag := head (filter (λ f, fl_Name f = name) fs).

(** Neither the name nor the shorthand is taken. *)
Definition free (fs : list Flag) (f : Flag) : bool :=
  bool_decide (fl_Name f ∉ fl_Name <$> fs) &&
  (bool_decide (fl_Shorthand f = "") || bool_decide (fl_Shorthand f ∉ fl_Shorthand <$> fs)).

Class Cobra := {
  (* pflag's [AddFlag], which every [StringVarP] and so on calls *)
  AddFlag : list Flag → Flag → res (list Flag);
  (* [MarkFlagRequired], of the flags of a command *)
  MarkRequired : list Flag → string → res unit;
  (* viper's [BindPFlag], of a flag or nil *)
  BindPFlag : option Flag → res unit }.

(** pflag panics when a name or a shorthand is registered twice; a flag that is
    not there is an error, nil cannot be bound. *)
Class CobraSpec `{Cobra} : Prop := {
  AddFlag_free fs f : free fs f = true → AddFlag fs f = Ok (fs ++ [f]);
  AddFlag_taken fs f : free fs f = false → AddFlag fs f = Panic;
  MarkRequired_found fs name : is_Some (Lookup name fs) → MarkRequired fs name = Ok tt;
  MarkRequired_missing fs name : Lookup name fs = None → ∃ e, MarkRequired fs name = Err e;
  BindPFlag_flag f : BindPFlag (Some f) = Ok tt;
  BindPFlag_nil : ∃ e, BindPFlag None = Err e }.

(** The behaviour that they document, and no more. *)
Definition documented : Cobra := {|
  AddFlag fs f := if free fs f then Ok (fs ++ [f]) else Panic;
  MarkRequired fs name := match Lookup name fs with Some _ => Ok tt | None => Err ("no such flag -" +:+ name) end;
  BindPFlag f := match f with Some _ => Ok tt | None => Err "flag for is nil" end |}.
Lemma documented_spec : CobraSpec (H := documented).
Proof.
  split; cbn.
  - by intros fs f ->.
  - by intros fs f ->.
  - by intros fs name [f ->].
  - intros fs name ->. by eexists.
  - done.
  - by eexists.
Qed.

(** [if err := m; err != nil { panic(err) }] *)
Definition must {A} (r : res A) : res A := match r with Err _ => Panic | r => r end.

Section Tree.
Context `{Cobra}.

Definition add_flag (name shorthand : string) (kind : FlagKind) (c : Command) : res Command :=
  fs ← AddFlag (Flags c) (mkFlag name shorthand kind); Ok (set_flags fs c).
Definition add_persistent (name shorthand : string) (kind : FlagKind) (c : Command) : res Command :=
  fs ← AddFlag (PersistentFlags c) (mkFlag name shorthand kind);
  _ ← must (BindPFlag (Lookup name fs));
  Ok (set_persistent fs c).
Definition MarkFlagRequired (name : string) (c : Command) : res Command :=
  _ ← MarkRequired (Flags c) name;
  Ok (mkCommand (Use c) (Aliases c) (Args c) (RunE c) (PostRunE c) (Flags c) (PersistentFlags c) (Required c ++ [name])
        (RequiredTogether c) (Commands c)).
(** It panics by itself when a flag is missing. *)
Definition MarkFlagsRequiredTogether (names : list string) (c : Command) : res Command :=
  _ ← must (res_mapM (MarkRequired (Flags c)) names);
  Ok (mkCommand (Use c) (Aliases c) (Args c) (RunE c) (PostRunE c) (Flags c) (PersistentFlags c) (Required c)
        (RequiredTogether c ++ [names]) (Commands c)).

(** * Flags (flags.go) *)

(** A flag bound in viper. *)
Definition bound_flag (name shorthand : string) (kind : FlagKind) (c : Command) : res Command :=
  c ← add_flag name shorthand kind c; _ ← must (BindPFlag (Lookup name (Flags c))); Ok c.

Definition flagHome : string := "home".
Definition flagJSON : string := "json".
Definition flagYAML : string := "yaml".
Definition flagFlushInterval : string := "flush-interval".
Definition flagFresh : string := "fresh".
Definition flagFile : string := "file".

Definition flushIntervalFlag := bound_flag flagFlushInterval "i" (FDuration DefaultFlushInterval).
Definition freshFlag := bound_flag flagFresh "" (FBool false).
Definition yamlFlag := bound_flag flagYAML "y" (FBool false).
Definition jsonFlag := bound_flag flagJSON "j" (FBool false).
Definition fileFlag := bound_flag flagFile "f" (FString "").

(** A flag of a local state, required or not. *)
Definition required_flag (name shorthand : string) (kind : FlagKind) (c : Command) : res Command :=
  c ← add_flag name shorthand kind c; must (MarkFlagRequired name c).

(** ** keystore.go *)

Definition ks_chainFlag := required_flag "chain" "c" (FString "").
Definition passwordFlag (isConfirmRequired : bool) (c : Command) : res Command :=
  c ← required_flag "password" "p" (FString "") c;
  if isConfirmRequired then required_flag "confirm" "c" (FString "") c else Ok c.
Definition addressFlag := required_flag "address" "a" (FString "").
Definition keystorePathFlag := required_flag "keystore" "k" (FString "").

(** ** db.go *)

Definition messageMsgIDFlag (markRequired : bool) (c : Command) : res Command :=
  if markRequired then required_flag "sn" "" (FUint64 0) c else add_flag "sn" "" (FUint64 0) c.
Definition messageHeightFlag := add_flag "height" "" (FUint64 0).
Definition messageChainFlag (markRequired : bool) (c : Command) : res Command :=
  if markRequired then required_flag "chain" "c" (FString "") c else add_flag "chain" "c" (FString "") c.
Definition dbMessageFlagsListFlags (c : Command) : res Command :=
  c ← add_flag "limit" "l" (FUint 10) c;
  c ← add_flag "chain" "c" (FString "") c;
  c ← add_flag "page" "p" (FUint 1) c;
  must (MarkFlagRequired "chain" c).

(** * Commands *)

(** ** start.go, config.go, chains.go *)

Definition startCmd : res Command :=
  c ← flushIntervalFlag (command "start path_name" ["st"] (withUsage (MinimumNArgs 0)) (Some RunStart) false);
  freshFlag c.

Definition configShowCmd : res Command :=
  c ← jsonFlag (command "show" ["s"; "list"; "l"] (withUsage NoArgs) (Some RunConfigShow) false); yamlFlag c.
Definition configInitCmd : res Command := Ok (command "init" ["i"] (withUsage NoArgs) (Some RunConfigInit) false).
Definition configCmd : res Command :=
  show ← configShowCmd; init ← configInitCmd;
  Ok (AddCommand [show; init] (command "config" ["cfg"] any_args None false)).

Definition chainsListCmd : res Command :=
  c ← jsonFlag (command "list" ["l"] (withUsage NoArgs) (Some RunChainsList) false); yamlFlag c.
Definition chainsAddCmd : res Command :=
  fileFlag (command "add [chain-name...]" ["a"] (withUsage (MinimumNArgs 0)) (Some RunChainsAdd) false).
Definition chainsDeleteCmd : res Command :=
  Ok (command "delete chain_name" ["d"] (withUsage (ExactArgs 1)) (Some RunChainsDelete) false).
Definition chainsCmd : res Command :=
  list ← chainsListCmd; add ← chainsAddCmd; del ← chainsDeleteCmd;
  Ok (AddCommand [list; add; del] (command "chains" ["ch"] any_args None false)).

(** ** keystore.go *)

Definition ks_init : res Command := Ok (command "init" [] any_args (Some RunKeystoreInit) false).
Definition ks_new : res Command :=
  c ← ks_chainFlag (command "new" [] any_args (Some RunKeystoreNew) false); passwordFlag false c.
Definition ks_list : res Command := ks_chainFlag (command "list" ["ls"] any_args (Some RunKeystoreList) false).
Definition ks_importKey : res Command :=
  c ← ks_chainFlag (command "import" [] any_args (Some RunKeystoreImport) false);
  c ← passwordFlag false c;
  keystorePathFlag c.
Definition ks_use : res Command :=
  c ← ks_chainFlag (command "use" [] any_args (Some RunKeystoreUse) false); addressFlag c.
(** Nothing calls it. *)
Definition ks_changePassword : res Command :=
  c ← ks_chainFlag (command "change-password" [] any_args (Some RunChangePassword) false);
  c ← addressFlag c;
  passwordFlag true c.
Definition keystoreCmd : res Command :=
  init ← ks_init; new ← ks_new; list ← ks_list; import ← ks_importKey; use ← ks_use;
  Ok (AddCommand [init; new; list; import; use]
        (command "keystore" ["ks"] (withUsage (MaximumNArgs 0)) None false)).

(** ** db.go *)

Definition db_command (use : string) (aliases : list string) (run : Handler) : Command :=
  command use aliases any_args (Some run) true.

Definition pruneCmd : res Command := Ok (db_command "prune" [] RunPrune).
Definition messagesListCmd : res Command := dbMessageFlagsListFlags (db_command "list" ["ls"] RunMessagesList).
Definition messagesRelayCmd : res Command :=
  c ← messageMsgIDFlag true (db_command "relay" ["rly"] RunMessagesRelay);
  c ← messageChainFlag true c;
  messageHeightFlag c.
Definition messagesRmCmd : res Command :=
  c ← messageMsgIDFlag true (db_command "rm" [] RunMessagesRm); messageChainFlag true c.
Definition revertMessageCmd : res Command :=
  c ← messageMsgIDFlag true (db_command "revert" ["rv"] RunMessagesRevert); messageChainFlag true c.
Definition blockInfoCmd : res Command := messageChainFlag false (db_command "view" ["get"] RunBlockView).
Definition dbCmd : res Command :=
  prune ← pruneCmd;
  list ← messagesListCmd; relay ← messagesRelayCmd; rm ← messagesRmCmd; revert ← revertMessageCmd;
  view ← blockInfoCmd;
  let messages := AddCommand [list; relay; rm; revert] (command "messages" ["m"] any_args None false) in
  let block := AddCommand [view] (command "block" ["b"] any_args None false) in
  Ok (AddCommand [messages; block; prune] (command "database" ["db"] any_args None false)).

(** ** contracts.go *)

Definition getFeeCmd : res Command :=
  c ← add_flag "chain" "" (FString "") (command "get" ["g"] any_args (Some RunFeeGet) false);
  c ← add_flag "network" "" (FString "") c;
  MarkFlagsRequiredTogether ["chain"; "network"] c.
Definition setFeeCmd : res Command :=
  c ← add_flag "chain" "" (FString "") (command "set" ["s"] any_args (Some RunFeeSet) false);
  c ← add_flag "network" "" (FString "") c;
  c ← add_flag "msg-fee" "" (FUint64 0) c;
  c ← add_flag "res-fee" "" (FUint64 0) c;
  MarkFlagsRequiredTogether ["chain"; "network"; "msg-fee"; "res-fee"] c.
Definition claimFeeCmd : res Command :=
  required_flag "chain" "" (FString "") (command "claim" ["cm"] any_args (Some RunFeeClaim) false).
(** The [PostRunE] is the parent's. *)
Definition contractCMD : res Command :=
  get ← getFeeCmd; set ← setFeeCmd; claim ← claimFeeCmd;
  let fee := AddCommand [get; set; claim] (command "fee" [] any_args None true) in
  let deploy := command "deploy" [] any_args None false in
  Ok (AddCommand [fee; deploy] (command "contract" ["c"] any_args None false)).

(** ** root.go *)

Definition NewRootCmd_with (homePath configPath dbPath : string) : res Command :=
  root ← add_persistent flagHome "" (FString homePath) (command appName ["crly"] any_args None false);
  root ← add_persistent "debug" "d" (FBool false) root;
  root ← add_persistent "log-format" "" (FString "auto") root;
  root ← add_persistent "config" "" (FString configPath) root;
  root ← add_persistent "db" "" (FString dbPath) root;
  root ← add_persistent "profile" "" (FBool false) root;
  start ← startCmd; config ← configCmd; chains ← chainsCmd; db ← dbCmd; keystore ← keystoreCmd; contract ← contractCMD;
  Ok (AddCommand [start; config; chains; db; keystore; contract] root).
(** The defaults of the paths are those of the default home. *)
Definition NewRootCmd (homePath : string) : res Command :=
  NewRootCmd_with homePath (homePath +:+ "/" +:+ defaultConfig) (pathJoin [homePath; defaultDBName]).
End Tree.

(** * The commands of a tree *)

(** Every command of a tree, with the flags it inherits. *)
Fixpoint tree (inherited : list Flag) (c : Command) : list (list Flag * Command) :=
  (inherited, c) ::
  (fix trees (cs : list Command) :=
     match cs with [] => [] | c' :: cs => tree (inherited ++ PersistentFlags c) c' ++ trees cs end) (Commands c).

Definition in_scope (inherited : list Flag) (c : Command) : list Flag := Flags c ++ PersistentFlags c ++ inherited.
Definition names_of (c : Command) : list string := option_list (head (Split (Use c) " "%char)) ++ Aliases c.

(** Its names and shorthands are its own, the flags it requires are there, and
    its subcommands are told apart. *)
Definition command_ok (inherited : list Flag) (c : Command) : Prop :=
  let fs := in_scope inherited c in
  NoDup (fl_Name <$> fs) ∧
  NoDup (filter (λ s, s ≠ "") (fl_Shorthand <$> fs)) ∧
  Forall (λ name, name ∈ fl_Name <$> Flags c) (Required c ++ concat (RequiredTogether c)) ∧
  NoDup (concat (names_of <$> Commands c)).
#[export] Instance command_ok_dec inherited c : Decision (command_ok inherited c).
Proof. unfold command_ok. apply _. Defined.

(** ** The tree is built *)

Section Built.
Context `{CobraSpec}.

Lemma Lookup_snoc name sh kind fs : is_Some (Lookup name (fs ++ [mkFlag name sh kind])).
Proof.
  unfold Lookup. rewrite filter_app. cbn [filter list_filter fl_Name].
  rewrite decide_True by done. destruct (filter _ fs); by eexists.
Qed.

Lemma add_flag_ok name sh kind c :
  free (Flags c) (mkFlag name sh kind) = true →
  add_flag name sh kind c = Ok (set_flags (Flags c ++ [mkFlag name sh kind]) c).
Proof. intros Hf. unfold add_flag. by rewrite AddFlag_free. Qed.

Lemma bound_flag_ok name sh kind c :
  free (Flags c) (mkFlag name sh kind) = true →
  bound_flag name sh kind c = Ok (set_flags (Flags c ++ [mkFlag name sh kind]) c).
Proof.
  intros Hf. unfold bound_flag. rewrite add_flag_ok by done. cbn -[Lookup].
  destruct (Lookup_snoc name sh kind (Flags c)) as [f ->]. by rewrite BindPFlag_flag.
Qed.

Lemma add_persistent_ok name sh kind c :
  free (PersistentFlags c) (mkFlag name sh kind) = true →
  add_persistent name sh kind c = Ok (set_persistent (PersistentFlags c ++ [mkFlag name sh kind]) c).
Proof.
  intros Hf. unfold add_persistent. rewrite AddFlag_free by done. cbn -[Lookup].
  destruct (Lookup_snoc name sh kind (PersistentFlags c)) as [f ->]. by rewrite BindPFlag_flag.
Qed.

Definition set_required (name : string) (c : Command) : Command :=
  mkCommand (Use c) (Aliases c) (Args c) (RunE c) (PostRunE c) (Flags c) (PersistentFlags c) (Required c ++ [name])
    (RequiredTogether c) (Commands c).
Definition set_together (names : list string) (c : Command) : Command :=
  mkCommand (Use c) (Aliases c) (Args c) (RunE c) (PostRunE c) (Flags c) (PersistentFlags c) (Required c)
    (RequiredTogether c ++ [names]) (Commands c).

Lemma MarkFlagRequired_ok name c : is_Some (Lookup name (Flags c)) → MarkFlagRequired name c = Ok (set_required name c).
Proof. intros Hl. unfold MarkFlagRequired. by rewrite MarkRequired_found. Qed.

Lemma required_flag_ok name sh kind c :
  free (Flags c) (mkFlag name sh kind) = true →
  required_flag name sh kind c = Ok (set_required name (set_flags (Flags c ++ [mkFlag name sh kind]) c)).
Proof.
  intros Hf. unfold required_flag. rewrite add_flag_ok by done. cbn.
  by rewrite MarkFlagRequired_ok by apply Lookup_snoc.
Qed.

Lemma together_ok names c :
  Forall (λ name, is_Some (Lookup name (Flags c))) names →
  MarkFlagsRequiredTogether names c = Ok (set_together names c).
Proof.
  intros Hl. unfold MarkFlagsRequiredTogether. assert (∃ us, res_mapM (MarkRequired (Flags c)) names = Ok us) as [us ->]; [|done].
  induction Hl as [|name names Hn Hl [us IH]]; [by eexists|]. cbn. rewrite MarkRequired_found by done. cbn. rewrite IH. by eexists.
Qed.

(** A constructor, flag by flag. *)
Ltac flag :=
  first [rewrite bound_flag_ok by reflexivity | rewrite required_flag_ok by reflexivity
    | rewrite add_flag_ok by reflexivity | rewrite add_persistent_ok by reflexivity
    | rewrite MarkFlagRequired_ok by by eexists | rewrite together_ok by (repeat constructor; by eexists)];
  cbn [mbind res_bind must].
Ltac build := repeat flag; vm_compute; reflexivity.

(** Every cobra that keeps to its documentation builds the same commands. *)
Lemma startCmd_built : startCmd = startCmd (H := documented).
Proof. unfold startCmd at 1, flushIntervalFlag at 1, freshFlag at 1. build. Qed.
Lemma configCmd_built : configCmd = configCmd (H := documented).
Proof. unfold configCmd at 1, configShowCmd at 1, jsonFlag at 1, yamlFlag at 1. build. Qed.
Lemma chainsCmd_built : chainsCmd = chainsCmd (H := documented).
Proof. unfold chainsCmd at 1, chainsListCmd at 1, chainsAddCmd at 1, jsonFlag at 1, yamlFlag at 1, fileFlag at 1. build. Qed.
Lemma keystoreCmd_built : keystoreCmd = keystoreCmd (H := documented).
Proof.
  unfold keystoreCmd at 1, ks_init at 1, ks_new at 1, ks_list at 1, ks_importKey at 1, ks_use at 1,
    ks_chainFlag, passwordFlag, addressFlag, keystorePathFlag.
  build.
Qed.
Lemma dbCmd_built : dbCmd = dbCmd (H := documented).
Proof.
  unfold dbCmd at 1, messagesListCmd at 1, messagesRelayCmd at 1, messagesRmCmd at 1, revertMessageCmd at 1,
    blockInfoCmd at 1, dbMessageFlagsListFlags, messageMsgIDFlag, messageChainFlag, messageHeightFlag.
  build.
Qed.
Lemma contractCMD_built : contractCMD = contractCMD (H := documented).
Proof. unfold contractCMD at 1, getFeeCmd at 1, setFeeCmd at 1, claimFeeCmd at 1. build. Qed.
Lemma NewRootCmd_built p q r : NewRootCmd_with p q r = NewRootCmd_with (H := documented) p q r.
Proof.
  unfold NewRootCmd_with at 1. repeat flag.
  rewrite startCmd_built, configCmd_built, chainsCmd_built, keystoreCmd_built, dbCmd_built, contractCMD_built.
  vm_compute. reflexivity.
Qed.

(** ** What the tree is *)

Definition root (p q r : string) : Command :=
  match NewRootCmd_with (H := documented) p q r with Ok c => c | _ => command "" [] any_args None false end.

Lemma root_ok p q r : NewRootCmd_with (H := documented) p q r = Ok (root p q r).
Proof. vm_compute. reflexivity. Qed.

Lemma root_commands p q r : Forall (λ x, command_ok x.1 x.2) (tree [] (root p q r)).
Proof. apply (bool_decide_unpack _). vm_compute. exact I. Qed.

Definition handlers (c : Command) : list Handler := omap (λ x, RunE x.2) (tree [] c).

Lemma root_handlers p q r : handlers (root p q r) =
  [RunStart; RunConfigShow; RunConfigInit; RunChainsList; RunChainsAdd; RunChainsDelete; RunMessagesList; RunMessagesRelay;
   RunMessagesRm; RunMessagesRevert; RunBlockView; RunPrune; RunKeystoreInit; RunKeystoreNew; RunKeystoreList;
   RunKeystoreImport; RunKeystoreUse; RunFeeGet; RunFeeSet; RunFeeClaim].
Proof. vm_compute. reflexivity. Qed.

(** The command line is built whatever the home directory: no flag of a command is
    registered twice, those it inherits included, and none is required or bound
    that is not there.  Every function but [changePassword] has exactly one
    command; the constructor of that one, which nothing calls, would panic on
    its flags. *)
Theorem NewRootCmd_usable homePath :
  ∃ root, NewRootCmd homePath = Ok root ∧
    (∀ inherited c, (inherited, c) ∈ tree [] root → command_ok inherited c) ∧
    NoDup (handlers root) ∧
    (∀ h, h ∈ handlers root ↔ h ≠ RunChangePassword) ∧
    ks_changePassword = Panic.
Proof.
  unfold NewRootCmd. generalize (homePath +:+ "/" +:+ defaultConfig) (pathJoin [homePath; defaultDBName]). intros q r.
  exists (root homePath q r). rewrite NewRootCmd_built, root_ok. split_and!; [done|..].
  - intros inherited c Hin. exact (proj1 (Forall_forall _ _) (root_commands homePath q r) _ Hin).
  - rewrite root_handlers. apply (bool_decide_unpack _). vm_compute. exact I.
  - intros h. rewrite root_handlers.
    destruct h; apply (bool_decide_unpack _); vm_compute; exact I.
  - unfold ks_changePassword, ks_chainFlag, addressFlag, passwordFlag. repeat flag.
    unfold required_flag, add_flag. by rewrite AddFlag_taken by reflexivity.
Qed.
End Built.

Lemma NewRootCmd_usable_witness : ∃ c, NewRootCmd (H := documented) "/root" = Ok c ∧ NoDup (handlers c) ∧ RunFeeGet ∈ handlers c.
Proof.
  destruct (@NewRootCmd_usable documented documented_spec "/root") as (c & Hc & _ & Hn & Hh & _).
  exists c. split; [exact Hc|]. split; [exact Hn|]. by apply Hh.
Defined.
End CmdTree.
