(* ===== verification/CmdMain.v ===== *)
(** Package cmd: from a command line to what it does (root.go, main.go): the
    hooks around every command, the functions that the commands run, and the
    interrupts.

    A process starts with the application state and the machine around it.
    cobra finds the command and its flags and calls the hooks in its order;
    a function that serves the socket runs to the end of its process, as in
    CmdSocket.v. *)
From stdpp Require Import gmap strings list.
From Stdlib Require Import ZArith Lia.
From S2P Require Import Prelude GoStd GoOs Types Store Provider Relay Socket Cmd CmdKeystore CmdDb CmdSocket CmdTree.
Import CmdSocket CmdTree.
Open Scope Z_scope.

Module CmdMain.

(** * Hooks *)

Record Hooks (S : Type) := mkHooks {
  hk_Args : proc S (unit + string);
  hk_PersistentPreRunE : proc S (unit + string);
  hk_Required : proc S (unit + string);
  hk_RunE : proc S (unit + string);
  hk_PersistentPostRun : proc S (unit + string) }.
Arguments mkHooks {_} _ _ _ _ _.
Arguments hk_Args {_} _. Arguments hk_PersistentPreRunE {_} _. Arguments hk_Required {_} _.
Arguments hk_RunE {_} _. Arguments hk_PersistentPostRun {_} _.

(** The command that a line names, the values of its flags, the arguments left:
    cobra's. *)
Record Values := mkValues { v_string : string → string; v_bool : string → bool; v_num : string → Z; v_changed : string → bool }.
Record Parsed := mkParsed { ps_Command : Command; ps_Values : Values; ps_Args : list string }.
Class CobraRun := {
  Traverse : Command → list string → res Parsed;
  valid_args : ArgsRule → list string → error;
  (* the required flags and the groups of flags *)
  valid_flags : Command → Values → error;
  execute {S} : Hooks S → proc S (unit + string) }.
(** The order that cobra documents; an error ends it. *)
Class CobraRunSpec `{CobraRun} : Prop := {
  args_none args : valid_args NoArgs args = None ↔ args = [];
  args_exact n args : valid_args (ExactArgs n) args = None ↔ length args = n;
  args_least n args : valid_args (MinimumNArgs n) args = None ↔ (n ≤ length args)%nat;
  args_most n args : valid_args (MaximumNArgs n) args = None ↔ (length args ≤ n)%nat;
  execute_order {S} (h : Hooks S) : execute h =
    (_ ←? hk_Args h; _ ←? hk_PersistentPreRunE h; _ ←? hk_Required h; _ ←? hk_RunE h; hk_PersistentPostRun h) }.

Section Main.
Context `{Yaml} `{Json} (w : World).
Context {St : Type} `{Store St} `{Codec Z}.
Context `{Codec (RouteMessageOf Z)} `{Codec (TransactionObjectOf Z)} `{SocketJson}.
Context `{Cobra} `{CobraRun}.
Context (prov : string → ChainProvider) (path : string) (OpenFile : bool → St → res St).

(** The process and the machine; whether cobra shows the usage with an error. *)
Record Cli := mkCli { cli_app : App; cli_machine : Machine (St := St); cli_SilenceUsage : bool }.

Definition on_app {A} (m : Run A) : proc Cli A := λ s,
  '(a, r) ← m (cli_app s); Some (mkCli a (cli_machine s) (cli_SilenceUsage s), r).
Definition out_lines (lines : list string) : proc Cli (unit + string) := on_app (_ ← for_each lines print; okE tt).

(** A function that uses the machine, to the end of the process. *)
Definition on_machine (m : option Cmd.Config → Machine → Machine * Outcome) : proc Cli (unit + string) := λ s,
  let '(mc, o) := m (a_config (cli_app s)) (cli_machine s) in
  let s := mkCli (cli_app s) mc (cli_SilenceUsage s) in
  match o with
  | Printed lines => out_lines lines s
  | Failed err => Some (s, inr err)
  | Crashed => None
  end.

(** * The hooks (root.go) *)

(** [rootCmd.PersistentPreRunE] *)
Definition PersistentPreRunE (order : list string) (v : Values) : proc Cli (unit + string) :=
  _ ←? liftRes (newRootLogger (v_string v "log-format"));
  on_app (loadConfigFile w order).

(** The validator of a command; [withUsage] has the usage shown. *)
Definition check_args (a : PositionalArgs) (args : list string) : proc Cli (unit + string) := λ s,
  match valid_args (pa_Rule a) args with
  | None => Some (s, inl tt)
  | Some err => Some (mkCli (cli_app s) (cli_machine s) (if pa_Usage a then false else cli_SilenceUsage s), inr err)
  end.

(** ** The functions *)

(** The orders in which the maps are visited. *)
Record Orders := mkOrders { o_load : list string; o_get : list string; o_save : list string; o_wallets : list string;
  o_chains : list string; o_nids : list string }.

Definition db_flags (v : Values) : dbState (St := St) :=
  mkDbState (v_string v "chain") (v_num v "height") (v_num v "sn") (v_num v "page") (v_num v "limit") None.
Definition contract_flags (v : Values) : contractState (St := St) :=
  mkContractState newDBState (v_string v "chain") (v_string v "network") (v_num v "msg-fee") (v_num v "res-fee").
Definition serving (o : Orders) (c : Command) (call : dbState (St := St) → res (Relayer St * bool) → res (Relayer St * (list string + string)))
    (d : dbState (St := St)) : proc Cli (unit + string) :=
  on_machine (λ config m, run_command path OpenFile (o_chains o) (o_nids o) config (PostRunE c) call d m).

(** The encoders behind [--json] and [--yaml]. *)
Context (json : ConfigOutputWrapper → string + string)
  (chains_yaml chains_json : gmap string ProviderConfigWrapper → string + string).

(** [chains list]; the warning that there are none goes to standard error. *)
Definition chains_list (order : list string) (jsn yml : bool) : Run (unit + string) :=
  config ← the_config;
  let configs := Wrapped_chains order (c_Chains config) in
  if yml && jsn then mret (inr "can't pass both --json and --yaml, must pick one")
  else if yml || jsn then
    match (if yml then chains_yaml else chains_json) configs with
    | inr err => mret (inr err)
    | inl out => _ ← print out; okE tt
    end
  else chainsList order.

Definition run_handler (o : Orders) (c : Command) (v : Values) (args : list string) (h : Handler) : proc Cli (unit + string) :=
  let ord := o_chains o in
  match h with
  | RunStart => on_machine (λ config m, run_start path OpenFile (o_chains o) (o_nids o) config (v_bool v flagFresh) m)
  | RunConfigShow => on_app (configShow w (o_get o) (v_bool v flagJSON) (v_bool v flagYAML) json)
  | RunConfigInit => on_app (configInit w)
  | RunChainsList => on_app (chains_list (o_get o) (v_bool v flagJSON) (v_bool v flagYAML))
  | RunChainsAdd => on_app (chainsAdd w (o_load o) (o_save o) args (v_string v flagFile))
  | RunChainsDelete =>
      match args with [] => panic | chain :: _ => on_app (chainsDelete w (o_load o) (o_save o) chain) end
  | RunKeystoreInit => on_app (keystore_init w (o_save o))
  | RunKeystoreNew => on_app (keystore_new w (o_get o) (v_string v "chain") (v_string v "password"))
  | RunKeystoreList => on_app (keystore_list w (o_get o) (o_wallets o) (v_string v "chain"))
  | RunKeystoreImport => on_app (keystore_import w (o_get o) (v_string v "chain") (v_string v "keystore") (v_string v "password"))
  | RunKeystoreUse => on_app (keystore_use w (o_get o) (o_save o) (v_string v "chain") (v_string v "address"))
  | RunChangePassword => liftRes (changePassword (v_string v "password") (v_string v "confirm"))
  | RunPrune => serving o c (prune prov ord) (db_flags v)
  | RunMessagesList => serving o c (messagesList prov ord) (db_flags v)
  | RunMessagesRelay => serving o c (messagesRelay prov ord) (db_flags v)
  | RunMessagesRm => serving o c (messagesRm prov ord) (db_flags v)
  | RunMessagesRevert => serving o c (revertMessage prov ord) (db_flags v)
  | RunBlockView => serving o c (blockInfo prov ord) (db_flags v)
  | RunFeeGet => serving o c (getFee prov ord (contract_flags v)) newDBState
  | RunFeeSet => serving o c (setFee prov ord (contract_flags v)) newDBState
  | RunFeeClaim => serving o c (claimFee prov ord (contract_flags v)) newDBState
  end.

(** The hooks of a command that has a function. *)
Definition hooks (o : Orders) (p : Parsed) (h : Handler) : Hooks Cli := mkHooks
  (check_args (Args (ps_Command p)) (ps_Args p))
  (PersistentPreRunE (o_load o) (ps_Values p))
  (match valid_flags (ps_Command p) (ps_Values p) with Some err => mret (inr err) | None => okE tt end)
  (run_handler o (ps_Command p) (ps_Values p) (ps_Args p) h)
  (okE tt).

(** [Execute] but for the interrupts: an error is printed, and the process ends
    as it does without one.  A command without a function shows its help. *)
Definition Execute (homePath : string) (o : Orders) (line : list string) : proc Cli unit :=
  match NewRootCmd homePath with
  | Ok rootCmd =>
      match Traverse rootCmd line with
      | Ok p =>
          match RunE (ps_Command p) with
          | None => mret tt
          | Some h =>
              r ← execute (hooks o p h);
              match r with inl _ => mret tt | inr err => on_app (print err) end
          end
      | Err err => on_app (print err)
      | Panic => panic
      end
  | _ => panic
  end.

(** * Facts *)

Lemma execute_hooks `{!CobraRunSpec} (h : Hooks Cli) s :
  execute h s = (_ ←? hk_Args h; _ ←? hk_PersistentPreRunE h; _ ←? hk_Required h; _ ←? hk_RunE h; hk_PersistentPostRun h) s.
Proof. by rewrite execute_order. Qed.

Lemma check_args_ok a args s : valid_args (pa_Rule a) args = None → check_args a args s = Some (s, inl tt).
Proof. intros Hv. unfold check_args. by rewrite Hv. Qed.

(** A function that runs has the arguments that its command asks for: [chains
    delete] has exactly one. *)
Lemma delete_args `{!CobraRunSpec} args : valid_args (ExactArgs 1) args = None → ∃ chain, args = [chain].
Proof. intros Hl%args_exact. destruct args as [|chain []]; try done. by exists chain. Qed.

(** What the hooks before the function leave. *)
Lemma PersistentPreRunE_machine order v s s' r :
  PersistentPreRunE order v s = Some (s', r) → cli_machine s' = cli_machine s.
Proof.
  unfold PersistentPreRunE, tryE, liftRes, on_app, mbind, proc_bind, option_bind.
  destruct (newRootLogger (v_string v "log-format")) as [[]| |]; cbn; [|by intros [= <- _]|done].
  destruct (loadConfigFile w order (cli_app s)) as [[a r']|]; cbn; [|done]. by intros [= <- _].
Qed.

Lemma on_app_machine {A} (m : Run A) s s' r : on_app m s = Some (s', r) → cli_machine s' = cli_machine s.
Proof. unfold on_app, mbind, option_bind. destruct (m (cli_app s)) as [[a r']|]; [|done]. by intros [= <- _]. Qed.

Lemma on_machine_coherent m s s' r :
  (∀ config mc, coherent mc → coherent (m config mc).1) → coherent (cli_machine s) →
  on_machine m s = Some (s', r) → coherent (cli_machine s').
Proof.
  intros Hm Hs. unfold on_machine. specialize (Hm (a_config (cli_app s)) (cli_machine s) Hs).
  destruct (m (a_config (cli_app s)) (cli_machine s)) as [mc o]. cbn in Hm. destruct o as [lines|err|]; cbn; [|by intros [= <- _]|done].
  intros Hp. by rewrite (on_app_machine _ _ _ _ Hp).
Qed.

Lemma run_handler_coherent o c v args h s s' r :
  coherent (cli_machine s) → run_handler o c v args h s = Some (s', r) → coherent (cli_machine s').
Proof.
  intros Hs. assert (∀ (m : Run (unit + string)), on_app m s = Some (s', r) → coherent (cli_machine s')) as Happ.
  { intros m Hm. by rewrite (on_app_machine m s s' r Hm). }
  assert (∀ call d, d_server d = None → serving o c call d s = Some (s', r) → coherent (cli_machine s')) as Hserve.
  { intros call d Hd. apply on_machine_coherent; [|done]. intros config mc. by apply run_command_coherent. }
  destruct h; cbn; try (apply Happ); try (by apply Hserve).
  - apply on_machine_coherent; [|done]. intros config mc. apply run_start_coherent.
  - destruct args as [|chain args]; [done|]. apply Happ.
  - unfold liftRes. destruct (changePassword _ _); [by intros [= <- _]|by intros [= <- _]|done].
Qed.

(** A configuration file that does not load stops every command before it
    begins, [config show] and [config init] included: nothing was done but load,
    the error is printed, and the process ends like any other. *)
Theorem Execute_bad_config `{!CobraRunSpec} homePath o line s rootCmd p h a err
  (Hroot : NewRootCmd homePath = Ok rootCmd)
  (Hline : Traverse rootCmd line = Ok p) (Hrun : RunE (ps_Command p) = Some h)
  (Hargs : valid_args (pa_Rule (Args (ps_Command p))) (ps_Args p) = None)
  (Hlog : newRootLogger (v_string (ps_Values p) "log-format") = Ok tt)
  (Hload : loadConfigFile w (o_load o) (cli_app s) = Some (a, inr err)) :
  Execute homePath o line s =
    Some (mkCli (mkApp (a_homePath a) (a_configPath a) (a_dbPath a) (a_fs a) (a_heap a) (a_next a) (a_config a) (a_kms a)
      (a_admin a) (a_out a ++ [err])) (cli_machine s) (cli_SilenceUsage s), tt).
Proof.
  unfold Execute. rewrite Hroot, Hline, Hrun. unfold mbind, proc_bind. rewrite execute_hooks.
  cbn [hooks hk_Args hk_PersistentPreRunE hk_Required hk_RunE hk_PersistentPostRun].
  unfold tryE at 1, mbind, proc_bind. rewrite check_args_ok by done.
  assert (PersistentPreRunE (o_load o) (ps_Values p) s = Some (mkCli a (cli_machine s) (cli_SilenceUsage s), inr err)) as Hpre.
  { unfold PersistentPreRunE, tryE, liftRes, mbind, proc_bind. rewrite Hlog. cbn. unfold on_app. by rewrite Hload. }
  unfold tryE at 1, mbind, proc_bind. by rewrite Hpre.
Qed.

(** Whatever the command line, what cobra makes of it and whatever becomes of
    the command: afterwards the socket is served exactly while a relayer runs. *)
Theorem Execute_coherent `{!CobraRunSpec} homePath o line s s'
  (Hs : coherent (cli_machine s)) (Hrun : Execute homePath o line s = Some (s', tt)) : coherent (cli_machine s').
Proof.
  unfold Execute in Hrun. destruct (NewRootCmd homePath) as [rootCmd| |]; [|done..].
  destruct (Traverse rootCmd line) as [p|err|]; [|by rewrite (on_app_machine _ _ _ _ Hrun)|done].
  destruct (RunE (ps_Command p)) as [h|]; [|by injection Hrun as <-].
  unfold mbind, proc_bind in Hrun. rewrite execute_hooks in Hrun.
  destruct (tryE _ _ s) as [[s1 r]|] eqn:Hex; [|done].
  assert (coherent (cli_machine s1)) as Hs1.
  { cbn [hooks hk_Args hk_PersistentPreRunE hk_Required hk_RunE hk_PersistentPostRun] in Hex.
    unfold tryE at 1, mbind, proc_bind in Hex. destruct (check_args _ _ s) as [[s2 r2]|] eqn:Hca; [|done].
    assert (cli_machine s2 = cli_machine s) as Hm2.
    { unfold check_args in Hca. destruct (valid_args _ _); by injection Hca as <- <-. }
    destruct r2 as [[]|]; [|injection Hex as <- _; by rewrite Hm2].
    unfold tryE at 1, mbind, proc_bind in Hex. destruct (PersistentPreRunE _ _ s2) as [[s3 r3]|] eqn:Hpre; [|done].
    pose proof (PersistentPreRunE_machine _ _ _ _ _ Hpre) as Hm3.
    destruct r3 as [[]|]; [|injection Hex as <- _; by rewrite Hm3, Hm2].
    unfold tryE at 1, mbind, proc_bind in Hex.
    destruct (valid_flags _ _); [cbn in Hex; injection Hex as <- _; by rewrite Hm3, Hm2|].
    cbn [okE mret proc_ret] in Hex. unfold tryE at 1, mbind, proc_bind in Hex.
    destruct (run_handler _ _ _ _ _ s3) as [[s4 r4]|] eqn:Hr; [|done].
    assert (coherent (cli_machine s4)) as Hs4.
    { eapply run_handler_coherent; [|exact Hr]. by rewrite Hm3, Hm2. }
    destruct r4 as [[]|]; by injection Hex as <- _. }
  destruct r as [[]|err]; [by injection Hrun as <-|]. by rewrite (on_app_machine _ _ _ _ Hrun).
Qed.
End Main.

(** * Interrupts (root.go) *)

(** The goroutine that waits for signals, beside the command.  The channel holds
    one signal. *)
Inductive Waiter : Type :=
| Waiting
| Sleeping (pending : bool)
| Armed.
Record Process := mkProcess { pr_cancelled : bool; pr_waiter : Waiter; pr_ended : option bool }.
Definition process0 : Process := mkProcess false Waiting None.

(** An interrupt, the end of the quarter of a second and of the minute, the
    command's return. *)
Inductive process_event : Type := Interrupt | Slept | Minute | Returned.

(** [pr_ended]: [Some true] when it returned, [Some false] when it panicked. *)
Definition process_step (e : process_event) (p : Process) : Process :=
  match pr_ended p with
  | Some _ => p
  | None =>
      match e, pr_waiter p with
      | Returned, _ => mkProcess (pr_cancelled p) (pr_waiter p) (Some true)
      | Interrupt, Waiting => mkProcess true (Sleeping false) None
      | Interrupt, Sleeping _ => mkProcess (pr_cancelled p) (Sleeping true) None
      | Interrupt, Armed | Minute, Armed => mkProcess (pr_cancelled p) Armed (Some false)
      | Slept, Sleeping true => mkProcess (pr_cancelled p) Armed (Some false)
      | Slept, Sleeping false => mkProcess (pr_cancelled p) Armed None
      | _, _ => p
      end
  end.

#[export] Instance process_event_eq_dec : EqDecision process_event.
Proof. solve_decision. Defined.
Definition interrupts (l : list process_event) : nat := length (filter (λ e, e = Interrupt) l).
Definition run_process (l : list process_event) : Process := foldl (flip process_step) process0 l.

Lemma interrupts_snoc l e : interrupts (l ++ [e]) = (interrupts l + (if decide (e = Interrupt) then 1 else 0))%nat.
Proof. unfold interrupts. rewrite filter_app, length_app. cbn. by destruct (decide (e = Interrupt)). Qed.

(** The first interrupt cancels the context, if anything is left to cancel; the
    process panics only at a second one or when the minute is over. *)
Lemma process_interrupted l :
  (pr_cancelled (run_process l) = true → (1 ≤ interrupts l)%nat) ∧
  (pr_ended (run_process l) = Some false → (2 ≤ interrupts l)%nat ∨ Minute ∈ l) ∧
  (pr_ended (run_process l) = None → (1 ≤ interrupts l)%nat → pr_cancelled (run_process l) = true).
Proof.
  assert (let p := run_process l in let n := interrupts l in
    (pr_cancelled p = true ↔ pr_waiter p ≠ Waiting) ∧ (pr_waiter p ≠ Waiting → 1 ≤ n)%nat ∧ (pr_waiter p = Sleeping true → 2 ≤ n)%nat ∧
    (pr_ended p = Some false → (2 ≤ n)%nat ∨ Minute ∈ l) ∧ (pr_ended p = None → (1 ≤ n)%nat → pr_waiter p ≠ Waiting)) as (H1 & H2 & H3 & H4 & H5).
  { induction l as [|e l IH] using rev_ind; [split_and!; try done; cbn; lia|].
    unfold run_process. rewrite foldl_app. fold (run_process l). cbn [foldl flip]. cbn zeta in *. rewrite interrupts_snoc.
    destruct (run_process l) as [c wt en]. destruct IH as (I1 & I2 & I3 & I4 & I5). cbn in I1, I2, I3, I4, I5.
    assert (∀ x, x ∈ l → x ∈ l ++ [e]) as Hin by (intros x Hx; apply elem_of_app; by left).
    assert (e ∈ l ++ [e]) as He by (apply elem_of_app; right; by left).
    destruct e, en as [[]|], wt as [|[]|]; cbn in *;
      split_and!; intros; try done; try (by apply I1); try lia;
      repeat match goal with
      | Hx : ?a ≠ ?b → _, _ : context [interrupts] |- _ => specialize (Hx ltac:(done))
      end; try lia; naive_solver lia. }
  split_and!; [intros Hx%H1; by apply H2|done|]. intros Hn Hi. by apply H1, H5.
Qed.
End CmdMain.
